(** * disorderBook: a shallow embedding of the matching engine

    The backend [disorderBook.c] keeps one limit order book in process-global
    state: two chains of price levels, a table of every order ever created,
    a table of accounts, the quote and an event stream.  The development
    below transcribes the functions that touch this state and proves the
    properties of the matcher, the ledger, the order lifecycle and cancel.

    Conventions of the embedding.
    - A C [int] is a [Z]; arithmetic that C performs at 32 bits goes through
      [wrap32], arithmetic performed in an [int64_t] through [wrap64].
    - An [ORDER *] is the key of the order in [AllOrders] (the order id: the
      table stores each freshly allocated order under its id, and order
      records are never freed).  An [ACCOUNT *] is the slot of the account in
      [AllAccounts].  Field assignment through a pointer is [alter] on the
      table, so that two pointers to one order see each other's writes.
    - A chain of [LEVEL]s linked through [next] is a [list LEVEL]; the chain
      of [ORDERNODE]s of a level is the list of the order pointers it holds.
      The [prev] links only serve unlinking and are not represented.
    - [new_timestamp] reads the wall clock; here the clock is a counter that
      advances with every call, a timestamp is the value read.
    - Text written to stderr is kept as a list of structured events. *)

From stdpp Require Import gmap strings list fin_maps sorting.

Local Open Scope Z_scope.

(** ** Constants of the source *)

Abbreviation BUY := 1 (only parsing).
Abbreviation SELL := 2 (only parsing).

Abbreviation LIMIT := 1 (only parsing).
Abbreviation MARKET := 2 (only parsing).
Abbreviation FOK := 3 (only parsing).
Abbreviation IOC := 4 (only parsing).

Abbreviation SMALLSTRING := 64%nat (only parsing).

Abbreviation MAXORDERS := 2000000000 (only parsing).
Abbreviation MAXACCOUNTS := 5000 (only parsing).

Abbreviation TOO_MANY_ORDERS := 1 (only parsing).
Abbreviation SILLY_VALUE := 2 (only parsing).
Abbreviation TOO_HIGH_ACCOUNT := 3 (only parsing).

Abbreviation INT_MAX := 2147483647 (only parsing).
Abbreviation INT_MIN := (-2147483648) (only parsing).

(** ** Machine integers *)

(** Value of a mathematical integer once stored in a 32-bit [int]. *)
Definition wrap32 (z : Z) : Z := (z + 2147483648) mod 4294967296 - 2147483648.

(** Value of a mathematical integer once stored in an [int64_t]. *)
Definition wrap64 (z : Z) : Z :=
  (z + 9223372036854775808) mod 18446744073709551616 - 9223372036854775808.

Definition is_int32 (z : Z) : Prop := INT_MIN <= z <= INT_MAX.

(** ** Data model *)

Definition timestamp := nat.

Record FILL := {
  f_price : Z;
  f_qty : Z;
  f_ts : timestamp
}.

Record ACCOUNT := {
  a_name : string;
  a_orders : list Z;          (* orders[0 .. count-1], as order pointers *)
  a_posmin : Z;
  a_posmax : Z;
  a_shares : Z;
  a_cents : Z
}.

Record ORDER := {
  o_direction : Z;
  o_originalQty : Z;
  o_qty : Z;
  o_price : Z;
  o_orderType : Z;
  o_id : Z;
  o_account : Z;              (* ACCOUNT *, as the slot in AllAccounts *)
  o_ts : timestamp;
  o_fills : list FILL;        (* the chain hanging off firstfillnode *)
  o_totalFilled : Z;
  o_open : bool
}.

Record LEVEL := {
  l_price : Z;
  l_nodes : list Z            (* the chain hanging off firstordernode *)
}.

Record ORDER_AND_ERROR := {
  oe_order : option Z;        (* ORDER *, None for NULL *)
  oe_error : Z
}.

Record QUOTE := {
  q_bidSize : Z;
  q_askSize : Z;
  q_bidDepth : Z;
  q_askDepth : Z;
  q_bid : Z;
  q_ask : Z;
  q_last : Z;
  q_lastSize : Z;
  q_lastTrade : option timestamp;   (* None for the empty string *)
  q_quoteTime : timestamp
}.

(** What [print_order] writes, field by field. *)
Record PRINTED_ORDER := {
  p_direction : string;
  p_originalQty : Z;
  p_qty : Z;
  p_price : Z;
  p_orderType : string;
  p_id : Z;
  p_account : string;
  p_ts : timestamp;
  p_totalFilled : Z;
  p_open : bool;
  p_fills : list FILL
}.

(** Messages of the event stream (stderr). *)
Inductive EVENT :=
  | EXECUTION (account : string) (order : PRINTED_ORDER)
      (standingId incomingId price filled : Z) (filledAt : timestamp)
      (standingComplete incomingComplete : bool)
  | TICKER (quote : QUOTE).

(** The globals of the program, the statics of [next_id] and
    [new_timestamp], and the event stream. *)
Record State := {
  FirstBidLevel : list LEVEL;
  FirstAskLevel : list LEVEL;
  AllOrders : gmap Z ORDER;
  HighestKnownOrder : Z;
  AllAccounts : gmap Z ACCOUNT;
  Quote : QUOTE;
  next_id_static : Z;
  clock : nat;
  stderr : list EVENT
}.

#[global] Instance FILL_eq_dec : EqDecision FILL.
Proof. solve_decision. Defined.
#[global] Instance ORDER_eq_dec : EqDecision ORDER.
Proof. solve_decision. Defined.
#[global] Instance LEVEL_eq_dec : EqDecision LEVEL.
Proof. solve_decision. Defined.

#[global] Instance ORDER_inhabited : Inhabited ORDER :=
  populate {| o_direction := 0; o_originalQty := 0; o_qty := 0; o_price := 0;
              o_orderType := 0; o_id := 0; o_account := 0; o_ts := 0%nat;
              o_fills := []; o_totalFilled := 0; o_open := false |}.

#[global] Instance ACCOUNT_inhabited : Inhabited ACCOUNT :=
  populate {| a_name := EmptyString; a_orders := []; a_posmin := 0; a_posmax := 0;
              a_shares := 0; a_cents := 0 |}.

(** *** Field assignment *)

Definition set_qty (v : Z) (o : ORDER) : ORDER :=
  {| o_direction := o_direction o; o_originalQty := o_originalQty o; o_qty := v;
     o_price := o_price o; o_orderType := o_orderType o; o_id := o_id o;
     o_account := o_account o; o_ts := o_ts o; o_fills := o_fills o;
     o_totalFilled := o_totalFilled o; o_open := o_open o |}.

Definition set_totalFilled (v : Z) (o : ORDER) : ORDER :=
  {| o_direction := o_direction o; o_originalQty := o_originalQty o; o_qty := o_qty o;
     o_price := o_price o; o_orderType := o_orderType o; o_id := o_id o;
     o_account := o_account o; o_ts := o_ts o; o_fills := o_fills o;
     o_totalFilled := v; o_open := o_open o |}.

Definition set_price (v : Z) (o : ORDER) : ORDER :=
  {| o_direction := o_direction o; o_originalQty := o_originalQty o; o_qty := o_qty o;
     o_price := v; o_orderType := o_orderType o; o_id := o_id o;
     o_account := o_account o; o_ts := o_ts o; o_fills := o_fills o;
     o_totalFilled := o_totalFilled o; o_open := o_open o |}.

Definition set_open (v : bool) (o : ORDER) : ORDER :=
  {| o_direction := o_direction o; o_originalQty := o_originalQty o; o_qty := o_qty o;
     o_price := o_price o; o_orderType := o_orderType o; o_id := o_id o;
     o_account := o_account o; o_ts := o_ts o; o_fills := o_fills o;
     o_totalFilled := o_totalFilled o; o_open := v |}.

Definition set_fills (v : list FILL) (o : ORDER) : ORDER :=
  {| o_direction := o_direction o; o_originalQty := o_originalQty o; o_qty := o_qty o;
     o_price := o_price o; o_orderType := o_orderType o; o_id := o_id o;
     o_account := o_account o; o_ts := o_ts o; o_fills := v;
     o_totalFilled := o_totalFilled o; o_open := o_open o |}.

Definition set_FirstBidLevel (v : list LEVEL) (s : State) : State :=
  {| FirstBidLevel := v; FirstAskLevel := FirstAskLevel s; AllOrders := AllOrders s;
     HighestKnownOrder := HighestKnownOrder s; AllAccounts := AllAccounts s;
     Quote := Quote s; next_id_static := next_id_static s; clock := clock s;
     stderr := stderr s |}.

Definition set_FirstAskLevel (v : list LEVEL) (s : State) : State :=
  {| FirstBidLevel := FirstBidLevel s; FirstAskLevel := v; AllOrders := AllOrders s;
     HighestKnownOrder := HighestKnownOrder s; AllAccounts := AllAccounts s;
     Quote := Quote s; next_id_static := next_id_static s; clock := clock s;
     stderr := stderr s |}.

Definition set_AllOrders (v : gmap Z ORDER) (s : State) : State :=
  {| FirstBidLevel := FirstBidLevel s; FirstAskLevel := FirstAskLevel s; AllOrders := v;
     HighestKnownOrder := HighestKnownOrder s; AllAccounts := AllAccounts s;
     Quote := Quote s; next_id_static := next_id_static s; clock := clock s;
     stderr := stderr s |}.

Definition set_HighestKnownOrder (v : Z) (s : State) : State :=
  {| FirstBidLevel := FirstBidLevel s; FirstAskLevel := FirstAskLevel s;
     AllOrders := AllOrders s; HighestKnownOrder := v; AllAccounts := AllAccounts s;
     Quote := Quote s; next_id_static := next_id_static s; clock := clock s;
     stderr := stderr s |}.

Definition set_AllAccounts (v : gmap Z ACCOUNT) (s : State) : State :=
  {| FirstBidLevel := FirstBidLevel s; FirstAskLevel := FirstAskLevel s;
     AllOrders := AllOrders s; HighestKnownOrder := HighestKnownOrder s;
     AllAccounts := v; Quote := Quote s; next_id_static := next_id_static s;
     clock := clock s; stderr := stderr s |}.

Definition set_Quote (v : QUOTE) (s : State) : State :=
  {| FirstBidLevel := FirstBidLevel s; FirstAskLevel := FirstAskLevel s;
     AllOrders := AllOrders s; HighestKnownOrder := HighestKnownOrder s;
     AllAccounts := AllAccounts s; Quote := v; next_id_static := next_id_static s;
     clock := clock s; stderr := stderr s |}.

Definition set_next_id_static (v : Z) (s : State) : State :=
  {| FirstBidLevel := FirstBidLevel s; FirstAskLevel := FirstAskLevel s;
     AllOrders := AllOrders s; HighestKnownOrder := HighestKnownOrder s;
     AllAccounts := AllAccounts s; Quote := Quote s; next_id_static := v;
     clock := clock s; stderr := stderr s |}.

Definition set_clock (v : nat) (s : State) : State :=
  {| FirstBidLevel := FirstBidLevel s; FirstAskLevel := FirstAskLevel s;
     AllOrders := AllOrders s; HighestKnownOrder := HighestKnownOrder s;
     AllAccounts := AllAccounts s; Quote := Quote s;
     next_id_static := next_id_static s; clock := v; stderr := stderr s |}.

Definition fprintf_stderr (e : EVENT) (s : State) : State :=
  {| FirstBidLevel := FirstBidLevel s; FirstAskLevel := FirstAskLevel s;
     AllOrders := AllOrders s; HighestKnownOrder := HighestKnownOrder s;
     AllAccounts := AllAccounts s; Quote := Quote s;
     next_id_static := next_id_static s; clock := clock s;
     stderr := stderr s ++ [e] |}.

(** [p->field] for an order pointer [p], and assignment through [p]. *)
Definition deref (s : State) (p : Z) : ORDER := AllOrders s !!! p.

Definition assign (p : Z) (f : ORDER → ORDER) (s : State) : State :=
  set_AllOrders (alter f p (AllOrders s)) s.

(** [a->field] for an account pointer [a]. *)
Definition deref_account (s : State) (a : Z) : ACCOUNT := AllAccounts s !!! a.

Definition assign_account (a : Z) (f : ACCOUNT → ACCOUNT) (s : State) : State :=
  set_AllAccounts (alter f a (AllAccounts s)) s.

(** ** Sequencing

    [let* x := v in k] is [let x := v in k].  The bodies of the longer
    functions are written with it, one C statement per binding, so that a
    proof can walk through a body one statement at a time. *)
Definition seq {A B : Type} (v : A) (k : A → B) : B := k v.

Notation "'let*' x ':=' v 'in' k" := (seq v (λ x, k))
  (at level 10, x name, v at level 200, k at level 200,
   format "'[v' 'let*'  x  ':='  v  'in' '/' k ']'").

(** ** Allocation helpers *)

Definition init_level (price : Z) (ordernode : Z) : LEVEL :=
  {| l_price := price; l_nodes := [ordernode] |}.

Definition init_fill (price qty : Z) (ts : timestamp) : FILL :=
  {| f_price := price; f_qty := qty; f_ts := ts |}.

(** [next_id]: the static counter stops at [MAXORDERS]; with the flag set the
    counter is read without being advanced. *)
Definition next_id (no_iterate_flag : bool) (s : State) : Z * State :=
  if decide (next_id_static s = MAXORDERS) then (MAXORDERS, s)
  else if no_iterate_flag then (next_id_static s, s)
  else (next_id_static s, set_next_id_static (wrap32 (next_id_static s + 1)) s).

(** [safe_strcpy]: at most [size - 1] characters of the source. *)
Fixpoint copy_chars (n : nat) (source : string) : string :=
  match n, source with
  | S n', String c rest => String c (copy_chars n' rest)
  | _, _ => EmptyString
  end.

Definition safe_strcpy (dest source : string) (size : nat) : string :=
  match size with
  | O => dest
  | S n => copy_chars n source
  end.

Definition new_timestamp (s : State) : timestamp * State :=
  (clock s, set_clock (S (clock s)) s).

(** [init_order]: the record is filled in and stored under its id. *)
Definition init_order (account qty price direction orderType id : Z) (s : State)
  : State :=
  let '(ts, s) := new_timestamp s in
  let ret := {| o_direction := direction; o_originalQty := qty; o_qty := qty;
                o_price := price; o_orderType := orderType; o_id := id;
                o_account := account; o_ts := ts; o_fills := [];
                o_totalFilled := 0; o_open := true |} in
  let s := set_AllOrders (<[id := ret]> (AllOrders s)) s in
  set_HighestKnownOrder id s.

(** ** The ledger *)

Definition update_account (account : ACCOUNT) (quantity price direction : Z)
  : ACCOUNT :=
  (* Update shares... *)
  let tmp64 := a_shares account in
  let shares :=
    if decide (direction = BUY) then
      let tmp64 := wrap64 (tmp64 + quantity) in
      if decide (tmp64 > 2147483647) then 2147483647 else wrap32 tmp64
    else
      let tmp64 := wrap64 (tmp64 - quantity) in
      if decide (tmp64 < -2147483647) then -2147483647 else wrap32 tmp64 in
  (* Update cents... *)
  let tmp64 := a_cents account in
  let cents :=
    if decide (direction = BUY) then
      let tmp64 := wrap64 (tmp64 - wrap64 (price * quantity)) in
      if decide (tmp64 < -2147483647) then -2147483647 else wrap32 tmp64
    else
      let tmp64 := wrap64 (tmp64 + wrap64 (price * quantity)) in
      if decide (tmp64 > 2147483647) then 2147483647 else wrap32 tmp64 in
  let posmin := if decide (shares < a_posmin account) then shares
                else a_posmin account in
  let posmax := if decide (shares > a_posmax account) then shares
                else a_posmax account in
  {| a_name := a_name account; a_orders := a_orders account;
     a_posmin := posmin; a_posmax := posmax; a_shares := shares;
     a_cents := cents |}.

(** ** The quote *)

(** The argument is the chain that starts at the level pointer; [[]] is the
    NULL pointer.  The accumulator is an [int64_t]. *)
Definition get_size_from_level (s : State) (level : list LEVEL) : Z :=
  match level with
  | [] => 0
  | l :: _ =>
      fold_left (fun ret ordernode => wrap64 (ret + o_qty (deref s ordernode)))
                (l_nodes l) 0
  end.

Fixpoint get_depth_from (s : State) (ret : Z) (level : list LEVEL) : Z :=
  match level with
  | [] => ret
  | _ :: next => get_depth_from s (wrap64 (ret + get_size_from_level s level)) next
  end.

Definition get_depth (s : State) (level : list LEVEL) : Z :=
  get_depth_from s 0 level.

Definition orderType_to_print (orderType : Z) : string :=
  if decide (orderType = LIMIT) then "limit"
  else if decide (orderType = MARKET) then "market"
  else if decide (orderType = IOC) then "immediate-or-cancel"
  else if decide (orderType = FOK) then "fill-or-kill"
  else "unknown".

Definition print_order (s : State) (order : Z) : PRINTED_ORDER :=
  let o := deref s order in
  {| p_direction := if decide (o_direction o = BUY) then "buy" else "sell";
     p_originalQty := o_originalQty o;
     p_qty := o_qty o;
     p_price := o_price o;
     p_orderType := safe_strcpy EmptyString (orderType_to_print (o_orderType o)) SMALLSTRING;
     p_id := o_id o;
     p_account := a_name (deref_account s (o_account o));
     p_ts := o_ts o;
     p_totalFilled := o_totalFilled o;
     p_open := o_open o;
     p_fills := o_fills o |}.

Definition create_ticker_message (s : State) : State :=
  fprintf_stderr (TICKER (Quote s)) s.

Definition create_execution_messages (standing incoming quantity price : Z)
    (ts : timestamp) (s : State) : State :=
  let name_of p := a_name (deref_account s (o_account (deref s p))) in
  let s := fprintf_stderr
             (EXECUTION (name_of standing) (print_order s standing)
                (o_id (deref s standing)) (o_id (deref s incoming)) price quantity ts
                (negb (o_open (deref s standing))) (negb (o_open (deref s incoming)))) s in
  fprintf_stderr
    (EXECUTION (name_of incoming) (print_order s incoming)
       (o_id (deref s standing)) (o_id (deref s incoming)) price quantity ts
       (negb (o_open (deref s standing))) (negb (o_open (deref s incoming)))) s.

(** The parts of the quote determined by the book ("last trade" untouched). *)
Definition remake_most_of_quote (s : State) : State :=
  let bidSize := get_size_from_level s (FirstBidLevel s) in
  let bidDepth := get_depth s (FirstBidLevel s) in
  let askSize := get_size_from_level s (FirstAskLevel s) in
  let askDepth := get_depth s (FirstAskLevel s) in
  let bid := match FirstBidLevel s with l :: _ => l_price l | [] => -1 end in
  let ask := match FirstAskLevel s with l :: _ => l_price l | [] => -1 end in
  let '(ts, s) := new_timestamp s in
  set_Quote {| q_bidSize := bidSize; q_askSize := askSize;
               q_bidDepth := bidDepth; q_askDepth := askDepth;
               q_bid := bid; q_ask := ask;
               q_last := q_last (Quote s); q_lastSize := q_lastSize (Quote s);
               q_lastTrade := q_lastTrade (Quote s); q_quoteTime := ts |} s.

Definition set_quote_lastinfo (last lastSize : Z) (s : State) : State :=
  let '(ts, s) := new_timestamp s in
  set_Quote {| q_bidSize := q_bidSize (Quote s); q_askSize := q_askSize (Quote s);
               q_bidDepth := q_bidDepth (Quote s); q_askDepth := q_askDepth (Quote s);
               q_bid := q_bid (Quote s); q_ask := q_ask (Quote s);
               q_last := last; q_lastSize := lastSize;
               q_lastTrade := Some ts; q_quoteTime := q_quoteTime (Quote s) |} s.

(** ** The matcher *)

Definition cross (standing incoming : Z) (s : State) : State :=
  let '(ts, s) := new_timestamp s in
  let* quantity :=
    if decide (o_qty (deref s standing) < o_qty (deref s incoming))
    then o_qty (deref s standing) else o_qty (deref s incoming) in
  let* s := assign standing (λ o, set_qty (wrap32 (o_qty o - quantity)) o) s in
  let* s := assign standing
             (λ o, set_totalFilled (wrap32 (o_totalFilled o + quantity)) o) s in
  let* s := assign incoming (λ o, set_qty (wrap32 (o_qty o - quantity)) o) s in
  let* s := assign incoming
             (λ o, set_totalFilled (wrap32 (o_totalFilled o + quantity)) o) s in
  let* price := o_price (deref s standing) in
  let* fill := init_fill price quantity ts in
  (* the fill goes to the tail of both chains *)
  let* s := assign standing (λ o, set_fills (o_fills o ++ [fill]) o) s in
  let* s := assign incoming (λ o, set_fills (o_fills o ++ [fill]) o) s in
  let* s := if decide (o_qty (deref s standing) = 0)
           then assign standing (set_open false) s else s in
  let* s := if decide (o_qty (deref s incoming) = 0)
           then assign incoming (set_open false) s else s in
  (* Fix the positions of the 2 accounts; transactions with self do nothing *)
  let* s :=
    if decide (a_name (deref_account s (o_account (deref s standing)))
               ≠ a_name (deref_account s (o_account (deref s incoming))))
    then
      if decide (o_direction (deref s standing) = BUY) then
        let s := assign_account (o_account (deref s standing))
                   (λ a, update_account a quantity price BUY) s in
        assign_account (o_account (deref s incoming))
          (λ a, update_account a quantity price SELL) s
      else
        let s := assign_account (o_account (deref s standing))
                   (λ a, update_account a quantity price SELL) s in
        assign_account (o_account (deref s incoming))
          (λ a, update_account a quantity price BUY) s
    else s in
  let* s := set_quote_lastinfo price quantity s in
  create_execution_messages standing incoming quantity price ts s.

(** The inner loop of [run_order] over the nodes of one level; the flag
    tells whether the function returned from inside the loop. *)
Fixpoint run_order_nodes (current_node : list Z) (order : Z) (s : State)
  : State * bool :=
  match current_node with
  | [] => (s, false)
  | standing :: next =>
      let s := cross standing order s in
      if o_open (deref s order) then run_order_nodes next order s
      else (s, true)
  end.

(** The outer loop; [gate] is the comparison of the level price with the
    order price that ends the walk of a non-market order. *)
Fixpoint run_order_levels (gate : Z → Z → bool) (current_level : list LEVEL)
    (order : Z) (s : State) : State :=
  match current_level with
  | [] => s
  | level :: next =>
      if gate (l_price level) (o_price (deref s order))
         && bool_decide (o_orderType (deref s order) ≠ MARKET)
      then s
      else
        let '(s, returned) := run_order_nodes (l_nodes level) order s in
        if returned then s else run_order_levels gate next order s
  end.

Definition run_order (order : Z) (s : State) : State :=
  if decide (o_direction (deref s order) = SELL) then
    run_order_levels (λ level_price price, bool_decide (level_price < price))
                     (FirstBidLevel s) order s
  else
    run_order_levels (λ level_price price, bool_decide (level_price > price))
                     (FirstAskLevel s) order s.

(** ** Book maintenance *)

(** [cleanup_closed_bids_or_asks]: nodes of closed orders are dropped from
    the head of the chain, levels emptied on the way are dropped with them,
    and the walk ends at the first open order.  The argument is the chain
    [*root_level]; the result is the chain the root points to afterwards. *)
Fixpoint first_open_node (s : State) (current_node : list Z) : list Z :=
  match current_node with
  | [] => []
  | n :: next => if o_open (deref s n) then n :: next else first_open_node s next
  end.

Fixpoint cleanup_closed_bids_or_asks (s : State) (current_level : list LEVEL)
  : list LEVEL :=
  match current_level with
  | [] => []
  | level :: next =>
      match first_open_node s (l_nodes level) with
      | [] => cleanup_closed_bids_or_asks s next
      | nodes => {| l_price := l_price level; l_nodes := nodes |} :: next
      end
  end.

Fixpoint insert_ask_from (price order : Z) (level : list LEVEL) : list LEVEL :=
  match level with
  | [] => [init_level price order]
  | l :: next =>
      if decide (price < l_price l) then init_level price order :: l :: next
      else if decide (price = l_price l) then
        {| l_price := l_price l; l_nodes := l_nodes l ++ [order] |} :: next
      else l :: insert_ask_from price order next
  end.

Definition insert_ask (order : Z) (s : State) : State :=
  set_FirstAskLevel
    (insert_ask_from (o_price (deref s order)) order (FirstAskLevel s)) s.

Fixpoint insert_bid_from (price order : Z) (level : list LEVEL) : list LEVEL :=
  match level with
  | [] => [init_level price order]
  | l :: next =>
      if decide (price > l_price l) then init_level price order :: l :: next
      else if decide (price = l_price l) then
        {| l_price := l_price l; l_nodes := l_nodes l ++ [order] |} :: next
      else l :: insert_bid_from price order next
  end.

Definition insert_bid (order : Z) (s : State) : State :=
  set_FirstBidLevel
    (insert_bid_from (o_price (deref s order)) order (FirstBidLevel s)) s.

(** ** Fill-or-kill feasibility *)

(** The inner loop: the running [qty] and whether 1 was returned. *)
Fixpoint fok_nodes (s : State) (ordernode : list Z) (qty : Z) : Z * bool :=
  match ordernode with
  | [] => (qty, false)
  | n :: next =>
      let qty := wrap32 (qty - o_qty (deref s n)) in
      if decide (qty <= 0) then (qty, true) else fok_nodes s next qty
  end.

Fixpoint fok_can_buy_from (s : State) (level : list LEVEL) (qty price : Z) : bool :=
  match level with
  | [] => false
  | l :: next =>
      if decide (l_price l <= price) then
        let '(qty, returned) := fok_nodes s (l_nodes l) qty in
        if returned then true else fok_can_buy_from s next qty price
      else false
  end.

Definition fok_can_buy (qty price : Z) (s : State) : bool :=
  fok_can_buy_from s (FirstAskLevel s) qty price.

Fixpoint fok_can_sell_from (s : State) (level : list LEVEL) (qty price : Z) : bool :=
  match level with
  | [] => false
  | l :: next =>
      if decide (l_price l >= price) then
        let '(qty, returned) := fok_nodes s (l_nodes l) qty in
        if returned then true else fok_can_sell_from s next qty price
      else false
  end.

Definition fok_can_sell (qty price : Z) (s : State) : bool :=
  fok_can_sell_from s (FirstBidLevel s) qty price.

(** ** Accounts *)

Definition init_account (name : string) : ACCOUNT :=
  {| a_name := safe_strcpy EmptyString name SMALLSTRING; a_orders := [];
     a_posmin := 0; a_posmax := 0; a_shares := 0; a_cents := 0 |}.

(** The account table is indexed by [account_int]; a slot never touched is
    NULL.  (The source indexes a C array: a negative [account_int] is outside
    what the protocol allows.) *)
Definition account_lookup_or_create (account_name : string) (account_int : Z)
    (s : State) : State :=
  match AllAccounts s !! account_int with
  | None => set_AllAccounts
              (<[account_int := init_account account_name]> (AllAccounts s)) s
  | Some _ => s
  end.

Definition add_order_to_account (order accountobject : Z) (s : State) : State :=
  assign_account accountobject
    (λ a, {| a_name := a_name a; a_orders := a_orders a ++ [order];
             a_posmin := a_posmin a; a_posmax := a_posmax a;
             a_shares := a_shares a; a_cents := a_cents a |}) s.

(** ** Order lifecycle *)

Definition execute_order (account_name : string)
    (account_int qty price direction orderType : Z) (s : State)
  : ORDER_AND_ERROR * State :=
  if decide (fst (next_id true s) >= MAXORDERS) then
    ({| oe_order := None; oe_error := TOO_MANY_ORDERS |}, s)
  else if decide (account_int >= MAXACCOUNTS) then
    ({| oe_order := None; oe_error := TOO_HIGH_ACCOUNT |}, s)
  else if decide (price < 0 ∨ qty < 1 ∨ (direction ≠ SELL ∧ direction ≠ BUY)) then
    ({| oe_order := None; oe_error := SILLY_VALUE |}, s)
  else
    let* accountobject := account_int in
    let* s := account_lookup_or_create account_name account_int s in
    let '(id, s) := next_id false s in
    let* s := init_order accountobject qty price direction orderType id s in
    let* order := id in
    let* s := add_order_to_account order accountobject s in
    (* Run the order, with checks for FOK if needed... *)
    let* s :=
      if decide (o_orderType (deref s order) ≠ FOK) then run_order order s
      else if decide (o_direction (deref s order) = BUY) then
        if fok_can_buy (o_qty (deref s order)) (o_price (deref s order)) s
        then run_order order s else s
      else
        if fok_can_sell (o_qty (deref s order)) (o_price (deref s order)) s
        then run_order order s else s in
    (* Remove the bids or asks that are now closed... *)
    let* s :=
      if decide (o_direction (deref s order) = SELL)
      then set_FirstBidLevel (cleanup_closed_bids_or_asks s (FirstBidLevel s)) s
      else set_FirstAskLevel (cleanup_closed_bids_or_asks s (FirstAskLevel s)) s in
    (* Market orders get set to price == 0 for storage / reporting *)
    let* s := if decide (o_orderType (deref s order) = MARKET)
             then assign order (set_price 0) s else s in
    (* Place open limit orders on the book. Mark other order types as closed... *)
    let* s :=
      if o_open (deref s order) then
        if decide (o_orderType (deref s order) = LIMIT) then
          if decide (o_direction (deref s order) = SELL)
          then insert_ask order s else insert_bid order s
        else
          let s := assign order (set_open false) s in
          assign order (set_qty 0) s
      else s in
    (* If something happened, fix the quote and fire a ticker message. *)
    let* s :=
      if decide (o_totalFilled (deref s order) ≠ 0
                 ∨ o_orderType (deref s order) = LIMIT)
      then create_ticker_message (remake_most_of_quote s) else s in
    ({| oe_order := Some order; oe_error := 0 |}, s).

(** ** Cancel *)

(** A [LEVEL *] returned by [find_level] is the position of the level in
    the chain of side [dir]; an [ORDERNODE *] is a position in the level. *)
Definition chain_of (dir : Z) (s : State) : list LEVEL :=
  if decide (dir = BUY) then FirstBidLevel s else FirstAskLevel s.

Fixpoint find_level_bids (price : Z) (level : list LEVEL) : option nat :=
  match level with
  | [] => None
  | l :: next =>
      if decide (l_price l > price) then S <$> find_level_bids price next
      else if decide (l_price l = price) then Some 0%nat
      else None
  end.

Fixpoint find_level_asks (price : Z) (level : list LEVEL) : option nat :=
  match level with
  | [] => None
  | l :: next =>
      if decide (l_price l < price) then S <$> find_level_asks price next
      else if decide (l_price l = price) then Some 0%nat
      else None
  end.

Definition find_level (price dir : Z) (s : State) : option nat :=
  if decide (dir = BUY) then find_level_bids price (FirstBidLevel s)
  else find_level_asks price (FirstAskLevel s).

Fixpoint find_ordernode_from (s : State) (ordernode : list Z) (id : Z)
  : option nat :=
  match ordernode with
  | [] => None
  | n :: next =>
      if decide (o_id (deref s n) = id) then Some 0%nat
      else S <$> find_ordernode_from s next id
  end.

Definition find_ordernode (s : State) (level : option LEVEL) (id : Z)
  : option nat :=
  match level with
  | Some l => find_ordernode_from s (l_nodes l) id
  | None => None
  end.

(** [cleanup_after_cancel]: the node is unlinked from its level; a level
    left without nodes is unlinked from the chain.  The level lives in the
    chain of the side of the order held by the node. *)
Definition unlink (level ordernode : nat) (chain : list LEVEL) : list LEVEL :=
  match chain !! level with
  | None => chain
  | Some l =>
      match delete ordernode (l_nodes l) with
      | [] => delete level chain
      | nodes => <[level := {| l_price := l_price l; l_nodes := nodes |}]> chain
      end
  end.

Definition cleanup_after_cancel (dir : Z) (level ordernode : nat) (s : State)
  : State :=
  if decide (dir = BUY)
  then set_FirstBidLevel (unlink level ordernode (FirstBidLevel s)) s
  else set_FirstAskLevel (unlink level ordernode (FirstAskLevel s)) s.

Definition cancel_order_by_id (id : Z) (s : State) : State :=
  if decide (o_orderType (deref s id) ≠ LIMIT) then s
  else
    let price := o_price (deref s id) in
    let dir := o_direction (deref s id) in
    let level := find_level price dir s in
    let level_struct := level ≫= λ i, chain_of dir s !! i in
    let ordernode := find_ordernode s level_struct id in
    match level, level_struct, ordernode with
    | Some level, Some l, Some ordernode =>
        match l_nodes l !! ordernode with
        | Some order =>
            let s := assign order (set_open false) s in
            let s := assign order (set_qty 0) s in
            let s := cleanup_after_cancel (o_direction (deref s order))
                       level ordernode s in
            let s := remake_most_of_quote s in
            create_ticker_message s
        | None => s
        end
    | _, _, _ => s
    end.

(** ** The command loop *)

(** One parsed input line of [main] (the tokens after [atoi]). *)
Inductive COMMAND :=
  | ORDER_CMD (account : string) (account_int qty price direction orderType : Z)
  | STATUS (id : Z)
  | STATUSALL (id : Z)
  | CANCEL (id : Z)
  | QUOTE_CMD
  | TIMESTAMP_CMD.

(** What [main] prints on stdout in reply. *)
Inductive REPLY :=
  | REPLY_ORDER (order : PRINTED_ORDER)
  | REPLY_BACKEND_ERROR (error : Z) (account : string)
      (account_int qty price direction orderType : Z)
  | REPLY_NO_SUCH_ID
  | REPLY_ALL_ORDERS (orders : list PRINTED_ORDER)
  | REPLY_ACCOUNT_UNKNOWN
  | REPLY_QUOTE (quote : QUOTE)
  | REPLY_TIMESTAMP (ts : timestamp).

Definition print_all_orders_of_account (s : State) (account : Z)
  : list PRINTED_ORDER :=
  print_order s <$> a_orders (deref_account s account).

Definition known_order (id : Z) (s : State) : bool :=
  negb (bool_decide (id < 0) || bool_decide (id > HighestKnownOrder s)
        || bool_decide (AllOrders s !! id = None)).

(** One iteration of the loop of [main]. *)
Definition main_step (c : COMMAND) (s : State) : REPLY * State :=
  match c with
  | ORDER_CMD account account_int qty price direction orderType =>
      let '(o_and_e, s) :=
        execute_order account account_int qty price direction orderType s in
      if decide (oe_error o_and_e ≠ 0)
      then (REPLY_BACKEND_ERROR (oe_error o_and_e) account account_int qty
              price direction orderType, s)
      else (REPLY_ORDER (print_order s (default 0 (oe_order o_and_e))), s)
  | STATUS id =>
      if known_order id s then (REPLY_ORDER (print_order s id), s)
      else (REPLY_NO_SUCH_ID, s)
  | STATUSALL id =>
      match AllAccounts s !! id with
      | Some _ => (REPLY_ALL_ORDERS (print_all_orders_of_account s id), s)
      | None => (REPLY_ACCOUNT_UNKNOWN, s)
      end
  | CANCEL id =>
      if known_order id s then
        let s := cancel_order_by_id id s in
        (REPLY_ORDER (print_order s id), s)
      else (REPLY_NO_SUCH_ID, s)
  | QUOTE_CMD => (REPLY_QUOTE (Quote s), s)
  | TIMESTAMP_CMD => let '(ts, s) := new_timestamp s in (REPLY_TIMESTAMP ts, s)
  end.

(** The state when [main] enters its loop: the globals as initialised, after
    [StartTime = new_timestamp ()] has been copied into the quote. *)
Definition initial_state : State :=
  {| FirstBidLevel := []; FirstAskLevel := [];
     AllOrders := ∅; HighestKnownOrder := -1;
     AllAccounts := ∅;
     Quote := {| q_bidSize := 0; q_askSize := 0; q_bidDepth := 0; q_askDepth := 0;
                 q_bid := -1; q_ask := -1; q_last := -1; q_lastSize := -1;
                 q_lastTrade := None; q_quoteTime := 0%nat |};
     next_id_static := 0; clock := 1%nat; stderr := [] |}.

(** The arguments of a command are C [int]s, and account numbers are the
    non-negative slots the frontend hands out. *)
Definition valid_command (c : COMMAND) : Prop :=
  match c with
  | ORDER_CMD _ account_int qty price direction orderType =>
      0 <= account_int <= INT_MAX ∧ is_int32 qty ∧ is_int32 price
      ∧ is_int32 direction ∧ is_int32 orderType
  | STATUS id | STATUSALL id | CANCEL id => is_int32 id
  | QUOTE_CMD | TIMESTAMP_CMD => True
  end.

Definition run_commands (cs : list COMMAND) (s : State) : State :=
  fold_left (λ s c, snd (main_step c s)) cs s.

(** States the process can be in between two commands. *)
Inductive reachable : State → Prop :=
  | reachable_initial : reachable initial_state
  | reachable_step c s :
      reachable s → valid_command c → reachable (snd (main_step c s)).


(** ** Auxiliary definitions for the proofs *)

(** The fill of a cross and what it does to one of the two orders. *)
Definition fill_of (standing incoming : ORDER) (ts : timestamp) : FILL :=
  init_fill (o_price standing)
    (if decide (o_qty standing < o_qty incoming) then o_qty standing
     else o_qty incoming) ts.

Definition fill_order (fill : FILL) (o : ORDER) : ORDER :=
  {| o_direction := o_direction o; o_originalQty := o_originalQty o;
     o_qty := wrap32 (o_qty o - f_qty fill);
     o_price := o_price o; o_orderType := o_orderType o; o_id := o_id o;
     o_account := o_account o; o_ts := o_ts o;
     o_fills := o_fills o ++ [fill];
     o_totalFilled := wrap32 (o_totalFilled o + f_qty fill);
     o_open := if decide (wrap32 (o_qty o - f_qty fill) = 0) then false
               else o_open o |}.

(** The ledger entries of a cross between [standing] and [incoming]. *)
Definition settle (standing incoming : ORDER) (fill : FILL)
    (accounts : gmap Z ACCOUNT) : gmap Z ACCOUNT :=
  if decide (a_name (accounts !!! o_account standing)
             ≠ a_name (accounts !!! o_account incoming))
  then
    if decide (o_direction standing = BUY) then
      alter (λ a, update_account a (f_qty fill) (f_price fill) SELL)
        (o_account incoming)
        (alter (λ a, update_account a (f_qty fill) (f_price fill) BUY)
           (o_account standing) accounts)
    else
      alter (λ a, update_account a (f_qty fill) (f_price fill) BUY)
        (o_account incoming)
        (alter (λ a, update_account a (f_qty fill) (f_price fill) SELL)
           (o_account standing) accounts)
  else accounts.

(** The state after a cross, in one piece. *)
Definition cross_result (standing incoming : Z) (a b : ORDER) (s : State)
  : State :=
  let fill := fill_of a b (clock s) in
  create_execution_messages standing incoming (f_qty fill) (f_price fill) (clock s)
    (set_quote_lastinfo (f_price fill) (f_qty fill)
       (set_AllAccounts (settle a b fill (AllAccounts s))
          (set_AllOrders
             (<[incoming := fill_order fill b]>
                (<[standing := fill_order fill a]> (AllOrders s)))
             (set_clock (S (clock s)) s)))).

(** A state seen through two distinct cells of the order table. *)
Definition two_cells (s : State) (p : Z) (a : ORDER) (q : Z) (b : ORDER) : State :=
  set_AllOrders (<[q := b]> (<[p := a]> (AllOrders s))) s.


(** ** Specification-side definitions *)

(** Saturation of the ledger at plus and minus 2_147_483_647. *)
Definition clamp (z : Z) : Z := Z.max (-2147483647) (Z.min 2147483647 z).

(** Spec §4.5: the opposite side is walked from the best level outward while
    the level price is admissible for the incoming order (every level for a
    MARKET order), FIFO within a level; this is the resulting queue. *)
Definition admissible (incoming : ORDER) (l : LEVEL) : bool :=
  bool_decide (o_orderType incoming = MARKET)
  || (if decide (o_direction incoming = SELL)
      then bool_decide (o_price incoming <= l_price l)
      else bool_decide (l_price l <= o_price incoming)).

Fixpoint take_while {A} (f : A → bool) (l : list A) : list A :=
  match l with
  | [] => []
  | x :: l' => if f x then x :: take_while f l' else []
  end.

Definition nodes_of (chain : list LEVEL) : list Z := concat (l_nodes <$> chain).

Definition opposite_side (incoming : ORDER) (s : State) : list LEVEL :=
  if decide (o_direction incoming = SELL) then FirstBidLevel s
  else FirstAskLevel s.

Definition crossable_queue (s : State) (order : Z) : list Z :=
  nodes_of (take_while (admissible (deref s order))
                       (opposite_side (deref s order) s)).

(** Spec §4.5: cross the queue in order, "stop when the incoming is closed
    or the opposite side is exhausted". *)
Fixpoint match_queue (queue : list Z) (order : Z) (s : State) : State :=
  match queue with
  | [] => s
  | standing :: rest =>
      let s' := cross standing order s in
      if o_open (deref s' order) then match_queue rest order s' else s'
  end.

(** The order pointers crossed by a run, read off the event stream: every
    cross writes its two execution messages, the second one addressed to the
    incoming order. *)
Fixpoint crossed_ids (events : list EVENT) : list Z :=
  match events with
  | EXECUTION _ _ standingId _ _ _ _ _ _ :: EXECUTION _ _ _ _ _ _ _ _ _ :: rest =>
      standingId :: crossed_ids rest
  | _ :: rest => crossed_ids rest
  | [] => []
  end.

(** ** Invariants of the reachable states *)

(** What holds of an order record on its own. *)
Definition order_wf (o : ORDER) : Prop :=
  0 <= o_qty o ∧ 0 <= o_totalFilled o ∧ o_originalQty o <= INT_MAX
  ∧ 0 <= o_price o <= INT_MAX
  ∧ (o_direction o = BUY ∨ o_direction o = SELL)
  ∧ (if o_open o
     then 0 < o_qty o ∧ o_qty o + o_totalFilled o = o_originalQty o
     else o_qty o = 0 ∧ o_totalFilled o <= o_originalQty o).

(** An order in the table: stored under its id, below the id counter, with
    an account that exists. *)
Definition order_ok (s : State) (k : Z) (o : ORDER) : Prop :=
  order_wf o ∧ o_id o = k ∧ 0 <= k < next_id_static s
  ∧ is_Some (AllAccounts s !! o_account o).

Definition account_ok (a : ACCOUNT) : Prop :=
  -2147483647 <= a_shares a <= 2147483647
  ∧ -2147483647 <= a_cents a <= 2147483647
  ∧ a_posmin a <= a_shares a <= a_posmax a.

(** A node of a level of side [side] and price [price]. *)
Definition node_wf (s : State) (side price : Z) (n : Z) : Prop :=
  ∃ o, AllOrders s !! n = Some o ∧ o_orderType o = LIMIT
       ∧ o_price o = price ∧ o_direction o = side.

Definition level_wf (s : State) (side : Z) (l : LEVEL) : Prop :=
  l_nodes l ≠ [] ∧ Forall (node_wf s side (l_price l)) (l_nodes l).

(** A chain: well-formed levels, prices strictly ordered by [R] from the
    head, no order twice. *)
Definition chain_wf (s : State) (side : Z) (R : Z → Z → Prop)
    (chain : list LEVEL) : Prop :=
  Forall (level_wf s side) chain
  ∧ StronglySorted (λ l1 l2, R (l_price l1) (l_price l2)) chain
  ∧ NoDup (nodes_of chain).

Definition chain_open (s : State) (chain : list LEVEL) : Prop :=
  Forall (λ n, o_open (deref s n) = true) (nodes_of chain).

(** The part of the invariant that also holds while an order is matched. *)
Record Inv_base (s : State) : Prop := {
  inv_orders : map_Forall (order_ok s) (AllOrders s);
  inv_counter : 0 <= next_id_static s <= MAXORDERS;
  inv_accounts : map_Forall (λ _, account_ok) (AllAccounts s);
  inv_bids : chain_wf s BUY Z.gt (FirstBidLevel s);
  inv_asks : chain_wf s SELL Z.lt (FirstAskLevel s)
}.

(** Between two commands every resting order is open. *)
Record Inv (s : State) : Prop := {
  inv_base : Inv_base s;
  inv_bids_open : chain_open s (FirstBidLevel s);
  inv_asks_open : chain_open s (FirstAskLevel s)
}.

(** ** Example states *)

(** A bid of 100 at 5000 from account A and an ask of 60 at 5100 from
    account B, both resting. *)
Definition example_two_sided : State :=
  run_commands [ORDER_CMD "A" 0 100 5000 BUY LIMIT;
                ORDER_CMD "B" 1 60 5100 SELL LIMIT] initial_state.

(** A bid and an ask of the same account, both resting. *)
Definition example_same_account : State :=
  run_commands [ORDER_CMD "A" 0 100 5000 BUY LIMIT;
                ORDER_CMD "A" 0 60 5100 SELL LIMIT] initial_state.

(** S3 of the spec: two bids at one price, one deeper bid. *)
Definition example_bids : State :=
  run_commands [ORDER_CMD "A" 0 50 5000 BUY LIMIT;
                ORDER_CMD "B" 1 50 5000 BUY LIMIT;
                ORDER_CMD "A" 0 10 4900 BUY LIMIT] initial_state.

(** The fields of an order that are never written after [init_order]
    (the price only by the MARKET reporting convention). *)
Definition static_eq (o o' : ORDER) : Prop :=
  o_direction o = o_direction o' ∧ o_originalQty o = o_originalQty o'
  ∧ o_price o = o_price o' ∧ o_orderType o = o_orderType o'
  ∧ o_id o = o_id o' ∧ o_account o = o_account o' ∧ o_ts o = o_ts o'.

Arguments seq : simpl never.
Arguments cross : simpl never.
Arguments run_order : simpl never.
Arguments execute_order : simpl never.
Arguments cancel_order_by_id : simpl never.

(** Every order of [s] is still in the table of [s'], with the fields that
    are set once unchanged. *)
Definition store_extends (s s' : State) : Prop :=
  ∀ k o, AllOrders s !! k = Some o →
         ∃ o', AllOrders s' !! k = Some o' ∧ static_eq o o'.

(** Closed orders first, then open ones. *)
Definition closed_then_open (s : State) (nodes : list Z) : Prop :=
  ∃ q1 q2, nodes = q1 ++ q2
           ∧ Forall (λ n, o_open (deref s n) = false) q1
           ∧ Forall (λ n, o_open (deref s n) = true) q2.

(** The feasibility check over a queue: the running decrement. *)
Fixpoint fok_queue (s : State) (queue : list Z) (qty : Z) : bool :=
  match queue with
  | [] => false
  | n :: next =>
      let qty := wrap32 (qty - o_qty (deref s n)) in
      if decide (qty <= 0) then true else fok_queue s next qty
  end.

(** Total remaining quantity of the orders of a queue. *)
Definition total_qty (s : State) (queue : list Z) : Z :=
  foldr (λ n acc, o_qty (deref s n) + acc) 0 queue.

(** [insert_ask_from] and [insert_bid_from] are one function up to the
    comparison that says whether a price goes before a level. *)
Fixpoint insert_level (before : Z → Z → bool) (price order : Z)
    (level : list LEVEL) : list LEVEL :=
  match level with
  | [] => [init_level price order]
  | l :: next =>
      if before price (l_price l) then init_level price order :: l :: next
      else if decide (price = l_price l) then
        {| l_price := l_price l; l_nodes := l_nodes l ++ [order] |} :: next
      else l :: insert_level before price order next
  end.

(** ** The stages of [execute_order]

    The body of [execute_order] after validation, cut at its comments. *)

(** Account lookup, id allocation, [init_order], [add_order_to_account]. *)
Definition create_order (account_name : string)
    (account_int qty price direction orderType : Z) (s : State) : State :=
  let id := next_id_static s in
  add_order_to_account id account_int
    (init_order account_int qty price direction orderType id
       (set_next_id_static (wrap32 (id + 1))
          (account_lookup_or_create account_name account_int s))).

(** "Run the order, with checks for FOK if needed..." *)
Definition matching_stage (order : Z) (s : State) : State :=
  if decide (o_orderType (deref s order) ≠ FOK) then run_order order s
  else if decide (o_direction (deref s order) = BUY) then
    if fok_can_buy (o_qty (deref s order)) (o_price (deref s order)) s
    then run_order order s else s
  else
    if fok_can_sell (o_qty (deref s order)) (o_price (deref s order)) s
    then run_order order s else s.

(** "Iterate through the Bids or Asks as appropriate, removing them from the
    book if they are now closed..." *)
Definition cleanup_stage (order : Z) (s : State) : State :=
  if decide (o_direction (deref s order) = SELL)
  then set_FirstBidLevel (cleanup_closed_bids_or_asks s (FirstBidLevel s)) s
  else set_FirstAskLevel (cleanup_closed_bids_or_asks s (FirstAskLevel s)) s.

(** "Market orders get set to price == 0..." *)
Definition market_price_stage (order : Z) (s : State) : State :=
  if decide (o_orderType (deref s order) = MARKET)
  then assign order (set_price 0) s else s.

(** "Place open limit orders on the book. Mark other order types as
    closed..." *)
Definition resting_stage (order : Z) (s : State) : State :=
  if o_open (deref s order) then
    if decide (o_orderType (deref s order) = LIMIT) then
      if decide (o_direction (deref s order) = SELL)
      then insert_ask order s else insert_bid order s
    else
      let s := assign order (set_open false) s in
      assign order (set_qty 0) s
  else s.

(** "If something happened, fix the quote and fire a ticker..." *)
Definition ticker_stage (order : Z) (s : State) : State :=
  if decide (o_totalFilled (deref s order) ≠ 0
             ∨ o_orderType (deref s order) = LIMIT)
  then create_ticker_message (remake_most_of_quote s) else s.

(** Spec §4.7: the validation of an ORDER, in its order. *)
Definition validation (s : State) (account_int qty price direction : Z)
  : option Z :=
  if decide (next_id_static s >= MAXORDERS) then Some TOO_MANY_ORDERS
  else if decide (account_int >= MAXACCOUNTS) then Some TOO_HIGH_ACCOUNT
  else if decide (price < 0 ∨ qty < 1 ∨ ¬ (direction = BUY ∨ direction = SELL))
       then Some SILLY_VALUE
  else None.

Arguments create_order : simpl never.
Arguments matching_stage : simpl never.

Definition same_side (incoming : ORDER) (s : State) : list LEVEL :=
  if decide (o_direction incoming = SELL) then FirstAskLevel s
  else FirstBidLevel s.

(** What holds once the matching stage has run for the order [b], where [s]
    is the state before it. *)
Definition matched (order : Z) (b : ORDER) (s s' : State) : Prop :=
  Inv_base s' ∧ store_extends s s'
  ∧ FirstBidLevel s' = FirstBidLevel s ∧ FirstAskLevel s' = FirstAskLevel s
  ∧ next_id_static s' = next_id_static s
  ∧ (∀ k, k ∉ nodes_of (opposite_side b s) → k ≠ order →
          AllOrders s' !! k = AllOrders s !! k)
  ∧ closed_then_open s' (nodes_of (opposite_side b s))
  ∧ chain_open s' (same_side b s).

(** An order rests when one of the two chains holds a node for it. *)
Definition resting (s : State) (id : Z) : Prop :=
  id ∈ nodes_of (FirstBidLevel s) ∨ id ∈ nodes_of (FirstAskLevel s).

(** The branch of [cancel_order_by_id] taken when the node was found at
    position [ordernode] of the level at position [level]. *)
Definition cancel_found (id dir : Z) (level ordernode : nat) (s : State) : State :=
  create_ticker_message
    (remake_most_of_quote
       (cleanup_after_cancel dir level ordernode
          (assign id (set_qty 0) (assign id (set_open false) s)))).

(** The book-dependent fields of the quote agree with the book. *)
Definition quote_fresh (s : State) : Prop :=
  q_bidSize (Quote s) = get_size_from_level s (FirstBidLevel s)
  ∧ q_bidDepth (Quote s) = get_depth s (FirstBidLevel s)
  ∧ q_askSize (Quote s) = get_size_from_level s (FirstAskLevel s)
  ∧ q_askDepth (Quote s) = get_depth s (FirstAskLevel s)
  ∧ q_bid (Quote s) = match FirstBidLevel s with l :: _ => l_price l | [] => -1 end
  ∧ q_ask (Quote s) = match FirstAskLevel s with l :: _ => l_price l | [] => -1 end.

(** The stages of [execute_order] that follow the matching stage. *)
Definition finish (order : Z) (s : State) : State :=
  ticker_stage order
    (resting_stage order (market_price_stage order (cleanup_stage order s))).

(** What the stages after matching do to the record of an order that is
    not a limit order: MARKET price convention, then the open remainder is
    dropped. *)
Definition finish_record (o : ORDER) : ORDER :=
  let o := if decide (o_orderType o = MARKET) then set_price 0 o else o in
  if o_open o then set_qty 0 (set_open false o) else o.

(** A resting bid of 100 at 5000, cancelled. *)
Definition example_cancelled : State :=
  run_commands [ORDER_CMD "A" 0 100 5000 BUY LIMIT; CANCEL 0] initial_state.

(** Time priority: ids are handed out in arrival order, and the nodes of a
    level are in ascending id order, the oldest order first. *)
Definition chain_fifo (chain : list LEVEL) : Prop :=
  Forall (λ l, StronglySorted Z.lt (l_nodes l)) chain.

Definition Fifo (s : State) : Prop :=
  chain_fifo (FirstBidLevel s) ∧ chain_fifo (FirstAskLevel s).

(** Every stored order is still stored, under the type it was created with. *)
Definition same_type (s s' : State) : Prop :=
  ∀ k o, AllOrders s !! k = Some o →
         ∃ o', AllOrders s' !! k = Some o' ∧ o_orderType o' = o_orderType o.

(** What is known of a standing order [a] when the matcher crosses it with
    the incoming order [b]: it is a limit order of the other side, and its
    price is within the limit of [b] unless [b] is a market order. *)
Definition crossable (a b : ORDER) : Prop :=
  o_orderType a = LIMIT
  ∧ if decide (o_direction b = SELL)
    then o_direction a = BUY ∧ (o_orderType b ≠ MARKET → o_price b <= o_price a)
    else o_direction a = SELL ∧ (o_orderType b ≠ MARKET → o_price a <= o_price b).

(** The queue the matching stage of [execute_order] runs over: none when
    the feasibility check of a FOK order fails. *)
Definition matching_queue (order : Z) (s : State) : list Z :=
  if decide (o_orderType (deref s order) ≠ FOK) then crossable_queue s order
  else if decide (o_direction (deref s order) = BUY) then
    if fok_can_buy (o_qty (deref s order)) (o_price (deref s order)) s
    then crossable_queue s order else []
  else
    if fok_can_sell (o_qty (deref s order)) (o_price (deref s order)) s
    then crossable_queue s order else [].

(** ** The history of an order *)

(** Sum of the quantities of a chain of fills. *)
Definition fills_qty (fills : list FILL) : Z :=
  foldr (λ f acc, f_qty f + acc) 0 fills.

(** A fill at a price that is no worse than the price of the order. *)
Definition within_limit (o : ORDER) (f : FILL) : Prop :=
  if decide (o_direction o = SELL) then o_price o <= f_price f
  else f_price f <= o_price o.

Definition fills_ok (o : ORDER) : Prop :=
  o_totalFilled o = fills_qty (o_fills o)
  ∧ Forall (λ f, 0 < f_qty f ∧ 0 <= f_price f <= INT_MAX) (o_fills o)
  ∧ (o_orderType o ≠ MARKET → Forall (within_limit o) (o_fills o)).

(** How the record of a stored order can differ at a later time. *)
Definition evolves (o o' : ORDER) : Prop :=
  static_eq o o' ∧ o_fills o `prefix_of` o_fills o'
  ∧ o_totalFilled o <= o_totalFilled o' ∧ o_qty o' <= o_qty o
  ∧ (o_open o = false → o' = o).

(** [example_bids] after a sell of 70 at 4950 has taken the first bid and
    20 of the second. *)
Definition example_traded : State :=
  run_commands [ORDER_CMD "C" 2 70 4950 SELL LIMIT] example_bids.

(** No bid at or above an ask. *)
Definition uncrossed (s : State) : Prop :=
  ∀ lb la, lb ∈ FirstBidLevel s → la ∈ FirstAskLevel s → l_price lb < l_price la.

(** How the record of an account can differ at a later time. *)
Definition account_evolves (a a' : ACCOUNT) : Prop :=
  a_name a' = a_name a ∧ a_orders a `prefix_of` a_orders a'
  ∧ a_posmin a' <= a_posmin a ∧ a_posmax a <= a_posmax a'.

(** The fills announced by a stream of execution messages: every cross
    writes two messages with the same price, quantity and time. *)
Fixpoint execution_fills (events : list EVENT) : list FILL :=
  match events with
  | EXECUTION _ _ _ _ price filled filledAt _ _
    :: EXECUTION _ _ _ _ _ _ _ _ _ :: rest =>
      {| f_price := price; f_qty := filled; f_ts := filledAt |}
      :: execution_fills rest
  | _ => []
  end.

(** ** The binary order book *)

(** The four [putc] calls that write one [uint32_t], most significant byte
    first; the argument is the [int] that is converted. *)
Definition putc_uint32 (v : Z) : list Z :=
  let u := v mod 4294967296 in
  [Z.shiftr (Z.land u 0xFF000000) 24; Z.shiftr (Z.land u 0x00FF0000) 16;
   Z.shiftr (Z.land u 0x0000FF00) 8; Z.land u 0x000000FF].

(** [print_orderbook_binary]: the bytes written to stdout. *)
Definition print_orderbook_binary (s : State) : list Z :=
  let side (chain : list LEVEL) :=
    flat_map (λ level,
      flat_map (λ ordernode,
        putc_uint32 (o_qty (deref s ordernode))
        ++ putc_uint32 (o_price (deref s ordernode))) (l_nodes level)) chain
    ++ replicate 8 0 in
  side (FirstBidLevel s) ++ side (FirstAskLevel s).

(** A reader of that format, as the comment in [print_orderbook_binary]
    describes it: messages of 8 bytes, a quantity and a price, big endian; a
    message of quantity 0 ends a side. *)
Definition uint32_of_bytes (b3 b2 b1 b0 : Z) : Z :=
  ((b3 * 256 + b2) * 256 + b1) * 256 + b0.

Fixpoint read_side (bytes : list Z) : option (list (Z * Z) * list Z) :=
  match bytes with
  | q3 :: q2 :: q1 :: q0 :: p3 :: p2 :: p1 :: p0 :: rest =>
      if decide (uint32_of_bytes q3 q2 q1 q0 = 0) then Some ([], rest)
      else match read_side rest with
           | Some (orders, rest) =>
               Some ((uint32_of_bytes q3 q2 q1 q0, uint32_of_bytes p3 p2 p1 p0)
                     :: orders, rest)
           | None => None
           end
  | _ => None
  end.

Definition read_orderbook (bytes : list Z)
  : option (list (Z * Z) * list (Z * Z)) :=
  match read_side bytes with
  | Some (bids, rest) =>
      match read_side rest with
      | Some (asks, []) => Some (bids, asks)
      | _ => None
      end
  | None => None
  end.

(** Quantity and price of the orders of a chain, from the head. *)
Definition book_entries (s : State) (chain : list LEVEL) : list (Z * Z) :=
  (λ n, (o_qty (deref s n), o_price (deref s n))) <$> nodes_of chain.

(** ** The execution messages of a run *)

(** What [print_order] writes for the record [o] of an order whose account
    is named [name]. *)
Definition print_record (name : string) (o : ORDER) : PRINTED_ORDER :=
  {| p_direction := if decide (o_direction o = BUY) then "buy" else "sell";
     p_originalQty := o_originalQty o;
     p_qty := o_qty o;
     p_price := o_price o;
     p_orderType := safe_strcpy EmptyString (orderType_to_print (o_orderType o)) SMALLSTRING;
     p_id := o_id o;
     p_account := name;
     p_ts := o_ts o;
     p_totalFilled := o_totalFilled o;
     p_open := o_open o;
     p_fills := o_fills o |}.

(** The messages that the crosses of the resting orders [crossed], in this
    order, write when they give the fills [fills]: for each cross the message
    to the resting party, then the same to the incoming party, each with the
    order of its addressee as the cross left it. [s] is the state before the
    first cross and [b] the incoming order in it. *)
Fixpoint execution_messages (s : State) (b : ORDER) (crossed : list Z)
    (fills : list FILL) : list EVENT :=
  match crossed, fills with
  | standing :: crossed, fill :: fills =>
      let name_of (o : ORDER) := a_name (deref_account s (o_account o)) in
      let a := fill_order fill (deref s standing) in
      let b := fill_order fill b in
      EXECUTION (name_of a) (print_record (name_of a) a) (o_id a) (o_id b)
        (f_price fill) (f_qty fill) (f_ts fill) (negb (o_open a)) (negb (o_open b))
      :: EXECUTION (name_of b) (print_record (name_of b) b) (o_id a) (o_id b)
           (f_price fill) (f_qty fill) (f_ts fill) (negb (o_open a)) (negb (o_open b))
      :: execution_messages s b crossed fills
  | _, _ => []
  end.
(** * Properties *)

(** ** Machine integers *)

Lemma wrap32_id z : is_int32 z → wrap32 z = z.
Proof.
  unfold is_int32, wrap32. intros H.
  rewrite Z.mod_small; lia.
Qed.

Lemma wrap64_id z :
  -9223372036854775808 <= z <= 9223372036854775807 → wrap64 z = z.
Proof.
  unfold wrap64. intros H.
  rewrite Z.mod_small; lia.
Qed.

Lemma wrap32_range z : is_int32 (wrap32 z).
Proof.
  unfold is_int32, wrap32.
  pose proof (Z.mod_pos_bound (z + 2147483648) 4294967296). lia.
Qed.

(** ** Reading and writing through pointers *)

Lemma deref_assign_eq p f s :
  is_Some (AllOrders s !! p) → deref (assign p f s) p = f (deref s p).
Proof.
  intros [o Ho]. unfold deref, assign. simpl.
  by rewrite !lookup_total_alt, lookup_alter_eq, Ho.
Qed.

Lemma deref_assign_ne p p' f s : p ≠ p' → deref (assign p f s) p' = deref s p'.
Proof. intros. unfold deref, assign. simpl. by apply lookup_total_alter_ne. Qed.

Lemma deref_lookup s p o : AllOrders s !! p = Some o → deref s p = o.
Proof. intros H. unfold deref. by rewrite lookup_total_alt, H. Qed.

(** Unfolding of the state accessors, and of nothing else. *)
Ltac state_simpl :=
  cbn [FirstBidLevel FirstAskLevel AllOrders HighestKnownOrder AllAccounts Quote
       next_id_static clock stderr
       set_FirstBidLevel set_FirstAskLevel set_AllOrders set_HighestKnownOrder
       set_AllAccounts set_Quote set_next_id_static set_clock fprintf_stderr
       assign assign_account new_timestamp set_quote_lastinfo
       create_execution_messages create_ticker_message remake_most_of_quote
       fst snd] in *.

(** One statement of a transcribed function body at a time: the bound value
    gets a name and an equation, so that later uses stay small. *)
Lemma seq_elim {A B : Type} (v : A) (k : A → B) (r : B) :
  r = seq v k → ∃ x, x = v ∧ r = k x.
Proof. intros ->. by exists v. Qed.

Ltac step_let E :=
  lazymatch type of E with
  | _ = seq ?v (λ x, _) =>
      let y := fresh x in
      let Hy := fresh "H" y in
      apply seq_elim in E; destruct E as (y & Hy & E); cbv beta in E
  end.

Ltac state_unfold :=
  unfold assign, assign_account, set_FirstBidLevel, set_FirstAskLevel, set_AllOrders,
    set_HighestKnownOrder, set_AllAccounts, set_Quote, set_next_id_static,
    set_clock, fprintf_stderr in *;
  cbn [FirstBidLevel FirstAskLevel AllOrders HighestKnownOrder AllAccounts Quote
       next_id_static clock stderr] in *.

(** The body of [cross], as an equation to rewrite with. *)
Lemma cross_unfold standing incoming s :
  ltac:(let t := eval cbv delta [cross new_timestamp] beta iota
                 in (cross standing incoming s) in
        exact (t = cross standing incoming s)).
Proof.
  match goal with |- ?b = _ => exact_no_check (@eq_refl State b) end.
Qed.

Lemma two_cells_intro s p a q b :
  AllOrders s !! p = Some a → AllOrders s !! q = Some b →
  s = two_cells s p a q b.
Proof.
  intros Hp Hq. unfold two_cells.
  rewrite (insert_id (AllOrders s) p a Hp), (insert_id (AllOrders s) q b Hq).
  by destruct s.
Qed.

Lemma assign_two_cells_l s p a q b f :
  p ≠ q → assign p f (two_cells s p a q b) = two_cells s p (f a) q b.
Proof.
  intros Hne. unfold two_cells. state_unfold. f_equal.
  apply map_eq. intros k. rewrite lookup_alter.
  destruct (decide (p = k)) as [<-|Hk].
  - rewrite !(lookup_insert_ne _ q p), !lookup_insert_eq by congruence. done.
  - destruct (decide (q = k)) as [<-|Hk'].
    + by rewrite !lookup_insert_eq.
    + by rewrite !lookup_insert_ne.
Qed.

Lemma assign_two_cells_r s p a q b f :
  assign q f (two_cells s p a q b) = two_cells s p a q (f b).
Proof.
  unfold two_cells. state_unfold. f_equal.
  apply map_eq. intros k. rewrite lookup_alter.
  destruct (decide (q = k)) as [<-|Hk].
  - by rewrite !lookup_insert_eq.
  - by rewrite !(lookup_insert_ne _ q).
Qed.

Lemma deref_two_cells_l s p a q b : p ≠ q → deref (two_cells s p a q b) p = a.
Proof.
  intros. apply deref_lookup. unfold two_cells. state_simpl.
  rewrite lookup_insert_ne by congruence. by rewrite lookup_insert_eq.
Qed.

Lemma deref_two_cells_r s p a q b : deref (two_cells s p a q b) q = b.
Proof.
  apply deref_lookup. unfold two_cells. state_simpl. by rewrite lookup_insert_eq.
Qed.

Lemma if_two_cells_l (c : Prop) `{Decision c} s p a a' q b :
  (if decide c then two_cells s p a q b else two_cells s p a' q b)
  = two_cells s p (if decide c then a else a') q b.
Proof. by destruct (decide c). Qed.

Lemma if_two_cells_r (c : Prop) `{Decision c} s p a q b b' :
  (if decide c then two_cells s p a q b else two_cells s p a q b')
  = two_cells s p a q (if decide c then b else b').
Proof. by destruct (decide c). Qed.

Lemma deref_assign_account x f s p : deref (assign_account x f s) p = deref s p.
Proof. reflexivity. Qed.

Lemma deref_account_two_cells s p a q b x :
  deref_account (two_cells s p a q b) x = deref_account s x.
Proof. reflexivity. Qed.

Ltac order_simpl :=
  cbn [o_direction o_originalQty o_qty o_price o_orderType o_id o_account o_ts
       o_fills o_totalFilled o_open set_qty set_totalFilled set_price set_open
       set_fills f_price f_qty f_ts init_fill] in *.

Lemma cross_eq standing incoming a b s :
  standing ≠ incoming →
  AllOrders s !! standing = Some a → AllOrders s !! incoming = Some b →
  cross standing incoming s = cross_result standing incoming a b s.
Proof.
  intros Hne Ha Hb.
  remember (cross standing incoming s) as s' eqn:E.
  rewrite <- cross_unfold in E.
  do 13 step_let E.
  change (deref (set_clock (S (clock s)) s)) with (deref s) in Hquantity.
  rewrite (deref_lookup _ _ _ Ha), (deref_lookup _ _ _ Hb) in Hquantity.
  assert (Ha0 : AllOrders (set_clock (S (clock s)) s) !! standing = Some a) by done.
  assert (Hb0 : AllOrders (set_clock (S (clock s)) s) !! incoming = Some b) by done.
  rewrite (two_cells_intro _ standing a incoming b Ha0 Hb0) in Hs0.
  rewrite assign_two_cells_l in Hs0 by done.
  rewrite Hs0, assign_two_cells_l in Hs1 by done.
  rewrite Hs1, assign_two_cells_r in Hs2.
  rewrite Hs2, assign_two_cells_r in Hs3.
  rewrite Hs3, deref_two_cells_l in Hprice by done.
  rewrite Hs3, assign_two_cells_l in Hs4 by done.
  rewrite Hs4, assign_two_cells_r in Hs5.
  order_simpl.
  rewrite Hs5, deref_two_cells_l, assign_two_cells_l, if_two_cells_l in Hs6 by done.
  rewrite Hs6, deref_two_cells_r, assign_two_cells_r, if_two_cells_r in Hs7 by done.
  order_simpl.
  clear Hs0 Hs1 Hs2 Hs3 Hs4 Hs5 Hs6 s0 s1 s2 s3 s4 s5 s6.
  assert (Hfill' : fill = fill_of a b (clock s)).
  { unfold fill_of. by rewrite Hfill, Hprice, Hquantity. }
  assert (Hs7' : s7 = two_cells (set_clock (S (clock s)) s)
                        standing (fill_order fill a) incoming (fill_order fill b)).
  { rewrite Hs7. unfold fill_order. rewrite Hfill. order_simpl.
    clear. f_equal.
    - destruct (decide (wrap32 (o_qty a - quantity) = 0)); reflexivity.
    - destruct (decide (wrap32 (o_qty b - quantity) = 0)); reflexivity. }
  clear Hs7. 
  cbv zeta in Hs8.
  rewrite !deref_assign_account in Hs8.
  rewrite Hs7', !deref_two_cells_l, !deref_two_cells_r in Hs8 by done.
  rewrite !deref_account_two_cells in Hs8.
  assert (Hs8' : s8 = set_AllAccounts (settle a b fill (AllAccounts s)) s7).
  { rewrite Hs8, Hs7'. unfold settle, fill_order. order_simpl.
    unfold deref_account. state_simpl. rewrite Hfill. order_simpl.
    clear.
    destruct (decide (a_name _ ≠ a_name _)); [|by destruct s].
    destruct (decide (o_direction a = 1)); reflexivity. }
  rewrite E, Hs9, Hs8', Hs7'. unfold cross_result.
  rewrite <- Hfill'. cbv zeta. rewrite Hfill. order_simpl. reflexivity.
Qed.
(** ** The ledger *)

Lemma product_bound price quantity :
  0 <= price <= 2147483647 → 0 <= quantity <= 2147483647 →
  0 <= price * quantity <= 4611686014132420609.
Proof. intros [? ?] [? ?]. nia. Qed.

Lemma clamp_upper z :
  -2147483647 <= z →
  (if decide (z > 2147483647) then 2147483647 else wrap32 z) = clamp z.
Proof.
  intros. unfold clamp. case_decide; [lia|].
  rewrite wrap32_id by (unfold is_int32; lia). lia.
Qed.

Lemma clamp_lower z :
  z <= 2147483647 →
  (if decide (z < -2147483647) then -2147483647 else wrap32 z) = clamp z.
Proof.
  intros. unfold clamp. case_decide; [lia|].
  rewrite wrap32_id by (unfold is_int32; lia). lia.
Qed.

Section ledger.
Context (account : ACCOUNT) (quantity price : Z).
Hypothesis Hshares : -2147483647 <= a_shares account <= 2147483647.
Hypothesis Hcents : -2147483647 <= a_cents account <= 2147483647.
Hypothesis Hquantity : 0 <= quantity <= 2147483647.
Hypothesis Hprice : 0 <= price <= 2147483647.

Lemma update_account_buy :
    update_account account quantity price BUY
    = {| a_name := a_name account; a_orders := a_orders account;
         a_posmin := Z.min (a_posmin account) (clamp (a_shares account + quantity));
         a_posmax := Z.max (a_posmax account) (clamp (a_shares account + quantity));
         a_shares := clamp (a_shares account + quantity);
         a_cents := clamp (a_cents account - price * quantity) |}.
  Proof.
    pose proof (product_bound price quantity Hprice Hquantity) as Hp.
    unfold update_account; cbv zeta.
    destruct (decide (1 = 1)) as [_|?]; [|done].
    rewrite (wrap64_id (price * quantity)) by lia.
    rewrite !wrap64_id by lia.
    rewrite clamp_upper, clamp_lower by lia.
    f_equal; case_decide; lia.
  Qed.

Lemma update_account_sell direction :
    direction ≠ BUY →
    update_account account quantity price direction
    = {| a_name := a_name account; a_orders := a_orders account;
         a_posmin := Z.min (a_posmin account) (clamp (a_shares account - quantity));
         a_posmax := Z.max (a_posmax account) (clamp (a_shares account - quantity));
         a_shares := clamp (a_shares account - quantity);
         a_cents := clamp (a_cents account + price * quantity) |}.
  Proof.
    intros Hdir.
    pose proof (product_bound price quantity Hprice Hquantity) as Hp.
    unfold update_account; cbv zeta.
    destruct (decide (direction = 1)) as [?|_]; [done|].
    rewrite (wrap64_id (price * quantity)) by lia.
    rewrite !wrap64_id by lia.
    rewrite clamp_upper, clamp_lower by lia.
    f_equal; case_decide; lia.
  Qed.
End ledger.

Lemma clamp_range z : -2147483647 <= clamp z <= 2147483647.
Proof. unfold clamp. lia. Qed.

Lemma update_account_ok a quantity price direction :
  account_ok a → 0 <= quantity <= 2147483647 → 0 <= price <= 2147483647 →
  account_ok (update_account a quantity price direction).
Proof.
  intros (Hs & Hc & Hm) Hq Hp.
  destruct (decide (direction = BUY)) as [->|Hd].
  - rewrite update_account_buy by done. unfold account_ok; simpl.
    pose proof (clamp_range (a_shares a + quantity)).
    pose proof (clamp_range (a_cents a - price * quantity)). lia.
  - rewrite update_account_sell by done. unfold account_ok; simpl.
    pose proof (clamp_range (a_shares a - quantity)).
    pose proof (clamp_range (a_cents a + price * quantity)). lia.
Qed.

(** C4.  A ledger update with a quantity and a price that are non-negative
    [int]s, on an account whose shares and cents lie within the saturation
    bounds: shares move by the quantity (up on a buy, down on a sell) and are
    clamped to [-2147483647, 2147483647]; cents move by the exact product
    price * quantity the other way (no 64-bit wrap-around occurs) and are
    clamped the same; posmin and posmax are the min and max with the clamped
    shares. *)
Theorem C4_update_account_clamped (a : ACCOUNT) (quantity price direction : Z) :
  -2147483647 <= a_shares a <= 2147483647 →
  -2147483647 <= a_cents a <= 2147483647 →
  0 <= quantity <= 2147483647 →
  0 <= price <= 2147483647 →
  direction = BUY ∨ direction = SELL →
  let a' := update_account a quantity price direction in
  a_shares a' = clamp (if decide (direction = BUY) then a_shares a + quantity
                       else a_shares a - quantity)
  ∧ a_cents a' = clamp (if decide (direction = BUY) then a_cents a - price * quantity
                        else a_cents a + price * quantity)
  ∧ a_posmin a' = Z.min (a_posmin a) (a_shares a')
  ∧ a_posmax a' = Z.max (a_posmax a) (a_shares a')
  ∧ a_name a' = a_name a ∧ a_orders a' = a_orders a.
Proof.
  intros Hs Hc Hq Hp [->| ->]; cbv zeta.
  - rewrite update_account_buy by done. rewrite decide_True by done. done.
  - rewrite update_account_sell by done. rewrite decide_False by done. done.
Qed.

Lemma C4_update_account_clamped_witness :
  let a := {| a_name := "A"; a_orders := []; a_posmin := -5; a_posmax := 2147483000;
              a_shares := 2147483000; a_cents := -2147480000 |} in
  let a' := update_account a 1000 5000 BUY in
  a_shares a' = 2147483647 ∧ a_cents a' = -2147483647
  ∧ a_posmin a' = -5 ∧ a_posmax a' = 2147483647.
Proof.
  intros a a'.
  destruct (C4_update_account_clamped a 1000 5000 BUY) as (H1 & H2 & H3 & H4 & _);
    [simpl; lia | simpl; lia | lia | lia | by left |].
  fold a' in H1, H2, H3, H4.
  rewrite H3, H4, H1, H2. vm_compute. done.
Defined.
(** ** One cross *)

Lemma create_execution_messages_stderr standing incoming quantity price ts s :
  let s' := create_execution_messages standing incoming quantity price ts s in
  ∃ n1 p1 c1 c2 n2 p2,
    stderr s'
    = stderr s ++ [EXECUTION n1 p1 (o_id (deref s' standing)) (o_id (deref s' incoming))
                     price quantity ts c1 c2;
                   EXECUTION n2 p2 (o_id (deref s' standing)) (o_id (deref s' incoming))
                     price quantity ts c1 c2].
Proof.
  unfold create_execution_messages. cbv zeta.
  do 6 eexists. unfold fprintf_stderr at 1. cbn [stderr].
  unfold fprintf_stderr at 1. cbn [stderr].
  rewrite <- app_assoc. reflexivity.
Qed.

Section cross_projections.
Context (standing incoming : Z) (a b : ORDER) (s : State).
Let s' := cross_result standing incoming a b s.
Let fill := fill_of a b (clock s).

Lemma cross_result_FirstBidLevel : FirstBidLevel s' = FirstBidLevel s.
  Proof. reflexivity. Qed.

Lemma cross_result_FirstAskLevel : FirstAskLevel s' = FirstAskLevel s.
  Proof. reflexivity. Qed.

Lemma cross_result_next_id_static : next_id_static s' = next_id_static s.
  Proof. reflexivity. Qed.

Lemma cross_result_HighestKnownOrder : HighestKnownOrder s' = HighestKnownOrder s.
  Proof. reflexivity. Qed.

Lemma cross_result_AllOrders :
    AllOrders s'
    = <[incoming := fill_order fill b]> (<[standing := fill_order fill a]> (AllOrders s)).
  Proof. reflexivity. Qed.

Lemma cross_result_AllAccounts :
    AllAccounts s' = settle a b fill (AllAccounts s).
  Proof. reflexivity. Qed.

Lemma cross_result_Quote :
    Quote s'
    = {| q_bidSize := q_bidSize (Quote s); q_askSize := q_askSize (Quote s);
         q_bidDepth := q_bidDepth (Quote s); q_askDepth := q_askDepth (Quote s);
         q_bid := q_bid (Quote s); q_ask := q_ask (Quote s);
         q_last := o_price a; q_lastSize := f_qty fill;
         q_lastTrade := Some (S (clock s)); q_quoteTime := q_quoteTime (Quote s) |}.
  Proof. reflexivity. Qed.


Lemma cross_result_stderr :
    ∃ n1 p1 c1 c2 n2 p2,
      stderr s'
      = stderr s ++ [EXECUTION n1 p1 (o_id (deref s' standing)) (o_id (deref s' incoming))
                       (o_price a) (f_qty fill) (clock s) c1 c2;
                     EXECUTION n2 p2 (o_id (deref s' standing)) (o_id (deref s' incoming))
                       (o_price a) (f_qty fill) (clock s) c1 c2].
  Proof.
    subst s'. unfold cross_result. cbv zeta.
    match goal with
    | |- context [create_execution_messages ?x1 ?x2 ?x3 ?x4 ?x5 ?x6] =>
        destruct (create_execution_messages_stderr x1 x2 x3 x4 x5 x6)
          as (n1 & p1 & c1 & c2 & n2 & p2 & H)
    end.
    exists n1, p1, c1, c2, n2, p2. exact H.
  Qed.
End cross_projections.

Lemma fill_of_qty a b ts : f_qty (fill_of a b ts) = Z.min (o_qty a) (o_qty b).
Proof. unfold fill_of. simpl. case_decide; lia. Qed.

Lemma fill_order_no_wrap fill o :
  0 <= f_qty fill <= o_qty o → o_qty o <= 2147483647 →
  0 <= o_totalFilled o → o_totalFilled o + o_qty o <= 2147483647 →
  fill_order fill o
  = {| o_direction := o_direction o; o_originalQty := o_originalQty o;
       o_qty := o_qty o - f_qty fill;
       o_price := o_price o; o_orderType := o_orderType o; o_id := o_id o;
       o_account := o_account o; o_ts := o_ts o;
       o_fills := o_fills o ++ [fill];
       o_totalFilled := o_totalFilled o + f_qty fill;
       o_open := if decide (o_qty o - f_qty fill = 0) then false else o_open o |}.
Proof.
  intros. unfold fill_order.
  rewrite !wrap32_id by (unfold is_int32; lia). reflexivity.
Qed.

(** C2.  A cross between two distinct orders whose quantities are
    non-negative [int]s and whose filled plus remaining quantity fits an
    [int]: the fill quantity is the minimum of the two remaining quantities,
    the fill price is the standing order's price whatever the type of the
    incoming order, both [qty] fields go down and both [totalFilled] fields
    go up by the fill quantity, the same fill record (price, quantity,
    timestamp) is appended to both fill sequences, and an order whose [qty]
    reached 0 is closed (the other keeps its [open] flag). *)
Theorem C2_cross_fills_both_orders (standing incoming : Z) (a b : ORDER) (s : State) :
  standing ≠ incoming →
  AllOrders s !! standing = Some a →
  AllOrders s !! incoming = Some b →
  0 <= o_qty a → 0 <= o_totalFilled a → o_totalFilled a + o_qty a <= 2147483647 →
  0 <= o_qty b → 0 <= o_totalFilled b → o_totalFilled b + o_qty b <= 2147483647 →
  let s' := cross standing incoming s in
  let q := Z.min (o_qty a) (o_qty b) in
  let fill := {| f_price := o_price a; f_qty := q; f_ts := clock s |} in
  ∃ a' b',
    AllOrders s' !! standing = Some a' ∧ AllOrders s' !! incoming = Some b'
    ∧ o_qty a' = o_qty a - q ∧ o_qty b' = o_qty b - q
    ∧ o_totalFilled a' = o_totalFilled a + q
    ∧ o_totalFilled b' = o_totalFilled b + q
    ∧ o_fills a' = o_fills a ++ [fill] ∧ o_fills b' = o_fills b ++ [fill]
    ∧ o_open a' = (if decide (o_qty a' = 0) then false else o_open a)
    ∧ o_open b' = (if decide (o_qty b' = 0) then false else o_open b).
Proof.
  intros Hne Ha Hb Hqa Hta Hsa Hqb Htb Hsb s' q fill.
  subst s'. rewrite (cross_eq _ _ a b) by done.
  rewrite cross_result_AllOrders.
  pose proof (fill_of_qty a b (clock s)) as Hq. fold q in Hq.
  assert (Hfill : fill_of a b (clock s) = fill).
  { unfold fill_of, fill, init_fill. f_equal. exact Hq. }
  rewrite Hfill.
  exists (fill_order fill a), (fill_order fill b).
  rewrite lookup_insert_ne, !lookup_insert_eq by done.
  rewrite !fill_order_no_wrap by (subst fill; simpl; lia).
  simpl. done.
Qed.

Lemma C2_cross_fills_both_orders_witness :
  let s' := cross 0 1 example_two_sided in
  ∃ a' b',
    AllOrders s' !! 0 = Some a' ∧ AllOrders s' !! 1 = Some b'
    ∧ o_qty a' = 40 ∧ o_qty b' = 0
    ∧ o_totalFilled a' = 60 ∧ o_totalFilled b' = 60
    ∧ o_fills a' = [{| f_price := 5000; f_qty := 60; f_ts := 5%nat |}]
    ∧ o_fills b' = [{| f_price := 5000; f_qty := 60; f_ts := 5%nat |}]
    ∧ o_open a' = true ∧ o_open b' = false.
Proof.
  destruct (C2_cross_fills_both_orders 0 1
              (deref example_two_sided 0) (deref example_two_sided 1)
              example_two_sided)
    as (a' & b' & Ha & Hb & H1 & H2 & H3 & H4 & H5 & H6 & H7 & H8);
    [done | vm_compute; reflexivity | vm_compute; reflexivity
    | vm_compute; discriminate | vm_compute; discriminate
    | vm_compute; discriminate | vm_compute; discriminate
    | vm_compute; discriminate | vm_compute; discriminate |].
  exists a', b'. rewrite H7, H8, H1, H2.
  vm_compute in H1, H2, H3, H4, H5, H6.
  repeat split; try assumption; vm_compute; reflexivity.
Defined.

(** C6.  A cross between two orders whose accounts carry the same name
    leaves the account table as it was (no ledger entry for either side),
    while the fill is appended to both orders and the last-trade fields of
    the quote are set from it. *)
Theorem C6_self_trade_skips_ledger (standing incoming : Z) (a b : ORDER) (s : State) :
  standing ≠ incoming →
  AllOrders s !! standing = Some a →
  AllOrders s !! incoming = Some b →
  a_name (deref_account s (o_account a)) = a_name (deref_account s (o_account b)) →
  let s' := cross standing incoming s in
  let fill := fill_of a b (clock s) in
  AllAccounts s' = AllAccounts s
  ∧ o_fills (deref s' standing) = o_fills a ++ [fill]
  ∧ o_fills (deref s' incoming) = o_fills b ++ [fill]
  ∧ q_last (Quote s') = f_price fill
  ∧ q_lastSize (Quote s') = f_qty fill
  ∧ q_lastTrade (Quote s') = Some (S (clock s)).
Proof.
  intros Hne Ha Hb Hname s' fill. subst s'.
  rewrite (cross_eq _ _ a b) by done.
  rewrite cross_result_AllAccounts, cross_result_Quote.
  split; [|split; [|split]].
  - unfold settle. rewrite decide_False; [done|].
    intros Hn. apply Hn. exact Hname.
  - erewrite deref_lookup; [|rewrite cross_result_AllOrders;
      rewrite lookup_insert_ne by done; apply lookup_insert_eq]. done.
  - erewrite deref_lookup; [|rewrite cross_result_AllOrders; apply lookup_insert_eq].
    done.
  - done.
Qed.

Lemma C6_self_trade_skips_ledger_witness :
  let s' := cross 0 1 example_same_account in
  AllAccounts s' = AllAccounts example_same_account
  ∧ o_fills (deref s' 0) = [{| f_price := 5000; f_qty := 60; f_ts := 5%nat |}]
  ∧ o_fills (deref s' 1) = [{| f_price := 5000; f_qty := 60; f_ts := 5%nat |}]
  ∧ q_last (Quote s') = 5000
  ∧ q_lastSize (Quote s') = 60
  ∧ q_lastTrade (Quote s') = Some 6%nat.
Proof.
  destruct (C6_self_trade_skips_ledger 0 1
              (deref example_same_account 0) (deref example_same_account 1)
              example_same_account)
    as (H1 & H2 & H3 & H4 & H5 & H6);
    [done | vm_compute; reflexivity | vm_compute; reflexivity
    | vm_compute; reflexivity |].
  split; [exact H1|].
  split; [rewrite H2; vm_compute; reflexivity|].
  split; [rewrite H3; vm_compute; reflexivity|].
  split; [rewrite H4; vm_compute; reflexivity|].
  split; [rewrite H5; vm_compute; reflexivity|].
  rewrite H6; vm_compute; reflexivity.
Defined.
(** ** Fields that a cross never writes *)

Lemma static_eq_refl o : static_eq o o.
Proof. by unfold static_eq. Qed.

Lemma static_eq_trans o1 o2 o3 : static_eq o1 o2 → static_eq o2 o3 → static_eq o1 o3.
Proof. unfold static_eq. intros (?&?&?&?&?&?&?) (?&?&?&?&?&?&?). repeat split; congruence. Qed.

Lemma assign_static p f s p' :
  (∀ o, static_eq o (f o)) → static_eq (deref s p') (deref (assign p f s) p').
Proof.
  intros Hf. unfold deref, assign. state_simpl.
  rewrite !lookup_total_alt, lookup_alter.
  destruct (decide (p = p')) as [->|]; [|apply static_eq_refl].
  destruct (AllOrders s !! p'); simpl; [apply Hf|apply static_eq_refl].
Qed.

Lemma assign_if_static (c : Prop) `{Decision c} p f s p' :
  (∀ o, static_eq o (f o)) →
  static_eq (deref s p') (deref (if decide c then assign p f s else s) p').
Proof.
  intros. destruct (decide c); [by apply assign_static|apply static_eq_refl].
Qed.

Lemma cross_static standing incoming s p :
  static_eq (deref s p) (deref (cross standing incoming s) p).
Proof.
  remember (cross standing incoming s) as s' eqn:E.
  rewrite <- cross_unfold in E.
  do 13 step_let E.
  assert (H9 : deref s' p = deref s7 p).
  { rewrite E, Hs9, Hs8. clear.
    destruct (decide (a_name _ ≠ a_name _)); [|reflexivity].
    destruct (decide (o_direction _ = 1)); reflexivity. }
  rewrite H9.
  eapply static_eq_trans; [|rewrite Hs7; apply assign_if_static; by intros; unfold static_eq].
  eapply static_eq_trans; [|rewrite Hs6; apply assign_if_static; by intros; unfold static_eq].
  eapply static_eq_trans; [|rewrite Hs5; apply assign_static; by intros; unfold static_eq].
  eapply static_eq_trans; [|rewrite Hs4; apply assign_static; by intros; unfold static_eq].
  eapply static_eq_trans; [|rewrite Hs3; apply assign_static; by intros; unfold static_eq].
  eapply static_eq_trans; [|rewrite Hs2; apply assign_static; by intros; unfold static_eq].
  eapply static_eq_trans; [|rewrite Hs1; apply assign_static; by intros; unfold static_eq].
  rewrite Hs0. apply (assign_static _ _ (set_clock (S (clock s)) s)).
  by intros; unfold static_eq.
Qed.

Lemma match_queue_static queue order s p :
  static_eq (deref s p) (deref (match_queue queue order s) p).
Proof.
  revert s. induction queue as [|n queue IH]; intros s; cbn [match_queue run_order_nodes app].
  - apply static_eq_refl.
  - destruct (o_open _).
    + eapply static_eq_trans; [apply (cross_static n order)|apply IH].
    + apply cross_static.
Qed.

(** ** The walk of [run_order] is the walk of the queue *)

Lemma match_queue_app q1 q2 order s :
  match_queue (q1 ++ q2) order s
  = (if o_open (deref (match_queue q1 order s) order) || bool_decide (q1 = [])
     then match_queue q2 order (match_queue q1 order s)
     else match_queue q1 order s).
Proof.
  revert s. induction q1 as [|n q1 IH]; intros s; cbn [match_queue run_order_nodes app].
  - by rewrite orb_true_r.
  - rewrite orb_false_r.
    destruct (o_open (deref (cross n order s) order)) eqn:Hopen.
    + rewrite IH. destruct q1 as [|m q1]; cbn [match_queue app].
      * rewrite Hopen. done.
      * rewrite orb_false_r. done.
    + rewrite Hopen. done.
Qed.

Lemma run_order_nodes_match_queue nodes order s :
  run_order_nodes nodes order s
  = (match_queue nodes order s,
     negb (o_open (deref (match_queue nodes order s) order) || bool_decide (nodes = []))).
Proof.
  revert s. induction nodes as [|n nodes IH]; intros s; cbn [match_queue run_order_nodes app].
  - by rewrite orb_true_r.
  - destruct (o_open (deref (cross n order s) order)) eqn:Hopen.
    + rewrite IH. f_equal. destruct nodes; cbn [match_queue]; [by rewrite Hopen|].
      by rewrite !orb_false_r.
    + by rewrite Hopen.
Qed.
Lemma nodes_of_cons l chain : nodes_of (l :: chain) = l_nodes l ++ nodes_of chain.
Proof. reflexivity. Qed.

Lemma run_order_levels_match_queue gate adm inc levels order s :
  static_eq inc (deref s order) →
  (∀ l, gate (l_price l) (o_price inc) && bool_decide (o_orderType inc ≠ MARKET)
        = negb (adm l)) →
  run_order_levels gate levels order s
  = match_queue (nodes_of (take_while adm levels)) order s.
Proof.
  intros Hst Hgate. revert s Hst.
  induction levels as [|l levels IH]; intros s Hst; cbn [run_order_levels take_while].
  - reflexivity.
  - destruct Hst as (Hd & Hq & Hp & Ht & Hrest).
    rewrite <- Hp, <- Ht, Hgate.
    destruct (adm l); cbn [negb]; [|reflexivity].
    rewrite run_order_nodes_match_queue, nodes_of_cons, match_queue_app.
    destruct (o_open _ || bool_decide _); cbn [negb]; [|reflexivity].
    apply IH.
    eapply static_eq_trans; [|apply match_queue_static].
    by unfold static_eq.
Qed.

Lemma run_order_match_queue order s :
  run_order order s = match_queue (crossable_queue s order) order s.
Proof.
  unfold run_order, crossable_queue, opposite_side, admissible.
  destruct (decide (o_direction (deref s order) = 2)) as [Hd|Hd].
  - apply (run_order_levels_match_queue _ _ (deref s order)); [apply static_eq_refl|].
    intros l. repeat case_bool_decide; simpl; try reflexivity; lia.
  - apply (run_order_levels_match_queue _ _ (deref s order)); [apply static_eq_refl|].
    intros l. repeat case_bool_decide; simpl; try reflexivity; lia.
Qed.

Lemma take_while_all {A} (f : A → bool) (l : list A) :
  (∀ x, f x = true) → take_while f l = l.
Proof. intros Hf. induction l as [|x l IH]; simpl; [done|]. by rewrite Hf, IH. Qed.

Lemma take_while_ext {A} (f g : A → bool) (l : list A) :
  (∀ x, f x = g x) → take_while f l = take_while g l.
Proof. intros Hf. induction l as [|x l IH]; simpl; [done|]. by rewrite Hf, IH. Qed.

Lemma crossable_queue_market s order :
  o_orderType (deref s order) = MARKET →
  crossable_queue s order = nodes_of (opposite_side (deref s order) s).
Proof.
  intros Ht. unfold crossable_queue. rewrite take_while_all; [done|].
  intros l. unfold admissible. by rewrite bool_decide_eq_true_2.
Qed.

Lemma crossable_queue_sell s order :
  o_orderType (deref s order) ≠ MARKET → o_direction (deref s order) = SELL →
  crossable_queue s order
  = nodes_of (take_while (λ l, bool_decide (o_price (deref s order) <= l_price l))
                         (FirstBidLevel s)).
Proof.
  intros Ht Hd. unfold crossable_queue, opposite_side.
  rewrite decide_True by done. f_equal. apply take_while_ext.
  intros l. unfold admissible.
  rewrite bool_decide_eq_false_2 by done. by rewrite decide_True.
Qed.

Lemma crossable_queue_buy s order :
  o_orderType (deref s order) ≠ MARKET → o_direction (deref s order) ≠ SELL →
  crossable_queue s order
  = nodes_of (take_while (λ l, bool_decide (l_price l <= o_price (deref s order)))
                         (FirstAskLevel s)).
Proof.
  intros Ht Hd. unfold crossable_queue, opposite_side.
  rewrite decide_False by done. f_equal. apply take_while_ext.
  intros l. unfold admissible.
  rewrite bool_decide_eq_false_2 by done. by rewrite decide_False.
Qed.
(** ** Invariants: frame lemmas *)

Lemma store_extends_refl s : store_extends s s.
Proof. intros k o Ho. exists o. split; [done|apply static_eq_refl]. Qed.

Lemma store_extends_trans s1 s2 s3 :
  store_extends s1 s2 → store_extends s2 s3 → store_extends s1 s3.
Proof.
  intros H12 H23 k o Ho.
  destruct (H12 k o Ho) as (o2 & Ho2 & Hs2).
  destruct (H23 k o2 Ho2) as (o3 & Ho3 & Hs3).
  exists o3. split; [done|]. by eapply static_eq_trans.
Qed.

Lemma node_wf_mono s s' side price n :
  store_extends s s' → node_wf s side price n → node_wf s' side price n.
Proof.
  intros Hext (o & Ho & Ht & Hp & Hd).
  destruct (Hext n o Ho) as (o' & Ho' & Hst).
  exists o'. destruct Hst as (?&?&?&?&?). repeat split; congruence.
Qed.

Lemma level_wf_mono s s' side l :
  store_extends s s' → level_wf s side l → level_wf s' side l.
Proof.
  intros Hext [Hne Hall]. split; [done|].
  eapply Forall_impl; [exact Hall|]. intros n. by apply node_wf_mono.
Qed.

Lemma chain_wf_mono s s' side R chain :
  store_extends s s' → chain_wf s side R chain → chain_wf s' side R chain.
Proof.
  intros Hext (Hl & Hs & Hn). split; [|done].
  eapply Forall_impl; [exact Hl|]. intros l. by apply level_wf_mono.
Qed.

(** ** Invariants: one cross *)

Lemma order_wf_sum o : order_wf o → o_qty o + o_totalFilled o <= o_originalQty o.
Proof. intros (?&?&?&?&?&Hopen). destruct (o_open o); lia. Qed.

Lemma fill_of_bounds a b ts :
  order_wf a → order_wf b →
  0 <= f_qty (fill_of a b ts) <= o_qty a
  ∧ f_qty (fill_of a b ts) <= o_qty b
  ∧ f_qty (fill_of a b ts) <= 2147483647
  ∧ 0 <= f_price (fill_of a b ts) <= 2147483647.
Proof.
  intros Ha Hb. rewrite fill_of_qty.
  pose proof (order_wf_sum a Ha). pose proof (order_wf_sum b Hb).
  destruct Ha as (?&?&?&?&?&?), Hb as (?&?&?&?&?&?). simpl. lia.
Qed.

Lemma fill_order_exact fill o :
  order_wf o → 0 <= f_qty fill <= o_qty o →
  fill_order fill o
  = {| o_direction := o_direction o; o_originalQty := o_originalQty o;
       o_qty := o_qty o - f_qty fill;
       o_price := o_price o; o_orderType := o_orderType o; o_id := o_id o;
       o_account := o_account o; o_ts := o_ts o;
       o_fills := o_fills o ++ [fill];
       o_totalFilled := o_totalFilled o + f_qty fill;
       o_open := if decide (o_qty o - f_qty fill = 0) then false else o_open o |}.
Proof.
  intros Ho Hq. pose proof (order_wf_sum o Ho).
  destruct Ho as (?&?&?&?&?&?).
  apply fill_order_no_wrap; lia.
Qed.

Lemma fill_order_wf fill o :
  order_wf o → 0 <= f_qty fill <= o_qty o → order_wf (fill_order fill o).
Proof.
  intros Ho Hq. rewrite fill_order_exact by done.
  pose proof (order_wf_sum o Ho).
  destruct Ho as (?&?&?&?&?&Hopen).
  unfold order_wf; simpl. repeat split; try lia; try done.
  destruct (decide (o_qty o - f_qty fill = 0)); [lia|].
  destruct (o_open o); lia.
Qed.

Lemma fill_order_static fill o : static_eq o (fill_order fill o).
Proof. by unfold static_eq. Qed.

Lemma update_account_name a quantity price direction :
  a_name (update_account a quantity price direction) = a_name a.
Proof. reflexivity. Qed.

Lemma settle_lookup a b fill accounts k :
  map_Forall (λ _, account_ok) accounts →
  0 <= f_qty fill <= 2147483647 → 0 <= f_price fill <= 2147483647 →
  match settle a b fill accounts !! k with
  | Some x => ∃ y, accounts !! k = Some y ∧ account_ok x ∧ a_name x = a_name y
              ∧ a_orders x = a_orders y
  | None => accounts !! k = None
  end.
Proof.
  intros Hok Hq Hp. unfold settle.
  assert (Hid : match accounts !! k with
                | Some x => ∃ y, accounts !! k = Some y ∧ account_ok x
                            ∧ a_name x = a_name y ∧ a_orders x = a_orders y
                | None => accounts !! k = None end).
  { destruct (accounts !! k) as [x|] eqn:Hx; [|done].
    exists x. split; [done|]. split; [by eapply Hok|done]. }
  assert (Hstep : ∀ (m : gmap Z ACCOUNT) d j,
    match m !! k with
    | Some x => ∃ y, accounts !! k = Some y ∧ account_ok x
                ∧ a_name x = a_name y ∧ a_orders x = a_orders y
    | None => accounts !! k = None end →
    match alter (λ a0, update_account a0 (f_qty fill) (f_price fill) d) j m !! k with
    | Some x => ∃ y, accounts !! k = Some y ∧ account_ok x
                ∧ a_name x = a_name y ∧ a_orders x = a_orders y
    | None => accounts !! k = None end).
  { intros m d j Hm. rewrite lookup_alter.
    destruct (decide (j = k)) as [->|]; [|done].
    destruct (m !! k) as [x|]; simpl; [|done].
    destruct Hm as (y & Hy & Hx & Hn & Ho). exists y.
    split; [done|]. split; [apply update_account_ok; [done|lia|lia]|done]. }
  destruct (decide _); [|done].
  destruct (decide _); by do 2 apply Hstep.
Qed.

Lemma settle_ok a b fill accounts :
  map_Forall (λ _, account_ok) accounts →
  0 <= f_qty fill <= 2147483647 → 0 <= f_price fill <= 2147483647 →
  map_Forall (λ _, account_ok) (settle a b fill accounts).
Proof.
  intros Hok Hq Hp k x Hx.
  pose proof (settle_lookup a b fill accounts k Hok Hq Hp) as H.
  rewrite Hx in H. by destruct H as (y & _ & ? & _).
Qed.

Lemma settle_is_Some a b fill accounts k :
  is_Some (settle a b fill accounts !! k) ↔ is_Some (accounts !! k).
Proof.
  unfold settle. repeat case_decide; rewrite ?lookup_alter_is_Some; done.
Qed.

Section cross_invariant.
Context (standing incoming : Z) (a b : ORDER) (s : State).
Hypothesis Hne : standing ≠ incoming.
Hypothesis Ha : AllOrders s !! standing = Some a.
Hypothesis Hb : AllOrders s !! incoming = Some b.

Lemma cross_lookup_standing :
    AllOrders (cross standing incoming s) !! standing
    = Some (fill_order (fill_of a b (clock s)) a).
  Proof.
    rewrite (cross_eq _ _ a b), cross_result_AllOrders by done.
    rewrite lookup_insert_ne by done. apply lookup_insert_eq.
  Qed.

Lemma cross_lookup_incoming :
    AllOrders (cross standing incoming s) !! incoming
    = Some (fill_order (fill_of a b (clock s)) b).
  Proof.
    rewrite (cross_eq _ _ a b), cross_result_AllOrders by done.
    apply lookup_insert_eq.
  Qed.

Lemma cross_lookup_other k :
    k ≠ standing → k ≠ incoming →
    AllOrders (cross standing incoming s) !! k = AllOrders s !! k.
  Proof.
    intros. rewrite (cross_eq _ _ a b), cross_result_AllOrders by done.
    by rewrite !lookup_insert_ne.
  Qed.

Lemma cross_store_extends : store_extends s (cross standing incoming s).
  Proof.
    intros k o Ho.
    destruct (decide (k = standing)) as [->|Hks].
    { rewrite cross_lookup_standing. eexists; split; [done|].
      replace o with a by congruence. apply fill_order_static. }
    destruct (decide (k = incoming)) as [->|Hki].
    { rewrite cross_lookup_incoming. eexists; split; [done|].
      replace o with b by congruence. apply fill_order_static. }
    rewrite cross_lookup_other by done. exists o. split; [done|apply static_eq_refl].
  Qed.

Lemma cross_Inv_base : Inv_base s → Inv_base (cross standing incoming s).
  Proof.
    intros [Hord Hcnt Hacc Hbid Hask].
    assert (Hwa : order_wf a) by (by destruct (Hord _ _ Ha)).
    assert (Hwb : order_wf b) by (by destruct (Hord _ _ Hb)).
    pose proof (fill_of_bounds a b (clock s) Hwa Hwb) as (Hq1 & Hq2 & Hq3 & Hp).
    pose proof cross_store_extends as Hext.
    split.
    - intros k o Ho.
      assert (Hfr : ∀ o0, order_ok s k o0 → order_wf o → static_eq o0 o →
                          order_ok (cross standing incoming s) k o).
      { intros o0 (Hw & Hid & Hk & Hac) Hwo (?&?&?&?&?&?&?).
        split; [done|]. split; [congruence|]. split.
        - by rewrite (cross_eq _ _ a b), cross_result_next_id_static.
        - rewrite (cross_eq _ _ a b), cross_result_AllAccounts by done.
          apply settle_is_Some. congruence. }
      destruct (decide (k = standing)) as [->|Hks].
      { rewrite cross_lookup_standing in Ho. injection Ho as <-.
        apply (Hfr a); [by apply Hord|apply fill_order_wf; [done|lia]
                       |apply fill_order_static]. }
      destruct (decide (k = incoming)) as [->|Hki].
      { rewrite cross_lookup_incoming in Ho. injection Ho as <-.
        apply (Hfr b); [by apply Hord|apply fill_order_wf; [done|lia]
                       |apply fill_order_static]. }
      rewrite cross_lookup_other in Ho by done.
      apply (Hfr o); [by apply Hord|by destruct (Hord _ _ Ho)|apply static_eq_refl].
    - by rewrite (cross_eq _ _ a b), cross_result_next_id_static.
    - rewrite (cross_eq _ _ a b), cross_result_AllAccounts by done.
      apply settle_ok; [done|lia|lia].
    - rewrite (cross_eq _ _ a b) at 2 by done. rewrite cross_result_FirstBidLevel.
      by eapply chain_wf_mono.
    - rewrite (cross_eq _ _ a b) at 2 by done. rewrite cross_result_FirstAskLevel.
      by eapply chain_wf_mono.
  Qed.
End cross_invariant.
(** ** Invariants: a matching run *)

Lemma fill_order_closes_one a b ts :
  order_wf a → order_wf b →
  o_open (fill_order (fill_of a b ts) b) = true →
  o_open (fill_order (fill_of a b ts) a) = false.
Proof.
  intros Ha Hb.
  pose proof (fill_of_bounds a b ts Ha Hb) as (Hq1 & Hq2 & _).
  pose proof (fill_of_qty a b ts) as Hq.
  remember (fill_of a b ts) as fill eqn:Hfill. clear Hfill.
  rewrite !fill_order_exact by (done || lia). cbn [o_open].
  destruct (decide (o_qty b - _ = 0)); [done|].
  intros _. destruct (decide (o_qty a - _ = 0)); [done|lia].
Qed.

Lemma deref_cross_other standing incoming a b s k :
  standing ≠ incoming →
  AllOrders s !! standing = Some a → AllOrders s !! incoming = Some b →
  k ≠ standing → k ≠ incoming →
  deref (cross standing incoming s) k = deref s k.
Proof.
  intros. unfold deref. rewrite !lookup_total_alt.
  by rewrite (cross_lookup_other standing incoming a b).
Qed.

Lemma match_queue_Inv_base queue order : ∀ s b,
  Inv_base s → AllOrders s !! order = Some b → order ∉ queue →
  Forall (λ n, is_Some (AllOrders s !! n)) queue →
  let s' := match_queue queue order s in
  Inv_base s' ∧ store_extends s s'
  ∧ FirstBidLevel s' = FirstBidLevel s ∧ FirstAskLevel s' = FirstAskLevel s
  ∧ next_id_static s' = next_id_static s
  ∧ HighestKnownOrder s' = HighestKnownOrder s
  ∧ (∀ k, k ∉ queue → k ≠ order → AllOrders s' !! k = AllOrders s !! k).
Proof.
  induction queue as [|n queue IH]; intros s b Hinv Hb Hnotin Hsome; cbn [match_queue].
  - split_and!; try done. apply store_extends_refl.
  - apply not_elem_of_cons in Hnotin as [Hne Hnotin].
    apply Forall_cons in Hsome as [[a Ha] Hsome].
    assert (Hne' : n ≠ order) by congruence.
    pose proof (cross_Inv_base n order a b s Hne' Ha Hb Hinv) as Hinv1.
    pose proof (cross_store_extends n order a b s Hne' Ha Hb) as Hext1.
    pose proof (cross_lookup_incoming n order a b s Hne' Ha Hb) as Hb1.
    assert (Hframe :
      FirstBidLevel (cross n order s) = FirstBidLevel s
      ∧ FirstAskLevel (cross n order s) = FirstAskLevel s
      ∧ next_id_static (cross n order s) = next_id_static s
      ∧ HighestKnownOrder (cross n order s) = HighestKnownOrder s).
    { by rewrite (cross_eq _ _ a b). }
    destruct Hframe as (Hf1 & Hf2 & Hf3 & Hf4).
    assert (Hother : ∀ k, k ∉ n :: queue → k ≠ order →
              AllOrders (cross n order s) !! k = AllOrders s !! k).
    { intros k Hk Hko. apply not_elem_of_cons in Hk as [Hk1 Hk2].
      by apply (cross_lookup_other n order a b). }
    destruct (o_open (deref (cross n order s) order)).
    + assert (Hsome1 : Forall (λ n0, is_Some (AllOrders (cross n order s) !! n0)) queue).
      { eapply Forall_impl; [exact Hsome|]. intros k [o Ho].
        destruct (Hext1 k o Ho) as (o' & Ho' & _). by exists o'. }
      destruct (IH _ _ Hinv1 Hb1 Hnotin Hsome1) as (H1 & H2 & H3 & H4 & H5 & H6 & H7).
      split; [done|]. split; [by eapply store_extends_trans|].
      split; [congruence|]. split; [congruence|]. split; [congruence|].
      split; [congruence|].
      intros k Hk Hko. rewrite H7; [by apply Hother|by apply not_elem_of_cons in Hk as [_ ?]|done].
    + split_and!; [exact Hinv1|exact Hext1|exact Hf1|exact Hf2|exact Hf3|exact Hf4
                  |exact Hother].
Qed.

Lemma match_queue_closed_then_open queue order : ∀ s b,
  Inv_base s → AllOrders s !! order = Some b → o_open b = true →
  order ∉ queue → NoDup queue →
  Forall (λ n, is_Some (AllOrders s !! n) ∧ o_open (deref s n) = true) queue →
  closed_then_open (match_queue queue order s) queue.
Proof.
  induction queue as [|n queue IH]; intros s b Hinv Hb Hopen Hnotin Hnd Hq;
    cbn [match_queue].
  - exists [], []. by split_and!.
  - apply not_elem_of_cons in Hnotin as [Hne Hnotin].
    apply NoDup_cons in Hnd as [Hn Hnd].
    apply Forall_cons in Hq as [[[a Ha] Hao] Hq].
    assert (Hne' : n ≠ order) by congruence.
    pose proof (cross_Inv_base n order a b s Hne' Ha Hb Hinv) as Hinv1.
    pose proof (cross_store_extends n order a b s Hne' Ha Hb) as Hext1.
    pose proof (cross_lookup_incoming n order a b s Hne' Ha Hb) as Hb1.
    pose proof (cross_lookup_standing n order a b s Hne' Ha Hb) as Ha1.
    assert (Hwa : order_wf a) by (by destruct (inv_orders s Hinv _ _ Ha)).
    assert (Hwb : order_wf b) by (by destruct (inv_orders s Hinv _ _ Hb)).
    assert (Hq1 : Forall (λ n0, is_Some (AllOrders (cross n order s) !! n0)
                                ∧ o_open (deref (cross n order s) n0) = true) queue).
    { apply Forall_forall. intros k Hk.
      rewrite Forall_forall in Hq. destruct (Hq k Hk) as [[o Ho] Hko].
      assert (k ≠ n) by (intros ->; done).
      assert (k ≠ order) by (intros ->; done).
      rewrite (deref_cross_other n order a b), (cross_lookup_other n order a b) by done.
      split; [by exists o|done]. }
    rewrite (deref_lookup _ _ _ Hb1).
    destruct (o_open (fill_order _ b)) eqn:Hob.
    + pose proof (fill_order_closes_one a b (clock s) Hwa Hwb Hob) as Hoa.
      destruct (IH _ _ Hinv1 Hb1 Hob Hnotin Hnd Hq1) as (q1 & q2 & -> & Hc & Ho).
      exists (n :: q1), q2. split; [done|]. split; [|done].
      apply Forall_cons. split; [|done].
      assert (Hsome1 : Forall (λ n0, is_Some (AllOrders (cross n order s) !! n0))
                              (q1 ++ q2)).
      { eapply Forall_impl; [exact Hq1|]. by intros k [? _]. }
      destruct (match_queue_Inv_base (q1 ++ q2) order _ _ Hinv1 Hb1 Hnotin Hsome1)
        as (_ & _ & _ & _ & _ & _ & Hother).
      erewrite deref_lookup; [|rewrite Hother by done; exact Ha1]. done.
    + destruct (o_open (fill_order (fill_of a b (clock s)) a)) eqn:Hoa.
      * exists [], (n :: queue). split; [done|]. split; [done|].
        apply Forall_cons. split; [by rewrite (deref_lookup _ _ _ Ha1)|].
        eapply Forall_impl; [exact Hq1|]. by intros k [_ ?].
      * exists [n], queue. split; [done|]. split.
        -- apply Forall_singleton. by rewrite (deref_lookup _ _ _ Ha1).
        -- eapply Forall_impl; [exact Hq1|]. by intros k [_ ?].
Qed.
(** ** Fill-or-kill feasibility *)

Lemma fok_queue_ext s s' queue qty :
  Forall (λ n, deref s' n = deref s n) queue →
  fok_queue s' queue qty = fok_queue s queue qty.
Proof.
  revert qty. induction queue as [|n queue IH]; intros qty Hq; cbn [fok_queue].
  - done.
  - apply Forall_cons in Hq as [Hn Hq]. rewrite Hn.
    destruct (decide _); [done|]. by apply IH.
Qed.

Lemma fok_queue_app s q1 q2 qty :
  fok_queue s (q1 ++ q2) qty
  = (if snd (fok_nodes s q1 qty) then true
     else fok_queue s q2 (fst (fok_nodes s q1 qty))).
Proof.
  revert qty. induction q1 as [|n q1 IH]; intros qty; cbn [fok_queue fok_nodes app].
  - done.
  - destruct (decide _); [done|]. apply IH.
Qed.

Lemma fok_can_buy_from_queue s levels qty price :
  fok_can_buy_from s levels qty price
  = fok_queue s (nodes_of (take_while (λ l, bool_decide (l_price l <= price)) levels))
              qty.
Proof.
  revert qty. induction levels as [|l levels IH]; intros qty;
    cbn [fok_can_buy_from take_while].
  - done.
  - destruct (decide (l_price l <= price)) as [Hp|Hp].
    + rewrite bool_decide_eq_true_2 by done.
      rewrite nodes_of_cons, fok_queue_app.
      destruct (fok_nodes s (l_nodes l) qty) as [qty' [|]]; [done|]. apply IH.
    + by rewrite bool_decide_eq_false_2.
Qed.

Lemma fok_can_sell_from_queue s levels qty price :
  fok_can_sell_from s levels qty price
  = fok_queue s (nodes_of (take_while (λ l, bool_decide (price <= l_price l)) levels))
              qty.
Proof.
  revert qty. induction levels as [|l levels IH]; intros qty;
    cbn [fok_can_sell_from take_while].
  - done.
  - destruct (decide (l_price l >= price)) as [Hp|Hp].
    + rewrite bool_decide_eq_true_2 by lia.
      rewrite nodes_of_cons, fok_queue_app.
      destruct (fok_nodes s (l_nodes l) qty) as [qty' [|]]; [done|]. apply IH.
    + rewrite bool_decide_eq_false_2 by lia. done.
Qed.

(** The running decrement never leaves the range of an [int], and reaches 0
    or less exactly when the queue holds the requested quantity. *)
Lemma fok_queue_total s queue qty :
  Forall (λ n, 0 <= o_qty (deref s n) <= 2147483647) queue →
  0 < qty <= 2147483647 →
  fok_queue s queue qty = true ↔ qty <= total_qty s queue.
Proof.
  revert qty. induction queue as [|n queue IH]; intros qty Hq Hqty;
    cbn [fok_queue total_qty foldr].
  - split; [done|lia].
  - apply Forall_cons in Hq as [Hn Hq].
    assert (Hpos : 0 <= total_qty s queue).
    { clear -Hq. induction Hq; cbn [total_qty foldr]; [done|].
      unfold total_qty in IHHq. lia. }
    unfold total_qty in *.
    rewrite wrap32_id by (unfold is_int32; lia).
    destruct (decide (qty - o_qty (deref s n) <= 0)); [split; [lia|done]|].
    rewrite IH by (done || lia). lia.
Qed.

Lemma match_queue_fok queue order : ∀ s b,
  Inv_base s → AllOrders s !! order = Some b → o_open b = true →
  order ∉ queue → NoDup queue →
  Forall (λ n, is_Some (AllOrders s !! n)) queue →
  fok_queue s queue (o_qty b) = true →
  ∃ b', AllOrders (match_queue queue order s) !! order = Some b'
        ∧ o_open b' = false ∧ o_qty b' = 0
        ∧ o_totalFilled b' = o_totalFilled b + o_qty b.
Proof.
  induction queue as [|n queue IH]; intros s b Hinv Hb Hopen Hnotin Hnd Hq Hfok;
    cbn [match_queue fok_queue] in *.
  - done.
  - apply not_elem_of_cons in Hnotin as [Hne Hnotin].
    apply NoDup_cons in Hnd as [Hn Hnd].
    apply Forall_cons in Hq as [[a Ha] Hq].
    assert (Hne' : n ≠ order) by congruence.
    pose proof (cross_Inv_base n order a b s Hne' Ha Hb Hinv) as Hinv1.
    pose proof (cross_store_extends n order a b s Hne' Ha Hb) as Hext1.
    pose proof (cross_lookup_incoming n order a b s Hne' Ha Hb) as Hb1.
    assert (Hwa : order_wf a) by (by destruct (inv_orders s Hinv _ _ Ha)).
    assert (Hwb : order_wf b) by (by destruct (inv_orders s Hinv _ _ Hb)).
    pose proof (fill_of_bounds a b (clock s) Hwa Hwb) as (Hq1 & Hq2 & _).
    pose proof (fill_of_qty a b (clock s)) as Hqm.
    pose proof (order_wf_sum a Hwa) as Hsa. pose proof (order_wf_sum b Hwb) as Hsb.
    rewrite (deref_lookup _ _ _ Ha) in Hfok.
    rewrite (deref_lookup _ _ _ Hb1).
    remember (fill_of a b (clock s)) as fill eqn:Hfill. clear Hfill.
    pose proof (fill_order_exact fill b Hwb ltac:(lia)) as Hfb.
    destruct Hwa as (?&?&?&?&?&?). destruct Hwb as (?&?&?&?&?&Hob).
    rewrite Hopen in Hob.
    rewrite wrap32_id in Hfok by (unfold is_int32; lia).
    destruct (decide (o_qty b - f_qty fill = 0)) as [Hz|Hz].
    + rewrite Hfb. cbn [o_open].
      eexists. split; [exact Hb1|]. rewrite Hfb.
      cbn [o_open o_qty o_totalFilled]. lia.
    + assert (Hopen' : o_open (fill_order fill b) = true).
      { rewrite Hfb. cbn [o_open]. done. }
      rewrite Hopen'.
      destruct (decide (o_qty b - o_qty a <= 0)); [lia|].
      assert (Hq' : Forall (λ n0, is_Some (AllOrders (cross n order s) !! n0)) queue).
      { eapply Forall_impl; [exact Hq|]. intros k [o Ho].
        destruct (Hext1 k o Ho) as (o' & Ho' & _). by exists o'. }
      assert (Hfok' : fok_queue (cross n order s) queue
                        (o_qty (fill_order fill b)) = true).
      { rewrite Hfb. cbn [o_qty].
        replace (o_qty b - f_qty fill) with (o_qty b - o_qty a) by lia.
        rewrite <- Hfok. apply fok_queue_ext.
        apply Forall_forall. intros k Hk.
        apply (deref_cross_other n order a b); try done; by intros ->. }
      destruct (IH _ _ Hinv1 Hb1 Hopen' Hnotin Hnd Hq' Hfok')
        as (b' & Hb' & Ho' & Hq0 & Htf).
      exists b'. split; [done|]. split; [done|]. split; [done|].
      rewrite Htf. rewrite Hfb. cbn [o_qty o_totalFilled]. lia.
Qed.
(** ** Book maintenance: dropping the closed head *)

Lemma first_open_node_suffix s nodes :
  ∃ pre, nodes = pre ++ first_open_node s nodes
         ∧ Forall (λ n, o_open (deref s n) = false) pre.
Proof.
  induction nodes as [|n nodes (pre & Heq & Hpre)]; cbn [first_open_node].
  - by exists [].
  - destruct (o_open (deref s n)) eqn:Hn.
    + by exists [].
    + exists (n :: pre). split; [by rewrite Heq at 1|]. by apply Forall_cons.
Qed.

Lemma first_open_node_app s l1 l2 :
  first_open_node s (l1 ++ l2)
  = match first_open_node s l1 with
    | [] => first_open_node s l2
    | n :: r => (n :: r) ++ l2
    end.
Proof.
  induction l1 as [|n l1 IH]; cbn [first_open_node app]; [done|].
  by destruct (o_open (deref s n)).
Qed.

Lemma nodes_of_cleanup s chain :
  nodes_of (cleanup_closed_bids_or_asks s chain) = first_open_node s (nodes_of chain).
Proof.
  induction chain as [|l chain IH]; cbn [cleanup_closed_bids_or_asks]; [done|].
  rewrite nodes_of_cons, first_open_node_app.
  by destruct (first_open_node s (l_nodes l)).
Qed.

Lemma first_open_node_all_open s nodes :
  closed_then_open s nodes →
  Forall (λ n, o_open (deref s n) = true) (first_open_node s nodes).
Proof.
  intros (q1 & q2 & -> & Hc & Ho).
  induction Hc as [|n q1 Hn Hc IH]; cbn [first_open_node app].
  - destruct Ho as [|n q2 Hn Ho]; cbn [first_open_node]; [done|].
    rewrite Hn. by apply Forall_cons.
  - by rewrite Hn.
Qed.

Lemma chain_wf_cleanup s side R chain :
  chain_wf s side R chain → chain_wf s side R (cleanup_closed_bids_or_asks s chain).
Proof.
  intros (Hl & Hs & Hn). split; [|split].
  - clear Hs Hn. induction Hl as [|l chain [Hne Hall] Hl IH];
      cbn [cleanup_closed_bids_or_asks]; [done|].
    destruct (first_open_node_suffix s (l_nodes l)) as (pre & Heq & _).
    destruct (first_open_node s (l_nodes l)) as [|n r]; [done|].
    apply Forall_cons. split; [|done]. split; [done|]. cbn [l_nodes l_price].
    rewrite Heq in Hall. by apply Forall_app in Hall as [_ ?].
  - clear Hl Hn. induction Hs as [|l chain Hs IH Hall];
      cbn [cleanup_closed_bids_or_asks]; [constructor|].
    destruct (first_open_node s (l_nodes l)); [done|].
    by constructor.
  - rewrite nodes_of_cleanup.
    destruct (first_open_node_suffix s (nodes_of chain)) as (pre & Heq & _).
    rewrite Heq in Hn. by apply NoDup_app in Hn as (_ & _ & ?).
Qed.

(** ** Book maintenance: insertion *)

Lemma insert_ask_from_level price order level :
  insert_ask_from price order level
  = insert_level (λ p q, bool_decide (p < q)) price order level.
Proof.
  induction level as [|l next IH]; cbn [insert_ask_from insert_level]; [done|].
  rewrite IH. destruct (decide (price < l_price l));
    [by rewrite bool_decide_eq_true_2|by rewrite bool_decide_eq_false_2].
Qed.

Lemma insert_bid_from_level price order level :
  insert_bid_from price order level
  = insert_level (λ p q, bool_decide (p > q)) price order level.
Proof.
  induction level as [|l next IH]; cbn [insert_bid_from insert_level]; [done|].
  rewrite IH. destruct (decide (price > l_price l));
    [by rewrite bool_decide_eq_true_2|by rewrite bool_decide_eq_false_2].
Qed.

Section insertion.
Context (R : Z → Z → Prop) (before : Z → Z → bool).
Hypothesis before_spec : ∀ p q, before p q = true ↔ R p q.
Hypothesis R_trans : ∀ p q r, R p q → R q r → R p r.
Hypothesis R_total : ∀ p q, ¬ R p q → p ≠ q → R q p.
Context (s : State) (side price order : Z).

Lemma insert_level_nodes level :
    nodes_of (insert_level before price order level) ≡ₚ order :: nodes_of level.
  Proof.
    induction level as [|l next IH]; cbn [insert_level].
    - done.
    - destruct (before price (l_price l)); [done|].
      destruct (decide (price = l_price l)).
      + rewrite !nodes_of_cons. cbn [l_nodes].
        rewrite <- app_assoc. cbn [app].
        rewrite <- Permutation_middle. done.
      + rewrite !nodes_of_cons, IH. by rewrite Permutation_middle.
  Qed.

Lemma insert_level_Forall (Q : Z → Prop) level :
    Forall (λ l, Q (l_price l)) level → Q price →
    Forall (λ l, Q (l_price l)) (insert_level before price order level).
  Proof.
    intros Hall Hq. induction Hall as [|l next Hl Hall IH]; cbn [insert_level].
    - by apply Forall_singleton.
    - destruct (before price (l_price l)).
      + apply Forall_cons. split; [done|]. by apply Forall_cons.
      + destruct (decide (price = l_price l)); by apply Forall_cons.
  Qed.

Lemma insert_level_sorted level :
    StronglySorted (λ l1 l2, R (l_price l1) (l_price l2)) level →
    StronglySorted (λ l1 l2, R (l_price l1) (l_price l2))
                   (insert_level before price order level).
  Proof.
    intros Hs. induction Hs as [|l next Hs IH Hall]; cbn [insert_level].
    - repeat constructor.
    - destruct (before price (l_price l)) eqn:Hb.
      + apply before_spec in Hb. constructor; [by constructor|].
        apply Forall_cons. split; [done|].
        eapply Forall_impl; [exact Hall|]. intros l2 ?. by eapply R_trans.
      + destruct (decide (price = l_price l)) as [He|He].
        * by constructor.
        * constructor; [done|].
          apply (insert_level_Forall (λ p, R (l_price l) p)); [done|].
          apply R_total; [|done]. intros Hr. apply before_spec in Hr. congruence.
  Qed.

Lemma insert_level_wf level :
    Forall (level_wf s side) level → node_wf s side price order →
    Forall (level_wf s side) (insert_level before price order level).
  Proof.
    intros Hall Hn. induction Hall as [|l next Hl Hall IH]; cbn [insert_level].
    - apply Forall_singleton. split; [done|]. by apply Forall_singleton.
    - destruct (before price (l_price l)).
      + apply Forall_cons. split; [|by apply Forall_cons].
        split; [done|]. by apply Forall_singleton.
      + destruct (decide (price = l_price l)) as [He|He].
        * apply Forall_cons. split; [|done].
          destruct Hl as [Hne Hnodes]. split; cbn [l_nodes l_price].
          -- by destruct (l_nodes l).
          -- apply Forall_app. split; [done|]. apply Forall_singleton. by rewrite <- He.
        * by apply Forall_cons.
  Qed.

Lemma chain_wf_insert level :
    chain_wf s side R level → node_wf s side price order →
    order ∉ nodes_of level →
    chain_wf s side R (insert_level before price order level).
  Proof.
    intros (Hl & Hs & Hn) Hnode Hnotin. split; [|split].
    - by apply insert_level_wf.
    - by apply insert_level_sorted.
    - rewrite insert_level_nodes. by apply NoDup_cons.
  Qed.
End insertion.
(** ** The stages of [execute_order] *)

Lemma execute_order_unfold account_name account_int qty price direction orderType s :
  ltac:(let t := eval cbv delta [execute_order] beta
                 in (execute_order account_name account_int qty price direction
                                   orderType s) in
        exact (t = execute_order account_name account_int qty price direction
                                 orderType s)).
Proof.
  match goal with
  | |- ?b = _ => exact_no_check (@eq_refl (ORDER_AND_ERROR * State) b)
  end.
Qed.

Lemma next_id_true s :
  fst (next_id true s) = if decide (next_id_static s = MAXORDERS) then MAXORDERS
                         else next_id_static s.
Proof. unfold next_id. by destruct (decide _). Qed.

Lemma next_id_false s :
  next_id_static s ≠ MAXORDERS →
  next_id false s
  = (next_id_static s, set_next_id_static (wrap32 (next_id_static s + 1)) s).
Proof. intros. unfold next_id. by rewrite decide_False. Qed.

Lemma account_lookup_or_create_next_id_static name account_int s :
  next_id_static (account_lookup_or_create name account_int s) = next_id_static s.
Proof. unfold account_lookup_or_create. by destruct (_ !! _). Qed.

Lemma execute_order_rejected account_name account_int qty price direction orderType s e :
  validation s account_int qty price direction = Some e →
  execute_order account_name account_int qty price direction orderType s
  = ({| oe_order := None; oe_error := e |}, s).
Proof.
  unfold validation. intros Hv. rewrite <- execute_order_unfold.
  rewrite next_id_true.
  destruct (decide (next_id_static s >= 2000000000)) as [Hc|Hc].
  { injection Hv as <-.
    destruct (decide (next_id_static s = 2000000000)); by rewrite decide_True by lia. }
  destruct (decide (next_id_static s = 2000000000)); [lia|].
  rewrite (decide_False (P := next_id_static s >= 2000000000)) by done.
  destruct (decide (account_int >= 5000)); [by injection Hv as <-|].
  destruct (decide (price < 0 ∨ qty < 1 ∨ ¬ (direction = 1 ∨ direction = 2)))
    as [Hs|Hs]; [|done].
  injection Hv as <-. rewrite decide_True; [done|].
  destruct Hs as [?|[?|Hd]]; [by left|by right; left|].
  right; right. lia.
Qed.

Lemma execute_order_accepted account_name account_int qty price direction orderType s :
  validation s account_int qty price direction = None →
  execute_order account_name account_int qty price direction orderType s
  = ({| oe_order := Some (next_id_static s); oe_error := 0 |},
     ticker_stage (next_id_static s)
       (resting_stage (next_id_static s)
          (market_price_stage (next_id_static s)
             (cleanup_stage (next_id_static s)
                (matching_stage (next_id_static s)
                   (create_order account_name account_int qty price direction
                                 orderType s)))))).
Proof.
  unfold validation. intros Hv.
  destruct (decide (next_id_static s >= 2000000000)) as [Hc|Hc]; [done|].
  destruct (decide (account_int >= 5000)) as [Ha|Ha]; [done|].
  destruct (decide (price < 0 ∨ qty < 1 ∨ ¬ (direction = 1 ∨ direction = 2)))
    as [Hs|Hs]; [done|].
  remember (execute_order account_name account_int qty price direction orderType s)
    as r eqn:E.
  rewrite <- execute_order_unfold in E.
  rewrite next_id_true in E.
  destruct (decide (next_id_static s = 2000000000)); [lia|].
  rewrite (decide_False (P := next_id_static s >= 2000000000)) in E by done.
  rewrite (decide_False (P := account_int >= 5000)) in E by done.
  rewrite (decide_False (P := price < 0 ∨ _)) in E.
  2:{ intros [?|[?|[? ?]]]; apply Hs; [by left|by right; left|].
      right; right. lia. }
  step_let E. step_let E.
  rewrite Hs0, Haccountobject in E.
  rewrite next_id_false in E
    by (by rewrite account_lookup_or_create_next_id_static).
  cbn iota in E.
  rewrite !account_lookup_or_create_next_id_static in E.
  do 8 step_let E.
  change (s3 = matching_stage order s2) in Hs3.
  change (s4 = cleanup_stage order s3) in Hs4.
  change (s5 = market_price_stage order s4) in Hs5.
  change (s6 = resting_stage order s5) in Hs6.
  change (s7 = ticker_stage order s6) in Hs7.
  rewrite E, Hs7, Hs6, Hs5, Hs4, Hs3, Hs2, Hs1, Horder. reflexivity.
Qed.
(** ** Invariants: what depends on which part of the state *)

Lemma elem_of_nodes_of n chain :
  n ∈ nodes_of chain ↔ ∃ l, l ∈ chain ∧ n ∈ l_nodes l.
Proof.
  induction chain as [|l chain IH].
  - split; [by intros ?%elem_of_nil|]. by intros (l & ?%elem_of_nil & _).
  - rewrite nodes_of_cons, elem_of_app, IH. split.
    + intros [Hn|(l' & Hl' & Hn)]; [exists l|exists l'];
        (split; [|done]); [by left|by right].
    + intros (l' & Hl' & Hn). apply elem_of_cons in Hl' as [->|Hl'];
        [by left|right; eauto].
Qed.

Lemma chain_wf_ext s s' side R chain :
  (∀ n, n ∈ nodes_of chain → AllOrders s' !! n = AllOrders s !! n) →
  chain_wf s side R chain → chain_wf s' side R chain.
Proof.
  intros Hsame (Hl & Hs & Hn). split; [|done].
  apply Forall_forall. intros l Hin.
  rewrite Forall_forall in Hl. destruct (Hl l Hin) as [Hne Hnodes].
  split; [done|]. apply Forall_forall. intros n Hnin.
  rewrite Forall_forall in Hnodes. destruct (Hnodes n Hnin) as (o & Ho & Hrest).
  exists o. split; [|done]. rewrite Hsame; [done|].
  apply elem_of_nodes_of. eauto.
Qed.

Lemma chain_open_ext s s' chain :
  (∀ n, n ∈ nodes_of chain → AllOrders s' !! n = AllOrders s !! n) →
  chain_open s chain → chain_open s' chain.
Proof.
  intros Hsame Hopen. unfold chain_open in *.
  apply Forall_forall. intros n Hn. rewrite Forall_forall in Hopen.
  unfold deref. rewrite lookup_total_alt, Hsame, <- lookup_total_alt by done.
  by apply Hopen.
Qed.

Lemma chain_wf_lookup s side R chain n :
  chain_wf s side R chain → n ∈ nodes_of chain →
  ∃ o l, AllOrders s !! n = Some o ∧ l ∈ chain ∧ n ∈ l_nodes l
         ∧ o_orderType o = LIMIT ∧ o_price o = l_price l ∧ o_direction o = side.
Proof.
  intros (Hl & _ & _) Hn. apply elem_of_nodes_of in Hn as (l & Hl' & Hn).
  rewrite Forall_forall in Hl. destruct (Hl l Hl') as [_ Hnodes].
  rewrite Forall_forall in Hnodes. destruct (Hnodes n Hn) as (o & ? & ? & ? & ?).
  exists o, l. done.
Qed.

(** A state that differs from an invariant one only in the quote, the clock,
    the event stream and [HighestKnownOrder]. *)
Lemma Inv_base_same_core s s' :
  FirstBidLevel s' = FirstBidLevel s → FirstAskLevel s' = FirstAskLevel s →
  AllOrders s' = AllOrders s → AllAccounts s' = AllAccounts s →
  next_id_static s' = next_id_static s →
  Inv_base s → Inv_base s'.
Proof.
  intros Hb Ha Ho Hacc Hn [H1 H2 H3 H4 H5].
  split; rewrite ?Hb, ?Ha, ?Ho, ?Hacc, ?Hn; try done.
  - intros k o Hk. destruct (H1 k o Hk) as (?&?&?&?).
    unfold order_ok. by rewrite Hn, Hacc.
  - eapply chain_wf_ext; [|done]. intros. by rewrite Ho.
  - eapply chain_wf_ext; [|done]. intros. by rewrite Ho.
Qed.

Lemma Inv_same_core s s' :
  FirstBidLevel s' = FirstBidLevel s → FirstAskLevel s' = FirstAskLevel s →
  AllOrders s' = AllOrders s → AllAccounts s' = AllAccounts s →
  next_id_static s' = next_id_static s →
  Inv s → Inv s'.
Proof.
  intros Hb Ha Ho Hacc Hn [H1 H2 H3].
  split; [by eapply Inv_base_same_core|..]; rewrite ?Hb, ?Ha.
  - eapply chain_open_ext; [|done]. intros. by rewrite Ho.
  - eapply chain_open_ext; [|done]. intros. by rewrite Ho.
Qed.

(** An order outside the book may be rewritten freely, as long as the record
    stays well formed and keeps its id and account. *)
Lemma Inv_assign_outside order f s b :
  Inv s → AllOrders s !! order = Some b →
  order ∉ nodes_of (FirstBidLevel s) → order ∉ nodes_of (FirstAskLevel s) →
  order_wf (f b) → o_id (f b) = o_id b → o_account (f b) = o_account b →
  Inv (assign order f s).
Proof.
  intros [[H1 H2 H3 H4 H5] H6 H7] Hb Hnb Hna Hwf Hid Hacc.
  assert (Hsame : ∀ chain, order ∉ nodes_of chain →
            ∀ n, n ∈ nodes_of chain →
                 AllOrders (assign order f s) !! n = AllOrders s !! n).
  { intros chain Hnot n Hn. unfold assign. state_simpl.
    apply lookup_alter_ne. by intros ->. }
  split; [split|..].
  - intros k o. unfold assign. state_simpl. rewrite lookup_alter.
    destruct (decide (order = k)) as [<-|Hk].
    + rewrite Hb. simpl. intros [= <-].
      destruct (H1 _ _ Hb) as (?&?&?&?). unfold order_ok. state_simpl.
      rewrite Hid, Hacc. done.
    + intros Ho. by apply H1.
  - done.
  - done.
  - eapply chain_wf_ext; [|exact H4]. by apply Hsame.
  - eapply chain_wf_ext; [|exact H5]. by apply Hsame.
  - eapply chain_open_ext; [|exact H6]. by apply Hsame.
  - eapply chain_open_ext; [|exact H7]. by apply Hsame.
Qed.

(** ** Invariants: creating the order *)

Section create_order_facts.
Context (account_name : string) (account_int qty price direction orderType : Z).
Context (s : State).
Let id := next_id_static s.
Let s' := create_order account_name account_int qty price direction orderType s.
Let new_order :=
    {| o_direction := direction; o_originalQty := qty; o_qty := qty;
       o_price := price; o_orderType := orderType; o_id := id;
       o_account := account_int; o_ts := clock s; o_fills := [];
       o_totalFilled := 0; o_open := true |}.

Lemma create_order_AllOrders : AllOrders s' = <[id := new_order]> (AllOrders s).
  Proof.
    subst s'. unfold create_order, account_lookup_or_create.
    by destruct (AllAccounts s !! account_int).
  Qed.

Lemma create_order_AllAccounts k :
    match AllAccounts s' !! k with
    | Some x => (k = account_int ∨ is_Some (AllAccounts s !! k))
                ∧ a_shares x = a_shares (default (init_account account_name)
                                                  (AllAccounts s !! k))
                ∧ a_cents x = a_cents (default (init_account account_name)
                                                (AllAccounts s !! k))
                ∧ a_posmin x = a_posmin (default (init_account account_name)
                                                  (AllAccounts s !! k))
                ∧ a_posmax x = a_posmax (default (init_account account_name)
                                                  (AllAccounts s !! k))
    | None => k ≠ account_int ∧ AllAccounts s !! k = None
    end.
  Proof.
    subst s'. unfold create_order, account_lookup_or_create, add_order_to_account,
      init_order, new_timestamp.
    destruct (AllAccounts s !! account_int) as [acc|] eqn:Hacc; state_simpl;
      rewrite lookup_alter.
    - destruct (decide (account_int = k)) as [<-|Hk].
      + rewrite Hacc. simpl. split; [by left|done].
      + destruct (AllAccounts s !! k) eqn:Hk'; simpl; [|done].
        split; [right; by eexists|done].
    - destruct (decide (account_int = k)) as [<-|Hk].
      + rewrite lookup_insert_eq, Hacc. simpl. split; [by left|done].
      + rewrite lookup_insert_ne by done.
        destruct (AllAccounts s !! k) eqn:Hk'; simpl; [|done].
        split; [right; by eexists|done].
  Qed.

Lemma create_order_frame :
    FirstBidLevel s' = FirstBidLevel s ∧ FirstAskLevel s' = FirstAskLevel s
    ∧ Quote s' = Quote s ∧ stderr s' = stderr s
    ∧ next_id_static s' = wrap32 (id + 1) ∧ HighestKnownOrder s' = id.
  Proof.
    subst s'. unfold create_order, account_lookup_or_create.
    by destruct (AllAccounts s !! account_int).
  Qed.
End create_order_facts.
Lemma validation_None s account_int qty price direction :
  validation s account_int qty price direction = None →
  next_id_static s < 2000000000 ∧ account_int < 5000 ∧ 0 <= price ∧ 1 <= qty
  ∧ (direction = BUY ∨ direction = SELL).
Proof.
  unfold validation. repeat case_decide; try done. intros _.
  split; [lia|]. split; [lia|].
  destruct (decide (direction = 1)); [lia|].
  destruct (decide (direction = 2)); [lia|].
  exfalso. apply H1. right. right. lia.
Qed.

Lemma fresh_id_not_stored s :
  Inv_base s → AllOrders s !! next_id_static s = None.
Proof.
  intros Hinv. destruct (AllOrders s !! next_id_static s) as [o|] eqn:Ho; [|done].
  destruct (inv_orders s Hinv _ _ Ho) as (_ & _ & ? & _). lia.
Qed.

Lemma book_nodes_stored s n :
  Inv_base s → n ∈ nodes_of (FirstBidLevel s) ∨ n ∈ nodes_of (FirstAskLevel s) →
  is_Some (AllOrders s !! n).
Proof.
  intros Hinv [Hn|Hn].
  - destruct (chain_wf_lookup _ _ _ _ _ (inv_bids s Hinv) Hn) as (o & _ & ? & _).
    by exists o.
  - destruct (chain_wf_lookup _ _ _ _ _ (inv_asks s Hinv) Hn) as (o & _ & ? & _).
    by exists o.
Qed.

Lemma fresh_id_not_in_book s :
  Inv_base s →
  (next_id_static s ∉ nodes_of (FirstBidLevel s))
  ∧ next_id_static s ∉ nodes_of (FirstAskLevel s).
Proof.
  intros Hinv. pose proof (fresh_id_not_stored s Hinv) as Hnone.
  split; intros Hn.
  - destruct (book_nodes_stored s _ Hinv (or_introl Hn)) as [o Ho]. congruence.
  - destruct (book_nodes_stored s _ Hinv (or_intror Hn)) as [o Ho]. congruence.
Qed.

Section create_order_invariant.
Context (account_name : string) (account_int qty price direction orderType : Z).
Context (s : State).
Hypothesis Hinv : Inv s.
Hypothesis Hvalid : validation s account_int qty price direction = None.
Hypothesis Hqty : is_int32 qty.
Hypothesis Hprice : is_int32 price.
#[local] Abbreviation id := (next_id_static s).
#[local] Abbreviation s' :=
    (create_order account_name account_int qty price direction orderType s).

Lemma create_order_next_id_static : next_id_static s' = id + 1.
  Proof.
    destruct (create_order_frame account_name account_int qty price direction
                orderType s) as (_ & _ & _ & _ & Hn & _).
    rewrite Hn.
    pose proof (inv_counter s (inv_base s Hinv)).
    apply validation_None in Hvalid as (? & _).
    apply wrap32_id. unfold is_int32. lia.
  Qed.

Lemma create_order_lookup_old k :
    k ≠ id → AllOrders s' !! k = AllOrders s !! k.
  Proof.
    intros. rewrite create_order_AllOrders. by apply lookup_insert_ne.
  Qed.

Lemma create_order_lookup_stored k :
    is_Some (AllOrders s !! k) → AllOrders s' !! k = AllOrders s !! k.
  Proof.
    intros [o Ho]. apply create_order_lookup_old. intros ->.
    pose proof (fresh_id_not_stored s (inv_base s Hinv)). congruence.
  Qed.

Lemma create_order_account_stored k :
    k = account_int ∨ is_Some (AllAccounts s !! k) → is_Some (AllAccounts s' !! k).
  Proof.
    intros Hk.
    pose proof (create_order_AllAccounts account_name account_int qty price
                  direction orderType s k) as H.
    destruct (AllAccounts s' !! k); [done|].
    destruct H as [Hne Hnone]. destruct Hk as [?|[? ?]]; congruence.
  Qed.

Lemma create_order_Inv : Inv s'.
  Proof.
    pose proof (validation_None _ _ _ _ _ Hvalid) as (Hc & Hacc & Hp & Hq & Hd).
    destruct Hinv as [[H1 H2 H3 H4 H5] H6 H7].
    destruct (create_order_frame account_name account_int qty price direction
                orderType s) as (Hfb & Hfa & _).
    assert (Hnodes : ∀ chain side R, chain_wf s side R chain →
              ∀ n, n ∈ nodes_of chain → AllOrders s' !! n = AllOrders s !! n).
    { intros chain side R Hwf n Hn. apply create_order_lookup_stored.
      destruct (chain_wf_lookup _ _ _ _ _ Hwf Hn) as (o & _ & ? & _). by exists o. }
    split; [split|..].
    - intros k o. rewrite create_order_AllOrders, lookup_insert.
      destruct (decide (id = k)) as [<-|Hk].
      + intros [= <-]. split; [|split; [done|split]].
        * unfold order_wf, is_int32 in *; simpl. lia.
        * rewrite create_order_next_id_static. lia.
        * simpl. apply create_order_account_stored. by left.
      + intros Ho. destruct (H1 k o Ho) as (Hw & Hid & Hlt & Ha).
        split; [done|]. split; [done|]. split.
        * rewrite create_order_next_id_static. lia.
        * apply create_order_account_stored. by right.
    - rewrite create_order_next_id_static. lia.
    - intros k x Hx.
      pose proof (create_order_AllAccounts account_name account_int qty price
                    direction orderType s k) as H.
      rewrite Hx in H. destruct H as (_ & Hs & Hc' & Hmin & Hmax).
      unfold account_ok. rewrite Hs, Hc', Hmin, Hmax.
      destruct (AllAccounts s !! k) as [y|] eqn:Hy; simpl; [by apply (H3 k y)|lia].
    - rewrite Hfb. eapply chain_wf_ext; [|exact H4]. by eapply Hnodes.
    - rewrite Hfa. eapply chain_wf_ext; [|exact H5]. by eapply Hnodes.
    - rewrite Hfb. eapply chain_open_ext; [|exact H6]. by eapply Hnodes.
    - rewrite Hfa. eapply chain_open_ext; [|exact H7]. by eapply Hnodes.
  Qed.

Lemma create_order_not_in_book :
    (id ∉ nodes_of (FirstBidLevel s')) ∧ id ∉ nodes_of (FirstAskLevel s').
  Proof.
    destruct (create_order_frame account_name account_int qty price direction
                orderType s) as (Hfb & Hfa & _).
    rewrite Hfb, Hfa.
    apply fresh_id_not_in_book. by destruct Hinv.
  Qed.
End create_order_invariant.
(** ** Invariants: the matching stage *)

Lemma take_while_prefix {A} (f : A → bool) (l : list A) :
  ∃ rest, l = take_while f l ++ rest.
Proof.
  induction l as [|x l [rest IH]]; cbn [take_while].
  - by exists [].
  - destruct (f x); [|by eexists]. exists rest. cbn [app]. by rewrite <- IH.
Qed.

Lemma nodes_of_app c1 c2 : nodes_of (c1 ++ c2) = nodes_of c1 ++ nodes_of c2.
Proof.
  induction c1 as [|l c1 IH]; [done|].
  cbn [app]. by rewrite !nodes_of_cons, IH, app_assoc.
Qed.

Lemma nodes_of_take_while_prefix f chain :
  ∃ rest, nodes_of chain = nodes_of (take_while f chain) ++ rest.
Proof.
  destruct (take_while_prefix f chain) as [rest Heq].
  exists (nodes_of rest). rewrite Heq at 1. apply nodes_of_app.
Qed.

Lemma closed_then_open_app s q rest :
  closed_then_open s q → Forall (λ n, o_open (deref s n) = true) rest →
  closed_then_open s (q ++ rest).
Proof.
  intros (q1 & q2 & -> & Hc & Ho) Hrest.
  exists q1, (q2 ++ rest). split; [by rewrite app_assoc|].
  split; [done|]. by apply Forall_app.
Qed.

Lemma closed_then_open_all_open s q :
  Forall (λ n, o_open (deref s n) = true) q → closed_then_open s q.
Proof. intros. exists [], q. by split_and!. Qed.

Lemma deref_same_lookup s s' k :
  AllOrders s' !! k = AllOrders s !! k → deref s' k = deref s k.
Proof. intros H. unfold deref. by rewrite !lookup_total_alt, H. Qed.

Section matching_run.
Context (order : Z) (b : ORDER) (s : State).
Context (opp same : list LEVEL) (side_o side_s : Z) (R_o R_s : Z → Z → Prop).
Hypothesis Hinv : Inv_base s.
Hypothesis Hopp : chain_wf s side_o R_o opp.
Hypothesis Hsame : chain_wf s side_s R_s same.
Hypothesis Hsides : side_o ≠ side_s.
Hypothesis Hopp_open : chain_open s opp.
Hypothesis Hsame_open : chain_open s same.
Hypothesis Hb : AllOrders s !! order = Some b.
Hypothesis Hopen : o_open b = true.
Hypothesis Hnot_opp : order ∉ nodes_of opp.
Hypothesis Hnot_same : order ∉ nodes_of same.
Context (f : LEVEL → bool).

#[local] Abbreviation queue := (nodes_of (take_while f opp)).
#[local] Abbreviation s' := (match_queue queue order s).

Lemma queue_facts :
    (order ∉ queue) ∧ NoDup queue
    ∧ Forall (λ n, is_Some (AllOrders s !! n) ∧ o_open (deref s n) = true) queue
    ∧ ∃ rest, nodes_of opp = queue ++ rest
              ∧ Forall (λ n, (n ∉ queue) ∧ o_open (deref s n) = true) rest.
  Proof.
    destruct (nodes_of_take_while_prefix f opp) as [rest Heq].
    destruct Hopp as (_ & _ & Hnd). unfold chain_open in Hopp_open.
    rewrite Heq in Hnd, Hnot_opp, Hopp_open.
    apply NoDup_app in Hnd as (Hnd1 & Hdisj & _).
    apply not_elem_of_app in Hnot_opp as [Hn1 _].
    apply Forall_app in Hopp_open as [Ho1 Ho2].
    split; [done|]. split; [done|]. split.
    - apply Forall_forall. intros n Hn. rewrite Forall_forall in Ho1.
      split; [|by apply Ho1].
      assert (Hin : n ∈ nodes_of opp) by (rewrite Heq; apply elem_of_app; by left).
      destruct (chain_wf_lookup _ _ _ _ _ Hopp Hin) as (o & _ & ? & _). by exists o.
    - exists rest. split; [done|].
      apply Forall_forall. intros n Hn. rewrite Forall_forall in Ho2.
      split; [|by apply Ho2]. intros Hq. by apply (Hdisj n).
  Qed.

Lemma match_queue_book :
    Inv_base s' ∧ store_extends s s'
    ∧ FirstBidLevel s' = FirstBidLevel s ∧ FirstAskLevel s' = FirstAskLevel s
    ∧ next_id_static s' = next_id_static s
    ∧ (∀ k, k ∉ nodes_of opp → k ≠ order → AllOrders s' !! k = AllOrders s !! k)
    ∧ closed_then_open s' (nodes_of opp)
    ∧ chain_open s' same.
  Proof.
    destruct queue_facts as (Hnq & Hnd & Hq & rest & Heq & Hrest).
    assert (Hq' : Forall (λ n, is_Some (AllOrders s !! n)) queue).
    { eapply Forall_impl; [exact Hq|]. by intros n [? _]. }
    destruct (match_queue_Inv_base queue order s b Hinv Hb Hnq Hq')
      as (H1 & H2 & H3 & H4 & H5 & _ & H7).
    split; [done|]. split; [done|]. split; [done|]. split; [done|].
    split; [done|]. split; [|split].
    - intros k Hk Hko. apply H7; [|done]. intros Hkq. apply Hk.
      rewrite Heq. apply elem_of_app. by left.
    - rewrite Heq. apply closed_then_open_app.
      + by apply (match_queue_closed_then_open queue order s b).
      + apply Forall_forall. intros n Hn. rewrite Forall_forall in Hrest.
        destruct (Hrest n Hn) as [Hnq' Hno].
        rewrite (deref_same_lookup s); [done|]. apply H7; [done|].
        intros ->. apply Hnot_opp. rewrite Heq. apply elem_of_app. by right.
    - unfold chain_open in *. apply Forall_forall. intros n Hn.
      rewrite Forall_forall in Hsame_open.
      rewrite (deref_same_lookup s); [by apply Hsame_open|]. apply H7.
      + intros Hnq'.
        assert (Hin : n ∈ nodes_of opp) by (rewrite Heq; apply elem_of_app; by left).
        destruct (chain_wf_lookup _ _ _ _ _ Hopp Hin) as (o & l & Ho & _ & _ & _ & _ & Hd).
        destruct (chain_wf_lookup _ _ _ _ _ Hsame Hn) as (o' & l' & Ho' & _ & _ & _ & _ & Hd').
        congruence.
      + by intros ->.
  Qed.
End matching_run.
Section matching_stage_facts.
Context (order : Z) (b : ORDER) (s : State).
Hypothesis Hinv : Inv s.
Hypothesis Hb : AllOrders s !! order = Some b.
Hypothesis Hopen : o_open b = true.
Hypothesis Hnot_bid : order ∉ nodes_of (FirstBidLevel s).
Hypothesis Hnot_ask : order ∉ nodes_of (FirstAskLevel s).

Lemma matched_no_run : matched order b s s.
  Proof.
    destruct Hinv as [Hbase Hbo Hao].
    unfold matched. split_and!; try done.
    - apply store_extends_refl.
    - apply closed_then_open_all_open. unfold opposite_side.
      by destruct (decide _).
    - unfold same_side. by destruct (decide _).
  Qed.

Lemma matched_run_order : matched order b s (run_order order s).
  Proof.
    destruct Hinv as [Hbase Hbo Hao].
    rewrite run_order_match_queue. unfold crossable_queue, matched.
    rewrite (deref_lookup _ _ _ Hb).
    unfold opposite_side, same_side.
    destruct (decide (o_direction b = 2)).
    - by apply (match_queue_book order b s (FirstBidLevel s) (FirstAskLevel s)
                  1 2 Z.gt Z.lt Hbase (inv_bids s Hbase) (inv_asks s Hbase)).
    - destruct (match_queue_book order b s (FirstAskLevel s) (FirstBidLevel s)
                  2 1 Z.lt Z.gt Hbase (inv_asks s Hbase) (inv_bids s Hbase)
                  ltac:(done) Hao Hbo Hb Hopen Hnot_ask Hnot_bid (admissible b))
        as (?&?&?&?&?&?&?&?).
      by split_and!.
  Qed.

Lemma matching_stage_matched : matched order b s (matching_stage order s).
  Proof.
    unfold matching_stage.
    destruct (decide _); [apply matched_run_order|].
    destruct (decide _).
    - destruct (fok_can_buy _ _ _); [apply matched_run_order|apply matched_no_run].
    - destruct (fok_can_sell _ _ _); [apply matched_run_order|apply matched_no_run].
  Qed.
End matching_stage_facts.

(** ** Invariants: the stages after matching *)

Lemma cleanup_stage_frame order s :
  AllOrders (cleanup_stage order s) = AllOrders s
  ∧ AllAccounts (cleanup_stage order s) = AllAccounts s
  ∧ next_id_static (cleanup_stage order s) = next_id_static s
  ∧ Quote (cleanup_stage order s) = Quote s
  ∧ clock (cleanup_stage order s) = clock s
  ∧ stderr (cleanup_stage order s) = stderr s.
Proof. unfold cleanup_stage. by destruct (decide _). Qed.

Lemma cleanup_nodes_subset s chain n :
  n ∈ nodes_of (cleanup_closed_bids_or_asks s chain) → n ∈ nodes_of chain.
Proof.
  rewrite nodes_of_cleanup.
  destruct (first_open_node_suffix s (nodes_of chain)) as (pre & Heq & _).
  intros Hn. rewrite Heq. apply elem_of_app. by right.
Qed.

Lemma cleanup_stage_nodes order s n :
  (n ∈ nodes_of (FirstBidLevel (cleanup_stage order s)) →
   n ∈ nodes_of (FirstBidLevel s))
  ∧ (n ∈ nodes_of (FirstAskLevel (cleanup_stage order s)) →
     n ∈ nodes_of (FirstAskLevel s)).
Proof.
  unfold cleanup_stage. destruct (decide _); state_simpl;
    (split; [|]); try done; apply cleanup_nodes_subset.
Qed.

Lemma Inv_intro s s' :
  AllOrders s' = AllOrders s → AllAccounts s' = AllAccounts s →
  next_id_static s' = next_id_static s →
  Inv_base s →
  chain_wf s BUY Z.gt (FirstBidLevel s') → chain_wf s SELL Z.lt (FirstAskLevel s') →
  chain_open s (FirstBidLevel s') → chain_open s (FirstAskLevel s') →
  Inv s'.
Proof.
  intros Ho Hacc Hn [H1 H2 H3 _ _] Hb Ha Hbo Hao.
  split; [split|..].
  - rewrite Ho. intros k o Hk. destruct (H1 k o Hk) as (?&?&?&?).
    unfold order_ok. by rewrite Hn, Hacc.
  - by rewrite Hn.
  - by rewrite Hacc.
  - eapply chain_wf_ext; [|done]. intros. by rewrite Ho.
  - eapply chain_wf_ext; [|done]. intros. by rewrite Ho.
  - eapply chain_open_ext; [|done]. intros. by rewrite Ho.
  - eapply chain_open_ext; [|done]. intros. by rewrite Ho.
Qed.

Lemma chain_open_cleanup s chain :
  closed_then_open s (nodes_of chain) →
  chain_open s (cleanup_closed_bids_or_asks s chain).
Proof.
  intros H. unfold chain_open. rewrite nodes_of_cleanup.
  by apply first_open_node_all_open.
Qed.

Lemma cleanup_stage_Inv order b s0 s :
  AllOrders s0 !! order = Some b → matched order b s0 s →
  Inv (cleanup_stage order s).
Proof.
  intros Hb (Hbase & Hext & Hfb & Hfa & Hn & _ & Hcto & Hso).
  destruct (Hext _ _ Hb) as (b' & Hb' & Hd & _).
  destruct (cleanup_stage_frame order s) as (Ho & Hacc & Hcnt & _).
  unfold opposite_side in Hcto. unfold same_side in Hso.
  rewrite <- Hfb, <- Hfa in Hcto. rewrite <- Hfb, <- Hfa in Hso.
  apply (Inv_intro s); try done;
    unfold cleanup_stage; rewrite (deref_lookup _ _ _ Hb'), <- Hd;
    destruct (decide (o_direction b = 2)); state_simpl;
    try apply Hbase; try done;
    try (apply chain_wf_cleanup, Hbase); by apply chain_open_cleanup.
Qed.

Lemma market_price_stage_Inv order b s :
  Inv s → AllOrders s !! order = Some b →
  order ∉ nodes_of (FirstBidLevel s) → order ∉ nodes_of (FirstAskLevel s) →
  Inv (market_price_stage order s).
Proof.
  intros Hinv Hb Hnb Hna. unfold market_price_stage.
  destruct (decide _); [|done].
  apply (Inv_assign_outside order _ s b); try done.
  destruct (inv_orders s (inv_base s Hinv) _ _ Hb) as ((?&?&?&?&?&?) & _).
  unfold order_wf; simpl. split_and!; try done; lia.
Qed.

Lemma assign_assign p f g s : assign p f (assign p g s) = assign p (f ∘ g) s.
Proof.
  unfold assign, set_AllOrders. cbn [AllOrders FirstBidLevel FirstAskLevel
    HighestKnownOrder AllAccounts Quote next_id_static clock stderr].
  by rewrite alter_alter_eq.
Qed.

Lemma insert_ask_Inv order b s :
  Inv s → AllOrders s !! order = Some b → o_open b = true →
  o_orderType b = LIMIT → o_direction b = SELL →
  order ∉ nodes_of (FirstAskLevel s) →
  Inv (insert_ask order s).
Proof.
  intros [Hbase Hbo Hao] Hb Hopen Ht Hd Hna.
  assert (Hnode : node_wf s 2 (o_price b) order) by (by exists b).
  unfold insert_ask. rewrite (deref_lookup _ _ _ Hb), insert_ask_from_level.
  apply (Inv_intro s); try done; state_simpl; try apply Hbase.
  - apply (chain_wf_insert Z.lt); try done; try apply Hbase.
    + intros p q. by rewrite bool_decide_eq_true.
    + lia.
    + lia.
  - unfold chain_open. rewrite insert_level_nodes.
    apply Forall_cons. split; [by rewrite (deref_lookup _ _ _ Hb)|done].
Qed.

Lemma insert_bid_Inv order b s :
  Inv s → AllOrders s !! order = Some b → o_open b = true →
  o_orderType b = LIMIT → o_direction b = BUY →
  order ∉ nodes_of (FirstBidLevel s) →
  Inv (insert_bid order s).
Proof.
  intros [Hbase Hbo Hao] Hb Hopen Ht Hd Hna.
  assert (Hnode : node_wf s 1 (o_price b) order) by (by exists b).
  unfold insert_bid. rewrite (deref_lookup _ _ _ Hb), insert_bid_from_level.
  apply (Inv_intro s); try done; state_simpl; try apply Hbase.
  - apply (chain_wf_insert Z.gt); try done; try apply Hbase.
    + intros p q. by rewrite bool_decide_eq_true.
    + lia.
    + lia.
  - unfold chain_open. rewrite insert_level_nodes.
    apply Forall_cons. split; [by rewrite (deref_lookup _ _ _ Hb)|done].
Qed.

Lemma resting_stage_Inv order b s :
  Inv s → AllOrders s !! order = Some b →
  order ∉ nodes_of (FirstBidLevel s) → order ∉ nodes_of (FirstAskLevel s) →
  Inv (resting_stage order s).
Proof.
  intros Hinv Hb Hnb Hna. unfold resting_stage.
  rewrite (deref_lookup _ _ _ Hb).
  destruct (inv_orders s (inv_base s Hinv) _ _ Hb) as (Hwf & _).
  destruct (o_open b) eqn:Hopen; [|done].
  destruct (decide (o_orderType b = 1)).
  - destruct (decide (o_direction b = 2)).
    + by apply (insert_ask_Inv order b).
    + apply (insert_bid_Inv order b); try done.
      destruct Hwf as (_&_&_&_&[?|?]&_); done.
  - cbv zeta. rewrite assign_assign.
    apply (Inv_assign_outside order _ s b); try done.
    destruct Hwf as (?&?&?&?&?&Ho). rewrite Hopen in Ho.
    unfold order_wf; simpl. split_and!; try done; lia.
Qed.

Lemma ticker_stage_Inv order s : Inv s → Inv (ticker_stage order s).
Proof.
  intros Hinv. unfold ticker_stage. destruct (decide _); [|done].
  by apply (Inv_same_core s).
Qed.
Lemma market_price_stage_frame order s :
  FirstBidLevel (market_price_stage order s) = FirstBidLevel s
  ∧ FirstAskLevel (market_price_stage order s) = FirstAskLevel s
  ∧ AllAccounts (market_price_stage order s) = AllAccounts s
  ∧ next_id_static (market_price_stage order s) = next_id_static s
  ∧ Quote (market_price_stage order s) = Quote s
  ∧ stderr (market_price_stage order s) = stderr s.
Proof. unfold market_price_stage. by destruct (decide _). Qed.

Lemma market_price_stage_lookup order s k :
  AllOrders (market_price_stage order s) !! k
  = (if decide (k = order ∧ o_orderType (deref s order) = MARKET)
     then set_price 0 <$> AllOrders s !! k else AllOrders s !! k).
Proof.
  unfold market_price_stage.
  destruct (decide (o_orderType _ = 2)) as [Ht|Ht].
  - unfold assign. state_simpl. rewrite lookup_alter.
    destruct (decide (order = k)) as [<-|Hk].
    + by rewrite decide_True.
    + rewrite decide_False; [done|]. by intros [-> _].
  - rewrite decide_False; [done|]. by intros [_ ?].
Qed.

(** The order being executed, from its creation to the end of the market
    price stage: it stays in the table and outside the book. *)
Lemma execute_order_Inv account_name account_int qty price direction orderType s :
  Inv s → is_int32 qty → is_int32 price →
  Inv (snd (execute_order account_name account_int qty price direction orderType s)).
Proof.
  intros Hinv Hqty Hprice.
  destruct (validation s account_int qty price direction) as [e|] eqn:Hv.
  { by rewrite (execute_order_rejected _ _ _ _ _ _ _ e). }
  rewrite execute_order_accepted by done. cbn [snd].
  set (id := next_id_static s).
  set (s1 := create_order account_name account_int qty price direction orderType s).
  pose proof (create_order_Inv account_name account_int qty price direction
                orderType s Hinv Hv Hqty Hprice) as Hinv1.
  destruct (create_order_not_in_book account_name account_int qty price direction
              orderType s Hinv) as [Hnb1 Hna1].
  fold s1 in Hinv1, Hnb1, Hna1. fold id in Hnb1, Hna1.
  assert (Hb1 : ∃ b, AllOrders s1 !! id = Some b ∧ o_open b = true).
  { eexists. subst s1. rewrite create_order_AllOrders, lookup_insert_eq. done. }
  destruct Hb1 as (b & Hb1 & Hopen).
  pose proof (matching_stage_matched id b s1 Hinv1 Hb1 Hopen Hnb1 Hna1) as Hm.
  set (s2 := matching_stage id s1) in *.
  pose proof (cleanup_stage_Inv id b s1 s2 Hb1 Hm) as Hinv3.
  destruct Hm as (_ & Hext & Hfb & Hfa & _).
  destruct (Hext _ _ Hb1) as (b2 & Hb2 & _).
  destruct (cleanup_stage_frame id s2) as (Ho3 & _).
  assert (Hnb3 : id ∉ nodes_of (FirstBidLevel (cleanup_stage id s2))).
  { intros Hn. apply cleanup_stage_nodes in Hn. by rewrite Hfb in Hn. }
  assert (Hna3 : id ∉ nodes_of (FirstAskLevel (cleanup_stage id s2))).
  { intros Hn. apply cleanup_stage_nodes in Hn. by rewrite Hfa in Hn. }
  set (s3 := cleanup_stage id s2) in *.
  assert (Hb3 : AllOrders s3 !! id = Some b2) by (by rewrite Ho3).
  pose proof (market_price_stage_Inv id b2 s3 Hinv3 Hb3 Hnb3 Hna3) as Hinv4.
  destruct (market_price_stage_frame id s3) as (Hfb4 & Hfa4 & _).
  assert (Hb4 : ∃ b4, AllOrders (market_price_stage id s3) !! id = Some b4).
  { rewrite market_price_stage_lookup, Hb3. destruct (decide _); by eexists. }
  destruct Hb4 as [b4 Hb4].
  set (s4 := market_price_stage id s3) in *.
  apply ticker_stage_Inv. apply (resting_stage_Inv id b4); try done.
  - by rewrite Hfb4.
  - by rewrite Hfa4.
Qed.
(** ** Cancel: finding the level and the node *)

Lemma find_level_bids_Some price chain i :
  find_level_bids price chain = Some i →
  ∃ l, chain !! i = Some l ∧ l_price l = price.
Proof.
  revert i. induction chain as [|l chain IH]; intros i; cbn [find_level_bids]; [done|].
  destruct (decide (l_price l > price)).
  - destruct (find_level_bids price chain) as [j|]; [|done].
    intros [= <-]. by apply IH.
  - destruct (decide (l_price l = price)); [|done].
    intros [= <-]. by exists l.
Qed.

Lemma find_level_asks_Some price chain i :
  find_level_asks price chain = Some i →
  ∃ l, chain !! i = Some l ∧ l_price l = price.
Proof.
  revert i. induction chain as [|l chain IH]; intros i; cbn [find_level_asks]; [done|].
  destruct (decide (l_price l < price)).
  - destruct (find_level_asks price chain) as [j|]; [|done].
    intros [= <-]. by apply IH.
  - destruct (decide (l_price l = price)); [|done].
    intros [= <-]. by exists l.
Qed.

Lemma find_level_bids_complete price chain l :
  StronglySorted (λ l1 l2, l_price l1 > l_price l2) chain →
  l ∈ chain → l_price l = price →
  ∃ i, find_level_bids price chain = Some i ∧ chain !! i = Some l.
Proof.
  intros Hs Hl Hp. induction Hs as [|l0 chain Hs IH Hall]; cbn [find_level_bids].
  - by apply elem_of_nil in Hl.
  - apply elem_of_cons in Hl as [->|Hl].
    + rewrite decide_False by lia. rewrite decide_True by done. by exists 0%nat.
    + rewrite Forall_forall in Hall. pose proof (Hall l Hl).
      rewrite decide_True by lia.
      destruct (IH Hl) as (i & -> & Hi). by exists (S i).
Qed.

Lemma find_level_asks_complete price chain l :
  StronglySorted (λ l1 l2, l_price l1 < l_price l2) chain →
  l ∈ chain → l_price l = price →
  ∃ i, find_level_asks price chain = Some i ∧ chain !! i = Some l.
Proof.
  intros Hs Hl Hp. induction Hs as [|l0 chain Hs IH Hall]; cbn [find_level_asks].
  - by apply elem_of_nil in Hl.
  - apply elem_of_cons in Hl as [->|Hl].
    + rewrite decide_False by lia. rewrite decide_True by done. by exists 0%nat.
    + rewrite Forall_forall in Hall. pose proof (Hall l Hl).
      rewrite decide_True by lia.
      destruct (IH Hl) as (i & -> & Hi). by exists (S i).
Qed.

Lemma find_ordernode_from_Some s nodes id j :
  find_ordernode_from s nodes id = Some j →
  ∃ n, nodes !! j = Some n ∧ o_id (deref s n) = id.
Proof.
  revert j. induction nodes as [|n nodes IH]; intros j; cbn [find_ordernode_from];
    [done|].
  destruct (decide (o_id (deref s n) = id)).
  - intros [= <-]. by exists n.
  - destruct (find_ordernode_from s nodes id) as [k|]; [|done].
    intros [= <-]. by apply IH.
Qed.

Lemma find_ordernode_from_complete s nodes id :
  Forall (λ n, o_id (deref s n) = n) nodes → id ∈ nodes →
  ∃ j, find_ordernode_from s nodes id = Some j ∧ nodes !! j = Some id.
Proof.
  intros Hall Hin. induction Hall as [|n nodes Hn Hall IH];
    cbn [find_ordernode_from].
  - by apply elem_of_nil in Hin.
  - rewrite Hn. destruct (decide (n = id)) as [->|Hne].
    + by exists 0%nat.
    + apply elem_of_cons in Hin as [?|Hin]; [congruence|].
      destruct (IH Hin) as (j & -> & Hj). by exists (S j).
Qed.

(** ** Cancel: unlinking *)

Lemma unlink_middle c1 l c2 ni :
  unlink (length c1) ni (c1 ++ l :: c2)
  = match delete ni (l_nodes l) with
    | [] => c1 ++ c2
    | n :: nodes =>
        c1 ++ {| l_price := l_price l; l_nodes := n :: nodes |} :: c2
    end.
Proof.
  unfold unlink. rewrite list_lookup_middle by done.
  destruct (delete ni (l_nodes l)); [apply delete_middle|].
  rewrite insert_app_r_alt by lia. by rewrite Nat.sub_diag.
Qed.

Lemma unlink_nodes c1 l c2 n1 n n2 :
  l_nodes l = n1 ++ n :: n2 →
  nodes_of (unlink (length c1) (length n1) (c1 ++ l :: c2))
  = nodes_of c1 ++ (n1 ++ n2) ++ nodes_of c2.
Proof.
  intros Hl. rewrite unlink_middle, Hl, delete_middle.
  destruct (n1 ++ n2) as [|m nodes] eqn:Hn.
  - by rewrite nodes_of_app.
  - by rewrite nodes_of_app, nodes_of_cons.
Qed.

Lemma chain_wf_unlink s side R c1 l c2 n1 n n2 :
  l_nodes l = n1 ++ n :: n2 →
  chain_wf s side R (c1 ++ l :: c2) →
  chain_wf s side R (unlink (length c1) (length n1) (c1 ++ l :: c2))
  ∧ n ∉ nodes_of (unlink (length c1) (length n1) (c1 ++ l :: c2)).
Proof.
  intros Hl (Hwf & Hs & Hnd).
  assert (Hperm : nodes_of (c1 ++ l :: c2)
                  ≡ₚ n :: nodes_of (unlink (length c1) (length n1) (c1 ++ l :: c2))).
  { rewrite (unlink_nodes _ _ _ n1 n n2) by done.
    rewrite nodes_of_app, nodes_of_cons, Hl.
    rewrite <- !app_assoc. cbn [app].
    rewrite (app_assoc (nodes_of c1) n1). rewrite <- Permutation_middle.
    by rewrite <- app_assoc. }
  rewrite Hperm in Hnd. apply NoDup_cons in Hnd as [Hn Hnd].
  split; [|done]. split; [|split; [|done]].
  - rewrite unlink_middle, Hl, delete_middle.
    apply Forall_app in Hwf as [Hw1 Hw2].
    apply Forall_cons in Hw2 as [[Hne Hnodes] Hw2].
    rewrite Hl in Hnodes. apply Forall_app in Hnodes as [Hn1 Hn2].
    apply Forall_cons in Hn2 as [_ Hn2].
    destruct (n1 ++ n2) as [|m nodes] eqn:Heq.
    + by apply Forall_app.
    + apply Forall_app. split; [done|]. apply Forall_cons. split; [|done].
      split; [done|]. cbn [l_nodes l_price]. rewrite <- Heq. by apply Forall_app.
  - rewrite unlink_middle.
    apply StronglySorted_app in Hs as (Hcross & Hs1 & Hs2).
    apply StronglySorted_cons in Hs2 as [Hall Hs2].
    destruct (delete (length n1) (l_nodes l)).
    + apply StronglySorted_app. split; [|done].
      intros x1 x2 H1 H2. apply Hcross; [done|]. by apply elem_of_cons; right.
    + apply StronglySorted_app. split; [|split; [done|]].
      * intros x1 x2 H1 H2. apply elem_of_cons in H2 as [->|H2].
        -- cbn [l_price]. apply (Hcross x1 l H1). by apply elem_of_cons; left.
        -- apply Hcross; [done|]. by apply elem_of_cons; right.
      * by apply StronglySorted_cons.
Qed.

Lemma unlink_subset li ni chain m :
  m ∈ nodes_of (unlink li ni chain) → m ∈ nodes_of chain.
Proof.
  unfold unlink. destruct (chain !! li) as [l|] eqn:Hl; [|done].
  pose proof (take_drop_middle _ _ _ Hl) as Hc.
  destruct (delete ni (l_nodes l)) as [|n nodes] eqn:Hd.
  - rewrite <- Hc at 2. rewrite delete_take_drop, !nodes_of_app, nodes_of_cons.
    rewrite !elem_of_app. intros [?|?]; [by left|by right; right].
  - rewrite <- Hc at 2. rewrite insert_take_drop by (by eapply lookup_lt_Some).
    rewrite !nodes_of_app, !nodes_of_cons. cbn [l_nodes].
    rewrite !elem_of_app. intros [?|[Hm|?]]; [by left| |by right; right].
    right; left. rewrite <- Hd in Hm.
    by apply list_elem_of_delete_inv in Hm.
Qed.
Lemma unlink_perm c1 l c2 n1 n n2 :
  l_nodes l = n1 ++ n :: n2 →
  nodes_of (c1 ++ l :: c2)
  ≡ₚ n :: nodes_of (unlink (length c1) (length n1) (c1 ++ l :: c2)).
Proof.
  intros Hl. rewrite (unlink_nodes _ _ _ n1 n n2) by done.
  rewrite nodes_of_app, nodes_of_cons, Hl.
  rewrite <- !app_assoc. cbn [app].
  rewrite (app_assoc (nodes_of c1) n1). rewrite <- Permutation_middle.
  by rewrite <- app_assoc.
Qed.

Lemma lookup_split {A} (l : list A) i x :
  l !! i = Some x → ∃ l1 l2, l = l1 ++ x :: l2 ∧ length l1 = i.
Proof.
  intros Hl. exists (take i l), (drop (S i) l). split.
  - by rewrite take_drop_middle.
  - apply length_take_le. apply lookup_lt_Some in Hl. lia.
Qed.

(** ** Cancel *)

Lemma chain_of_cases dir s :
  (dir = BUY ∧ chain_of dir s = FirstBidLevel s)
  ∨ (dir ≠ BUY ∧ chain_of dir s = FirstAskLevel s).
Proof. unfold chain_of. destruct (decide (dir = 1)); [by left|by right]. Qed.

Lemma node_id_is_key s n :
  Inv_base s → resting s n → o_id (deref s n) = n.
Proof.
  intros Hinv Hn. destruct (book_nodes_stored s n Hinv Hn) as [o Ho].
  rewrite (deref_lookup _ _ _ Ho). by destruct (inv_orders s Hinv _ _ Ho) as (_ & ? & _).
Qed.

Section cancel_facts.
Context (id : Z) (b : ORDER) (s : State).
Hypothesis Hinv : Inv s.
Hypothesis Hb : AllOrders s !! id = Some b.

Lemma cancel_not_resting :
    ¬ (o_orderType b = LIMIT ∧ resting s id) → cancel_order_by_id id s = s.
  Proof.
    intros Hnot. unfold cancel_order_by_id. rewrite (deref_lookup _ _ _ Hb).
    destruct (decide (o_orderType b ≠ 1)) as [|Ht]; [done|].
    assert (Ht' : o_orderType b = 1) by (destruct (decide (o_orderType b = 1)); done).
    cbv zeta.
    destruct (find_level (o_price b) (o_direction b) s) as [li|] eqn:Hfl; [|done].
    cbn [mbind option_bind].
    destruct (chain_of (o_direction b) s !! li) as [l|] eqn:Hl; [|done].
    cbn [find_ordernode].
    destruct (find_ordernode_from s (l_nodes l) id) as [ni|] eqn:Hfn; [|done].
    destruct (l_nodes l !! ni) as [n|] eqn:Hn; [|done].
    exfalso. apply Hnot. split; [done|].
    destruct (find_ordernode_from_Some _ _ _ _ Hfn) as (n' & Hn' & Hid).
    assert (n' = n) as -> by congruence.
    assert (Hrest : resting s n).
    { unfold resting.
      assert (Hin : n ∈ nodes_of (chain_of (o_direction b) s)).
      { apply elem_of_nodes_of. exists l. split; by eapply list_elem_of_lookup_2. }
      destruct (chain_of_cases (o_direction b) s) as [[_ Hc]|[_ Hc]];
        rewrite Hc in Hin; [by left|by right]. }
    rewrite (node_id_is_key s n (inv_base s Hinv) Hrest) in Hid. by subst.
  Qed.

Lemma cancel_resting :
    resting s id →
    o_orderType b = LIMIT
    ∧ ∃ li ni c1 l c2 n1 n2,
        chain_of (o_direction b) s = c1 ++ l :: c2 ∧ length c1 = li
        ∧ l_nodes l = n1 ++ id :: n2 ∧ length n1 = ni
        ∧ (id ∈ nodes_of (FirstBidLevel s) → o_direction b = BUY)
        ∧ (id ∈ nodes_of (FirstAskLevel s) → o_direction b = SELL)
        ∧ cancel_order_by_id id s = cancel_found id (o_direction b) li ni s.
  Proof.
    intros Hrest. destruct Hinv as [Hbase Hbo Hao].
    assert (Hkey : ∀ chain side R, chain_wf s side R chain → id ∈ nodes_of chain →
              ∃ l, l ∈ chain ∧ id ∈ l_nodes l ∧ o_orderType b = 1
                   ∧ o_price b = l_price l ∧ o_direction b = side
                   ∧ Forall (λ n, o_id (deref s n) = n) (l_nodes l)).
    { intros chain side R Hwf Hin.
      destruct (chain_wf_lookup _ _ _ _ _ Hwf Hin) as (o & l & Ho & Hl & Hn & Ht & Hp & Hd).
      assert (o = b) as -> by congruence.
      exists l. split_and!; try done.
      apply Forall_forall. intros n Hn'.
      destruct Hwf as (Hlv & _). rewrite Forall_forall in Hlv.
      destruct (Hlv l Hl) as [_ Hnodes]. rewrite Forall_forall in Hnodes.
      destruct (Hnodes n Hn') as (o' & Ho' & _).
      rewrite (deref_lookup _ _ _ Ho').
      by destruct (inv_orders s Hbase _ _ Ho') as (_ & ? & _). }
    assert (Hfound : ∃ l li, chain_of (o_direction b) s !! li = Some l
              ∧ find_level (o_price b) (o_direction b) s = Some li
              ∧ id ∈ l_nodes l ∧ o_orderType b = 1
              ∧ Forall (λ n, o_id (deref s n) = n) (l_nodes l)
              ∧ (id ∈ nodes_of (FirstBidLevel s) → o_direction b = 1)
              ∧ (id ∈ nodes_of (FirstAskLevel s) → o_direction b = 2)).
    { assert (Hdirs : (id ∈ nodes_of (FirstBidLevel s) → o_direction b = 1)
                      ∧ (id ∈ nodes_of (FirstAskLevel s) → o_direction b = 2)).
      { split; intros Hin.
        - by destruct (Hkey _ _ _ (inv_bids s Hbase) Hin) as (_&_&_&_&_&?&_).
        - by destruct (Hkey _ _ _ (inv_asks s Hbase) Hin) as (_&_&_&_&_&?&_). }
      destruct Hdirs as [Hd1 Hd2].
      destruct Hrest as [Hin|Hin].
      - destruct (Hkey _ _ _ (inv_bids s Hbase) Hin) as (l & Hl & Hn & Ht & Hp & Hd & Hids).
        destruct (find_level_bids_complete (o_price b) (FirstBidLevel s) l)
          as (li & Hfl & Hli); [apply (inv_bids s Hbase)|done|done|].
        exists l, li. unfold chain_of, find_level. rewrite !decide_True by done.
        by split_and!.
      - destruct (Hkey _ _ _ (inv_asks s Hbase) Hin) as (l & Hl & Hn & Ht & Hp & Hd & Hids).
        destruct (find_level_asks_complete (o_price b) (FirstAskLevel s) l)
          as (li & Hfl & Hli); [apply (inv_asks s Hbase)|done|done|].
        exists l, li. unfold chain_of, find_level. rewrite !decide_False by lia.
        by split_and!. }
    destruct Hfound as (l & li & Hli & Hfl & Hn & Ht & Hids & Hd1 & Hd2).
    destruct (find_ordernode_from_complete s (l_nodes l) id Hids Hn) as (ni & Hfn & Hni).
    split; [done|].
    destruct (lookup_split _ _ _ Hli) as (c1 & c2 & Hc & Hlen1).
    destruct (lookup_split _ _ _ Hni) as (n1 & n2 & Hnn & Hlen2).
    exists li, ni, c1, l, c2, n1, n2. split_and!; try done.
    unfold cancel_order_by_id. rewrite (deref_lookup _ _ _ Hb).
    rewrite decide_False by (intros ?; done).
    cbv zeta. rewrite Hfl. cbn [mbind option_bind]. rewrite Hli.
    cbn [find_ordernode]. rewrite Hfn, Hni.
    unfold cancel_found. do 3 f_equal.
    rewrite assign_assign. erewrite deref_lookup; [|
      unfold assign; state_simpl; rewrite lookup_alter_eq, Hb; reflexivity].
    done.
  Qed.
End cancel_facts.
Lemma Inv_base_assign p f s b :
  Inv_base s → AllOrders s !! p = Some b →
  order_wf (f b) → static_eq b (f b) →
  Inv_base (assign p f s).
Proof.
  intros [H1 H2 H3 H4 H5] Hb Hwf Hst.
  assert (Hext : store_extends s (assign p f s)).
  { intros k o Ho. unfold assign. state_simpl. rewrite lookup_alter.
    destruct (decide (p = k)) as [<-|]; [|exists o; split; [done|apply static_eq_refl]].
    rewrite Ho. simpl. eexists. split; [done|]. congruence. }
  split.
  - intros k o. unfold assign. state_simpl. rewrite lookup_alter.
    destruct (decide (p = k)) as [<-|Hk].
    + rewrite Hb. simpl. intros [= <-].
      destruct (H1 _ _ Hb) as (?&?&?&?). destruct Hst as (?&?&?&?&Hid&Hac&?).
      unfold order_ok. state_simpl. rewrite <- Hid, <- Hac. split_and!; try done; lia.
    + intros Ho. by apply H1.
  - done.
  - done.
  - by eapply chain_wf_mono.
  - by eapply chain_wf_mono.
Qed.

Lemma get_size_from_level_ext s s' level :
  AllOrders s' = AllOrders s →
  get_size_from_level s' level = get_size_from_level s level.
Proof.
  intros Ho. destruct level as [|l next]; [done|]. cbn [get_size_from_level].
  generalize 0. induction (l_nodes l) as [|n nodes IH]; intros acc; [done|].
  cbn [fold_left]. rewrite IH. unfold deref. by rewrite Ho.
Qed.

Lemma get_depth_ext s s' level :
  AllOrders s' = AllOrders s → get_depth s' level = get_depth s level.
Proof.
  intros Ho. unfold get_depth. generalize 0.
  induction level as [|l next IH]; intros acc; [done|].
  cbn [get_depth_from]. by rewrite (get_size_from_level_ext s s'), IH.
Qed.

Lemma quote_fresh_ext s s' :
  AllOrders s' = AllOrders s → FirstBidLevel s' = FirstBidLevel s →
  FirstAskLevel s' = FirstAskLevel s → Quote s' = Quote s →
  quote_fresh s → quote_fresh s'.
Proof.
  intros Ho Hb Ha Hq. unfold quote_fresh.
  by rewrite Hq, Hb, Ha, !(get_size_from_level_ext s s'), !(get_depth_ext s s').
Qed.

Lemma remake_most_of_quote_fresh s : quote_fresh (remake_most_of_quote s).
Proof.
  unfold quote_fresh.
  rewrite !(get_size_from_level_ext s (remake_most_of_quote s)) by done.
  rewrite !(get_depth_ext s (remake_most_of_quote s)) by done.
  by split_and!.
Qed.

Lemma create_ticker_message_fresh s :
  quote_fresh s → quote_fresh (create_ticker_message s).
Proof. by apply quote_fresh_ext. Qed.

Section cancel_found_facts.
Context (id : Z) (b : ORDER) (s : State).
Context (li ni : nat) (c1 c2 : list LEVEL) (l : LEVEL) (n1 n2 : list Z).
Hypothesis Hinv : Inv s.
Hypothesis Hb : AllOrders s !! id = Some b.
Hypothesis Hchain : chain_of (o_direction b) s = c1 ++ l :: c2.
Hypothesis Hli : length c1 = li.
Hypothesis Hnodes : l_nodes l = n1 ++ id :: n2.
Hypothesis Hni : length n1 = ni.
Hypothesis Hbid : id ∈ nodes_of (FirstBidLevel s) → o_direction b = BUY.
Hypothesis Hask : id ∈ nodes_of (FirstAskLevel s) → o_direction b = SELL.

#[local] Abbreviation sA := (assign id (set_qty 0) (assign id (set_open false) s)).
#[local] Abbreviation s' := (cancel_found id (o_direction b) li ni s).

Lemma cancel_found_frame :
    AllOrders s' = alter (set_qty 0 ∘ set_open false) id (AllOrders s)
    ∧ AllAccounts s' = AllAccounts s
    ∧ next_id_static s' = next_id_static s
    ∧ HighestKnownOrder s' = HighestKnownOrder s
    ∧ stderr s' = stderr s ++ [TICKER (Quote s')]
    ∧ q_last (Quote s') = q_last (Quote s)
    ∧ q_lastSize (Quote s') = q_lastSize (Quote s)
    ∧ q_lastTrade (Quote s') = q_lastTrade (Quote s)
    ∧ quote_fresh s'.
  Proof.
    unfold cancel_found, cleanup_after_cancel.
    destruct (decide (o_direction b = 1)); split_and!; try done;
      try (unfold assign; state_simpl; apply alter_alter_eq);
      apply create_ticker_message_fresh, remake_most_of_quote_fresh.
  Qed.

Lemma cancel_found_chains :
    (o_direction b = BUY
     ∧ FirstBidLevel s' = unlink li ni (FirstBidLevel s)
     ∧ FirstBidLevel s = c1 ++ l :: c2
     ∧ FirstAskLevel s' = FirstAskLevel s)
    ∨ (o_direction b ≠ BUY
       ∧ FirstAskLevel s' = unlink li ni (FirstAskLevel s)
       ∧ FirstAskLevel s = c1 ++ l :: c2
       ∧ FirstBidLevel s' = FirstBidLevel s).
  Proof.
    unfold cancel_found, cleanup_after_cancel.
    destruct (chain_of_cases (o_direction b) s) as [[Hd Hc]|[Hd Hc]];
      rewrite Hc in Hchain.
    - left. by rewrite decide_True by done.
    - right. by rewrite decide_False by done.
  Qed.

Lemma cancel_found_wf_closed : order_wf ((set_qty 0 ∘ set_open false) b).
  Proof.
    destruct (inv_orders s (inv_base s Hinv) _ _ Hb) as (Hwf & _).
    pose proof (order_wf_sum b Hwf).
    destruct Hwf as (?&?&?&?&?&?).
    unfold order_wf; simpl. split_and!; try done; lia.
  Qed.

Lemma cancel_found_Inv_base_sA : Inv_base sA.
  Proof.
    rewrite assign_assign.
    apply (Inv_base_assign id _ s b); [apply Hinv|done| |by unfold static_eq].
    apply cancel_found_wf_closed.
  Qed.

Lemma cancel_found_deref_other m : m ≠ id → deref sA m = deref s m.
  Proof.
    intros Hm. rewrite assign_assign. unfold deref, assign. state_simpl.
    by rewrite !lookup_total_alt, lookup_alter_ne.
  Qed.

Lemma cancel_found_Inv : Inv s' ∧ ¬ resting s' id
                           ∧ ∀ m, m ≠ id → (resting s' m ↔ resting s m).
  Proof.
    destruct cancel_found_frame as (Ho & Hacc & Hn & _).
    pose proof cancel_found_Inv_base_sA as HbaseA.
    destruct Hinv as [Hbase Hbo Hao].
    assert (HoA : AllOrders s' = AllOrders sA).
    { rewrite Ho, assign_assign. done. }
    assert (Hopen_other : ∀ chain, chain_open s chain → id ∉ nodes_of chain →
              chain_open sA chain).
    { intros chain Hopen Hnot. unfold chain_open in *.
      apply Forall_forall. intros m Hm. rewrite Forall_forall in Hopen.
      rewrite cancel_found_deref_other; [by apply Hopen|]. by intros ->. }
    assert (Hopen_unlink : ∀ chain, chain_open s chain →
              id ∉ nodes_of (unlink li ni chain) →
              chain_open sA (unlink li ni chain)).
    { intros chain Hopen Hnot. unfold chain_open in *.
      apply Forall_forall. intros m Hm. rewrite Forall_forall in Hopen.
      rewrite cancel_found_deref_other; [|by intros ->].
      apply Hopen. by eapply unlink_subset. }
    destruct cancel_found_chains as [(Hd & Hfb & Hc & Hfa)|(Hd & Hfa & Hc & Hfb)].
    - assert (Hnot_ask : id ∉ nodes_of (FirstAskLevel s)).
      { intros Hin. apply Hask in Hin. congruence. }
      pose proof (inv_bids sA HbaseA) as HwfA. state_simpl. rewrite Hc in HwfA.
      destruct (chain_wf_unlink sA 1 Z.gt c1 l c2 n1 id n2 Hnodes HwfA) as [Hwf' Hnot'].
      rewrite Hli, Hni, <- Hc in Hwf', Hnot'.
      pose proof (unlink_perm c1 l c2 n1 id n2 Hnodes) as Hperm.
      rewrite Hli, Hni, <- Hc in Hperm.
      split; [|split].
      + apply (Inv_intro sA); try done; rewrite ?Hfb, ?Hfa; try done.
        * apply (inv_asks sA HbaseA).
        * by apply Hopen_unlink.
        * by apply Hopen_other.
      + unfold resting. rewrite Hfb, Hfa. by intros [?|?].
      + intros m Hm. unfold resting. rewrite Hfb, Hfa, Hperm, elem_of_cons.
        split; [intros [?|?]; [left; by right|by right]|].
        intros [[?|?]|?]; [done|by left|by right].
    - assert (Hnot_bid : id ∉ nodes_of (FirstBidLevel s)).
      { intros Hin. apply Hbid in Hin. congruence. }
      pose proof (inv_asks sA HbaseA) as HwfA. state_simpl. rewrite Hc in HwfA.
      destruct (chain_wf_unlink sA 2 Z.lt c1 l c2 n1 id n2 Hnodes HwfA) as [Hwf' Hnot'].
      rewrite Hli, Hni, <- Hc in Hwf', Hnot'.
      pose proof (unlink_perm c1 l c2 n1 id n2 Hnodes) as Hperm.
      rewrite Hli, Hni, <- Hc in Hperm.
      split; [|split].
      + apply (Inv_intro sA); try done; rewrite ?Hfb, ?Hfa; try done.
        * apply (inv_bids sA HbaseA).
        * by apply Hopen_other.
        * by apply Hopen_unlink.
      + unfold resting. rewrite Hfb, Hfa. by intros [?|?].
      + intros m Hm. unfold resting. rewrite Hfb, Hfa, Hperm, elem_of_cons.
        split; [intros [?|?]; [by left|right; by right]|].
        intros [?|[?|?]]; [by left|done|by right].
  Qed.
End cancel_found_facts.
Lemma resting_dec s id : Decision (resting s id).
Proof. unfold resting. apply _. Defined.

Lemma cancel_order_by_id_Inv id s :
  Inv s → is_Some (AllOrders s !! id) → Inv (cancel_order_by_id id s).
Proof.
  intros Hinv [b Hb].
  destruct (resting_dec s id) as [Hr|Hr].
  - destruct (cancel_resting id b s Hinv Hb Hr)
      as (_ & li & ni & c1 & l & c2 & n1 & n2 & Hc & Hli & Hn & Hni & Hd1 & Hd2 & ->).
    by destruct (cancel_found_Inv id b s li ni c1 c2 l n1 n2).
  - rewrite (cancel_not_resting id b s); [done..|]. by intros [_ ?].
Qed.

(** ** The invariant holds in every reachable state *)

Lemma main_step_ORDER_snd account account_int qty price direction orderType s :
  snd (main_step (ORDER_CMD account account_int qty price direction orderType) s)
  = snd (execute_order account account_int qty price direction orderType s).
Proof.
  cbn [main_step]. destruct (execute_order _ _ _ _ _ _ _) as [oe s1].
  by destruct (decide _).
Qed.

Lemma known_order_stored id s : known_order id s = true → is_Some (AllOrders s !! id).
Proof.
  unfold known_order. intros H. apply negb_true_iff in H.
  apply orb_false_iff in H as [_ H]. apply bool_decide_eq_false in H.
  by destruct (AllOrders s !! id).
Qed.

Lemma main_step_CANCEL_snd id s :
  snd (main_step (CANCEL id) s)
  = if known_order id s then cancel_order_by_id id s else s.
Proof. cbn [main_step]. by destruct (known_order id s). Qed.

Lemma initial_state_Inv : Inv initial_state.
Proof.
  split; [split|..].
  - apply map_Forall_empty.
  - simpl. lia.
  - apply map_Forall_empty.
  - split; [done|]. split; [constructor|constructor].
  - split; [done|]. split; [constructor|constructor].
  - constructor.
  - constructor.
Qed.

Lemma main_step_Inv c s : Inv s → valid_command c → Inv (snd (main_step c s)).
Proof.
  intros Hinv Hc. destruct c.
  - rewrite main_step_ORDER_snd. destruct Hc as (_ & ? & ? & _).
    by apply execute_order_Inv.
  - cbn [main_step]. by destruct (known_order id s).
  - cbn [main_step]. by destruct (AllAccounts s !! id).
  - rewrite main_step_CANCEL_snd. destruct (known_order id s) eqn:Hk; [|done].
    apply cancel_order_by_id_Inv; [done|]. by apply known_order_stored.
  - done.
  - cbn [main_step new_timestamp snd]. by apply (Inv_same_core s).
Qed.

Lemma reachable_Inv s : reachable s → Inv s.
Proof.
  induction 1 as [|c s Hr IH Hc]; [apply initial_state_Inv|by apply main_step_Inv].
Qed.

Lemma reachable_run_commands cs s :
  reachable s → Forall valid_command cs → reachable (run_commands cs s).
Proof.
  intros Hr Hcs. revert s Hr. induction Hcs as [|c cs Hc Hcs IH]; intros s Hr; [done|].
  cbn [run_commands fold_left]. apply IH. by constructor.
Qed.
(** ** The stages after matching, for an order that is not a limit order *)

Lemma alter_lookup_eq {A} (f : A → A) (m : gmap Z A) k x :
  m !! k = Some x → alter f k m = <[k := f x]> m.
Proof.
  intros Hk. apply map_eq. intros j. rewrite lookup_alter, lookup_insert.
  destruct (decide (k = j)) as [<-|]; [by rewrite Hk|done].
Qed.

Section finish_facts.
Context (order : Z) (b : ORDER) (s : State).
Hypothesis Hb : AllOrders s !! order = Some b.
Hypothesis Htype : o_orderType b ≠ LIMIT.

Lemma finish_nonlimit_AllOrders :
    AllOrders (finish order s) = <[order := finish_record b]> (AllOrders s).
  Proof.
    unfold finish.
    set (s1 := cleanup_stage order s).
    assert (Hb1 : AllOrders s1 !! order = Some b).
    { subst s1. by destruct (cleanup_stage_frame order s) as (-> & _). }
    assert (Ho1 : AllOrders s1 = AllOrders s).
    { subst s1. by destruct (cleanup_stage_frame order s) as (-> & _). }
    clearbody s1.
    set (b1 := if decide (o_orderType b = 2) then set_price 0 b else b).
    assert (Hs2 : AllOrders (market_price_stage order s1)
                  = <[order := b1]> (AllOrders s)).
    { unfold market_price_stage. rewrite (deref_lookup _ _ _ Hb1). subst b1.
      destruct (decide (o_orderType b = 2)).
      - unfold assign. state_simpl. rewrite Ho1. by apply alter_lookup_eq.
      - rewrite Ho1. symmetry. by apply insert_id. }
    set (s2 := market_price_stage order s1) in *. clearbody s2.
    assert (Hb2 : AllOrders s2 !! order = Some b1) by (by rewrite Hs2, lookup_insert_eq).
    assert (Ht1 : o_orderType b1 ≠ 1) by (subst b1; by destruct (decide _)).
    assert (Hs3 : AllOrders (resting_stage order s2)
                  = <[order := finish_record b]> (AllOrders s)).
    { unfold resting_stage, finish_record. rewrite (deref_lookup _ _ _ Hb2).
      cbv zeta. change (if decide (o_orderType b = 2) then set_price 0 b else b) with b1.
      destruct (o_open b1) eqn:Hopen.
      - rewrite decide_False by done. rewrite assign_assign.
        unfold assign. state_simpl. rewrite (alter_lookup_eq _ _ _ _ Hb2), Hs2.
        by rewrite insert_insert_eq.
      - done. }
    unfold ticker_stage. destruct (decide (_ ∨ _)); exact Hs3.
  Qed.

Lemma finish_nonlimit_frame :
    FirstBidLevel (finish order s) = FirstBidLevel (cleanup_stage order s)
    ∧ FirstAskLevel (finish order s) = FirstAskLevel (cleanup_stage order s)
    ∧ AllAccounts (finish order s) = AllAccounts s
    ∧ next_id_static (finish order s) = next_id_static s
    ∧ HighestKnownOrder (finish order s) = HighestKnownOrder s.
  Proof.
    unfold finish.
    set (s1 := cleanup_stage order s).
    assert (Hb1 : AllOrders s1 !! order = Some b).
    { subst s1. by destruct (cleanup_stage_frame order s) as (-> & _). }
    assert (H1 : AllAccounts s1 = AllAccounts s ∧ next_id_static s1 = next_id_static s
                 ∧ HighestKnownOrder s1 = HighestKnownOrder s).
    { subst s1. unfold cleanup_stage. by destruct (decide _). }
    destruct H1 as (<- & <- & <-). clearbody s1.
    set (s2 := market_price_stage order s1).
    assert (H2 : FirstBidLevel s2 = FirstBidLevel s1 ∧ FirstAskLevel s2 = FirstAskLevel s1
                 ∧ AllAccounts s2 = AllAccounts s1
                 ∧ next_id_static s2 = next_id_static s1
                 ∧ HighestKnownOrder s2 = HighestKnownOrder s1
                 ∧ o_orderType (deref s2 order) ≠ 1).
    { subst s2. unfold market_price_stage. rewrite (deref_lookup _ _ _ Hb1).
      destruct (decide (o_orderType b = 2)); split_and!; try done.
      - erewrite deref_lookup;
          [|unfold assign; state_simpl; rewrite lookup_alter_eq, Hb1; reflexivity].
        done.
      - by rewrite (deref_lookup _ _ _ Hb1). }
    destruct H2 as (<- & <- & <- & <- & <- & Ht). clearbody s2.
    unfold ticker_stage, resting_stage.
    destruct (decide (_ ∨ _)); destruct (o_open _); rewrite ?decide_False by done; done.
  Qed.

Lemma finish_nonlimit_stderr :
    stderr (finish order s)
    = stderr s ++ (if decide (o_totalFilled b ≠ 0)
                   then [TICKER (Quote (finish order s))] else []).
  Proof.
    assert (Hfb : AllOrders (finish order s) !! order = Some (finish_record b)).
    { by rewrite finish_nonlimit_AllOrders, lookup_insert_eq. }
    unfold finish in *.
    set (s3 := resting_stage order
                 (market_price_stage order (cleanup_stage order s))) in *.
    assert (H3 : stderr s3 = stderr s).
    { subst s3. unfold resting_stage, market_price_stage, cleanup_stage,
        insert_ask, insert_bid.
      repeat (destruct (decide _) || destruct (o_open _)); done. }
    assert (Hb3 : o_totalFilled (deref s3 order) = o_totalFilled b
                  ∧ o_orderType (deref s3 order) = o_orderType b).
    { assert (Hl : AllOrders s3 !! order = Some (finish_record b)).
      { revert Hfb. unfold ticker_stage. by destruct (decide (_ ∨ _)). }
      rewrite (deref_lookup _ _ _ Hl). unfold finish_record. cbv zeta.
      destruct (decide (o_orderType b = 2)); cbn [o_open set_price];
        destruct (o_open b); order_simpl; done. }
    destruct Hb3 as [Htf Hty]. clearbody s3.
    unfold ticker_stage. rewrite Htf, Hty.
    destruct (decide (o_totalFilled b ≠ 0)) as [Hne|He].
    - rewrite decide_True by (by left). state_simpl. by rewrite H3.
    - rewrite decide_False by (intros [?|?]; done). by rewrite app_nil_r.
  Qed.
End finish_facts.
(** ** Validation of an ORDER *)

(** C5: [execute_order] validates in the order TOO_MANY_ORDERS (the id counter
    has reached 2_000_000_000), then TOO_HIGH_ACCOUNT (account_int >= 5000),
    then SILLY_VALUE (price < 0, qty < 1, or a direction that is neither BUY
    nor SELL). On each of these errors no order is returned and the whole
    state is the one before the call: no id consumed, no account created,
    book, quote and order records unchanged. When no check fires the order is
    accepted under the next id; this is stated for account numbers from 0
    up, the slots of the account table. *)
Theorem C5_validation_order_no_side_effects
    (account_name : string) (account_int qty price direction orderType : Z)
    (s : State) :
  let r := execute_order account_name account_int qty price direction orderType s in
  (next_id_static s >= MAXORDERS →
   r = ({| oe_order := None; oe_error := TOO_MANY_ORDERS |}, s))
  ∧ (next_id_static s < MAXORDERS → account_int >= MAXACCOUNTS →
     r = ({| oe_order := None; oe_error := TOO_HIGH_ACCOUNT |}, s))
  ∧ (next_id_static s < MAXORDERS → account_int < MAXACCOUNTS →
     price < 0 ∨ qty < 1 ∨ (direction ≠ BUY ∧ direction ≠ SELL) →
     r = ({| oe_order := None; oe_error := SILLY_VALUE |}, s))
  ∧ (next_id_static s < MAXORDERS → 0 <= account_int < MAXACCOUNTS →
     0 <= price → 1 <= qty → direction = BUY ∨ direction = SELL →
     fst r = {| oe_order := Some (next_id_static s); oe_error := 0 |})
  ∧ (oe_error (fst r) ≠ 0 → oe_order (fst r) = None ∧ snd r = s).
Proof.
  cbv zeta.
  destruct (validation s account_int qty price direction) as [e|] eqn:Hv.
  - rewrite (execute_order_rejected _ _ _ _ _ _ _ _ Hv).
    unfold validation in Hv.
    destruct (decide (next_id_static s >= 2000000000)).
    { injection Hv as <-. split_and!; try done; lia. }
    destruct (decide (account_int >= 5000)).
    { injection Hv as <-. split_and!; try done; lia. }
    destruct (decide (price < 0 ∨ qty < 1 ∨ ¬ (direction = 1 ∨ direction = 2)))
      as [Hs|Hs]; [|done].
    injection Hv as <-. split_and!; try done; try lia.
  - rewrite (execute_order_accepted _ _ _ _ _ _ _ Hv).
    apply validation_None in Hv as (? & ? & ? & ? & ?).
    split_and!; try done; try lia.
Qed.

(** At the empty book, an order for account number 5000 with a negative price
    is refused as TOO_HIGH_ACCOUNT, not SILLY_VALUE, and nothing changes. *)
Lemma C5_validation_order_no_side_effects_witness :
  execute_order "A" 5000 10 (-1) BUY LIMIT initial_state
  = ({| oe_order := None; oe_error := TOO_HIGH_ACCOUNT |}, initial_state).
Proof.
  destruct (C5_validation_order_no_side_effects "A" 5000 10 (-1) 1 1 initial_state)
    as (_ & H & _).
  apply H; vm_compute; done.
Defined.

(** ** The quantities of an order between two commands *)

(** C8, as stated, fails: a resting bid of 100 that is cancelled has
    qty = 0 and totalFilled = 0 but originalQty = 100. *)
Lemma C8_sum_broken_by_cancel :
  reachable example_cancelled
  ∧ ∃ o, AllOrders example_cancelled !! 0 = Some o
         ∧ o_qty o = 0 ∧ o_totalFilled o = 0 ∧ o_originalQty o = 100
         ∧ o_qty o + o_totalFilled o ≠ o_originalQty o.
Proof.
  split.
  - apply reachable_run_commands; [constructor|].
    repeat constructor; vm_compute; done.
  - eexists. split; [vm_compute; reflexivity|]. vm_compute. split_and!; done.
Qed.

(** C8, amended: between two commands every stored order that is open has
    qty + totalFilled = originalQty with qty > 0, and every closed one has
    qty = 0 and 0 <= totalFilled <= originalQty (the remainder of a cancelled
    order, or of an IOC, FOK or MARKET order that could not fill, is dropped). *)
Theorem C8_quantities_between_commands (s : State) (id : Z) (o : ORDER) :
  reachable s → AllOrders s !! id = Some o →
  (o_open o = true →
   0 < o_qty o ∧ o_qty o + o_totalFilled o = o_originalQty o)
  ∧ (o_open o = false →
     o_qty o = 0 ∧ 0 <= o_totalFilled o <= o_originalQty o).
Proof.
  intros Hr Ho. apply reachable_Inv in Hr.
  destruct (inv_orders s (inv_base s Hr) id o Ho) as ((_ & ? & _ & _ & _ & Hq) & _).
  split; intros Hopen; rewrite Hopen in Hq; lia.
Qed.

Lemma C8_quantities_between_commands_witness :
  ∃ o, AllOrders example_cancelled !! 0 = Some o
       ∧ o_qty o = 0 ∧ 0 <= o_totalFilled o <= o_originalQty o.
Proof.
  eexists. split; [vm_compute; reflexivity|].
  refine (proj2 (C8_quantities_between_commands example_cancelled 0 _ _ _) _).
  - apply reachable_run_commands; [constructor|].
    repeat constructor; vm_compute; done.
  - vm_compute. reflexivity.
  - vm_compute. reflexivity.
Defined.
(** ** Time priority inside a level *)

Lemma chain_fifo_cleanup s chain :
  chain_fifo chain → chain_fifo (cleanup_closed_bids_or_asks s chain).
Proof.
  induction 1 as [|l chain Hl Hall IH]; cbn [cleanup_closed_bids_or_asks]; [constructor|].
  destruct (first_open_node_suffix s (l_nodes l)) as (pre & Hpre & _).
  destruct (first_open_node s (l_nodes l)) as [|n nodes]; [done|].
  constructor; [|done]. cbn [l_nodes]. rewrite Hpre in Hl.
  by apply StronglySorted_app_1_r in Hl.
Qed.

Lemma chain_fifo_insert before price order chain :
  chain_fifo chain → Forall (λ n, n < order) (nodes_of chain) →
  chain_fifo (insert_level before price order chain).
Proof.
  induction 1 as [|l chain Hl Hall IH]; intros Hlt; cbn [insert_level].
  - constructor; [|constructor]. cbn. repeat constructor.
  - rewrite nodes_of_cons in Hlt. apply Forall_app in Hlt as [Hlt1 Hlt2].
    destruct (before price (l_price l)).
    + constructor; [cbn; repeat constructor|by constructor].
    + destruct (decide (price = l_price l)).
      * constructor; [|done]. cbn [l_nodes]. apply StronglySorted_app_2.
        -- intros x1 x2 Hx1 ->%list_elem_of_singleton.
           by apply (proj1 (Forall_forall _ _) Hlt1).
        -- done.
        -- repeat constructor.
      * constructor; [done|]. by apply IH.
Qed.

Lemma StronglySorted_delete {A} (R : relation A) (l : list A) i :
  StronglySorted R l → StronglySorted R (delete i l).
Proof.
  intros Hl. revert i.
  induction Hl as [|x l Hl IH Hx]; intros [|i]; cbn; [constructor|constructor|done|].
  constructor; [apply IH|]. by apply Forall_delete.
Qed.

Lemma chain_fifo_unlink level ordernode chain :
  chain_fifo chain → chain_fifo (unlink level ordernode chain).
Proof.
  intros Hall. unfold unlink. destruct (chain !! level) as [l|] eqn:Hl; [|done].
  assert (Hs : StronglySorted Z.lt (delete ordernode (l_nodes l))).
  { apply StronglySorted_delete.
    by apply (proj1 (Forall_lookup _ _) Hall level l). }
  destruct (delete ordernode (l_nodes l)) as [|n nodes].
  - by apply Forall_delete.
  - by apply Forall_insert.
Qed.

Lemma book_nodes_below_counter s n :
  Inv_base s → resting s n → n < next_id_static s.
Proof.
  intros Hinv Hn. destruct (book_nodes_stored s n Hinv Hn) as [o Ho].
  destruct (inv_orders s Hinv n o Ho) as (_ & _ & ? & _). lia.
Qed.

Lemma resting_stage_chains order s :
  (FirstBidLevel (resting_stage order s) = FirstBidLevel s
   ∨ FirstBidLevel (resting_stage order s)
     = insert_level (λ p q, bool_decide (p > q)) (o_price (deref s order)) order
                    (FirstBidLevel s))
  ∧ (FirstAskLevel (resting_stage order s) = FirstAskLevel s
     ∨ FirstAskLevel (resting_stage order s)
       = insert_level (λ p q, bool_decide (p < q)) (o_price (deref s order)) order
                      (FirstAskLevel s)).
Proof.
  unfold resting_stage, insert_ask, insert_bid.
  rewrite insert_ask_from_level, insert_bid_from_level.
  destruct (o_open _); [|by split; left].
  destruct (decide (o_orderType _ = 1)); [|by split; left].
  destruct (decide (o_direction _ = 2)); split; (by left) || (by right).
Qed.

Lemma ticker_stage_chains order s :
  FirstBidLevel (ticker_stage order s) = FirstBidLevel s
  ∧ FirstAskLevel (ticker_stage order s) = FirstAskLevel s.
Proof. unfold ticker_stage. by destruct (decide (_ ∨ _)). Qed.

Lemma cleanup_stage_Fifo order s : Fifo s → Fifo (cleanup_stage order s).
Proof.
  intros [Hb Ha]. unfold cleanup_stage.
  destruct (decide _); split; cbn; try done; by apply chain_fifo_cleanup.
Qed.

Lemma execute_order_Fifo account_name account_int qty price direction orderType s :
  Inv s → Fifo s → is_int32 qty → is_int32 price →
  Fifo (snd (execute_order account_name account_int qty price direction orderType s)).
Proof.
  intros Hinv Hfifo Hqty Hprice.
  destruct (validation s account_int qty price direction) as [e|] eqn:Hv.
  { by rewrite (execute_order_rejected _ _ _ _ _ _ _ e). }
  rewrite execute_order_accepted by done. cbn [snd].
  set (id := next_id_static s).
  set (s1 := create_order account_name account_int qty price direction orderType s).
  pose proof (create_order_Inv account_name account_int qty price direction
                orderType s Hinv Hv Hqty Hprice) as Hinv1.
  destruct (create_order_not_in_book account_name account_int qty price direction
              orderType s Hinv) as [Hnb1 Hna1].
  destruct (create_order_frame account_name account_int qty price direction
              orderType s) as (Hfb1 & Hfa1 & _).
  fold s1 in Hinv1, Hnb1, Hna1, Hfb1, Hfa1. fold id in Hnb1, Hna1.
  assert (Hb1 : ∃ b, AllOrders s1 !! id = Some b ∧ o_open b = true).
  { eexists. subst s1. rewrite create_order_AllOrders, lookup_insert_eq. done. }
  destruct Hb1 as (b & Hb1 & Hopen).
  destruct (matching_stage_matched id b s1 Hinv1 Hb1 Hopen Hnb1 Hna1)
    as (_ & _ & Hfb2 & Hfa2 & _).
  set (s2 := matching_stage id s1) in *.
  assert (Hfifo2 : Fifo s2).
  { unfold Fifo. by rewrite Hfb2, Hfa2, Hfb1, Hfa1. }
  assert (Hlt2 : ∀ n, resting s2 n → n < id).
  { intros n Hn. unfold resting in Hn. rewrite Hfb2, Hfa2, Hfb1, Hfa1 in Hn.
    apply book_nodes_below_counter; [by destruct Hinv|done]. }
  clearbody s2.
  apply (cleanup_stage_Fifo id) in Hfifo2.
  assert (Hlt3 : ∀ n, resting (cleanup_stage id s2) n → n < id).
  { intros n [Hn|Hn]; apply cleanup_stage_nodes in Hn; apply Hlt2; [by left|by right]. }
  set (s3 := cleanup_stage id s2) in *. clearbody s3.
  destruct (market_price_stage_frame id s3) as (Hfb4 & Hfa4 & _).
  set (s4 := market_price_stage id s3) in *. clearbody s4.
  destruct (ticker_stage_chains id (resting_stage id s4)) as [Hfb6 Hfa6].
  destruct (resting_stage_chains id s4) as [Hfb5 Hfa5].
  destruct Hfifo2 as [Hf1 Hf2].
  unfold Fifo. rewrite Hfb6, Hfa6. split.
  - destruct Hfb5 as [->| ->]; rewrite Hfb4; [done|].
    apply chain_fifo_insert; [done|]. apply Forall_forall. intros n Hn.
    apply Hlt3. by left.
  - destruct Hfa5 as [->| ->]; rewrite Hfa4; [done|].
    apply chain_fifo_insert; [done|]. apply Forall_forall. intros n Hn.
    apply Hlt3. by right.
Qed.

Lemma cancel_order_by_id_Fifo id s :
  Inv s → Fifo s → is_Some (AllOrders s !! id) → Fifo (cancel_order_by_id id s).
Proof.
  intros Hinv [Hfb Hfa] [b Hb].
  destruct (resting_dec s id) as [Hr|Hr].
  - destruct (cancel_resting id b s Hinv Hb Hr)
      as (_ & li & ni & c1 & l & c2 & n1 & n2 & Hc & Hli & Hn & Hni & Hd1 & Hd2 & ->).
    destruct (cancel_found_chains id b s li ni c1 c2 l Hc)
      as [(_ & H1 & _ & H2)|(_ & H1 & _ & H2)];
      split; rewrite ?H1, ?H2; try done; by apply chain_fifo_unlink.
  - rewrite (cancel_not_resting id b s); [done..|]. by intros [_ ?].
Qed.

Lemma main_step_Fifo c s :
  Inv s → Fifo s → valid_command c → Fifo (snd (main_step c s)).
Proof.
  intros Hinv Hfifo Hc. destruct c.
  - rewrite main_step_ORDER_snd. destruct Hc as (_ & ? & ? & _).
    by apply execute_order_Fifo.
  - cbn [main_step]. by destruct (known_order id s).
  - cbn [main_step]. by destruct (AllAccounts s !! id).
  - rewrite main_step_CANCEL_snd. destruct (known_order id s) eqn:Hk; [|done].
    apply cancel_order_by_id_Fifo; [done..|]. by apply known_order_stored.
  - done.
  - done.
Qed.

Lemma reachable_Fifo s : reachable s → Fifo s.
Proof.
  induction 1 as [|c s Hr IH Hc].
  - split; constructor.
  - apply main_step_Fifo; [by apply reachable_Inv|done..].
Qed.
(** ** The state the matcher sees for an accepted order *)

Lemma order_wf_qty_bounds o : order_wf o → 0 <= o_qty o <= 2147483647.
Proof.
  intros (? & ? & ? & _ & _ & Hq). destruct (o_open o); lia.
Qed.

Lemma crossable_queue_facts order b s :
  Inv s → AllOrders s !! order = Some b →
  order ∉ nodes_of (FirstBidLevel s) → order ∉ nodes_of (FirstAskLevel s) →
  (order ∉ crossable_queue s order) ∧ NoDup (crossable_queue s order)
  ∧ Forall (λ n, is_Some (AllOrders s !! n)) (crossable_queue s order)
  ∧ Forall (λ n, 0 <= o_qty (deref s n) <= 2147483647) (crossable_queue s order)
  ∧ Forall (λ n, resting s n) (crossable_queue s order).
Proof.
  intros [Hbase Hbo Hao] Hb Hnb Hna. unfold crossable_queue.
  rewrite (deref_lookup _ _ _ Hb). unfold opposite_side.
  assert (Hgen : ∀ opp side R f, chain_wf s side R opp → chain_open s opp →
            order ∉ nodes_of opp → (∀ n, n ∈ nodes_of opp → resting s n) →
            (order ∉ nodes_of (take_while f opp)) ∧ NoDup (nodes_of (take_while f opp))
            ∧ Forall (λ n, is_Some (AllOrders s !! n)) (nodes_of (take_while f opp))
            ∧ Forall (λ n, 0 <= o_qty (deref s n) <= 2147483647)
                     (nodes_of (take_while f opp))
            ∧ Forall (λ n, resting s n) (nodes_of (take_while f opp))).
  { intros opp side R f Hwf Hopen Hnot Hrest.
    destruct (queue_facts order s opp side R Hwf Hopen Hnot f)
      as (H1 & H2 & H3 & _).
    split; [done|]. split; [done|].
    destruct (nodes_of_take_while_prefix f opp) as [rest Heq].
    split_and!; apply Forall_forall; intros n Hn;
      rewrite Forall_forall in H3; destruct (H3 n Hn) as [[o Ho] _].
    - by exists o.
    - rewrite (deref_lookup _ _ _ Ho). apply order_wf_qty_bounds.
      by destruct (inv_orders s Hbase n o Ho) as [? _].
    - apply Hrest. rewrite Heq. apply elem_of_app. by left. }
  destruct (decide (o_direction b = 2)).
  - apply (Hgen _ 1 Z.gt); [by destruct Hbase|done..|]. intros m ?. by left.
  - apply (Hgen _ 2 Z.lt); [by destruct Hbase|done..|]. intros m ?. by right.
Qed.

Section accepted.
Context (account_name : string) (account_int qty price direction orderType : Z).
Context (s : State).
Hypothesis Hinv : Inv s.
Hypothesis Hvalid : validation s account_int qty price direction = None.
Hypothesis Hqty : is_int32 qty.
Hypothesis Hprice : is_int32 price.
#[local] Abbreviation order := (next_id_static s).
#[local] Abbreviation s1 :=
    (create_order account_name account_int qty price direction orderType s).
#[local] Abbreviation b :=
    {| o_direction := direction; o_originalQty := qty; o_qty := qty;
       o_price := price; o_orderType := orderType; o_id := next_id_static s;
       o_account := account_int; o_ts := clock s; o_fills := [];
       o_totalFilled := 0; o_open := true |}.

Lemma accepted_lookup : AllOrders s1 !! order = Some b.
  Proof. by rewrite create_order_AllOrders, lookup_insert_eq. Qed.

Lemma accepted_deref : deref s1 order = b.
  Proof. apply deref_lookup, accepted_lookup. Qed.

Lemma accepted_queue_facts :
    (order ∉ crossable_queue s1 order) ∧ NoDup (crossable_queue s1 order)
    ∧ Forall (λ n, is_Some (AllOrders s1 !! n)) (crossable_queue s1 order)
    ∧ Forall (λ n, 0 <= o_qty (deref s1 n) <= 2147483647) (crossable_queue s1 order)
    ∧ Forall (λ n, resting s1 n) (crossable_queue s1 order).
  Proof.
    destruct (create_order_not_in_book account_name account_int qty price direction
                orderType s Hinv) as [Hnb Hna].
    apply (crossable_queue_facts order b); [|apply accepted_lookup|done..].
    by apply create_order_Inv.
  Qed.

Lemma accepted_matched : matched order b s1 (matching_stage order s1).
  Proof.
    destruct (create_order_not_in_book account_name account_int qty price direction
                orderType s Hinv) as [Hnb Hna].
    apply matching_stage_matched; [|apply accepted_lookup|done..].
    by apply create_order_Inv.
  Qed.

  (** The gate of a run that is not a market order, on the book before the
      call. *)
Lemma accepted_queue_limit :
    orderType ≠ MARKET →
    crossable_queue s1 order
    = nodes_of (if decide (direction = SELL)
                then take_while (λ l, bool_decide (price <= l_price l)) (FirstBidLevel s)
                else take_while (λ l, bool_decide (l_price l <= price)) (FirstAskLevel s)).
  Proof.
    intros Ht.
    destruct (create_order_frame account_name account_int qty price direction
                orderType s) as (Hfb & Hfa & _).
    destruct (decide (direction = 2)) as [Hd|Hd].
    - rewrite crossable_queue_sell; rewrite accepted_deref; cbn; try done.
      by rewrite Hfb.
    - rewrite crossable_queue_buy; rewrite accepted_deref; cbn; try done.
      by rewrite Hfa.
  Qed.

Lemma accepted_queue_market :
    orderType = MARKET →
    crossable_queue s1 order
    = nodes_of (if decide (direction = SELL) then FirstBidLevel s
                else FirstAskLevel s).
  Proof.
    intros Ht.
    destruct (create_order_frame account_name account_int qty price direction
                orderType s) as (Hfb & Hfa & _).
    rewrite crossable_queue_market; rewrite accepted_deref; cbn; try done.
    unfold opposite_side. cbn. destruct (decide (direction = 2)); congruence.
  Qed.
End accepted.

(** ** An all-open chain is left alone by the clean-up *)

Lemma cleanup_all_open s side R chain :
  chain_wf s side R chain → chain_open s chain →
  cleanup_closed_bids_or_asks s chain = chain.
Proof.
  intros (Hwf & _ & _) Hopen. destruct chain as [|l chain]; [done|].
  cbn [cleanup_closed_bids_or_asks].
  apply Forall_cons in Hwf as [[Hne _] _].
  unfold chain_open in Hopen. rewrite nodes_of_cons in Hopen.
  destruct l as [p [|n nodes]]; [done|]. cbn [l_nodes l_price] in *.
  apply Forall_app in Hopen as [Hopen _]. apply Forall_cons in Hopen as [Hn _].
  cbn [first_open_node]. by rewrite Hn.
Qed.

Lemma cleanup_stage_all_open order s :
  Inv s →
  FirstBidLevel (cleanup_stage order s) = FirstBidLevel s
  ∧ FirstAskLevel (cleanup_stage order s) = FirstAskLevel s.
Proof.
  intros [Hbase Hbo Hao]. unfold cleanup_stage.
  destruct (decide _); cbn; split; try done.
  - by apply (cleanup_all_open s 1 Z.gt); [destruct Hbase|].
  - by apply (cleanup_all_open s 2 Z.lt); [destruct Hbase|].
Qed.

(** ** The type of an order never changes *)

Lemma same_type_refl s : same_type s s.
Proof. intros k o Ho. by exists o. Qed.

Lemma same_type_trans s1 s2 s3 : same_type s1 s2 → same_type s2 s3 → same_type s1 s3.
Proof.
  intros H12 H23 k o Ho. destruct (H12 k o Ho) as (o2 & Ho2 & Ht2).
  destruct (H23 k o2 Ho2) as (o3 & Ho3 & Ht3). exists o3. split; [done|congruence].
Qed.

Lemma same_type_eq s s' : AllOrders s' = AllOrders s → same_type s s'.
Proof. intros Heq k o Ho. exists o. by rewrite Heq. Qed.

Lemma same_type_store_extends s s' : store_extends s s' → same_type s s'.
Proof.
  intros Hext k o Ho. destruct (Hext k o Ho) as (o' & Ho' & _ & _ & _ & Ht & _).
  by exists o'.
Qed.

Lemma same_type_assign order f s :
  (∀ o, o_orderType (f o) = o_orderType o) → same_type s (assign order f s).
Proof.
  intros Hf k o Ho. unfold assign. state_simpl. rewrite lookup_alter.
  destruct (decide (order = k)) as [->|].
  - rewrite Ho. cbn. eexists. split; [done|]. apply Hf.
  - by exists o.
Qed.

Lemma market_price_stage_same_type order s : same_type s (market_price_stage order s).
Proof.
  unfold market_price_stage. destruct (decide _); [|apply same_type_refl].
  by apply same_type_assign.
Qed.

Lemma resting_stage_same_type order s : same_type s (resting_stage order s).
Proof.
  unfold resting_stage. destruct (o_open _); [|apply same_type_refl].
  destruct (decide (o_orderType _ = 1)).
  - destruct (decide _); by apply same_type_eq.
  - eapply same_type_trans; by apply same_type_assign.
Qed.

Lemma ticker_stage_same_type order s : same_type s (ticker_stage order s).
Proof. unfold ticker_stage. destruct (decide (_ ∨ _)); by apply same_type_eq. Qed.

Lemma execute_order_same_type account_name account_int qty price direction orderType s :
  Inv s → is_int32 qty → is_int32 price →
  same_type s
    (snd (execute_order account_name account_int qty price direction orderType s)).
Proof.
  intros Hinv Hqty Hprice.
  destruct (validation s account_int qty price direction) as [e|] eqn:Hv.
  { rewrite (execute_order_rejected _ _ _ _ _ _ _ e) by done. apply same_type_refl. }
  rewrite execute_order_accepted by done. cbn [snd].
  pose proof (accepted_matched account_name account_int qty price direction
                orderType s Hinv Hv Hqty Hprice) as (_ & Hext & _).
  eapply same_type_trans; [|apply ticker_stage_same_type].
  eapply same_type_trans; [|apply resting_stage_same_type].
  eapply same_type_trans; [|apply market_price_stage_same_type].
  eapply same_type_trans;
    [|apply same_type_eq; by destruct (cleanup_stage_frame (next_id_static s)
         (matching_stage (next_id_static s)
            (create_order account_name account_int qty price direction orderType s)))].
  eapply same_type_trans; [|apply same_type_store_extends, Hext].
  intros k o Ho. exists o. split; [|done].
  rewrite (create_order_lookup_stored _ _ _ _ _ _ _ Hinv); [done|by exists o].
Qed.

Lemma cancel_order_by_id_same_type id s :
  Inv s → is_Some (AllOrders s !! id) → same_type s (cancel_order_by_id id s).
Proof.
  intros Hinv [b Hb].
  destruct (resting_dec s id) as [Hr|Hr].
  - destruct (cancel_resting id b s Hinv Hb Hr)
      as (_ & li & ni & c1 & l & c2 & n1 & n2 & Hc & Hli & Hn & Hni & Hd1 & Hd2 & ->).
    destruct (cancel_found_frame id b s li ni) as (Ho & _).
    intros k o Hk. rewrite Ho, lookup_alter.
    destruct (decide (id = k)) as [->|]; [|by exists o].
    rewrite Hk. cbn. by eexists.
  - rewrite (cancel_not_resting id b s); [apply same_type_refl|done..|]. by intros [_ ?].
Qed.

Lemma main_step_same_type c s :
  Inv s → valid_command c → same_type s (snd (main_step c s)).
Proof.
  intros Hinv Hc. destruct c.
  - rewrite main_step_ORDER_snd. destruct Hc as (_ & ? & ? & _).
    by apply execute_order_same_type.
  - cbn [main_step]. destruct (known_order id s); apply same_type_refl.
  - cbn [main_step]. destruct (AllAccounts s !! id); apply same_type_refl.
  - rewrite main_step_CANCEL_snd.
    destruct (known_order id s) eqn:Hk; [|apply same_type_refl].
    apply cancel_order_by_id_same_type; [done|]. by apply known_order_stored.
  - apply same_type_refl.
  - by apply same_type_eq.
Qed.

Lemma run_commands_same_type cs : ∀ s,
  reachable s → Forall valid_command cs → same_type s (run_commands cs s).
Proof.
  induction cs as [|c cs IH]; intros s Hr Hcs; [apply same_type_refl|].
  apply Forall_cons in Hcs as [Hc Hcs]. cbn [run_commands fold_left].
  eapply same_type_trans.
  - apply (main_step_same_type c); [by apply reachable_Inv|done].
  - apply IH; [by constructor|done].
Qed.

Lemma resting_is_limit s n :
  Inv_base s → resting s n →
  ∃ o, AllOrders s !! n = Some o ∧ o_orderType o = LIMIT.
Proof.
  intros Hinv [Hn|Hn].
  - destruct (chain_wf_lookup _ _ _ _ _ (inv_bids s Hinv) Hn)
      as (o & l & Ho & _ & _ & Ht & _). by exists o.
  - destruct (chain_wf_lookup _ _ _ _ _ (inv_asks s Hinv) Hn)
      as (o & l & Ho & _ & _ & Ht & _). by exists o.
Qed.

(** An order that is not a limit order never rests, whatever comes later. *)
Lemma not_limit_never_rests s k o cs :
  reachable s → AllOrders s !! k = Some o → o_orderType o ≠ LIMIT →
  Forall valid_command cs → ¬ resting (run_commands cs s) k.
Proof.
  intros Hr Ho Ht Hcs Hrest.
  destruct (run_commands_same_type cs s Hr Hcs k o Ho) as (o' & Ho' & Ht').
  assert (Hinv : Inv (run_commands cs s)).
  { apply reachable_Inv. by apply reachable_run_commands. }
  destruct (resting_is_limit _ _ (inv_base _ Hinv) Hrest) as (o2 & Ho2 & Ht2).
  congruence.
Qed.
(** ** Orders that are not limit orders, end to end *)

Lemma finish_record_closed o : o_open (finish_record o) = false.
Proof.
  unfold finish_record. cbv zeta.
  destruct (decide _); cbn [o_open set_price]; destruct (o_open o) eqn:E; by order_simpl.
Qed.

Lemma finish_record_static o :
  o_orderType (finish_record o) = o_orderType o
  ∧ o_originalQty (finish_record o) = o_originalQty o
  ∧ o_totalFilled (finish_record o) = o_totalFilled o
  ∧ o_fills (finish_record o) = o_fills o
  ∧ o_direction (finish_record o) = o_direction o.
Proof.
  unfold finish_record. cbv zeta.
  destruct (decide _); cbn [o_open set_price]; destruct (o_open o); by order_simpl.
Qed.

Lemma finish_nonlimit_quiet order b s :
  AllOrders s !! order = Some b → o_orderType b ≠ LIMIT → o_totalFilled b = 0 →
  Quote (finish order s) = Quote s ∧ clock (finish order s) = clock s.
Proof.
  intros Hb Ht Htf.
  assert (Hfb : AllOrders (finish order s) !! order = Some (finish_record b)).
  { by rewrite (finish_nonlimit_AllOrders order b), lookup_insert_eq. }
  unfold finish in *.
  set (s3 := resting_stage order
               (market_price_stage order (cleanup_stage order s))) in *.
  assert (H3 : Quote s3 = Quote s ∧ clock s3 = clock s).
  { subst s3. unfold resting_stage, market_price_stage, cleanup_stage,
      insert_ask, insert_bid.
    repeat (destruct (decide _) || destruct (o_open _)); done. }
  assert (Hl : AllOrders s3 !! order = Some (finish_record b)).
  { revert Hfb. unfold ticker_stage. by destruct (decide (_ ∨ _)). }
  clearbody s3. unfold ticker_stage. rewrite (deref_lookup _ _ _ Hl).
  destruct (finish_record_static b) as (-> & _ & -> & _).
  rewrite decide_False; [done|]. intros [?|?]; done.
Qed.

Section accepted_nonlimit.
Context (account_name : string) (account_int qty price direction orderType : Z).
Context (s : State).
Hypothesis Hinv : Inv s.
Hypothesis Hvalid : validation s account_int qty price direction = None.
Hypothesis Hqty : is_int32 qty.
Hypothesis Hprice : is_int32 price.
Hypothesis Htype : orderType ≠ LIMIT.
#[local] Abbreviation order := (next_id_static s).
#[local] Abbreviation s1 :=
    (create_order account_name account_int qty price direction orderType s).
#[local] Abbreviation s2 := (matching_stage order s1).
#[local] Abbreviation s' :=
    (snd (execute_order account_name account_int qty price direction orderType s)).

Lemma accepted_finish : s' = finish order s2.
  Proof.
    rewrite (execute_order_accepted _ _ _ _ _ _ _ Hvalid). cbn [snd].
    unfold finish. reflexivity.
  Qed.

Lemma accepted_nonlimit_final :
    ∃ b2, AllOrders s2 !! order = Some b2
          ∧ o_orderType b2 = orderType ∧ o_originalQty b2 = qty
          ∧ o_direction b2 = direction
          ∧ AllOrders s' = <[order := finish_record b2]> (AllOrders s2)
          ∧ stderr s' = stderr s2 ++ (if decide (o_totalFilled b2 ≠ 0)
                                      then [TICKER (Quote s')] else [])
          ∧ ¬ resting s' order.
  Proof.
    destruct (accepted_matched account_name account_int qty price direction
                orderType s Hinv Hvalid Hqty Hprice)
      as (_ & Hext & Hfb & Hfa & _).
    destruct (Hext _ _ (accepted_lookup account_name account_int qty price
                          direction orderType s))
      as (b2 & Hb2 & Hd & Hoq & _ & Ht & _).
    cbn in Hd, Hoq, Ht.
    exists b2. rewrite accepted_finish.
    assert (Ht2 : o_orderType b2 ≠ 1) by congruence.
    split_and!; try done.
    - by apply finish_nonlimit_AllOrders.
    - by apply finish_nonlimit_stderr.
    - destruct (finish_nonlimit_frame order b2 s2 Hb2 Ht2) as (Hb' & Ha' & _).
      destruct (create_order_not_in_book account_name account_int qty price
                  direction orderType s Hinv) as [Hnb Hna].
      unfold resting. rewrite Hb', Ha'. intros [Hn|Hn];
        apply cleanup_stage_nodes in Hn; [rewrite Hfb in Hn|rewrite Hfa in Hn]; done.
  Qed.
End accepted_nonlimit.
(** ** Price-time priority *)

(** C1: the matcher run for an accepted order (of an account number from 0
    up, the slots of the account table) crosses the resting orders of
    the opposite side as one queue, in order, and stops when the incoming
    order is closed or the queue is exhausted ([match_queue]). The queue is the
    concatenation of the node lists of the opposite levels from the head of
    the chain: all levels for a MARKET order; for any other type the levels
    up to the first one whose price is beyond the limit (ask price > limit
    for a buyer, bid price < limit for a seller). The chains are sorted best
    price first (bids descending, asks ascending) and inside a level the
    nodes are in arrival order (ascending id). *)
Theorem C1_price_time_priority
    (account_name : string) (account_int qty price direction orderType : Z)
    (s : State) :
  reachable s → 0 <= account_int → is_int32 qty → is_int32 price →
  validation s account_int qty price direction = None →
  let order := next_id_static s in
  let s1 := create_order account_name account_int qty price direction orderType s in
  run_order order s1 = match_queue (crossable_queue s1 order) order s1
  ∧ (orderType = MARKET →
     crossable_queue s1 order
     = nodes_of (if decide (direction = SELL) then FirstBidLevel s
                 else FirstAskLevel s))
  ∧ (orderType ≠ MARKET →
     crossable_queue s1 order
     = nodes_of (if decide (direction = SELL)
                 then take_while (λ l, bool_decide (price <= l_price l))
                                 (FirstBidLevel s)
                 else take_while (λ l, bool_decide (l_price l <= price))
                                 (FirstAskLevel s)))
  ∧ StronglySorted (λ l1 l2, l_price l1 > l_price l2) (FirstBidLevel s)
  ∧ StronglySorted (λ l1 l2, l_price l1 < l_price l2) (FirstAskLevel s)
  ∧ Forall (λ l, StronglySorted Z.lt (l_nodes l)) (FirstBidLevel s)
  ∧ Forall (λ l, StronglySorted Z.lt (l_nodes l)) (FirstAskLevel s).
Proof.
  intros Hr _ Hqty Hprice Hv. cbv zeta.
  pose proof (reachable_Inv s Hr) as Hinv.
  destruct (reachable_Fifo s Hr) as [Hf1 Hf2].
  split_and!; try done.
  - apply run_order_match_queue.
  - by apply accepted_queue_market.
  - by apply accepted_queue_limit.
  - by destruct (inv_bids s (inv_base s Hinv)) as (_ & ? & _).
  - by destruct (inv_asks s (inv_base s Hinv)) as (_ & ? & _).
Qed.

(** On the book of [example_bids] a sell limit order at 4950 meets the two
    bids at 5000 in arrival order and not the bid at 4900. *)
Lemma C1_price_time_priority_witness :
  run_order 3 (create_order "C" 2 70 4950 SELL LIMIT example_bids)
  = match_queue [0; 1] 3 (create_order "C" 2 70 4950 SELL LIMIT example_bids).
Proof.
  destruct (C1_price_time_priority "C" 2 70 4950 2 1 example_bids)
    as (H1 & _ & H3 & _).
  - apply reachable_run_commands; [constructor|].
    repeat constructor; vm_compute; done.
  - lia.
  - vm_compute. split; discriminate.
  - vm_compute. split; discriminate.
  - vm_compute. reflexivity.
  - change (next_id_static example_bids) with 3 in H1, H3.
    rewrite H1, H3 by done. vm_compute. reflexivity.
Defined.
(** ** Fill-or-kill *)

Section fok.
Context (account_name : string) (account_int qty price direction : Z).
Context (s : State).
Hypothesis Hinv : Inv s.
Hypothesis Hvalid : validation s account_int qty price direction = None.
Hypothesis Hqty : is_int32 qty.
Hypothesis Hprice : is_int32 price.
#[local] Abbreviation order := (next_id_static s).
#[local] Abbreviation s1 :=
    (create_order account_name account_int qty price direction FOK s).
#[local] Abbreviation feasible :=
    (if decide (direction = BUY) then fok_can_buy qty price s1
     else fok_can_sell qty price s1).

Lemma fok_feasible_queue :
    feasible = fok_queue s1 (crossable_queue s1 order) qty.
  Proof.
    apply validation_None in Hvalid as (_ & _ & _ & _ & Hd).
    destruct (decide (direction = 1)) as [Hb|Hb].
    - unfold fok_can_buy. rewrite fok_can_buy_from_queue.
      rewrite crossable_queue_buy; rewrite accepted_deref; cbn; try done. lia.
    - unfold fok_can_sell. rewrite fok_can_sell_from_queue.
      rewrite crossable_queue_sell; rewrite accepted_deref; cbn; try done. lia.
  Qed.

Lemma fok_matching_stage :
    matching_stage order s1 = if feasible then run_order order s1 else s1.
  Proof.
    unfold matching_stage. rewrite accepted_deref. cbn [o_orderType o_direction o_qty o_price].
    rewrite decide_False by (intros H; by apply H).
    by destruct (decide (direction = 1)).
  Qed.
End fok.
(** C3: for an accepted FOK order (of an account number from 0 up, the
    slots of the account table) the feasibility check ([fok_can_buy],
    [fok_can_sell]) runs on the book before matching; it is the running
    decrement of the requested qty by the qty of each resting order of the
    crossable queue (the opposite levels within the limit price), and it
    answers yes exactly when the requested qty is at most the total resting
    qty of that queue. The matcher runs only on a yes. On a no the order ends
    closed with no fill and totalFilled 0, no ticker or other event is
    written, and book and quote are as before. *)
Theorem C3_fok_feasibility
    (account_name : string) (account_int qty price direction : Z) (s : State) :
  reachable s → 0 <= account_int → is_int32 qty → is_int32 price →
  validation s account_int qty price direction = None →
  let order := next_id_static s in
  let s1 := create_order account_name account_int qty price direction FOK s in
  let feasible := if decide (direction = BUY) then fok_can_buy qty price s1
                  else fok_can_sell qty price s1 in
  let s' := snd (execute_order account_name account_int qty price direction FOK s) in
  crossable_queue s1 order
  = nodes_of (if decide (direction = SELL)
              then take_while (λ l, bool_decide (price <= l_price l)) (FirstBidLevel s)
              else take_while (λ l, bool_decide (l_price l <= price)) (FirstAskLevel s))
  ∧ feasible = fok_queue s1 (crossable_queue s1 order) qty
  ∧ (feasible = true ↔ qty <= total_qty s1 (crossable_queue s1 order))
  ∧ (feasible = true → s' = finish order (run_order order s1))
  ∧ (feasible = false →
     s' = finish order s1
     ∧ AllOrders s'
       = <[order := {| o_direction := direction; o_originalQty := qty; o_qty := 0;
                       o_price := price; o_orderType := FOK; o_id := order;
                       o_account := account_int; o_ts := clock s; o_fills := [];
                       o_totalFilled := 0; o_open := false |}]> (AllOrders s)
     ∧ stderr s' = stderr s ∧ Quote s' = Quote s
     ∧ FirstBidLevel s' = FirstBidLevel s ∧ FirstAskLevel s' = FirstAskLevel s).
Proof.
  intros Hr _ Hqty Hprice Hv. cbv zeta.
  pose proof (reachable_Inv s Hr) as Hinv.
  pose proof (validation_None _ _ _ _ _ Hv) as (_ & _ & _ & Hq1 & _).
  set (order := next_id_static s).
  set (s1 := create_order account_name account_int qty price direction 3 s).
  pose proof (fok_feasible_queue account_name account_int qty price direction s Hv)
    as Hfq.
  pose proof (fok_matching_stage account_name account_int qty price direction s) as Hms.
  pose proof (accepted_finish account_name account_int qty price direction 3 s Hv)
    as Hfin.
  fold s1 order in Hfq, Hms, Hfin.
  split_and!.
  - by apply accepted_queue_limit.
  - done.
  - rewrite Hfq. apply fok_queue_total.
    + by destruct (accepted_queue_facts account_name account_int qty price direction
                     3 s Hinv Hv Hqty Hprice) as (_ & _ & _ & ? & _).
    + unfold is_int32 in Hqty. lia.
  - intros Hf. rewrite Hfin, Hms, Hf. done.
  - intros Hf. rewrite Hfin, Hms, Hf.
    pose proof (accepted_lookup account_name account_int qty price direction 3 s)
      as Hb. fold s1 order in Hb.
    destruct (create_order_frame account_name account_int qty price direction 3 s)
      as (Hfb1 & Hfa1 & Hquote1 & Herr1 & _). fold s1 in Hfb1, Hfa1, Hquote1, Herr1.
    pose proof (create_order_Inv account_name account_int qty price direction 3 s
                  Hinv Hv Hqty Hprice) as Hinv1. fold s1 in Hinv1.
    split_and!.
    + done.
    + rewrite (finish_nonlimit_AllOrders order _ s1 Hb) by done.
      subst s1. rewrite create_order_AllOrders, insert_insert_eq. done.
    + rewrite (finish_nonlimit_stderr order _ s1 Hb) by done.
      cbn [o_totalFilled]. rewrite decide_False by (intros H; by apply H).
      by rewrite app_nil_r.
    + destruct (finish_nonlimit_quiet order _ s1 Hb) as [-> _]; done.
    + destruct (finish_nonlimit_frame order _ s1 Hb) as (-> & _); [done|].
      by destruct (cleanup_stage_all_open order s1 Hinv1) as [-> _].
    + destruct (finish_nonlimit_frame order _ s1 Hb) as (_ & -> & _); [done|].
      by destruct (cleanup_stage_all_open order s1 Hinv1) as [_ ->].
Qed.

(** Against the 100 shares bid at 5000 in [example_bids], a FOK sell of 150
    at 4950 is infeasible and writes no event. *)
Lemma C3_fok_feasibility_witness :
  stderr (snd (execute_order "C" 2 150 4950 SELL FOK example_bids))
  = stderr example_bids.
Proof.
  destruct (C3_fok_feasibility "C" 2 150 4950 2 example_bids) as (_ & _ & _ & _ & H).
  - apply reachable_run_commands; [constructor|].
    repeat constructor; vm_compute; done.
  - lia.
  - vm_compute. split; discriminate.
  - vm_compute. split; discriminate.
  - vm_compute. reflexivity.
  - destruct H as (_ & _ & H & _); [vm_compute; reflexivity|exact H].
Defined.
Lemma reachable_execute_order account_name account_int qty price direction orderType s :
  reachable s →
  valid_command (ORDER_CMD account_name account_int qty price direction orderType) →
  reachable
    (snd (execute_order account_name account_int qty price direction orderType s)).
Proof.
  intros Hr Hc. rewrite <- main_step_ORDER_snd. by constructor.
Qed.

Lemma stored_closed_qty s k o :
  Inv s → AllOrders s !! k = Some o → o_open o = false → o_qty o = 0.
Proof.
  intros Hinv Ho Hopen.
  destruct (inv_orders s (inv_base s Hinv) k o Ho) as ((_ & _ & _ & _ & _ & Hq) & _).
  rewrite Hopen in Hq. by destruct Hq.
Qed.

(** C9: an accepted FOK order ends the ORDER command closed with qty 0 and
    with totalFilled = originalQty when the feasibility check said yes,
    totalFilled = 0 (and no fill) when it said no; it is not on the book then,
    nor after any later sequence of commands. *)
Theorem C9_fok_never_partial
    (account_name : string) (account_int qty price direction : Z) (s : State) :
  reachable s →
  valid_command (ORDER_CMD account_name account_int qty price direction FOK) →
  validation s account_int qty price direction = None →
  let order := next_id_static s in
  let s1 := create_order account_name account_int qty price direction FOK s in
  let feasible := if decide (direction = BUY) then fok_can_buy qty price s1
                  else fok_can_sell qty price s1 in
  let r := execute_order account_name account_int qty price direction FOK s in
  fst r = {| oe_order := Some order; oe_error := 0 |}
  ∧ ∃ o, AllOrders (snd r) !! order = Some o
         ∧ o_originalQty o = qty ∧ o_open o = false ∧ o_qty o = 0
         ∧ (feasible = true → o_totalFilled o = qty)
         ∧ (feasible = false → o_totalFilled o = 0 ∧ o_fills o = [])
         ∧ (o_totalFilled o = o_originalQty o ∨ o_totalFilled o = 0)
         ∧ ∀ cs, Forall valid_command cs →
                 ¬ resting (run_commands cs (snd r)) order.
Proof.
  intros Hr Hc Hv. cbv zeta.
  pose proof (reachable_Inv s Hr) as Hinv.
  pose proof Hc as (_ & Hqty & Hprice & _).
  pose proof (reachable_execute_order _ _ _ _ _ _ s Hr Hc) as Hr'.
  pose proof (reachable_Inv _ Hr') as Hinv'.
  split; [by rewrite execute_order_accepted|].
  destruct (accepted_nonlimit_final account_name account_int qty price direction 3 s
              Hinv Hv Hqty Hprice ltac:(done))
    as (b2 & Hb2 & Ht2 & Hoq2 & _ & Hall & _ & _).
  set (order := next_id_static s) in *.
  set (s1 := create_order account_name account_int qty price direction 3 s) in *.
  set (s' := snd (execute_order account_name account_int qty price direction 3 s)) in *.
  assert (Ho : AllOrders s' !! order = Some (finish_record b2)).
  { by rewrite Hall, lookup_insert_eq. }
  destruct (finish_record_static b2) as (Hty & Hoq & Htf & Hfills & _).
  pose proof (fok_feasible_queue account_name account_int qty price direction s Hv)
    as Hfq.
  pose proof (fok_matching_stage account_name account_int qty price direction s) as Hms.
  pose proof (accepted_lookup account_name account_int qty price direction 3 s) as Hb.
  fold s1 order in Hfq, Hms, Hb.
  assert (Hyes : (if decide (direction = 1) then fok_can_buy qty price s1
                  else fok_can_sell qty price s1) = true → o_totalFilled b2 = qty).
  { intros Hf. rewrite Hf in Hms. rewrite Hms, run_order_match_queue in Hb2.
    destruct (accepted_queue_facts account_name account_int qty price direction
                3 s Hinv Hv Hqty Hprice) as (Hq1 & Hq2 & Hq3 & _).
    fold s1 order in Hq1, Hq2, Hq3.
    destruct (match_queue_fok (crossable_queue s1 order) order s1 _
                (inv_base _ (create_order_Inv account_name account_int qty price
                               direction 3 s Hinv Hv Hqty Hprice))
                Hb ltac:(done) Hq1 Hq2 Hq3)
      as (b' & Hb' & _ & _ & Htf').
    - cbn [o_qty]. by rewrite <- Hfq.
    - cbn [o_totalFilled o_qty] in Htf'. assert (b' = b2) as -> by congruence. lia. }
  assert (Hno : (if decide (direction = 1) then fok_can_buy qty price s1
                 else fok_can_sell qty price s1) = false →
                o_totalFilled b2 = 0 ∧ o_fills b2 = []).
  { intros Hf. rewrite Hf in Hms. rewrite Hms, Hb in Hb2.
    injection Hb2 as <-. done. }
  exists (finish_record b2). split_and!.
  - done.
  - congruence.
  - apply finish_record_closed.
  - apply (stored_closed_qty s' order); [done..|]. apply finish_record_closed.
  - rewrite Htf. apply Hyes.
  - rewrite Htf, Hfills. apply Hno.
  - rewrite Htf, Hoq, Hoq2.
    destruct (if decide (direction = 1) then fok_can_buy qty price s1
              else fok_can_sell qty price s1) eqn:Hf.
    + left. by apply Hyes.
    + right. by apply Hno.
  - intros cs Hcs. apply (not_limit_never_rests s' order (finish_record b2)); try done.
    rewrite Hty, Ht2. done.
Qed.

(** The infeasible FOK sell of 150 at 4950 on [example_bids] ends with
    totalFilled 0, closed. *)
Lemma C9_fok_never_partial_witness :
  ∃ o, AllOrders (snd (execute_order "C" 2 150 4950 SELL FOK example_bids)) !! 3
       = Some o
       ∧ o_open o = false
       ∧ (o_totalFilled o = o_originalQty o ∨ o_totalFilled o = 0).
Proof.
  destruct (C9_fok_never_partial "C" 2 150 4950 2 example_bids)
    as (_ & o & Ho & _ & Hopen & _ & _ & _ & Htf & _).
  - apply reachable_run_commands; [constructor|].
    repeat constructor; vm_compute; done.
  - vm_compute. repeat split; discriminate.
  - vm_compute. reflexivity.
  - exists o. split_and!; done.
Defined.

(** ** Order types outside LIMIT, MARKET, FOK, IOC *)

Lemma orderType_to_print_unknown orderType :
  orderType ≠ LIMIT → orderType ≠ MARKET → orderType ≠ FOK → orderType ≠ IOC →
  safe_strcpy EmptyString (orderType_to_print orderType) SMALLSTRING = "unknown".
Proof.
  intros. unfold orderType_to_print. rewrite !decide_False by done.
  vm_compute. reflexivity.
Qed.

(** C10: an ORDER whose type code is none of 1, 2, 3, 4 gets the verdict a
    limit order with the same arguments gets (the validation does not look at
    the type). When accepted, it is matched over the limit-gated queue of the
    opposite side, ends closed with qty 0, is not on the book then nor after
    any later commands, and is printed with orderType "unknown". *)
Theorem C10_unknown_order_type
    (account_name : string) (account_int qty price direction orderType : Z)
    (s : State) :
  reachable s →
  valid_command (ORDER_CMD account_name account_int qty price direction orderType) →
  orderType ≠ LIMIT → orderType ≠ MARKET → orderType ≠ FOK → orderType ≠ IOC →
  let order := next_id_static s in
  let s1 := create_order account_name account_int qty price direction orderType s in
  let r := execute_order account_name account_int qty price direction orderType s in
  fst r = fst (execute_order account_name account_int qty price direction LIMIT s)
  ∧ (validation s account_int qty price direction = None →
     fst r = {| oe_order := Some order; oe_error := 0 |}
     ∧ snd r = finish order (match_queue (crossable_queue s1 order) order s1)
     ∧ crossable_queue s1 order
       = nodes_of (if decide (direction = SELL)
                   then take_while (λ l, bool_decide (price <= l_price l))
                                   (FirstBidLevel s)
                   else take_while (λ l, bool_decide (l_price l <= price))
                                   (FirstAskLevel s))
     ∧ (∃ o, AllOrders (snd r) !! order = Some o
             ∧ o_orderType o = orderType ∧ o_open o = false ∧ o_qty o = 0)
     ∧ (∀ cs, Forall valid_command cs →
              ¬ resting (run_commands cs (snd r)) order)
     ∧ p_orderType (print_order (snd r) order) = "unknown").
Proof.
  intros Hr Hc Hlimit Hmarket Hfok Hioc. cbv zeta.
  pose proof (reachable_Inv s Hr) as Hinv.
  pose proof Hc as (_ & Hqty & Hprice & _).
  pose proof (reachable_execute_order _ _ _ _ _ _ s Hr Hc) as Hr'.
  pose proof (reachable_Inv _ Hr') as Hinv'.
  split.
  { destruct (validation s account_int qty price direction) as [e|] eqn:Hv.
    - by rewrite !(execute_order_rejected _ _ _ _ _ _ _ e).
    - by rewrite !execute_order_accepted. }
  intros Hv.
  destruct (accepted_nonlimit_final account_name account_int qty price direction
              orderType s Hinv Hv Hqty Hprice Hlimit)
    as (b2 & Hb2 & Ht2 & _ & _ & Hall & _ & _).
  pose proof (accepted_finish account_name account_int qty price direction
                orderType s Hv) as Hfin.
  set (order := next_id_static s) in *.
  set (s1 := create_order account_name account_int qty price direction orderType s) in *.
  set (s' := snd (execute_order account_name account_int qty price direction
                    orderType s)) in *.
  assert (Ho : AllOrders s' !! order = Some (finish_record b2)).
  { by rewrite Hall, lookup_insert_eq. }
  destruct (finish_record_static b2) as (Hty & _).
  assert (Hms : matching_stage order s1 = run_order order s1).
  { unfold matching_stage. subst s1 order. rewrite accepted_deref. cbn [o_orderType].
    by rewrite decide_True. }
  split_and!.
  - by rewrite execute_order_accepted.
  - by rewrite Hfin, Hms, run_order_match_queue.
  - by apply accepted_queue_limit.
  - exists (finish_record b2). split_and!.
    + done.
    + congruence.
    + apply finish_record_closed.
    + apply (stored_closed_qty s' order); [done..|]. apply finish_record_closed.
  - intros cs Hcs. apply (not_limit_never_rests s' order (finish_record b2)); try done.
    congruence.
  - unfold print_order. cbn [p_orderType]. rewrite (deref_lookup _ _ _ Ho).
    rewrite Hty, Ht2. by apply orderType_to_print_unknown.
Qed.

(** A sell of 70 at 4950 with type code 7 on [example_bids] is accepted and
    printed as "unknown". *)
Lemma C10_unknown_order_type_witness :
  p_orderType (print_order (snd (execute_order "C" 2 70 4950 SELL 7 example_bids)) 3)
  = "unknown".
Proof.
  destruct (C10_unknown_order_type "C" 2 70 4950 2 7 example_bids) as (_ & H).
  - apply reachable_run_commands; [constructor|].
    repeat constructor; vm_compute; done.
  - vm_compute. repeat split; discriminate.
  - done.
  - done.
  - done.
  - done.
  - destruct H as (_ & _ & _ & _ & _ & H); [vm_compute; reflexivity|exact H].
Defined.
(** ** Cancel *)

Lemma cancel_twice id b s :
  Inv s → AllOrders s !! id = Some b →
  known_order id (cancel_order_by_id id s) = known_order id s
  ∧ cancel_order_by_id id (cancel_order_by_id id s) = cancel_order_by_id id s.
Proof.
  intros Hinv Hb.
  destruct (resting_dec s id) as [Hr|Hr].
  - destruct (cancel_resting id b s Hinv Hb Hr)
      as (_ & li & ni & c1 & l & c2 & n1 & n2 & Hc & Hli & Hn & Hni & Hd1 & Hd2 & ->).
    destruct (cancel_found_frame id b s li ni) as (Ho & _ & _ & Hh & _).
    destruct (cancel_found_Inv id b s li ni c1 c2 l n1 n2) as (Hinv' & Hnr & _);
      try done.
    assert (Hb' : AllOrders (cancel_found id (o_direction b) li ni s) !! id
                  = Some ((set_qty 0 ∘ set_open false) b)).
    { by rewrite Ho, lookup_alter_eq, Hb. }
    split.
    + unfold known_order. rewrite Hh, Hb', Hb. done.
    + apply (cancel_not_resting id _ _ Hinv' Hb'). by intros [_ ?].
  - assert (Hs : cancel_order_by_id id s = s).
    { apply (cancel_not_resting id b s Hinv Hb). by intros [_ ?]. }
    by rewrite !Hs.
Qed.

(** C7: CANCEL of an id that is out of range or not stored answers "No such
    ID" and changes nothing. For a stored order the reply is the order as
    printed after the call; the state is unchanged unless the order is a
    limit order resting on the book, and then the order gets open = false
    and qty = 0, it no longer rests while every other order rests as before,
    no level without nodes is left, the quote agrees with the book and one
    ticker with that quote is written. A second CANCEL of the same id gives
    the same reply and the same state as the first. *)
Theorem C7_cancel_by_id (id : Z) (s : State) :
  reachable s →
  let r1 := main_step (CANCEL id) s in
  let r2 := main_step (CANCEL id) (snd r1) in
  (known_order id s = false → r1 = (REPLY_NO_SUCH_ID, s))
  ∧ (∀ b, known_order id s = true → AllOrders s !! id = Some b →
       fst r1 = REPLY_ORDER (print_order (snd r1) id)
       ∧ snd r1 = cancel_order_by_id id s
       ∧ (¬ (o_orderType b = LIMIT ∧ resting s id) → snd r1 = s)
       ∧ (resting s id →
          o_orderType b = LIMIT
          ∧ AllOrders (snd r1) = <[id := set_qty 0 (set_open false b)]> (AllOrders s)
          ∧ ¬ resting (snd r1) id
          ∧ (∀ m, m ≠ id → resting (snd r1) m ↔ resting s m)
          ∧ Forall (λ l, l_nodes l ≠ []) (FirstBidLevel (snd r1))
          ∧ Forall (λ l, l_nodes l ≠ []) (FirstAskLevel (snd r1))
          ∧ quote_fresh (snd r1)
          ∧ stderr (snd r1) = stderr s ++ [TICKER (Quote (snd r1))]))
  ∧ r2 = r1.
Proof.
  intros Hr. cbv zeta. pose proof (reachable_Inv s Hr) as Hinv.
  split_and!.
  - intros Hk. cbn [main_step]. by rewrite Hk.
  - intros b Hk Hb. cbn [main_step]. rewrite Hk. cbn [fst snd].
    split; [done|]. split; [done|]. split.
    + apply (cancel_not_resting id b s Hinv Hb).
    + intros Hrest.
      destruct (cancel_resting id b s Hinv Hb Hrest)
        as (Ht & li & ni & c1 & l & c2 & n1 & n2 & Hc & Hli & Hn & Hni & Hd1 & Hd2 & ->).
      destruct (cancel_found_frame id b s li ni)
        as (Ho & _ & _ & _ & Herr & _ & _ & _ & Hfresh).
      destruct (cancel_found_Inv id b s li ni c1 c2 l n1 n2)
        as (Hinv' & Hnr & Hothers); try done.
      split_and!; try done.
      * rewrite Ho. by apply (alter_lookup_eq (set_qty 0 ∘ set_open false)).
      * destruct (inv_bids _ (inv_base _ Hinv')) as (Hwf & _).
        eapply Forall_impl; [exact Hwf|]. by intros ? [? _].
      * destruct (inv_asks _ (inv_base _ Hinv')) as (Hwf & _).
        eapply Forall_impl; [exact Hwf|]. by intros ? [? _].
  - cbn [main_step]. destruct (known_order id s) eqn:Hk; cbn [fst snd].
    + destruct (known_order_stored id s Hk) as [b Hb].
      destruct (cancel_twice id b s Hinv Hb) as [-> ->]. by rewrite Hk.
    + by rewrite Hk.
Qed.

(** Cancelling the second bid of [example_bids] twice: the second CANCEL
    replies and leaves the state as the first did. *)
Lemma C7_cancel_by_id_witness :
  main_step (CANCEL 1) (snd (main_step (CANCEL 1) example_bids))
  = main_step (CANCEL 1) example_bids.
Proof.
  destruct (C7_cancel_by_id 1 example_bids) as (_ & _ & H).
  - apply reachable_run_commands; [constructor|].
    repeat constructor; vm_compute; done.
  - exact H.
Defined.
(** ** How a matching run changes the order table *)

Section match_queue_evolution.
(** [Rs] relates a standing order before and after, [Ri] the incoming order;
    [G] is what is known of a standing order against the incoming one. *)
Context (Rs Ri : ORDER → ORDER → Prop) (G : ORDER → ORDER → Prop).
Hypothesis Rs_refl : ∀ o, Rs o o.
Hypothesis Ri_refl : ∀ o, Ri o o.
Hypothesis Ri_trans : ∀ o1 o2 o3, Ri o1 o2 → Ri o2 o3 → Ri o1 o3.
Hypothesis G_static : ∀ a b b', static_eq b b' → G a b → G a b'.
Hypothesis R_fill : ∀ a b ts,
  order_wf a → order_wf b → o_open a = true → o_open b = true → G a b →
  Rs a (fill_order (fill_of a b ts) a) ∧ Ri b (fill_order (fill_of a b ts) b).

Lemma match_queue_evolves queue order : ∀ s b,
  Inv_base s → AllOrders s !! order = Some b → o_open b = true →
  order ∉ queue → NoDup queue →
  Forall (λ n, ∃ a, AllOrders s !! n = Some a ∧ o_open a = true ∧ G a b) queue →
  ∀ k o, AllOrders s !! k = Some o →
         ∃ o', AllOrders (match_queue queue order s) !! k = Some o'
               ∧ if decide (k = order) then Ri o o' else Rs o o'.
Proof.
  induction queue as [|n queue IH]; intros s b Hinv Hb Hopen Hnotin Hnd Hq k o Ho;
    cbn [match_queue].
  { exists o. split; [done|]. by destruct (decide _). }
  apply not_elem_of_cons in Hnotin as [Hne Hnotin].
  apply NoDup_cons in Hnd as [Hn Hnd].
  apply Forall_cons in Hq as [(a & Ha & Hao & Hg) Hq].
  assert (Hne' : n ≠ order) by congruence.
  pose proof (cross_Inv_base n order a b s Hne' Ha Hb Hinv) as Hinv1.
  pose proof (cross_lookup_incoming n order a b s Hne' Ha Hb) as Hb1.
  pose proof (cross_lookup_standing n order a b s Hne' Ha Hb) as Ha1.
  assert (Hwa : order_wf a) by (by destruct (inv_orders s Hinv _ _ Ha)).
  assert (Hwb : order_wf b) by (by destruct (inv_orders s Hinv _ _ Hb)).
  destruct (R_fill a b (clock s) Hwa Hwb Hao Hopen Hg) as [HRa HRb].
  assert (Hq1 : Forall (λ m, ∃ a0, AllOrders (cross n order s) !! m = Some a0
                              ∧ o_open a0 = true
                              ∧ G a0 (fill_order (fill_of a b (clock s)) b)) queue).
  { apply Forall_forall. intros m Hm. rewrite Forall_forall in Hq.
    destruct (Hq m Hm) as (am & Ham & Hamo & Hgm).
    assert (m ≠ n) by (by intros ->). assert (m ≠ order) by (by intros ->).
    exists am. rewrite (cross_lookup_other n order a b) by done.
    split_and!; try done. eapply G_static; [|done]. apply fill_order_static. }
  rewrite (deref_lookup _ _ _ Hb1).
  destruct (decide (k = order)) as [->|Hko].
  { assert (o = b) as -> by congruence.
    destruct (o_open (fill_order _ b)) eqn:Hob; [|by eexists].
    destruct (IH (cross n order s) _ Hinv1 Hb1 Hob Hnotin Hnd Hq1 order _ Hb1)
      as (o' & Ho' & HR').
    rewrite decide_True in HR' by done.
    exists o'. split; [done|]. by eapply Ri_trans. }
  destruct (decide (k = n)) as [->|Hkn].
  { assert (o = a) as -> by congruence.
    destruct (o_open (fill_order _ b)) eqn:Hob; [|by eexists].
    exists (fill_order (fill_of a b (clock s)) a). split; [|done].
    assert (Hsome1 : Forall (λ m, is_Some (AllOrders (cross n order s) !! m)) queue).
    { eapply Forall_impl; [exact Hq1|]. intros m (? & ? & _). by eexists. }
    destruct (match_queue_Inv_base queue order _ _ Hinv1 Hb1 Hnotin Hsome1)
      as (_ & _ & _ & _ & _ & _ & Hother).
    by rewrite Hother. }
  assert (Ho1 : AllOrders (cross n order s) !! k = Some o).
  { by rewrite (cross_lookup_other n order a b). }
  destruct (o_open (fill_order _ b)) eqn:Hob; [|by eexists].
  destruct (IH (cross n order s) _ Hinv1 Hb1 Hob Hnotin Hnd Hq1 k o Ho1)
    as (o' & Ho' & HR').
  rewrite decide_False in HR' by done. by exists o'.
Qed.
End match_queue_evolution.

(** When the incoming order survives the run, every order of the queue has
    been closed. *)
Lemma match_queue_exhausted queue order : ∀ s b,
  Inv_base s → AllOrders s !! order = Some b → o_open b = true →
  order ∉ queue → NoDup queue →
  Forall (λ n, is_Some (AllOrders s !! n)) queue →
  o_open (deref (match_queue queue order s) order) = true →
  Forall (λ n, o_open (deref (match_queue queue order s) n) = false) queue.
Proof.
  induction queue as [|n queue IH]; intros s b Hinv Hb Hopen Hnotin Hnd Hq;
    cbn [match_queue]; [by constructor|].
  apply not_elem_of_cons in Hnotin as [Hne Hnotin].
  apply NoDup_cons in Hnd as [Hn Hnd].
  apply Forall_cons in Hq as [[a Ha] Hq].
  assert (Hne' : n ≠ order) by congruence.
  pose proof (cross_Inv_base n order a b s Hne' Ha Hb Hinv) as Hinv1.
  pose proof (cross_store_extends n order a b s Hne' Ha Hb) as Hext1.
  pose proof (cross_lookup_incoming n order a b s Hne' Ha Hb) as Hb1.
  pose proof (cross_lookup_standing n order a b s Hne' Ha Hb) as Ha1.
  assert (Hwa : order_wf a) by (by destruct (inv_orders s Hinv _ _ Ha)).
  assert (Hwb : order_wf b) by (by destruct (inv_orders s Hinv _ _ Hb)).
  assert (Hq1 : Forall (λ n0, is_Some (AllOrders (cross n order s) !! n0)) queue).
  { eapply Forall_impl; [exact Hq|]. intros m [o Ho].
    destruct (Hext1 m o Ho) as (o' & Ho' & _). by exists o'. }
  rewrite (deref_lookup _ _ _ Hb1).
  destruct (o_open (fill_order _ b)) eqn:Hob.
  - intros Hfin.
    pose proof (fill_order_closes_one a b (clock s) Hwa Hwb Hob) as Hoa.
    apply Forall_cons. split; [|by apply (IH _ _ Hinv1 Hb1)].
    destruct (match_queue_Inv_base queue order _ _ Hinv1 Hb1 Hnotin Hq1)
      as (_ & _ & _ & _ & _ & _ & Hother).
    erewrite deref_lookup; [|rewrite Hother by done; exact Ha1]. done.
  - rewrite (deref_lookup _ _ _ Hb1), Hob. done.
Qed.
(** ** The matching stage as one run over a queue *)

Lemma matching_stage_match_queue order s :
  matching_stage order s = match_queue (matching_queue order s) order s.
Proof.
  unfold matching_stage, matching_queue.
  destruct (decide _); [apply run_order_match_queue|].
  destruct (decide _).
  - destruct (fok_can_buy _ _ _); [apply run_order_match_queue|done].
  - destruct (fok_can_sell _ _ _); [apply run_order_match_queue|done].
Qed.

Lemma matching_queue_cases order s :
  matching_queue order s = crossable_queue s order ∨ matching_queue order s = [].
Proof.
  unfold matching_queue. destruct (decide _); [by left|].
  destruct (decide _).
  - destruct (fok_can_buy _ _ _); [by left|by right].
  - destruct (fok_can_sell _ _ _); [by left|by right].
Qed.

Lemma elem_of_take_while {A} (f : A → bool) (l : list A) x :
  x ∈ take_while f l → f x = true ∧ x ∈ l.
Proof.
  induction l as [|y l IH]; cbn [take_while]; [by intros ?%elem_of_nil|].
  destruct (f y) eqn:Hy; [|by intros ?%elem_of_nil].
  intros [->|Hx]%elem_of_cons.
  - split; [done|]. by left.
  - destruct (IH Hx). split; [done|]. by right.
Qed.

Lemma crossable_queue_crossable order b s :
  Inv s → AllOrders s !! order = Some b →
  Forall (λ n, ∃ a, AllOrders s !! n = Some a ∧ o_open a = true ∧ crossable a b)
         (crossable_queue s order).
Proof.
  intros [Hbase Hbo Hao] Hb. unfold crossable_queue.
  rewrite (deref_lookup _ _ _ Hb). unfold opposite_side, crossable.
  assert (Hgen : ∀ chain side R, chain_wf s side R chain → chain_open s chain →
    ∀ n, n ∈ nodes_of (take_while (admissible b) chain) →
    ∃ a l, AllOrders s !! n = Some a ∧ o_open a = true ∧ o_orderType a = 1
           ∧ o_direction a = side ∧ o_price a = l_price l
           ∧ admissible b l = true).
  { intros chain side R (Hwf & _ & _) Hopen n Hn.
    apply elem_of_nodes_of in Hn as (l & Hl & Hnl).
    apply elem_of_take_while in Hl as [Hadm Hl].
    rewrite Forall_forall in Hwf. destruct (Hwf l Hl) as [_ Hnodes].
    rewrite Forall_forall in Hnodes.
    destruct (Hnodes n Hnl) as (a & Ha & Ht & Hp & Hd).
    exists a, l. split_and!; try done.
    unfold chain_open in Hopen. rewrite Forall_forall in Hopen.
    rewrite <- (deref_lookup _ _ _ Ha). apply Hopen.
    apply elem_of_nodes_of. by exists l. }
  apply Forall_forall. intros n Hn.
  destruct (decide (o_direction b = 2)) as [Hd|Hd].
  - destruct (Hgen _ _ _ (inv_bids s Hbase) Hbo n Hn)
      as (a & l & Ha & Hopen & Ht & Hda & Hp & Hadm).
    exists a. split_and!; try done. intros Hm.
    unfold admissible in Hadm. rewrite decide_True in Hadm by done.
    rewrite bool_decide_eq_false_2 in Hadm by done.
    apply bool_decide_eq_true in Hadm. lia.
  - destruct (Hgen _ _ _ (inv_asks s Hbase) Hao n Hn)
      as (a & l & Ha & Hopen & Ht & Hda & Hp & Hadm).
    exists a. split_and!; try done. intros Hm.
    unfold admissible in Hadm. rewrite decide_False in Hadm by done.
    rewrite bool_decide_eq_false_2 in Hadm by done.
    apply bool_decide_eq_true in Hadm. lia.
Qed.

Lemma crossable_static a b b' : static_eq b b' → crossable a b → crossable a b'.
Proof.
  intros (Hd & _ & Hp & Ht & _). unfold crossable. by rewrite <- Hd, <- Hp, <- Ht.
Qed.

(** The stages after matching leave every other order alone. *)
Lemma finish_lookup_other order s k :
  k ≠ order → AllOrders (finish order s) !! k = AllOrders s !! k.
Proof.
  intros Hk. unfold finish.
  assert (H4 : ∀ s0, AllOrders (ticker_stage order s0) = AllOrders s0).
  { intros s0. unfold ticker_stage. by destruct (decide (_ ∨ _)). }
  assert (H3 : ∀ s0, AllOrders (resting_stage order s0) !! k = AllOrders s0 !! k).
  { intros s0. unfold resting_stage. destruct (o_open _); [|done].
    destruct (decide (o_orderType _ = 1)).
    - by destruct (decide _).
    - unfold assign. state_simpl. by rewrite !lookup_alter_ne. }
  rewrite H4, H3, market_price_stage_lookup.
  rewrite decide_False by (by intros [? _]).
  by destruct (cleanup_stage_frame order s) as (-> & _).
Qed.
Lemma finish_limit_AllOrders order b s :
  AllOrders s !! order = Some b → o_orderType b = LIMIT →
  AllOrders (finish order s) = AllOrders s.
Proof.
  intros Hb Ht. unfold finish.
  destruct (cleanup_stage_frame order s) as (Ho1 & _).
  set (s1 := cleanup_stage order s) in *.
  assert (Hb1 : AllOrders s1 !! order = Some b) by (by rewrite Ho1).
  clearbody s1.
  assert (H2 : market_price_stage order s1 = s1).
  { unfold market_price_stage. rewrite (deref_lookup _ _ _ Hb1), Ht. done. }
  rewrite H2.
  assert (H3 : AllOrders (resting_stage order s1) = AllOrders s1).
  { unfold resting_stage. rewrite (deref_lookup _ _ _ Hb1), Ht.
    destruct (o_open b); [|done]. rewrite decide_True by done.
    by destruct (decide _). }
  unfold ticker_stage. destruct (decide (_ ∨ _)); cbn; by rewrite H3.
Qed.

(** ** What one command does to the orders already stored *)

Section command_evolution.
Context (Rs : ORDER → ORDER → Prop).
Hypothesis Rs_refl : ∀ o, Rs o o.
Hypothesis Rs_trans : ∀ o1 o2 o3, Rs o1 o2 → Rs o2 o3 → Rs o1 o3.
Hypothesis Rs_fill : ∀ a b ts,
  order_wf a → order_wf b → o_open a = true → o_open b = true → crossable a b →
  Rs a (fill_order (fill_of a b ts) a).
Hypothesis Rs_cancel : ∀ o,
  order_wf o → o_open o = true → o_orderType o = LIMIT →
  Rs o ((set_qty 0 ∘ set_open false) o).

Lemma execute_order_evolves account_name account_int qty price direction orderType s :
  Inv s → is_int32 qty → is_int32 price →
  ∀ k o, AllOrders s !! k = Some o →
    ∃ o', AllOrders (snd (execute_order account_name account_int qty price
                            direction orderType s)) !! k = Some o'
          ∧ Rs o o'.
Proof.
  intros Hinv Hqty Hprice k o Ho.
  destruct (validation s account_int qty price direction) as [e|] eqn:Hv.
  { rewrite (execute_order_rejected _ _ _ _ _ _ _ e) by done. by exists o. }
  rewrite (accepted_finish _ _ _ _ _ _ _ Hv).
  assert (Hk : k ≠ next_id_static s).
  { intros ->. pose proof (fresh_id_not_stored s (inv_base s Hinv)). congruence. }
  rewrite finish_lookup_other by done.
  rewrite matching_stage_match_queue.
  set (s1 := create_order account_name account_int qty price direction orderType s).
  pose proof (create_order_Inv account_name account_int qty price direction
                orderType s Hinv Hv Hqty Hprice) as Hinv1.
  pose proof (accepted_lookup account_name account_int qty price direction
                orderType s) as Hb1.
  destruct (create_order_not_in_book account_name account_int qty price direction
              orderType s Hinv) as [Hnb Hna].
  fold s1 in Hinv1, Hb1, Hnb, Hna.
  assert (Ho1 : AllOrders s1 !! k = Some o).
  { subst s1. rewrite (create_order_lookup_stored _ _ _ _ _ _ _ Hinv); [done|by exists o]. }
  destruct (crossable_queue_facts _ _ s1 Hinv1 Hb1 Hnb Hna) as (Hq1 & Hq2 & _).
  pose proof (crossable_queue_crossable _ _ s1 Hinv1 Hb1) as Hq3.
  destruct (match_queue_evolves Rs (λ _ _, True) crossable Rs_refl
              ltac:(done) ltac:(done) crossable_static
              ltac:(intros; split; [by apply Rs_fill|done])
              (matching_queue (next_id_static s) s1) (next_id_static s) s1 _
              (inv_base _ Hinv1) Hb1 ltac:(done)) with (k := k) (o := o)
    as (o' & Ho' & HR); try done.
  - destruct (matching_queue_cases (next_id_static s) s1) as [-> | ->];
      [done|apply not_elem_of_nil].
  - destruct (matching_queue_cases (next_id_static s) s1) as [-> | ->];
      [done|constructor].
  - destruct (matching_queue_cases (next_id_static s) s1) as [-> | ->];
      [done|constructor].
  - rewrite decide_False in HR by done. by exists o'.
Qed.

Lemma cancel_order_by_id_evolves id s :
  Inv s → is_Some (AllOrders s !! id) →
  ∀ k o, AllOrders s !! k = Some o →
    ∃ o', AllOrders (cancel_order_by_id id s) !! k = Some o' ∧ Rs o o'.
Proof.
  intros Hinv [b Hb] k o Ho.
  destruct (resting_dec s id) as [Hr|Hr].
  - destruct (cancel_resting id b s Hinv Hb Hr)
      as (Ht & li & ni & c1 & l & c2 & n1 & n2 & Hc & Hli & Hn & Hni & Hd1 & Hd2 & ->).
    destruct (cancel_found_frame id b s li ni) as (Hall & _).
    rewrite Hall, lookup_alter.
    destruct (decide (id = k)) as [->|]; [|by exists o].
    rewrite Ho. cbn. eexists. split; [done|].
    assert (o = b) as -> by congruence.
    apply Rs_cancel; [by destruct (inv_orders s (inv_base s Hinv) _ _ Hb)| |done].
    destruct Hinv as [Hbase Hbo Hao]. unfold chain_open in *.
    rewrite Forall_forall in Hbo, Hao. rewrite <- (deref_lookup _ _ _ Hb).
    destruct Hr; [by apply Hbo|by apply Hao].
  - rewrite (cancel_not_resting id b s); [by exists o|done..|]. by intros [_ ?].
Qed.

Lemma main_step_evolves c s :
  Inv s → valid_command c →
  ∀ k o, AllOrders s !! k = Some o →
    ∃ o', AllOrders (snd (main_step c s)) !! k = Some o' ∧ Rs o o'.
Proof.
  intros Hinv Hc k o Ho. destruct c.
  - rewrite main_step_ORDER_snd. destruct Hc as (_ & ? & ? & _).
    by apply execute_order_evolves.
  - cbn [main_step]. destruct (known_order id s); by exists o.
  - cbn [main_step]. destruct (AllAccounts s !! id); by exists o.
  - rewrite main_step_CANCEL_snd.
    destruct (known_order id s) eqn:Hk; [|by exists o].
    apply cancel_order_by_id_evolves; [done| |done]. by apply known_order_stored.
  - by exists o.
  - by exists o.
Qed.

Lemma run_commands_evolves cs : ∀ s,
  reachable s → Forall valid_command cs →
  ∀ k o, AllOrders s !! k = Some o →
    ∃ o', AllOrders (run_commands cs s) !! k = Some o' ∧ Rs o o'.
Proof.
  induction cs as [|c cs IH]; intros s Hr Hcs k o Ho; [by exists o|].
  apply Forall_cons in Hcs as [Hc Hcs]. cbn [run_commands fold_left].
  destruct (main_step_evolves c s (reachable_Inv s Hr) Hc k o Ho) as (o1 & Ho1 & HR1).
  destruct (IH (snd (main_step c s)) ltac:(by constructor) Hcs k o1 Ho1)
    as (o' & Ho' & HR').
  exists o'. split; [done|]. by eapply Rs_trans.
Qed.
End command_evolution.
(** ** The record of a new order, and no other new record *)

Section accepted_matching.
Context (account_name : string) (account_int qty price direction orderType : Z).
Context (s : State).
Hypothesis Hinv : Inv s.
Hypothesis Hvalid : validation s account_int qty price direction = None.
Hypothesis Hqty : is_int32 qty.
Hypothesis Hprice : is_int32 price.
#[local] Abbreviation order := (next_id_static s).
#[local] Abbreviation s1 :=
  (create_order account_name account_int qty price direction orderType s).
#[local] Abbreviation s2 := (matching_stage order s1).
#[local] Abbreviation b :=
  {| o_direction := direction; o_originalQty := qty; o_qty := qty;
     o_price := price; o_orderType := orderType; o_id := next_id_static s;
     o_account := account_int; o_ts := clock s; o_fills := [];
     o_totalFilled := 0; o_open := true |}.

Lemma accepted_matching_queue_facts :
  (order ∉ matching_queue order s1) ∧ NoDup (matching_queue order s1)
  ∧ Forall (λ n, is_Some (AllOrders s1 !! n)) (matching_queue order s1)
  ∧ Forall (λ n, ∃ a, AllOrders s1 !! n = Some a ∧ o_open a = true ∧ crossable a b)
           (matching_queue order s1)
  ∧ Forall (λ n, resting s n) (matching_queue order s1).
Proof.
  pose proof (create_order_Inv account_name account_int qty price direction
                orderType s Hinv Hvalid Hqty Hprice) as Hinv1.
  pose proof (accepted_lookup account_name account_int qty price direction
                orderType s) as Hb1.
  destruct (create_order_frame account_name account_int qty price direction
              orderType s) as (Hfb & Hfa & _).
  destruct (accepted_queue_facts account_name account_int qty price direction
              orderType s Hinv Hvalid Hqty Hprice) as (H1 & H2 & H3 & _ & H5).
  pose proof (crossable_queue_crossable _ _ _ Hinv1 Hb1) as H4.
  destruct (matching_queue_cases order s1) as [-> | ->].
  - split_and!; try done. eapply Forall_impl; [exact H5|].
    intros n. unfold resting. by rewrite Hfb, Hfa.
  - split_and!; try constructor. apply not_elem_of_nil.
Qed.

Lemma accepted_matching_keys k :
  is_Some (AllOrders s2 !! k) → k = order ∨ is_Some (AllOrders s !! k).
Proof.
  intros Hk. destruct (decide (k = order)) as [|Hne]; [by left|]. right.
  destruct accepted_matching_queue_facts as (H1 & _ & H3 & _).
  pose proof (create_order_Inv account_name account_int qty price direction
                orderType s Hinv Hvalid Hqty Hprice) as Hinv1.
  pose proof (accepted_lookup account_name account_int qty price direction
                orderType s) as Hb1.
  rewrite matching_stage_match_queue in Hk.
  destruct (match_queue_Inv_base _ order s1 _ (inv_base _ Hinv1) Hb1 H1 H3)
    as (_ & _ & _ & _ & _ & _ & Hother).
  rewrite <- (create_order_lookup_old account_name account_int qty price direction
                orderType s k Hne).
  destruct (decide (k ∈ matching_queue order s1)) as [Hin|Hnin].
  - rewrite Forall_forall in H3. by apply H3.
  - by rewrite <- Hother.
Qed.

Section incoming.
Context (Ri : ORDER → ORDER → Prop).
Hypothesis Ri_refl : ∀ o, Ri o o.
Hypothesis Ri_trans : ∀ o1 o2 o3, Ri o1 o2 → Ri o2 o3 → Ri o1 o3.
Hypothesis Ri_fill : ∀ a0 b0 ts,
  order_wf a0 → order_wf b0 → o_open a0 = true → o_open b0 = true →
  crossable a0 b0 → Ri b0 (fill_order (fill_of a0 b0 ts) b0).

Lemma accepted_new_record :
  ∃ b2, AllOrders s2 !! order = Some b2 ∧ Ri b b2 ∧ static_eq b b2 ∧ order_wf b2
        ∧ AllOrders (finish order s2) !! order
          = Some (if decide (orderType = LIMIT) then b2 else finish_record b2).
Proof.
  destruct accepted_matching_queue_facts as (H1 & H2 & H3 & H4 & _).
  pose proof (create_order_Inv account_name account_int qty price direction
                orderType s Hinv Hvalid Hqty Hprice) as Hinv1.
  pose proof (accepted_lookup account_name account_int qty price direction
                orderType s) as Hb1.
  destruct (match_queue_evolves (λ _ _, True) Ri crossable ltac:(done) Ri_refl
              Ri_trans crossable_static
              ltac:(intros; split; [done|by apply Ri_fill])
              (matching_queue order s1) order s1 _
              (inv_base _ Hinv1) Hb1 ltac:(done) H1 H2 H4 order _ Hb1)
    as (b2 & Hb2 & HR).
  rewrite decide_True in HR by done.
  destruct (match_queue_Inv_base _ order s1 _ (inv_base _ Hinv1) Hb1 H1 H3)
    as (Hinv2 & Hext & _).
  rewrite <- matching_stage_match_queue in Hb2, Hinv2.
  destruct (Hext _ _ Hb1) as (b2' & Hb2' & Hst).
  rewrite <- matching_stage_match_queue in Hb2'.
  assert (b2' = b2) as -> by congruence.
  exists b2. split_and!; try done.
  - by destruct (inv_orders _ Hinv2 _ _ Hb2).
  - destruct Hst as (_ & _ & _ & Ht & _). cbn in Ht.
    destruct (decide (orderType = 1)) as [Hl|Hl].
    + rewrite (finish_limit_AllOrders order b2) by (done || congruence). done.
    + rewrite (finish_nonlimit_AllOrders order b2) by (done || congruence).
      apply lookup_insert_eq.
Qed.
End incoming.
End accepted_matching.
Lemma execute_order_keys account_name account_int qty price direction orderType s k :
  Inv s → is_int32 qty → is_int32 price →
  is_Some (AllOrders (snd (execute_order account_name account_int qty price
                             direction orderType s)) !! k) →
  is_Some (AllOrders s !! k)
  ∨ (k = next_id_static s ∧ validation s account_int qty price direction = None).
Proof.
  intros Hinv Hqty Hprice.
  destruct (validation s account_int qty price direction) as [e|] eqn:Hv.
  { rewrite (execute_order_rejected _ _ _ _ _ _ _ e) by done. by left. }
  rewrite (accepted_finish _ _ _ _ _ _ _ Hv).
  destruct (decide (k = next_id_static s)) as [->|Hk]; [by right|].
  rewrite finish_lookup_other by done. intros Hs.
  destruct (accepted_matching_keys account_name account_int qty price direction
              orderType s Hinv Hv Hqty Hprice k Hs); [done|by left].
Qed.

Lemma cancel_order_by_id_keys id s k :
  Inv s → is_Some (AllOrders s !! id) →
  is_Some (AllOrders (cancel_order_by_id id s) !! k) → is_Some (AllOrders s !! k).
Proof.
  intros Hinv [b Hb].
  destruct (resting_dec s id) as [Hr|Hr].
  - destruct (cancel_resting id b s Hinv Hb Hr)
      as (Ht & li & ni & c1 & l & c2 & n1 & n2 & Hc & Hli & Hn & Hni & Hd1 & Hd2 & ->).
    destruct (cancel_found_frame id b s li ni) as (Hall & _).
    rewrite Hall, lookup_alter. destruct (decide (id = k)) as [->|]; [|done].
    by rewrite Hb.
  - rewrite (cancel_not_resting id b s); [done..|]. by intros [_ ?].
Qed.

(** ** Properties of every stored order

    [Q] holds of a new order while it is matched, [P] of the orders as they
    are stored between two commands. *)
Section reachable_orders.
Context (P Q : ORDER → Prop).
Hypothesis Q_new : ∀ direction qty price orderType id account ts,
  1 <= qty <= INT_MAX → 0 <= price <= INT_MAX →
  direction = BUY ∨ direction = SELL →
  Q {| o_direction := direction; o_originalQty := qty; o_qty := qty;
       o_price := price; o_orderType := orderType; o_id := id;
       o_account := account; o_ts := ts; o_fills := [];
       o_totalFilled := 0; o_open := true |}.
Hypothesis Q_fill : ∀ a b ts,
  order_wf a → order_wf b → o_open a = true → o_open b = true → crossable a b →
  Q b → Q (fill_order (fill_of a b ts) b).
Hypothesis P_final : ∀ o,
  order_wf o → Q o →
  P (if decide (o_orderType o = LIMIT) then o else finish_record o).
Hypothesis P_fill : ∀ a b ts,
  order_wf a → order_wf b → o_open a = true → o_open b = true → crossable a b →
  P a → P (fill_order (fill_of a b ts) a).
Hypothesis P_cancel : ∀ o,
  order_wf o → o_open o = true → o_orderType o = LIMIT →
  P o → P ((set_qty 0 ∘ set_open false) o).

Lemma main_step_orders c s :
  Inv s → valid_command c →
  map_Forall (λ _, P) (AllOrders s) →
  map_Forall (λ _, P) (AllOrders (snd (main_step c s))).
Proof.
  intros Hinv Hc HP k o' Ho'.
  destruct (AllOrders s !! k) as [o|] eqn:Ho.
  - assert (Hfill : ∀ a b ts, order_wf a → order_wf b → o_open a = true →
              o_open b = true → crossable a b →
              P a → P (fill_order (fill_of a b ts) a)).
    { intros a b ts ? ? ? ? ? ?. by apply (P_fill a b ts). }
    destruct (main_step_evolves (λ o1 o2, P o1 → P o2) (λ _ H, H)
                Hfill P_cancel c s Hinv Hc k o Ho) as (o'' & Ho'' & HR).
    assert (o'' = o') as -> by congruence. apply HR. by apply (HP k).
  - destruct c.
    + rewrite main_step_ORDER_snd in Ho'. destruct Hc as (_ & Hqty & Hprice & _).
      destruct (execute_order_keys account account_int qty price direction orderType
                  s k Hinv Hqty Hprice ltac:(by eexists)) as [[? ?]|[-> Hv]];
        [congruence|].
      rewrite (accepted_finish _ _ _ _ _ _ _ Hv) in Ho'.
      destruct (accepted_new_record account account_int qty price direction orderType
                  s Hinv Hv Hqty Hprice (λ o1 o2, Q o1 → Q o2) (λ _ H, H)
                  (λ _ _ _ H1 H2 H, H2 (H1 H)) Q_fill)
        as (b2 & _ & HR & Hst & Hwf & Hfin).
      rewrite Hfin in Ho'. injection Ho' as <-.
      destruct Hst as (_ & _ & _ & Ht & _). cbn in Ht. rewrite Ht.
      apply P_final; [done|]. apply HR.
      apply validation_None in Hv as (_ & _ & ? & ? & ?).
      unfold is_int32 in *. apply Q_new; [lia|lia|done].
    + cbn [main_step] in Ho'. destruct (known_order id s); cbn in Ho'; congruence.
    + cbn [main_step] in Ho'. destruct (AllAccounts s !! id); cbn in Ho'; congruence.
    + rewrite main_step_CANCEL_snd in Ho'.
      destruct (known_order id s) eqn:Hk; [|congruence].
      destruct (cancel_order_by_id_keys id s k Hinv (known_order_stored id s Hk)
                  ltac:(by eexists)). congruence.
    + cbn in Ho'. congruence.
    + cbn in Ho'. congruence.
Qed.

Lemma reachable_orders s : reachable s → map_Forall (λ _, P) (AllOrders s).
Proof.
  induction 1 as [|c s Hr IH Hc]; [apply map_Forall_empty|].
  apply main_step_orders; [by apply reachable_Inv|done..].
Qed.
End reachable_orders.
(** ** Fills *)

Lemma fills_qty_app fills f : fills_qty (fills ++ [f]) = fills_qty fills + f_qty f.
Proof.
  unfold fills_qty. induction fills as [|g fills IH]; cbn [foldr app]; lia.
Qed.

Lemma finish_record_price o :
  o_orderType o ≠ MARKET → o_price (finish_record o) = o_price o.
Proof.
  intros Ht. unfold finish_record. cbv zeta. rewrite decide_False by done.
  by destruct (o_open o).
Qed.

Lemma order_wf_open_qty o : order_wf o → o_open o = true → 0 < o_qty o.
Proof. intros (_ & _ & _ & _ & _ & H) Ho. rewrite Ho in H. lia. Qed.

Lemma fills_ok_fill_incoming a b ts :
  order_wf a → order_wf b → o_open a = true → o_open b = true → crossable a b →
  fills_ok b → fills_ok (fill_order (fill_of a b ts) b).
Proof.
  intros Hwa Hwb Hoa Hob [_ Hg] (Htf & Hpos & Hlim).
  pose proof (fill_of_bounds a b ts Hwa Hwb) as (Hq1 & Hq2 & _ & Hp).
  pose proof (fill_of_qty a b ts) as Hq.
  pose proof (order_wf_open_qty a Hwa Hoa). pose proof (order_wf_open_qty b Hwb Hob).
  assert (Hfp : f_price (fill_of a b ts) = o_price a) by reflexivity.
  remember (fill_of a b ts) as fill eqn:Hfill. clear Hfill.
  rewrite fill_order_exact by (done || lia). unfold fills_ok.
  cbn [o_totalFilled o_fills o_orderType].
  rewrite fills_qty_app. split; [lia|]. split.
  - apply Forall_app. split; [done|]. apply Forall_singleton. lia.
  - intros Ht. apply Forall_app. split; [by apply Hlim|]. apply Forall_singleton.
    unfold within_limit. cbn [o_direction o_price]. rewrite Hfp.
    destruct (decide (o_direction b = 2)).
    + destruct Hg as [_ Hg]. by apply Hg.
    + destruct Hg as [_ Hg]. by apply Hg.
Qed.

Lemma fills_ok_fill_standing a b ts :
  order_wf a → order_wf b → o_open a = true → o_open b = true → crossable a b →
  fills_ok a → fills_ok (fill_order (fill_of a b ts) a).
Proof.
  intros Hwa Hwb Hoa Hob _ (Htf & Hpos & Hlim).
  pose proof (fill_of_bounds a b ts Hwa Hwb) as (Hq1 & Hq2 & _ & Hp).
  pose proof (fill_of_qty a b ts) as Hq.
  pose proof (order_wf_open_qty a Hwa Hoa). pose proof (order_wf_open_qty b Hwb Hob).
  assert (Hfp : f_price (fill_of a b ts) = o_price a) by reflexivity.
  remember (fill_of a b ts) as fill eqn:Hfill. clear Hfill.
  rewrite fill_order_exact by (done || lia). unfold fills_ok.
  cbn [o_totalFilled o_fills o_orderType].
  rewrite fills_qty_app. split; [lia|]. split.
  - apply Forall_app. split; [done|]. apply Forall_singleton. lia.
  - intros Ht. apply Forall_app. split; [by apply Hlim|]. apply Forall_singleton.
    unfold within_limit. cbn [o_direction o_price]. rewrite Hfp.
    destruct (decide (o_direction a = 2)); lia.
Qed.

Lemma fills_ok_final o :
  fills_ok o → fills_ok (if decide (o_orderType o = LIMIT) then o else finish_record o).
Proof.
  intros (Htf & Hpos & Hlim). destruct (decide _); [done|].
  destruct (finish_record_static o) as (Ht & _ & Htf' & Hf & Hd).
  unfold fills_ok. rewrite Ht, Htf', Hf. split_and!; try done.
  intros Hm. eapply Forall_impl; [by apply Hlim|]. intros f.
  unfold within_limit. by rewrite Hd, finish_record_price.
Qed.

Lemma reachable_fills_ok s k o :
  reachable s → AllOrders s !! k = Some o → fills_ok o.
Proof.
  intros Hr Ho.
  refine (reachable_orders fills_ok fills_ok _ _ _ _ _ s Hr k o Ho).
  - intros. unfold fills_ok. cbn. split_and!; try done; by constructor.
  - apply fills_ok_fill_incoming.
  - intros o0 _. apply fills_ok_final.
  - apply fills_ok_fill_standing.
  - by intros o0 _ _ _ H.
Qed.
Lemma example_bids_reachable : reachable example_bids.
Proof.
  apply reachable_run_commands; [constructor|].
  repeat constructor; vm_compute; done.
Qed.

Lemma example_traded_reachable : reachable example_traded.
Proof.
  apply reachable_run_commands; [apply example_bids_reachable|].
  repeat constructor; vm_compute; done.
Qed.

Lemma example_cancelled_reachable : reachable example_cancelled.
Proof.
  apply reachable_run_commands; [constructor|].
  repeat constructor; vm_compute; done.
Qed.

(** X1: between two commands, the totalFilled of every stored order is the
    sum of the quantities of its fills, and every fill has a positive
    quantity and a price between 0 and INT_MAX. *)
Theorem totalFilled_is_sum_of_fills (s : State) (id : Z) (o : ORDER) :
  reachable s → AllOrders s !! id = Some o →
  o_totalFilled o = fills_qty (o_fills o)
  ∧ Forall (λ f, 0 < f_qty f ∧ 0 <= f_price f <= INT_MAX) (o_fills o).
Proof.
  intros Hr Ho. destruct (reachable_fills_ok s id o Hr Ho) as (? & ? & _). done.
Qed.

Lemma totalFilled_is_sum_of_fills_witness :
  ∃ o, AllOrders example_traded !! 3 = Some o
       ∧ o_totalFilled o = fills_qty (o_fills o).
Proof.
  eexists. split; [vm_compute; reflexivity|].
  refine (proj1 (totalFilled_is_sum_of_fills example_traded 3 _ _ _)).
  - apply example_traded_reachable.
  - vm_compute. reflexivity.
Defined.

(** X2: an order that is not a market order never fills at a price worse
    than its own: no fill of a buy order is above its price and no fill of a
    sell order is below it. *)
Theorem fills_within_limit_price (s : State) (id : Z) (o : ORDER) (f : FILL) :
  reachable s → AllOrders s !! id = Some o →
  o_orderType o ≠ MARKET → f ∈ o_fills o →
  (o_direction o = BUY → f_price f <= o_price o)
  ∧ (o_direction o = SELL → o_price o <= f_price f).
Proof.
  intros Hr Ho Ht Hf. destruct (reachable_fills_ok s id o Hr Ho) as (_ & _ & Hlim).
  specialize (Hlim Ht). rewrite Forall_forall in Hlim. specialize (Hlim f Hf).
  unfold within_limit in Hlim.
  destruct (decide (o_direction o = 2)) as [Hd|Hd]; split; intros Hd'; try done.
  - rewrite Hd in Hd'. done.
Qed.

Lemma fills_within_limit_price_witness :
  ∃ o f, AllOrders example_traded !! 3 = Some o ∧ f ∈ o_fills o
         ∧ o_price o <= f_price f.
Proof.
  eexists. eexists. split; [vm_compute; reflexivity|].
  split; [apply list_elem_of_here|].
  refine (proj2 (fills_within_limit_price example_traded 3 _ _ _ _ _ _) _).
  - apply example_traded_reachable.
  - vm_compute. reflexivity.
  - vm_compute. discriminate.
  - apply list_elem_of_here.
  - vm_compute. reflexivity.
Defined.
(** ** Orders that are not limit orders, as stored *)

Lemma finish_record_qty o : order_wf o → o_qty (finish_record o) = 0.
Proof.
  intros (_ & _ & _ & _ & _ & Hq). unfold finish_record. cbv zeta.
  destruct (decide _); cbn [o_open set_price]; destruct (o_open o); order_simpl;
    try done; lia.
Qed.

Lemma finish_record_market_price o :
  o_orderType o = MARKET → o_price (finish_record o) = 0.
Proof.
  intros Ht. unfold finish_record. cbv zeta. rewrite decide_True by done.
  cbn [o_open set_price]. by destruct (o_open o).
Qed.

(** X3: between two commands every stored order that is not a limit order
    is closed with qty 0 (its remainder, if any, was dropped when its ORDER
    command ended), and every stored market order has price 0, whatever price
    the command carried. *)
Theorem only_limit_orders_stay_open (s : State) (id : Z) (o : ORDER) :
  reachable s → AllOrders s !! id = Some o →
  (o_orderType o ≠ LIMIT → o_open o = false ∧ o_qty o = 0)
  ∧ (o_orderType o = MARKET → o_price o = 0).
Proof.
  intros Hr Ho.
  refine (reachable_orders
            (λ o, (o_orderType o ≠ LIMIT → o_open o = false ∧ o_qty o = 0)
                  ∧ (o_orderType o = MARKET → o_price o = 0))
            (λ _, True) _ _ _ _ _ s Hr id o Ho).
  - done.
  - done.
  - intros o0 Hwf _. destruct (decide (o_orderType o0 = 1)) as [Hl|Hl].
    + split; [done|]. rewrite Hl. done.
    + destruct (finish_record_static o0) as (-> & _). split.
      * intros _. split; [apply finish_record_closed|by apply finish_record_qty].
      * apply finish_record_market_price.
  - intros a b ts _ _ _ _ [Hl _] _. cbn [fill_order o_orderType]. rewrite Hl. done.
  - intros o0 _ _ Hl _. cbn. rewrite Hl. done.
Qed.

(** A market sell for 500 on [example_bids] takes the whole bid side, 110
    shares; the remaining 390 are dropped and the order is stored with
    price 0. *)
Lemma only_limit_orders_stay_open_witness :
  ∃ o, AllOrders (run_commands [ORDER_CMD "C" 2 500 4000 SELL MARKET] example_bids)
         !! 3 = Some o
       ∧ o_open o = false ∧ o_qty o = 0.
Proof.
  eexists. split; [vm_compute; reflexivity|].
  refine (proj1 (only_limit_orders_stay_open
                   (run_commands [ORDER_CMD "C" 2 500 4000 SELL MARKET] example_bids)
                   3 _ _ _) _).
  - apply reachable_run_commands; [apply example_bids_reachable|].
    repeat constructor; vm_compute; done.
  - vm_compute. reflexivity.
  - vm_compute. discriminate.
Defined.

(** ** Stored orders over time *)

Lemma evolves_refl o : evolves o o.
Proof. unfold evolves. split_and!; try done; try lia. Qed.

Lemma evolves_trans o1 o2 o3 : evolves o1 o2 → evolves o2 o3 → evolves o1 o3.
Proof.
  intros (Hs1 & Hp1 & Ht1 & Hq1 & Hc1) (Hs2 & Hp2 & Ht2 & Hq2 & Hc2).
  unfold evolves. split_and!.
  - by eapply static_eq_trans.
  - by etrans.
  - lia.
  - lia.
  - intros Hc. pose proof (Hc1 Hc) as ->. by apply Hc2.
Qed.

Lemma evolves_fill a b ts :
  order_wf a → order_wf b → o_open a = true → o_open b = true → crossable a b →
  evolves a (fill_order (fill_of a b ts) a).
Proof.
  intros Hwa Hwb Hoa _ _.
  pose proof (fill_of_bounds a b ts Hwa Hwb) as (Hq1 & _).
  remember (fill_of a b ts) as fill eqn:Hfill. clear Hfill.
  unfold evolves. split; [apply fill_order_static|].
  rewrite fill_order_exact by done. cbn [o_fills o_totalFilled o_qty].
  split_and!; try lia.
  - by apply prefix_app_r.
  - by rewrite Hoa.
Qed.

Lemma evolves_cancel o :
  order_wf o → o_open o = true → o_orderType o = LIMIT →
  evolves o ((set_qty 0 ∘ set_open false) o).
Proof.
  intros (Hq & _) Ho _. unfold evolves. cbn. split_and!; try done.
  by rewrite Ho.
Qed.

Lemma reachable_evolves cs s k o :
  reachable s → Forall valid_command cs → AllOrders s !! k = Some o →
  ∃ o', AllOrders (run_commands cs s) !! k = Some o' ∧ evolves o o'.
Proof.
  intros Hr Hcs Ho.
  by apply (run_commands_evolves evolves evolves_refl evolves_trans evolves_fill
              evolves_cancel cs s Hr Hcs k o).
Qed.

(** X4: a closed order is final: whatever commands follow, its record stays
    as it is. *)
Theorem closed_order_is_final (s : State) (cs : list COMMAND) (id : Z) (o : ORDER) :
  reachable s → Forall valid_command cs →
  AllOrders s !! id = Some o → o_open o = false →
  AllOrders (run_commands cs s) !! id = Some o.
Proof.
  intros Hr Hcs Ho Hc.
  destruct (reachable_evolves cs s id o Hr Hcs Ho) as (o' & Ho' & _ & _ & _ & _ & Heq).
  by rewrite Ho', (Heq Hc).
Qed.

(** The cancelled bid of [example_cancelled] is untouched by a sell that
    would have met it. *)
Lemma closed_order_is_final_witness :
  AllOrders (run_commands [ORDER_CMD "B" 1 100 5000 SELL LIMIT] example_cancelled) !! 0
  = AllOrders example_cancelled !! 0.
Proof.
  etrans; [|symmetry; vm_compute; reflexivity].
  apply closed_order_is_final.
  - apply example_cancelled_reachable.
  - repeat constructor; vm_compute; done.
  - vm_compute. reflexivity.
  - vm_compute. reflexivity.
Defined.

(** X5: whatever commands follow, a stored order keeps its direction,
    original quantity, price, type, id, account and timestamp; its fills are
    only appended to, its totalFilled never decreases and its qty never
    increases. *)
Theorem order_history_is_append_only
    (s : State) (cs : list COMMAND) (id : Z) (o : ORDER) :
  reachable s → Forall valid_command cs → AllOrders s !! id = Some o →
  ∃ o', AllOrders (run_commands cs s) !! id = Some o'
        ∧ o_direction o' = o_direction o ∧ o_originalQty o' = o_originalQty o
        ∧ o_price o' = o_price o ∧ o_orderType o' = o_orderType o
        ∧ o_id o' = o_id o ∧ o_account o' = o_account o ∧ o_ts o' = o_ts o
        ∧ o_fills o `prefix_of` o_fills o'
        ∧ o_totalFilled o <= o_totalFilled o' ∧ o_qty o' <= o_qty o.
Proof.
  intros Hr Hcs Ho.
  destruct (reachable_evolves cs s id o Hr Hcs Ho)
    as (o' & Ho' & (?&?&?&?&?&?&?) & ? & ? & ? & _).
  exists o'. split_and!; done.
Qed.

Lemma order_history_is_append_only_witness :
  ∃ o', AllOrders example_traded !! 1 = Some o'
        ∧ o_price o' = 5000 ∧ [] `prefix_of` o_fills o' ∧ o_qty o' <= 50.
Proof.
  destruct (order_history_is_append_only example_bids
              [ORDER_CMD "C" 2 70 4950 SELL LIMIT] 1
              {| o_direction := 1; o_originalQty := 50; o_qty := 50; o_price := 5000;
                 o_orderType := 1; o_id := 1; o_account := 1; o_ts := 3%nat;
                 o_fills := []; o_totalFilled := 0; o_open := true |})
    as (o' & Ho' & _ & _ & Hp & _ & _ & _ & _ & Hf & _ & Hq).
  - apply example_bids_reachable.
  - repeat constructor; vm_compute; done.
  - vm_compute. reflexivity.
  - exists o'. split_and!; done.
Defined.
(** ** The book after an accepted order *)

Lemma finish_chains order b2 s2 :
  AllOrders s2 !! order = Some b2 →
  FirstBidLevel (finish order s2)
  = (if o_open b2 && bool_decide (o_orderType b2 = LIMIT)
        && negb (bool_decide (o_direction b2 = SELL))
     then insert_level (λ p q, bool_decide (p > q)) (o_price b2) order
                       (FirstBidLevel (cleanup_stage order s2))
     else FirstBidLevel (cleanup_stage order s2))
  ∧ FirstAskLevel (finish order s2)
    = (if o_open b2 && bool_decide (o_orderType b2 = LIMIT)
          && bool_decide (o_direction b2 = SELL)
       then insert_level (λ p q, bool_decide (p < q)) (o_price b2) order
                         (FirstAskLevel (cleanup_stage order s2))
       else FirstAskLevel (cleanup_stage order s2)).
Proof.
  intros Hb2. unfold finish.
  destruct (cleanup_stage_frame order s2) as (Ho1 & _).
  set (s3 := cleanup_stage order s2) in *.
  assert (Hb3 : AllOrders s3 !! order = Some b2) by (by rewrite Ho1).
  clearbody s3.
  destruct (ticker_stage_chains order
              (resting_stage order (market_price_stage order s3))) as [-> ->].
  destruct (market_price_stage_frame order s3) as (Hfb & Hfa & _).
  pose proof (market_price_stage_lookup order s3 order) as Hl. rewrite Hb3 in Hl.
  rewrite (deref_lookup _ _ _ Hb3) in Hl.
  set (s4 := market_price_stage order s3) in *. clearbody s4.
  unfold resting_stage, insert_ask, insert_bid.
  rewrite insert_ask_from_level, insert_bid_from_level.
  destruct (decide (order = order ∧ o_orderType b2 = 2)) as [[_ Hm]|Hm].
  - cbn in Hl. rewrite (deref_lookup _ _ _ Hl). cbn [o_open o_orderType set_price].
    rewrite Hm. rewrite (bool_decide_eq_false_2 (2 = 1)) by done.
    rewrite andb_false_r. cbn [andb].
    destruct (o_open b2); [|by rewrite Hfb, Hfa].
    rewrite decide_False by done. cbn. by rewrite Hfb, Hfa.
  - rewrite (deref_lookup _ _ _ Hl).
    destruct (o_open b2); cbn [andb]; [|by rewrite Hfb, Hfa].
    destruct (decide (o_orderType b2 = 1)) as [Ht|Ht].
    + rewrite (bool_decide_eq_true_2 _ Ht). cbn [andb].
      destruct (decide (o_direction b2 = 2)) as [Hd|Hd].
      * rewrite (bool_decide_eq_true_2 _ Hd). cbn. by rewrite Hfb, Hfa.
      * rewrite (bool_decide_eq_false_2 _ Hd). cbn. by rewrite Hfb, Hfa.
    + rewrite (bool_decide_eq_false_2 _ Ht). cbn. by rewrite Hfb, Hfa.
Qed.

Lemma finish_counter order s :
  next_id_static (finish order s) = next_id_static s
  ∧ HighestKnownOrder (finish order s) = HighestKnownOrder s
  ∧ AllAccounts (finish order s) = AllAccounts s.
Proof.
  unfold finish, ticker_stage, resting_stage, market_price_stage, cleanup_stage,
    insert_ask, insert_bid.
  repeat (destruct (decide _) || destruct (o_open _)); done.
Qed.

Lemma cleanup_stage_chains order b s :
  AllOrders s !! order = Some b →
  FirstBidLevel (cleanup_stage order s)
  = (if decide (o_direction b = SELL)
     then cleanup_closed_bids_or_asks s (FirstBidLevel s) else FirstBidLevel s)
  ∧ FirstAskLevel (cleanup_stage order s)
    = (if decide (o_direction b = SELL)
       then FirstAskLevel s else cleanup_closed_bids_or_asks s (FirstAskLevel s)).
Proof.
  intros Hb. unfold cleanup_stage. rewrite (deref_lookup _ _ _ Hb).
  by destruct (decide _).
Qed.

(** ** What the clean-up removes *)

Lemma first_open_node_keeps s nodes n :
  n ∈ nodes → o_open (deref s n) = true → n ∈ first_open_node s nodes.
Proof.
  intros Hn Ho. destruct (first_open_node_suffix s nodes) as (pre & Heq & Hpre).
  rewrite Heq in Hn. apply elem_of_app in Hn as [Hn|Hn]; [|done].
  rewrite Forall_forall in Hpre. rewrite (Hpre n Hn) in Ho. done.
Qed.

Lemma cleanup_keeps_open s chain n :
  n ∈ nodes_of chain → o_open (deref s n) = true →
  n ∈ nodes_of (cleanup_closed_bids_or_asks s chain).
Proof. rewrite nodes_of_cleanup. apply first_open_node_keeps. Qed.

Lemma first_open_node_closed s nodes :
  Forall (λ n, o_open (deref s n) = false) nodes → first_open_node s nodes = [].
Proof.
  induction 1 as [|n nodes Hn _ IH]; cbn [first_open_node]; [done|]. by rewrite Hn.
Qed.

Lemma cleanup_skip s pre rest :
  Forall (λ n, o_open (deref s n) = false) (nodes_of pre) →
  cleanup_closed_bids_or_asks s (pre ++ rest) = cleanup_closed_bids_or_asks s rest.
Proof.
  induction pre as [|l pre IH]; intros Hc; [done|].
  rewrite nodes_of_cons in Hc. apply Forall_app in Hc as [Hl Hpre].
  cbn [app cleanup_closed_bids_or_asks].
  rewrite (first_open_node_closed _ _ Hl). by apply IH.
Qed.

Lemma cleanup_levels s chain l' :
  l' ∈ cleanup_closed_bids_or_asks s chain →
  ∃ l, l ∈ chain ∧ l_price l' = l_price l.
Proof.
  induction chain as [|l chain IH]; cbn [cleanup_closed_bids_or_asks];
    [by intros ?%elem_of_nil|].
  destruct (first_open_node s (l_nodes l)) as [|n nodes].
  - intros Hl'. destruct (IH Hl') as (l0 & ? & ?). exists l0. split; [by right|done].
  - intros [->|Hl']%elem_of_cons.
    + exists l. split; [by left|done].
    + exists l'. split; [by right|done].
Qed.

Lemma take_while_rest {A} (f : A → bool) (l : list A) :
  ∃ rest, l = take_while f l ++ rest
          ∧ match rest with [] => True | x :: _ => f x = false end.
Proof.
  induction l as [|x l (rest & IH & Hr)]; cbn [take_while].
  - by exists [].
  - destruct (f x) eqn:Hx; [|by eexists].
    exists rest. split; [|done]. cbn [app]. by rewrite <- IH.
Qed.

Lemma elem_of_list_insert_inv {A} (l : list A) i x y :
  y ∈ <[i:=x]> l → y = x ∨ y ∈ l.
Proof.
  intros [j Hj]%list_elem_of_lookup_1.
  apply list_lookup_insert_Some in Hj as [(_ & -> & _)|[_ Hj]]; [by left|right].
  by eapply list_elem_of_lookup_2.
Qed.

Lemma unlink_levels level ordernode chain l' :
  l' ∈ unlink level ordernode chain → ∃ l, l ∈ chain ∧ l_price l' = l_price l.
Proof.
  unfold unlink. destruct (chain !! level) as [l|] eqn:Hl; [|by exists l'].
  destruct (delete ordernode (l_nodes l)) as [|n nodes].
  - intros Hl'. exists l'. split; [|done].
    by eapply list_elem_of_delete_inv.
  - intros Hl'. apply elem_of_list_insert_inv in Hl' as [->|Hl'].
    + exists l. split; [by eapply list_elem_of_lookup_2|done].
    + by exists l'.
Qed.
(** ** The book holds exactly the open orders *)

Lemma fill_order_open_mono fill o :
  o_open (fill_order fill o) = true → o_open o = true.
Proof. cbn [fill_order o_open]. by destruct (decide _). Qed.

Lemma execute_order_open_rests account_name account_int qty price direction orderType s :
  Inv s → is_int32 qty → is_int32 price →
  (∀ k o, AllOrders s !! k = Some o → o_open o = true → resting s k) →
  ∀ k o, AllOrders (snd (execute_order account_name account_int qty price
                           direction orderType s)) !! k = Some o →
         o_open o = true →
         resting (snd (execute_order account_name account_int qty price
                         direction orderType s)) k.
Proof.
  intros Hinv Hqty Hprice IH k o' Ho' Hopen'.
  destruct (validation s account_int qty price direction) as [e|] eqn:Hv.
  { rewrite (execute_order_rejected _ _ _ _ _ _ _ e) in * by done. by eapply IH. }
  assert (Hold : k ≠ next_id_static s → ∃ o, AllOrders s !! k = Some o ∧ o_open o = true).
  { intros Hk.
    destruct (execute_order_keys account_name account_int qty price direction
                orderType s k Hinv Hqty Hprice ltac:(by eexists)) as [[o Ho]|[? _]];
      [|done].
    destruct (execute_order_evolves (λ o1 o2, o_open o2 = true → o_open o1 = true)
                (λ _ H, H)
                (λ a b ts _ _ _ _ _, fill_order_open_mono (fill_of a b ts) a)
                account_name account_int qty price direction orderType s
                Hinv Hqty Hprice k o Ho) as (o'' & Ho'' & HR).
    exists o. split; [done|]. apply HR. congruence. }
  rewrite (accepted_finish _ _ _ _ _ _ _ Hv) in *.
  destruct (accepted_new_record account_name account_int qty price direction
              orderType s Hinv Hv Hqty Hprice (λ _ _, True) ltac:(done) ltac:(done)
              ltac:(done)) as (b2 & Hb2 & _ & Hst & Hwf2 & Hnew).
  destruct (accepted_matched account_name account_int qty price direction orderType s
              Hinv Hv Hqty Hprice) as (_ & _ & Hfb2 & Hfa2 & _).
  destruct (create_order_frame account_name account_int qty price direction
              orderType s) as (Hfb1 & Hfa1 & _).
  set (order := next_id_static s) in *.
  set (s2 := matching_stage order
               (create_order account_name account_int qty price direction
                  orderType s)) in *.
  destruct (finish_chains order b2 s2 Hb2) as [Hfb Hfa].
  destruct (cleanup_stage_chains order b2 s2 Hb2) as [Hcb Hca].
  destruct Hst as (_ & _ & _ & Ht & _). cbn in Ht.
  unfold resting. rewrite Hfb, Hfa.
  destruct (decide (k = order)) as [->|Hk].
  - rewrite Hnew in Ho'. injection Ho' as <-.
    destruct (decide (orderType = 1)) as [Hl|Hl];
      [|by rewrite finish_record_closed in Hopen'].
    rewrite Hopen', (bool_decide_eq_true_2 (o_orderType b2 = 1)) by congruence.
    cbn [andb]. destruct (decide (o_direction b2 = 2)) as [Hd|Hd].
    + right. rewrite (bool_decide_eq_true_2 _ Hd). rewrite insert_level_nodes.
      by left.
    + left. rewrite (bool_decide_eq_false_2 _ Hd). cbn [negb].
      rewrite insert_level_nodes. by left.
  - destruct (Hold Hk) as (o & Ho & Hopen).
    rewrite finish_lookup_other in Ho' by done.
    assert (Hd2 : o_open (deref s2 k) = true) by (by rewrite (deref_lookup _ _ _ Ho')).
    assert (Hkeep : ∀ c (f : bool) before p,
              k ∈ nodes_of c →
              k ∈ nodes_of (if f then insert_level before p order c else c)).
    { intros c f before p Hin. destruct f; [|done].
      rewrite insert_level_nodes. by right. }
    destruct (IH k o Ho Hopen) as [Hin|Hin]; [left|right]; apply Hkeep.
    + rewrite Hcb. rewrite <- Hfb1, <- Hfb2 in Hin.
      destruct (decide (o_direction b2 = 2)); [by apply cleanup_keeps_open|done].
    + rewrite Hca. rewrite <- Hfa1, <- Hfa2 in Hin.
      destruct (decide (o_direction b2 = 2)); [done|by apply cleanup_keeps_open].
Qed.

Lemma cancel_order_by_id_open_rests id s :
  Inv s → is_Some (AllOrders s !! id) →
  (∀ k o, AllOrders s !! k = Some o → o_open o = true → resting s k) →
  ∀ k o, AllOrders (cancel_order_by_id id s) !! k = Some o → o_open o = true →
         resting (cancel_order_by_id id s) k.
Proof.
  intros Hinv [b Hb] IH k o Ho Hopen.
  destruct (resting_dec s id) as [Hr|Hr].
  - destruct (cancel_resting id b s Hinv Hb Hr)
      as (Ht & li & ni & c1 & l & c2 & n1 & n2 & Hc & Hli & Hn & Hni & Hd1 & Hd2 & Heq).
    rewrite Heq in *.
    destruct (cancel_found_frame id b s li ni) as (Hall & _).
    destruct (cancel_found_Inv id b s li ni c1 c2 l n1 n2)
      as (_ & _ & Hothers); try done.
    rewrite Hall, lookup_alter in Ho.
    destruct (decide (id = k)) as [->|Hk].
    + rewrite Hb in Ho. cbn in Ho. injection Ho as <-. done.
    + apply Hothers; [done|]. by apply (IH k o).
  - rewrite (cancel_not_resting id b s) in *; try done.
    + by apply (IH k o).
    + by intros [_ ?].
    + by intros [_ ?].
Qed.

Lemma reachable_open_rests s k o :
  reachable s → AllOrders s !! k = Some o → o_open o = true → resting s k.
Proof.
  intros Hr. revert k o. induction Hr as [|c s Hr IH Hc]; intros k o Ho Hopen.
  { done. }
  pose proof (reachable_Inv s Hr) as Hinv. destruct c.
  - rewrite main_step_ORDER_snd in *. destruct Hc as (_ & ? & ? & _).
    by apply (execute_order_open_rests account account_int qty price direction
                orderType s Hinv ltac:(done) ltac:(done) IH k o).
  - cbn [main_step] in *. destruct (known_order id s); by apply (IH k o).
  - cbn [main_step] in *. destruct (AllAccounts s !! id); by apply (IH k o).
  - rewrite main_step_CANCEL_snd in *.
    destruct (known_order id s) eqn:Hk; [|by apply (IH k o)].
    by apply (cancel_order_by_id_open_rests id s Hinv (known_order_stored id s Hk)
                IH k o).
  - by apply (IH k o).
  - by apply (IH k o).
Qed.

(** X6: between two commands the book holds exactly the open orders: a
    stored order is open if and only if one of the two chains has a node for
    it; it is then a limit order with qty > 0, and it is on the bid chain if
    it buys and on the ask chain if it sells, in a level of its price. *)
Theorem open_orders_are_the_book (s : State) (id : Z) (o : ORDER) :
  reachable s → AllOrders s !! id = Some o →
  (o_open o = true ↔ resting s id)
  ∧ (resting s id →
     o_orderType o = LIMIT ∧ 0 < o_qty o
     ∧ ∃ l, l ∈ (if decide (o_direction o = BUY) then FirstBidLevel s
                 else FirstAskLevel s)
            ∧ id ∈ l_nodes l ∧ l_price l = o_price o).
Proof.
  intros Hr Ho. pose proof (reachable_Inv s Hr) as [Hbase Hbo Hao].
  assert (Hopen : resting s id → o_open o = true).
  { unfold chain_open in *. rewrite Forall_forall in Hbo, Hao.
    rewrite <- (deref_lookup _ _ _ Ho). intros [?|?]; [by apply Hbo|by apply Hao]. }
  split; [split; [by apply (reachable_open_rests s id o)|done]|].
  intros Hrest.
  destruct (inv_orders s Hbase id o Ho) as (Hwf & _).
  pose proof (order_wf_open_qty o Hwf (Hopen Hrest)).
  destruct Hrest as [Hin|Hin].
  - destruct (chain_wf_lookup _ _ _ _ _ (inv_bids s Hbase) Hin)
      as (o' & l & Ho' & Hl & Hn & Ht & Hp & Hd).
    assert (o' = o) as -> by congruence.
    split_and!; try done. exists l. by rewrite decide_True.
  - destruct (chain_wf_lookup _ _ _ _ _ (inv_asks s Hbase) Hin)
      as (o' & l & Ho' & Hl & Hn & Ht & Hp & Hd).
    assert (o' = o) as -> by congruence.
    split_and!; try done. exists l. rewrite decide_False; [done|]. rewrite Hd. done.
Qed.

Lemma open_orders_are_the_book_witness :
  ∃ o, AllOrders example_traded !! 1 = Some o ∧ resting example_traded 1.
Proof.
  eexists. split; [vm_compute; reflexivity|].
  refine (proj1 (proj1 (open_orders_are_the_book example_traded 1 _ _ _)) _).
  - apply example_traded_reachable.
  - vm_compute. reflexivity.
  - vm_compute. reflexivity.
Defined.
(** ** The book is never crossed *)

Lemma cleanup_beyond_gate s (R : Z → Z → Prop) (f : LEVEL → bool) opp
    (beyond : Z → Prop) :
  StronglySorted (λ l1 l2, R (l_price l1) (l_price l2)) opp →
  Forall (λ n, o_open (deref s n) = false) (nodes_of (take_while f opp)) →
  (∀ l, f l = false → beyond (l_price l)) →
  (∀ q1 q2, R q1 q2 → beyond q1 → beyond q2) →
  Forall (λ l, beyond (l_price l)) (cleanup_closed_bids_or_asks s opp).
Proof.
  intros Hsorted Hclosed Hgate Hmono.
  destruct (take_while_rest f opp) as (rest & Heq & Hrest).
  rewrite Heq at 1. rewrite cleanup_skip by done.
  rewrite Heq in Hsorted. apply StronglySorted_app_1_r in Hsorted.
  apply Forall_forall. intros l' Hl'.
  destruct (cleanup_levels s rest l' Hl') as (l & Hl & ->).
  destruct rest as [|x rest]; [by apply elem_of_nil in Hl|].
  apply StronglySorted_inv in Hsorted as [_ Hx].
  apply elem_of_cons in Hl as [->|Hl]; [by apply Hgate|].
  rewrite Forall_forall in Hx. eapply Hmono; [by apply Hx|by apply Hgate].
Qed.

Lemma accepted_exhausted account_name account_int qty price direction orderType s :
  Inv s → validation s account_int qty price direction = None →
  is_int32 qty → is_int32 price →
  let order := next_id_static s in
  let s1 := create_order account_name account_int qty price direction orderType s in
  o_open (deref (matching_stage order s1) order) = true →
  Forall (λ n, o_open (deref (matching_stage order s1) n) = false)
         (matching_queue order s1).
Proof.
  intros Hinv Hv Hqty Hprice order s1.
  destruct (accepted_matching_queue_facts account_name account_int qty price
              direction orderType s Hinv Hv Hqty Hprice) as (H1 & H2 & H3 & _).
  pose proof (create_order_Inv account_name account_int qty price direction
                orderType s Hinv Hv Hqty Hprice) as Hinv1.
  pose proof (accepted_lookup account_name account_int qty price direction
                orderType s) as Hb1.
  rewrite matching_stage_match_queue.
  by apply (match_queue_exhausted _ order s1 _ (inv_base _ Hinv1) Hb1).
Qed.

Lemma uncrossed_levels s (bids asks : list LEVEL) :
  uncrossed s →
  (∀ l', l' ∈ bids → ∃ l, l ∈ FirstBidLevel s ∧ l_price l' = l_price l) →
  (∀ l', l' ∈ asks → ∃ l, l ∈ FirstAskLevel s ∧ l_price l' = l_price l) →
  ∀ lb la, lb ∈ bids → la ∈ asks → l_price lb < l_price la.
Proof.
  intros Hu Hb Ha lb la Hlb Hla.
  destruct (Hb lb Hlb) as (lb0 & ? & ->). destruct (Ha la Hla) as (la0 & ? & ->).
  by apply Hu.
Qed.

Lemma execute_order_uncrossed account_name account_int qty price direction orderType s :
  Inv s → is_int32 qty → is_int32 price → uncrossed s →
  uncrossed (snd (execute_order account_name account_int qty price direction
                    orderType s)).
Proof.
  intros Hinv Hqty Hprice Hu.
  destruct (validation s account_int qty price direction) as [e|] eqn:Hv.
  { by rewrite (execute_order_rejected _ _ _ _ _ _ _ e). }
  rewrite (accepted_finish _ _ _ _ _ _ _ Hv).
  destruct (accepted_new_record account_name account_int qty price direction
              orderType s Hinv Hv Hqty Hprice (λ _ _, True) ltac:(done) ltac:(done)
              ltac:(done)) as (b2 & Hb2 & _ & Hst & Hwf2 & _).
  destruct (accepted_matched account_name account_int qty price direction orderType s
              Hinv Hv Hqty Hprice) as (_ & _ & Hfb2 & Hfa2 & _).
  destruct (create_order_frame account_name account_int qty price direction
              orderType s) as (Hfb1 & Hfa1 & _).
  pose proof (accepted_exhausted account_name account_int qty price direction
                orderType s Hinv Hv Hqty Hprice) as Hex. cbv zeta in Hex.
  pose proof (accepted_deref account_name account_int qty price direction
                orderType s) as Hd1.
  set (order := next_id_static s) in *.
  set (s1 := create_order account_name account_int qty price direction orderType s)
    in *.
  set (s2 := matching_stage order s1) in *.
  rewrite (deref_lookup _ _ _ Hb2) in Hex.
  destruct (finish_chains order b2 s2 Hb2) as [Hfb Hfa].
  destruct (cleanup_stage_chains order b2 s2 Hb2) as [Hcb Hca].
  destruct Hst as (Hdir & _ & Hp & Ht & _). cbn in Hdir, Hp, Ht.
  rewrite Hfb1 in Hfb2. rewrite Hfa1 in Hfa2. rewrite Hfb2 in Hcb. rewrite Hfa2 in Hca.
  destruct (inv_bids s (inv_base s Hinv)) as (_ & Hsb & _).
  destruct (inv_asks s (inv_base s Hinv)) as (_ & Hsa & _).
  (* the cleaned chains *)
  assert (Hcl : ∀ lb la, lb ∈ FirstBidLevel (cleanup_stage order s2) →
                         la ∈ FirstAskLevel (cleanup_stage order s2) →
                         l_price lb < l_price la).
  { apply (uncrossed_levels s); [done|..]; intros l'; rewrite ?Hcb, ?Hca;
      destruct (decide (o_direction b2 = 2)); try apply cleanup_levels;
      intros ?; by exists l'. }
  (* the queue, when the order is to rest *)
  assert (Hq : o_open b2 = true → o_orderType b2 = 1 →
               Forall (λ n, o_open (deref s2 n) = false)
                 (nodes_of (take_while (admissible b2)
                              (if decide (o_direction b2 = 2) then FirstBidLevel s
                               else FirstAskLevel s)))).
  { intros Hopen Hl. specialize (Hex Hopen).
    unfold matching_queue in Hex. rewrite Hd1 in Hex. cbn [o_orderType] in Hex.
    rewrite decide_True in Hex by congruence.
    unfold crossable_queue, opposite_side in Hex. rewrite Hd1 in Hex.
    cbn [o_direction] in Hex. rewrite ?Hfb1, ?Hfa1 in Hex.
    rewrite <- Hdir.
    erewrite take_while_ext; [exact Hex|]. intros l. unfold admissible.
    by rewrite <- Hdir, <- Hp, <- Ht. }
  intros lb la. rewrite Hfb, Hfa.
  destruct (o_open b2) eqn:Hopen; cbn [andb]; [|by apply Hcl].
  destruct (decide (o_orderType b2 = 1)) as [Hl|Hl];
    [|rewrite (bool_decide_eq_false_2 _ Hl); by apply Hcl].
  rewrite (bool_decide_eq_true_2 _ Hl). cbn [andb].
  specialize (Hq eq_refl Hl).
  destruct (decide (o_direction b2 = 2)) as [Hd|Hd].
  - rewrite (bool_decide_eq_true_2 _ Hd). cbn [negb].
    intros Hlb Hla. revert la Hla. apply Forall_forall.
    apply (insert_level_Forall _ _ _ (λ q, l_price lb < q)).
    + apply Forall_forall. intros la Hla. by apply Hcl.
    + revert lb Hlb. apply Forall_forall. rewrite Hcb.
      apply (cleanup_beyond_gate s2 Z.gt (admissible b2) _ (λ q, q < o_price b2));
        [done|done| |lia].
      intros l. unfold admissible. rewrite decide_True by done.
      rewrite (bool_decide_eq_false_2 (o_orderType b2 = 2)) by congruence.
      cbn [orb]. intros ?%bool_decide_eq_false. lia.
  - rewrite (bool_decide_eq_false_2 _ Hd). cbn [negb].
    intros Hlb Hla. revert lb Hlb. apply Forall_forall.
    apply (insert_level_Forall _ _ _ (λ q, q < l_price la)).
    + apply Forall_forall. intros lb Hlb. by apply Hcl.
    + revert la Hla. apply Forall_forall. rewrite Hca.
      apply (cleanup_beyond_gate s2 Z.lt (admissible b2) _ (λ q, o_price b2 < q));
        [done|done| |lia].
      intros l. unfold admissible. rewrite decide_False by done.
      rewrite (bool_decide_eq_false_2 (o_orderType b2 = 2)) by congruence.
      cbn [orb]. intros ?%bool_decide_eq_false. lia.
Qed.

Lemma cancel_order_by_id_uncrossed id s :
  Inv s → is_Some (AllOrders s !! id) → uncrossed s →
  uncrossed (cancel_order_by_id id s).
Proof.
  intros Hinv [b Hb] Hu.
  destruct (resting_dec s id) as [Hr|Hr].
  - destruct (cancel_resting id b s Hinv Hb Hr)
      as (_ & li & ni & c1 & l & c2 & n1 & n2 & Hc & Hli & Hn & Hni & Hd1 & Hd2 & ->).
    unfold uncrossed.
    apply (uncrossed_levels s); [done|..]; intros l';
      destruct (cancel_found_chains id b s li ni c1 c2 l Hc)
        as [(_ & H1 & _ & H2)|(_ & H1 & _ & H2)]; rewrite ?H1, ?H2;
      try apply unlink_levels; intros ?; by exists l'.
  - rewrite (cancel_not_resting id b s); [done..|]. by intros [_ ?].
Qed.

Lemma reachable_uncrossed s : reachable s → uncrossed s.
Proof.
  induction 1 as [|c s Hr IH Hc].
  { intros lb la Hlb. by apply elem_of_nil in Hlb. }
  pose proof (reachable_Inv s Hr) as Hinv. destruct c.
  - rewrite main_step_ORDER_snd. destruct Hc as (_ & ? & ? & _).
    by apply execute_order_uncrossed.
  - cbn [main_step]. by destruct (known_order id s).
  - cbn [main_step]. by destruct (AllAccounts s !! id).
  - rewrite main_step_CANCEL_snd. destruct (known_order id s) eqn:Hk; [|done].
    apply cancel_order_by_id_uncrossed; [done| |done]. by apply known_order_stored.
  - done.
  - done.
Qed.

(** X7: between two commands the book is never crossed or locked: every
    bid level is priced strictly below every ask level; in particular the
    best bid is below the best ask. *)
Theorem book_never_crossed (s : State) (lb la : LEVEL) :
  reachable s → lb ∈ FirstBidLevel s → la ∈ FirstAskLevel s →
  l_price lb < l_price la.
Proof. intros Hr. by apply reachable_uncrossed. Qed.

(** In [example_two_sided] the bid at 5000 is below the ask at 5100. *)
Lemma book_never_crossed_witness :
  l_price {| l_price := 5000; l_nodes := [0] |}
  < l_price {| l_price := 5100; l_nodes := [1] |}.
Proof.
  apply (book_never_crossed example_two_sided).
  - apply reachable_run_commands; [constructor|].
    repeat constructor; vm_compute; done.
  - assert (FirstBidLevel example_two_sided = [{| l_price := 5000; l_nodes := [0] |}])
      as -> by (vm_compute; reflexivity).
    by left.
  - assert (FirstAskLevel example_two_sided = [{| l_price := 5100; l_nodes := [1] |}])
      as -> by (vm_compute; reflexivity).
    by left.
Defined.
(** ** The quote agrees with the book *)

Lemma get_size_from_level_ext_nodes s s' level :
  (∀ n, n ∈ nodes_of level → deref s' n = deref s n) →
  get_size_from_level s' level = get_size_from_level s level.
Proof.
  intros Hn. destruct level as [|l next]; [done|]. cbn [get_size_from_level].
  assert (Hl : ∀ n, n ∈ l_nodes l → deref s' n = deref s n).
  { intros n Hin. apply Hn. rewrite nodes_of_cons. apply elem_of_app. by left. }
  clear Hn. generalize 0. induction (l_nodes l) as [|n nodes IH]; intros acc; [done|].
  cbn [fold_left]. rewrite Hl by (by left). apply IH. intros m Hm. apply Hl. by right.
Qed.

Lemma get_depth_ext_nodes s s' level :
  (∀ n, n ∈ nodes_of level → deref s' n = deref s n) →
  get_depth s' level = get_depth s level.
Proof.
  unfold get_depth. generalize 0.
  induction level as [|l next IH]; intros acc Hn; [done|].
  cbn [get_depth_from]. rewrite (get_size_from_level_ext_nodes s s') by done.
  apply IH. intros n Hin. apply Hn. rewrite nodes_of_cons. apply elem_of_app. by right.
Qed.

Lemma quote_fresh_ext_nodes s s' :
  FirstBidLevel s' = FirstBidLevel s → FirstAskLevel s' = FirstAskLevel s →
  Quote s' = Quote s → (∀ n, resting s n → deref s' n = deref s n) →
  quote_fresh s → quote_fresh s'.
Proof.
  intros Hb Ha Hq Hn. unfold quote_fresh. rewrite Hq, Hb, Ha.
  rewrite !(get_size_from_level_ext_nodes s s'), !(get_depth_ext_nodes s s');
    try done; intros n Hin; apply Hn; ((by left) || (by right)).
Qed.

(** A run over a queue that is not empty fills something. *)
Lemma match_queue_cons_fills n queue order s b :
  Inv_base s → AllOrders s !! order = Some b → o_open b = true →
  order ∉ n :: queue → NoDup (n :: queue) →
  Forall (λ m, ∃ a, AllOrders s !! m = Some a ∧ o_open a = true ∧ crossable a b)
         (n :: queue) →
  o_totalFilled b < o_totalFilled (deref (match_queue (n :: queue) order s) order).
Proof.
  intros Hinv Hb Hopen Hnotin Hnd Hq. cbn [match_queue].
  apply not_elem_of_cons in Hnotin as [Hne Hnotin].
  apply NoDup_cons in Hnd as [Hn Hnd].
  apply Forall_cons in Hq as [(a & Ha & Hao & Hg) Hq].
  assert (Hne' : n ≠ order) by congruence.
  pose proof (cross_Inv_base n order a b s Hne' Ha Hb Hinv) as Hinv1.
  pose proof (cross_lookup_incoming n order a b s Hne' Ha Hb) as Hb1.
  assert (Hwa : order_wf a) by (by destruct (inv_orders s Hinv _ _ Ha)).
  assert (Hwb : order_wf b) by (by destruct (inv_orders s Hinv _ _ Hb)).
  pose proof (fill_of_bounds a b (clock s) Hwa Hwb) as (Hq1 & Hq2 & _).
  pose proof (fill_of_qty a b (clock s)) as Hqty.
  pose proof (order_wf_open_qty a Hwa Hao). pose proof (order_wf_open_qty b Hwb Hopen).
  assert (Htf1 : o_totalFilled b
                 < o_totalFilled (fill_order (fill_of a b (clock s)) b)).
  { rewrite fill_order_exact by (done || lia). cbn [o_totalFilled]. lia. }
  rewrite (deref_lookup _ _ _ Hb1).
  destruct (o_open (fill_order _ b)) eqn:Hob; [|by rewrite (deref_lookup _ _ _ Hb1)].
  destruct (match_queue_evolves (λ _ _, True)
              (λ o o', o_totalFilled o <= o_totalFilled o') crossable
              (λ _, I) (λ o, Z.le_refl (o_totalFilled o))
              (λ o1 o2 o3 H1 H2, Z.le_trans _ _ _ H1 H2) crossable_static)
    with (queue := queue) (order := order) (s := cross n order s)
         (b := fill_order (fill_of a b (clock s)) b) (k := order)
         (o := fill_order (fill_of a b (clock s)) b)
    as (o' & Ho' & HR); try done.
  - intros a0 b0 ts Hwa0 Hwb0 _ _ _. split; [done|].
    pose proof (fill_of_bounds a0 b0 ts Hwa0 Hwb0) as (? & ? & _).
    rewrite fill_order_exact by (done || lia). cbn [o_totalFilled]. lia.
  - apply Forall_forall. intros m Hm. rewrite Forall_forall in Hq.
    destruct (Hq m Hm) as (am & Ham & Hamo & Hgm).
    assert (m ≠ n) by (by intros ->). assert (m ≠ order) by (by intros ->).
    exists am. rewrite (cross_lookup_other n order a b) by done.
    split_and!; done.
  - rewrite decide_True in HR by done. rewrite (deref_lookup _ _ _ Ho'). lia.
Qed.

Lemma ticker_condition order b2 s2 :
  AllOrders s2 !! order = Some b2 →
  let s5 := resting_stage order (market_price_stage order (cleanup_stage order s2)) in
  o_totalFilled (deref s5 order) = o_totalFilled b2
  ∧ o_orderType (deref s5 order) = o_orderType b2.
Proof.
  intros Hb2 s5.
  assert (Hall : AllOrders (finish order s2) = AllOrders s5).
  { unfold finish. fold s5. unfold ticker_stage. by destruct (decide (_ ∨ _)). }
  destruct (decide (o_orderType b2 = 1)) as [Hl|Hl].
  - rewrite (finish_limit_AllOrders order b2 s2 Hb2 Hl) in Hall.
    rewrite (deref_lookup s5 order b2); [done|]. by rewrite <- Hall.
  - rewrite (finish_nonlimit_AllOrders order b2 s2 Hb2 Hl) in Hall.
    rewrite (deref_lookup s5 order (finish_record b2));
      [|by rewrite <- Hall, lookup_insert_eq].
    by destruct (finish_record_static b2) as (-> & _ & -> & _).
Qed.

Lemma finish_fresh order b2 s2 :
  AllOrders s2 !! order = Some b2 →
  o_totalFilled b2 ≠ 0 ∨ o_orderType b2 = LIMIT →
  quote_fresh (finish order s2).
Proof.
  intros Hb2 Hc. destruct (ticker_condition order b2 s2 Hb2) as [Htf Ht].
  unfold finish, ticker_stage. rewrite Htf, Ht. rewrite decide_True by done.
  apply create_ticker_message_fresh, remake_most_of_quote_fresh.
Qed.

Lemma execute_order_quote_fresh account_name account_int qty price direction orderType s :
  Inv s → is_int32 qty → is_int32 price → quote_fresh s →
  quote_fresh (snd (execute_order account_name account_int qty price direction
                      orderType s)).
Proof.
  intros Hinv Hqty Hprice Hfresh.
  destruct (validation s account_int qty price direction) as [e|] eqn:Hv.
  { by rewrite (execute_order_rejected _ _ _ _ _ _ _ e). }
  rewrite (accepted_finish _ _ _ _ _ _ _ Hv).
  destruct (accepted_new_record account_name account_int qty price direction
              orderType s Hinv Hv Hqty Hprice (λ _ _, True) ltac:(done) ltac:(done)
              ltac:(done)) as (b2 & Hb2 & _ & Hst & Hwf2 & _).
  destruct (decide (o_totalFilled b2 ≠ 0 ∨ o_orderType b2 = 1)) as [Hc|Hc].
  { by apply (finish_fresh _ b2). }
  assert (Htf : o_totalFilled b2 = 0) by (destruct (decide (o_totalFilled b2 = 0)); tauto).
  assert (Hl : o_orderType b2 ≠ 1) by tauto.
  destruct (accepted_matching_queue_facts account_name account_int qty price
              direction orderType s Hinv Hv Hqty Hprice) as (H1 & H2 & _ & H4 & _).
  pose proof (create_order_Inv account_name account_int qty price direction
                orderType s Hinv Hv Hqty Hprice) as Hinv1.
  pose proof (accepted_lookup account_name account_int qty price direction
                orderType s) as Hb1.
  destruct (create_order_frame account_name account_int qty price direction
              orderType s) as (Hfb1 & Hfa1 & Hq1 & _).
  destruct (create_order_not_in_book account_name account_int qty price direction
              orderType s Hinv) as [Hnb Hna].
  set (order := next_id_static s) in *.
  set (s1 := create_order account_name account_int qty price direction orderType s)
    in *.
  assert (Hs2 : matching_stage order s1 = s1).
  { rewrite matching_stage_match_queue in Hb2 |- *.
    destruct (matching_queue order s1) as [|n queue] eqn:Hqueue; [done|].
    pose proof (match_queue_cons_fills n queue order s1 _ (inv_base _ Hinv1) Hb1
                  ltac:(done) H1 H2 H4) as Hlt.
    rewrite (deref_lookup _ _ _ Hb2) in Hlt. cbn [o_totalFilled] in Hlt. lia. }
  rewrite Hs2 in *. rewrite Hb1 in Hb2. injection Hb2 as <-.
  destruct (finish_nonlimit_frame order _ s1 Hb1 Hl) as (Hfb & Hfa & _).
  destruct (cleanup_stage_all_open order s1 Hinv1) as [Hcb Hca].
  destruct (finish_nonlimit_quiet order _ s1 Hb1 Hl Htf) as [Hq _].
  apply (quote_fresh_ext_nodes s); [congruence|congruence|congruence| |done].
  intros n Hn. apply deref_same_lookup.
  rewrite (finish_nonlimit_AllOrders order _ s1 Hb1 Hl).
  assert (n ≠ order).
  { intros ->. unfold resting in Hn. rewrite <- Hfb1, <- Hfa1 in Hn. tauto. }
  rewrite lookup_insert_ne by done.
  by apply (create_order_lookup_old account_name account_int qty price direction
              orderType s).
Qed.

Lemma cancel_order_by_id_quote_fresh id s :
  Inv s → is_Some (AllOrders s !! id) → quote_fresh s →
  quote_fresh (cancel_order_by_id id s).
Proof.
  intros Hinv [b Hb] Hfresh.
  destruct (resting_dec s id) as [Hr|Hr].
  - destruct (cancel_resting id b s Hinv Hb Hr)
      as (_ & li & ni & c1 & l & c2 & n1 & n2 & Hc & Hli & Hn & Hni & Hd1 & Hd2 & ->).
    by destruct (cancel_found_frame id b s li ni) as (_&_&_&_&_&_&_&_&?).
  - rewrite (cancel_not_resting id b s); [done..|]. by intros [_ ?].
Qed.

Lemma reachable_quote_fresh s : reachable s → quote_fresh s.
Proof.
  induction 1 as [|c s Hr IH Hc]; [by unfold quote_fresh|].
  pose proof (reachable_Inv s Hr) as Hinv. destruct c.
  - rewrite main_step_ORDER_snd. destruct Hc as (_ & ? & ? & _).
    by apply execute_order_quote_fresh.
  - cbn [main_step]. by destruct (known_order id s).
  - cbn [main_step]. by destruct (AllAccounts s !! id).
  - rewrite main_step_CANCEL_snd. destruct (known_order id s) eqn:Hk; [|done].
    apply cancel_order_by_id_quote_fresh; [done| |done]. by apply known_order_stored.
  - done.
  - by apply (quote_fresh_ext s).
Qed.
(** ** Sizes and depths are exact sums *)

Lemma NoDup_length_bound (l : list Z) (N : Z) :
  0 <= N → NoDup l → (∀ x, x ∈ l → 0 <= x < N) → Z.of_nat (length l) <= N.
Proof.
  intros HN Hnd Hl.
  assert (Hsub : l ⊆+ seqZ 0 N).
  { apply NoDup_submseteq; [done|]. intros x Hx. apply elem_of_seqZ.
    specialize (Hl x Hx). lia. }
  apply submseteq_length in Hsub. rewrite length_seqZ in Hsub.
  lia.
Qed.

Lemma total_qty_cons s n nodes :
  total_qty s (n :: nodes) = o_qty (deref s n) + total_qty s nodes.
Proof. done. Qed.

Lemma total_qty_app s q1 q2 : total_qty s (q1 ++ q2) = total_qty s q1 + total_qty s q2.
Proof.
  induction q1 as [|n q1 IH]; [done|].
  cbn [app]. rewrite !total_qty_cons, IH. lia.
Qed.

Lemma total_qty_bounds s nodes :
  Forall (λ n, 0 <= o_qty (deref s n) <= 2147483647) nodes →
  0 <= total_qty s nodes <= Z.of_nat (length nodes) * 2147483647.
Proof.
  induction 1 as [|n nodes Hn _ IH]; [done|].
  rewrite total_qty_cons. cbn [length]. lia.
Qed.

Lemma fold_size_exact s nodes : ∀ acc,
  Forall (λ n, 0 <= o_qty (deref s n) <= 2147483647) nodes →
  0 <= acc →
  acc + Z.of_nat (length nodes) * 2147483647 <= 9223372036854775807 →
  fold_left (λ ret ordernode, wrap64 (ret + o_qty (deref s ordernode))) nodes acc
  = acc + total_qty s nodes.
Proof.
  induction nodes as [|n nodes IH]; intros acc Hall Hacc Hb.
  { cbn. lia. }
  apply Forall_cons in Hall as [Hn Hall]. cbn [fold_left length] in *.
  rewrite wrap64_id by lia. rewrite IH by (done || lia).
  rewrite total_qty_cons. lia.
Qed.

Lemma get_depth_from_exact s chain : ∀ acc,
  Forall (λ n, 0 <= o_qty (deref s n) <= 2147483647) (nodes_of chain) →
  0 <= acc →
  acc + Z.of_nat (length (nodes_of chain)) * 2147483647 <= 9223372036854775807 →
  get_depth_from s acc chain = acc + total_qty s (nodes_of chain).
Proof.
  induction chain as [|l chain IH]; intros acc Hall Hacc Hb.
  { cbn. lia. }
  rewrite nodes_of_cons in *. rewrite length_app in Hb.
  apply Forall_app in Hall as [Hl Hall].
  pose proof (total_qty_bounds s _ Hl).
  cbn [get_depth_from get_size_from_level].
  rewrite fold_size_exact by (done || lia).
  rewrite wrap64_id by lia. rewrite IH by (done || lia).
  rewrite total_qty_app. lia.
Qed.

Lemma book_side_bounds s side R chain :
  Inv_base s → chain_wf s side R chain →
  (∀ n, n ∈ nodes_of chain → resting s n) →
  Forall (λ n, 0 <= o_qty (deref s n) <= 2147483647) (nodes_of chain)
  ∧ Z.of_nat (length (nodes_of chain)) <= 2000000000.
Proof.
  intros Hinv (_ & _ & Hnd) Hrest. split.
  - apply Forall_forall. intros n Hn.
    destruct (book_nodes_stored s n Hinv (Hrest n Hn)) as [o Ho].
    rewrite (deref_lookup _ _ _ Ho). apply order_wf_qty_bounds.
    by destruct (inv_orders s Hinv n o Ho).
  - apply NoDup_length_bound; [lia|done|]. intros n Hn.
    destruct (book_nodes_stored s n Hinv (Hrest n Hn)) as [o Ho].
    destruct (inv_orders s Hinv n o Ho) as (_ & _ & ? & _).
    pose proof (inv_counter s Hinv). lia.
Qed.

Lemma book_side_exact s side R chain :
  Inv_base s → chain_wf s side R chain →
  (∀ n, n ∈ nodes_of chain → resting s n) →
  get_size_from_level s chain
  = total_qty s (match chain with l :: _ => l_nodes l | [] => [] end)
  ∧ get_depth s chain = total_qty s (nodes_of chain).
Proof.
  intros Hinv Hwf Hrest.
  destruct (book_side_bounds s side R chain Hinv Hwf Hrest) as [Hq Hlen].
  split.
  - destruct chain as [|l chain]; [done|]. cbn [get_size_from_level].
    rewrite nodes_of_cons in Hq, Hlen. rewrite length_app in Hlen.
    apply Forall_app in Hq as [Hq _].
    rewrite fold_size_exact by (done || lia). lia.
  - unfold get_depth. rewrite get_depth_from_exact by (done || lia). lia.
Qed.

(** X8: between two commands the quote agrees with the book: bid and ask
    are the prices of the best levels (-1 for an empty side), bidSize and
    askSize are the total qty resting at the best level and bidDepth and
    askDepth the total qty resting on the side; the 64-bit sums of
    [get_size_from_level] and [get_depth] never wrap. *)
Theorem quote_agrees_with_book (s : State) :
  reachable s →
  q_bid (Quote s) = match FirstBidLevel s with l :: _ => l_price l | [] => -1 end
  ∧ q_ask (Quote s) = match FirstAskLevel s with l :: _ => l_price l | [] => -1 end
  ∧ q_bidSize (Quote s)
    = total_qty s (match FirstBidLevel s with l :: _ => l_nodes l | [] => [] end)
  ∧ q_askSize (Quote s)
    = total_qty s (match FirstAskLevel s with l :: _ => l_nodes l | [] => [] end)
  ∧ q_bidDepth (Quote s) = total_qty s (nodes_of (FirstBidLevel s))
  ∧ q_askDepth (Quote s) = total_qty s (nodes_of (FirstAskLevel s)).
Proof.
  intros Hr. pose proof (reachable_Inv s Hr) as [Hbase _ _].
  destruct (reachable_quote_fresh s Hr) as (H1 & H2 & H3 & H4 & H5 & H6).
  destruct (book_side_exact s 1 Z.gt (FirstBidLevel s) Hbase (inv_bids s Hbase))
    as [Hb1 Hb2]; [by left|].
  destruct (book_side_exact s 2 Z.lt (FirstAskLevel s) Hbase (inv_asks s Hbase))
    as [Ha1 Ha2]; [by right|].
  split_and!; congruence.
Qed.

(** After the trade of [example_traded] 30 shares are bid at 5000 and 40 on
    the whole bid side. *)
Lemma quote_agrees_with_book_witness :
  q_bid (Quote example_traded) = 5000
  ∧ q_bidSize (Quote example_traded) = 30
  ∧ q_bidDepth (Quote example_traded) = 40.
Proof.
  destruct (quote_agrees_with_book example_traded example_traded_reachable)
    as (H1 & _ & H3 & _ & H5 & _).
  rewrite H1, H3, H5. clear. vm_compute. repeat split.
Defined.
(** ** Order ids *)

Lemma accepted_counter account_name account_int qty price direction orderType s :
  Inv s → validation s account_int qty price direction = None →
  is_int32 qty → is_int32 price →
  let s' := snd (execute_order account_name account_int qty price direction
                   orderType s) in
  next_id_static s' = next_id_static s + 1
  ∧ HighestKnownOrder s' = next_id_static s.
Proof.
  intros Hinv Hv Hqty Hprice. cbv zeta.
  rewrite (accepted_finish _ _ _ _ _ _ _ Hv).
  destruct (finish_counter (next_id_static s)
              (matching_stage (next_id_static s)
                 (create_order account_name account_int qty price direction
                    orderType s))) as (-> & -> & _).
  rewrite matching_stage_match_queue.
  destruct (accepted_matching_queue_facts account_name account_int qty price
              direction orderType s Hinv Hv Hqty Hprice) as (H1 & _ & H3 & _).
  pose proof (create_order_Inv account_name account_int qty price direction
                orderType s Hinv Hv Hqty Hprice) as Hinv1.
  pose proof (accepted_lookup account_name account_int qty price direction
                orderType s) as Hb1.
  destruct (match_queue_Inv_base _ _ _ _ (inv_base _ Hinv1) Hb1 H1 H3)
    as (_ & _ & _ & _ & -> & -> & _).
  destruct (create_order_frame account_name account_int qty price direction
              orderType s) as (_ & _ & _ & _ & _ & ->).
  split; [|done].
  by apply create_order_next_id_static.
Qed.

Lemma execute_order_dense account_name account_int qty price direction orderType s :
  Inv s → is_int32 qty → is_int32 price →
  (∀ k, is_Some (AllOrders s !! k) ↔ 0 <= k < next_id_static s) →
  HighestKnownOrder s = next_id_static s - 1 →
  let s' := snd (execute_order account_name account_int qty price direction
                   orderType s) in
  (∀ k, is_Some (AllOrders s' !! k) ↔ 0 <= k < next_id_static s')
  ∧ HighestKnownOrder s' = next_id_static s' - 1.
Proof.
  intros Hinv Hqty Hprice Hkeys Hhigh. cbv zeta.
  destruct (validation s account_int qty price direction) as [e|] eqn:Hv.
  { by rewrite (execute_order_rejected _ _ _ _ _ _ _ e). }
  destruct (accepted_counter account_name account_int qty price direction orderType s
              Hinv Hv Hqty Hprice) as [Hn Hh].
  rewrite Hn, Hh. split; [|lia].
  pose proof (inv_counter s (inv_base s Hinv)).
  intros k. split.
  - intros Hk.
    destruct (execute_order_keys account_name account_int qty price direction
                orderType s k Hinv Hqty Hprice Hk) as [Hs|[-> _]]; [|lia].
    apply Hkeys in Hs. lia.
  - intros Hk. destruct (decide (k = next_id_static s)) as [->|Hne].
    + rewrite (accepted_finish _ _ _ _ _ _ _ Hv).
      destruct (accepted_new_record account_name account_int qty price direction
                  orderType s Hinv Hv Hqty Hprice (λ _ _, True) ltac:(done)
                  ltac:(done) ltac:(done)) as (b2 & _ & _ & _ & _ & ->).
      by eexists.
    + destruct (proj2 (Hkeys k) ltac:(lia)) as [o Ho].
      destruct (execute_order_same_type account_name account_int qty price direction
                  orderType s Hinv Hqty Hprice k o Ho) as (o' & -> & _).
      by eexists.
Qed.

Lemma cancel_order_by_id_dense id s :
  Inv s → is_Some (AllOrders s !! id) →
  (∀ k, is_Some (AllOrders (cancel_order_by_id id s) !! k)
        ↔ is_Some (AllOrders s !! k))
  ∧ next_id_static (cancel_order_by_id id s) = next_id_static s
  ∧ HighestKnownOrder (cancel_order_by_id id s) = HighestKnownOrder s.
Proof.
  intros Hinv [b Hb].
  destruct (resting_dec s id) as [Hr|Hr].
  - destruct (cancel_resting id b s Hinv Hb Hr)
      as (_ & li & ni & c1 & l & c2 & n1 & n2 & Hc & Hli & Hn & Hni & Hd1 & Hd2 & ->).
    destruct (cancel_found_frame id b s li ni) as (Hall & _ & Hnext & Hhigh & _).
    split; [|done]. intros k. rewrite Hall, lookup_alter.
    destruct (decide (id = k)) as [->|]; [|done].
    rewrite Hb. cbn. split; by eexists.
  - rewrite (cancel_not_resting id b s); [done..|]. by intros [_ ?].
Qed.

Lemma reachable_dense s :
  reachable s →
  (∀ k, is_Some (AllOrders s !! k) ↔ 0 <= k < next_id_static s)
  ∧ HighestKnownOrder s = next_id_static s - 1.
Proof.
  induction 1 as [|c s Hr [IH1 IH2] Hc].
  { split; [|done]. intros k. cbn. rewrite lookup_empty. split; [by intros [? ?]|lia]. }
  pose proof (reachable_Inv s Hr) as Hinv. destruct c.
  - rewrite main_step_ORDER_snd. destruct Hc as (_ & ? & ? & _).
    by apply execute_order_dense.
  - cbn [main_step]. by destruct (known_order id s).
  - cbn [main_step]. by destruct (AllAccounts s !! id).
  - rewrite main_step_CANCEL_snd. destruct (known_order id s) eqn:Hk; [|done].
    destruct (cancel_order_by_id_dense id s Hinv (known_order_stored id s Hk))
      as (Hkeys & -> & ->).
    split; [|done]. intros k. by rewrite Hkeys.
  - done.
  - done.
Qed.

(** X9: between two commands the stored orders are exactly the ids from 0
    up to the id counter, without a gap; HighestKnownOrder is the counter
    minus one, the counter never exceeds 2_000_000_000, the test of STATUS and
    CANCEL accepts exactly these ids, and the order stored under an id
    carries that id. *)
Theorem order_ids_are_dense (s : State) (id : Z) :
  reachable s →
  (is_Some (AllOrders s !! id) ↔ 0 <= id < next_id_static s)
  ∧ (known_order id s = true ↔ 0 <= id < next_id_static s)
  ∧ HighestKnownOrder s = next_id_static s - 1
  ∧ 0 <= next_id_static s <= MAXORDERS
  ∧ (∀ o, AllOrders s !! id = Some o → o_id o = id).
Proof.
  intros Hr. destruct (reachable_dense s Hr) as [Hkeys Hhigh].
  pose proof (reachable_Inv s Hr) as [Hbase _ _].
  split; [done|]. split; [|split; [done|split]].
  - unfold known_order. rewrite negb_true_iff, !orb_false_iff, !bool_decide_eq_false.
    rewrite Hhigh. split.
    + intros [[? ?] Hsome]. lia.
    + intros Hid. split; [lia|]. apply Hkeys in Hid. destruct Hid as [o Ho].
      by rewrite Ho.
  - apply (inv_counter s Hbase).
  - intros o Ho. by destruct (inv_orders s Hbase id o Ho) as (_ & ? & _).
Qed.

Lemma order_ids_are_dense_witness :
  known_order 2 example_bids = true ∧ known_order 3 example_bids = false.
Proof.
  split.
  - apply (order_ids_are_dense example_bids 2 example_bids_reachable).
    vm_compute. split; [discriminate|reflexivity].
  - apply not_true_is_false. intros H.
    apply (order_ids_are_dense example_bids 3 example_bids_reachable) in H.
    revert H. vm_compute. intros [_ H]. discriminate.
Defined.

Lemma finish_record_id o :
  o_id (finish_record o) = o_id o ∧ o_account (finish_record o) = o_account o
  ∧ o_ts (finish_record o) = o_ts o.
Proof.
  unfold finish_record. cbv zeta.
  destruct (decide _); cbn [o_open set_price]; destruct (o_open o); by order_simpl.
Qed.

(** X10: an accepted ORDER gets the current value of the id counter as its
    id and advances the counter by one; a rejected ORDER leaves the counter
    alone. *)
Theorem order_ids_are_consecutive
    (account_name : string) (account_int qty price direction orderType : Z)
    (s : State) :
  reachable s →
  valid_command (ORDER_CMD account_name account_int qty price direction orderType) →
  let r := execute_order account_name account_int qty price direction orderType s in
  match oe_order (fst r) with
  | Some id => oe_error (fst r) = 0 ∧ id = next_id_static s
               ∧ next_id_static (snd r) = id + 1
               ∧ ∃ o, AllOrders (snd r) !! id = Some o ∧ o_id o = id
                      ∧ o_originalQty o = qty ∧ o_direction o = direction
                      ∧ o_orderType o = orderType ∧ o_account o = account_int
  | None => oe_error (fst r) ≠ 0 ∧ snd r = s
  end.
Proof.
  intros Hr (_ & Hqty & Hprice & _). cbv zeta.
  pose proof (reachable_Inv s Hr) as Hinv.
  destruct (validation s account_int qty price direction) as [e|] eqn:Hv.
  { rewrite (execute_order_rejected _ _ _ _ _ _ _ e) by done. cbn. split; [|done].
    unfold validation in Hv. repeat case_decide; congruence. }
  destruct (accepted_counter account_name account_int qty price direction orderType s
              Hinv Hv Hqty Hprice) as [Hn _].
  destruct (accepted_new_record account_name account_int qty price direction
              orderType s Hinv Hv Hqty Hprice (λ _ _, True) ltac:(done)
              ltac:(done) ltac:(done)) as (b2 & _ & _ & Hst & _ & Hnew).
  rewrite <- (accepted_finish _ _ _ _ _ _ _ Hv) in Hnew.
  assert (Hfst : fst (execute_order account_name account_int qty price direction
                        orderType s)
                 = {| oe_order := Some (next_id_static s); oe_error := 0 |}).
  { by rewrite (execute_order_accepted _ _ _ _ _ _ _ Hv). }
  rewrite Hfst. cbn [oe_order oe_error].
  split; [done|]. split; [done|]. split; [exact Hn|].
  eexists. split; [exact Hnew|].
  destruct Hst as (Hd & Hoq & _ & Ht & Hid & Hacc & _). cbn in Hd, Hoq, Ht, Hid, Hacc.
  destruct (decide (orderType = 1)).
  - split_and!; congruence.
  - destruct (finish_record_static b2) as (-> & -> & _ & _ & ->).
    destruct (finish_record_id b2) as (-> & -> & _).
    split_and!; congruence.
Qed.

(** The sell of 70 at 4950 on [example_bids], where three orders are
    stored. *)
Lemma order_ids_are_consecutive_witness :
  let r := execute_order "C" 2 70 4950 SELL LIMIT example_bids in
  match oe_order (fst r) with
  | Some id => oe_error (fst r) = 0 ∧ id = next_id_static example_bids
               ∧ next_id_static (snd r) = id + 1
               ∧ ∃ o, AllOrders (snd r) !! id = Some o ∧ o_id o = id
                      ∧ o_originalQty o = 70 ∧ o_direction o = SELL
                      ∧ o_orderType o = LIMIT ∧ o_account o = 2
  | None => oe_error (fst r) ≠ 0 ∧ snd r = example_bids
  end.
Proof.
  apply (order_ids_are_consecutive "C" 2 70 4950 2 1 example_bids).
  - apply example_bids_reachable.
  - vm_compute. repeat split; discriminate.
Defined.
(** ** The account table over time *)

Lemma create_order_accounts account_name account_int qty price direction orderType s :
  AllAccounts (create_order account_name account_int qty price direction orderType s)
  = alter (λ a, {| a_name := a_name a;
                   a_orders := a_orders a ++ [next_id_static s];
                   a_posmin := a_posmin a; a_posmax := a_posmax a;
                   a_shares := a_shares a; a_cents := a_cents a |})
      account_int
      (match AllAccounts s !! account_int with
       | None => <[account_int := init_account account_name]> (AllAccounts s)
       | Some _ => AllAccounts s
       end).
Proof.
  unfold create_order, account_lookup_or_create.
  by destruct (AllAccounts s !! account_int).
Qed.

Section account_evolution.
Context (R : ACCOUNT → ACCOUNT → Prop).
Hypothesis R_refl : ∀ a, R a a.
Hypothesis R_trans : ∀ a1 a2 a3, R a1 a2 → R a2 a3 → R a1 a3.
Hypothesis R_update : ∀ a quantity price direction,
  account_ok a → 0 <= quantity <= INT_MAX → 0 <= price <= INT_MAX →
  R a (update_account a quantity price direction).
Hypothesis R_add : ∀ a order,
  R a {| a_name := a_name a; a_orders := a_orders a ++ [order];
         a_posmin := a_posmin a; a_posmax := a_posmax a;
         a_shares := a_shares a; a_cents := a_cents a |}.

Lemma settle_evolves a b fill accounts k x :
  map_Forall (λ _, account_ok) accounts →
  0 <= f_qty fill <= 2147483647 → 0 <= f_price fill <= 2147483647 →
  accounts !! k = Some x →
  ∃ x', settle a b fill accounts !! k = Some x' ∧ R x x'.
Proof.
  intros Hok Hq Hp Hx.
  assert (Hstep : ∀ (m : gmap Z ACCOUNT) d j,
    map_Forall (λ _, account_ok) m →
    (∃ y, m !! k = Some y ∧ R x y) →
    map_Forall (λ _, account_ok)
      (alter (λ a0, update_account a0 (f_qty fill) (f_price fill) d) j m)
    ∧ ∃ y, alter (λ a0, update_account a0 (f_qty fill) (f_price fill) d) j m !! k
           = Some y ∧ R x y).
  { intros m d j Hm (y & Hy & HR). split.
    - intros i z. rewrite lookup_alter. destruct (decide (j = i)) as [->|]; [|apply Hm].
      destruct (m !! i) as [w|] eqn:Hw; [|done]. cbn. intros [= <-].
      apply update_account_ok; [by eapply Hm|lia|lia].
    - rewrite lookup_alter. destruct (decide (j = k)) as [->|]; [|by exists y].
      rewrite Hy. cbn. eexists. split; [done|].
      eapply R_trans; [exact HR|]. apply R_update; [by eapply Hm|lia|lia]. }
  unfold settle. destruct (decide _); [|by exists x].
  destruct (decide _).
  - destruct (Hstep accounts 1 (o_account a) Hok ltac:(by exists x)) as [Hok1 H1].
    by destruct (Hstep _ 2 (o_account b) Hok1 H1).
  - destruct (Hstep accounts 2 (o_account a) Hok ltac:(by exists x)) as [Hok1 H1].
    by destruct (Hstep _ 1 (o_account b) Hok1 H1).
Qed.

Lemma match_queue_accounts_evolve queue order : ∀ s b,
  Inv_base s → AllOrders s !! order = Some b → order ∉ queue →
  Forall (λ n, is_Some (AllOrders s !! n)) queue →
  ∀ k x, AllAccounts s !! k = Some x →
         ∃ x', AllAccounts (match_queue queue order s) !! k = Some x' ∧ R x x'.
Proof.
  induction queue as [|n queue IH]; intros s b Hinv Hb Hnotin Hsome k x Hx;
    cbn [match_queue].
  { by exists x. }
  apply not_elem_of_cons in Hnotin as [Hne Hnotin].
  apply Forall_cons in Hsome as [[a Ha] Hsome].
  assert (Hne' : n ≠ order) by congruence.
  pose proof (cross_Inv_base n order a b s Hne' Ha Hb Hinv) as Hinv1.
  pose proof (cross_store_extends n order a b s Hne' Ha Hb) as Hext1.
  pose proof (cross_lookup_incoming n order a b s Hne' Ha Hb) as Hb1.
  assert (Hwa : order_wf a) by (by destruct (inv_orders s Hinv _ _ Ha)).
  assert (Hwb : order_wf b) by (by destruct (inv_orders s Hinv _ _ Hb)).
  pose proof (fill_of_bounds a b (clock s) Hwa Hwb) as (Hq1 & Hq2 & Hq3 & Hp).
  assert (H1 : ∃ x1, AllAccounts (cross n order s) !! k = Some x1 ∧ R x x1).
  { rewrite (cross_eq _ _ a b), cross_result_AllAccounts by done.
    apply settle_evolves; [apply (inv_accounts s Hinv)|lia|lia|done]. }
  destruct H1 as (x1 & Hx1 & HR1).
  destruct (o_open (deref (cross n order s) order)); [|by exists x1].
  assert (Hsome1 : Forall (λ n0, is_Some (AllOrders (cross n order s) !! n0)) queue).
  { eapply Forall_impl; [exact Hsome|]. intros m [o Ho].
    destruct (Hext1 m o Ho) as (o' & Ho' & _). by exists o'. }
  destruct (IH _ _ Hinv1 Hb1 Hnotin Hsome1 k x1 Hx1) as (x' & Hx' & HR').
  exists x'. split; [done|]. by eapply R_trans.
Qed.

Lemma execute_order_accounts_evolve
    account_name account_int qty price direction orderType s :
  Inv s → is_int32 qty → is_int32 price →
  ∀ k x, AllAccounts s !! k = Some x →
    ∃ x', AllAccounts (snd (execute_order account_name account_int qty price
                              direction orderType s)) !! k = Some x'
          ∧ R x x'.
Proof.
  intros Hinv Hqty Hprice k x Hx.
  destruct (validation s account_int qty price direction) as [e|] eqn:Hv.
  { rewrite (execute_order_rejected _ _ _ _ _ _ _ e) by done. by exists x. }
  rewrite (accepted_finish _ _ _ _ _ _ _ Hv).
  destruct (finish_counter (next_id_static s)
              (matching_stage (next_id_static s)
                 (create_order account_name account_int qty price direction
                    orderType s))) as (_ & _ & ->).
  rewrite matching_stage_match_queue.
  destruct (accepted_matching_queue_facts account_name account_int qty price
              direction orderType s Hinv Hv Hqty Hprice) as (H1 & _ & H3 & _).
  pose proof (create_order_Inv account_name account_int qty price direction
                orderType s Hinv Hv Hqty Hprice) as Hinv1.
  pose proof (accepted_lookup account_name account_int qty price direction
                orderType s) as Hb1.
  assert (Hx1 : ∃ x1, AllAccounts (create_order account_name account_int qty price
                                     direction orderType s) !! k = Some x1 ∧ R x x1).
  { rewrite create_order_accounts, lookup_alter.
    destruct (decide (account_int = k)) as [->|Hk].
    - rewrite Hx, Hx. cbn. eexists. split; [done|]. apply R_add.
    - destruct (AllAccounts s !! account_int);
        rewrite ?lookup_insert_ne by done; by exists x. }
  destruct Hx1 as (x1 & Hx1 & HR1).
  destruct (match_queue_accounts_evolve _ _ _ _ (inv_base _ Hinv1) Hb1 H1 H3 k x1 Hx1)
    as (x' & Hx' & HR').
  exists x'. split; [done|]. by eapply R_trans.
Qed.

Lemma cancel_order_by_id_accounts id s :
  Inv s → is_Some (AllOrders s !! id) →
  AllAccounts (cancel_order_by_id id s) = AllAccounts s.
Proof.
  intros Hinv [b Hb].
  destruct (resting_dec s id) as [Hr|Hr].
  - destruct (cancel_resting id b s Hinv Hb Hr)
      as (_ & li & ni & c1 & l & c2 & n1 & n2 & Hc & Hli & Hn & Hni & Hd1 & Hd2 & ->).
    by destruct (cancel_found_frame id b s li ni) as (_ & ? & _).
  - rewrite (cancel_not_resting id b s); [done..|]. by intros [_ ?].
Qed.

Lemma main_step_accounts_evolve c s :
  Inv s → valid_command c →
  ∀ k x, AllAccounts s !! k = Some x →
    ∃ x', AllAccounts (snd (main_step c s)) !! k = Some x' ∧ R x x'.
Proof.
  intros Hinv Hc k x Hx. destruct c.
  - rewrite main_step_ORDER_snd. destruct Hc as (_ & ? & ? & _).
    by apply execute_order_accounts_evolve.
  - cbn [main_step]. destruct (known_order id s); by exists x.
  - cbn [main_step]. destruct (AllAccounts s !! id); by exists x.
  - rewrite main_step_CANCEL_snd.
    destruct (known_order id s) eqn:Hk; [|by exists x].
    rewrite cancel_order_by_id_accounts; [by exists x|done|].
    by apply known_order_stored.
  - by exists x.
  - by exists x.
Qed.

Lemma run_commands_accounts_evolve cs : ∀ s,
  reachable s → Forall valid_command cs →
  ∀ k x, AllAccounts s !! k = Some x →
    ∃ x', AllAccounts (run_commands cs s) !! k = Some x' ∧ R x x'.
Proof.
  induction cs as [|c cs IH]; intros s Hr Hcs k x Hx; [by exists x|].
  apply Forall_cons in Hcs as [Hc Hcs]. cbn [run_commands fold_left].
  destruct (main_step_accounts_evolve c s (reachable_Inv s Hr) Hc k x Hx)
    as (x1 & Hx1 & HR1).
  destruct (IH (snd (main_step c s)) ltac:(by constructor) Hcs k x1 Hx1)
    as (x' & Hx' & HR').
  exists x'. split; [done|]. by eapply R_trans.
Qed.
End account_evolution.
Lemma update_account_posmin a quantity price direction :
  a_posmin (update_account a quantity price direction) <= a_posmin a
  ∧ a_posmax a <= a_posmax (update_account a quantity price direction).
Proof.
  unfold update_account. cbv zeta. cbn [a_posmin a_posmax].
  split; case_decide; lia.
Qed.

Lemma match_queue_accounts_None queue order : ∀ s b k,
  Inv_base s → AllOrders s !! order = Some b → order ∉ queue →
  Forall (λ n, is_Some (AllOrders s !! n)) queue →
  AllAccounts s !! k = None →
  AllAccounts (match_queue queue order s) !! k = None.
Proof.
  induction queue as [|n queue IH]; intros s b k Hinv Hb Hnotin Hsome Hk;
    cbn [match_queue]; [done|].
  apply not_elem_of_cons in Hnotin as [Hne Hnotin].
  apply Forall_cons in Hsome as [[a Ha] Hsome].
  assert (Hne' : n ≠ order) by congruence.
  pose proof (cross_Inv_base n order a b s Hne' Ha Hb Hinv) as Hinv1.
  pose proof (cross_store_extends n order a b s Hne' Ha Hb) as Hext1.
  pose proof (cross_lookup_incoming n order a b s Hne' Ha Hb) as Hb1.
  assert (H1 : AllAccounts (cross n order s) !! k = None).
  { rewrite (cross_eq _ _ a b), cross_result_AllAccounts by done.
    apply eq_None_not_Some. rewrite settle_is_Some, Hk. by intros [? ?]. }
  destruct (o_open (deref (cross n order s) order)); [|done].
  apply (IH _ _ _ Hinv1 Hb1 Hnotin); [|done].
  eapply Forall_impl; [exact Hsome|]. intros m [o Ho].
  destruct (Hext1 m o Ho) as (o' & Ho' & _). by exists o'.
Qed.

(** ** Properties of every account *)

Section reachable_accounts.
Context (P : ACCOUNT → Prop).
Hypothesis P_init : ∀ name, P (init_account name).
Hypothesis P_update : ∀ a quantity price direction,
  account_ok a → 0 <= quantity <= INT_MAX → 0 <= price <= INT_MAX →
  P a → P (update_account a quantity price direction).
Hypothesis P_add : ∀ a order,
  P a → P {| a_name := a_name a; a_orders := a_orders a ++ [order];
             a_posmin := a_posmin a; a_posmax := a_posmax a;
             a_shares := a_shares a; a_cents := a_cents a |}.

Lemma execute_order_accounts account_name account_int qty price direction orderType s :
  Inv s → is_int32 qty → is_int32 price →
  map_Forall (λ _, P) (AllAccounts s) →
  map_Forall (λ _, P)
    (AllAccounts (snd (execute_order account_name account_int qty price direction
                         orderType s))).
Proof.
  intros Hinv Hqty Hprice HP k x' Hx'.
  destruct (AllAccounts s !! k) as [x|] eqn:Hx.
  { destruct (execute_order_accounts_evolve (λ a1 a2, P a1 → P a2) (λ _ H, H)
                (λ _ _ _ H1 H2 H, H2 (H1 H)) P_update P_add
                account_name account_int qty price direction orderType s
                Hinv Hqty Hprice k x Hx) as (x'' & Hx'' & HR).
    assert (x'' = x') as -> by congruence. apply HR. by apply (HP k). }
  destruct (validation s account_int qty price direction) as [e|] eqn:Hv.
  { rewrite (execute_order_rejected _ _ _ _ _ _ _ e) in Hx' by done.
    cbn [snd] in Hx'. congruence. }
  rewrite (accepted_finish _ _ _ _ _ _ _ Hv) in Hx'.
  destruct (finish_counter (next_id_static s)
              (matching_stage (next_id_static s)
                 (create_order account_name account_int qty price direction
                    orderType s))) as (_ & _ & Hacc).
  rewrite Hacc, matching_stage_match_queue in Hx'. clear Hacc.
  destruct (accepted_matching_queue_facts account_name account_int qty price
              direction orderType s Hinv Hv Hqty Hprice) as (H1 & _ & H3 & _).
  pose proof (create_order_Inv account_name account_int qty price direction
                orderType s Hinv Hv Hqty Hprice) as Hinv1.
  pose proof (accepted_lookup account_name account_int qty price direction
                orderType s) as Hb1.
  destruct (AllAccounts (create_order account_name account_int qty price direction
                           orderType s) !! k) as [x1|] eqn:Hx1.
  - destruct (match_queue_accounts_evolve (λ a1 a2, P a1 → P a2) (λ _ H, H)
                (λ _ _ _ H1 H2 H, H2 (H1 H)) P_update
                _ _ _ _ (inv_base _ Hinv1) Hb1 H1 H3 k x1 Hx1) as (x'' & Hx'' & HR).
    assert (x'' = x') as -> by congruence. apply HR.
    rewrite create_order_accounts, lookup_alter in Hx1.
    destruct (decide (account_int = k)) as [->|Hk].
    + rewrite Hx, lookup_insert_eq in Hx1.
      cbn [fmap option_fmap option_map] in Hx1. apply (inj Some) in Hx1.
      rewrite <- Hx1. apply P_add, P_init.
    + destruct (AllAccounts s !! account_int);
        rewrite ?lookup_insert_ne in Hx1 by done; congruence.
  - rewrite (match_queue_accounts_None _ _ _ _ k (inv_base _ Hinv1) Hb1 H1 H3 Hx1)
      in Hx'. done.
Qed.

Lemma reachable_accounts s : reachable s → map_Forall (λ _, P) (AllAccounts s).
Proof.
  induction 1 as [|c s Hr IH Hc]; [apply map_Forall_empty|].
  pose proof (reachable_Inv s Hr) as Hinv. destruct c.
  - rewrite main_step_ORDER_snd. destruct Hc as (_ & ? & ? & _).
    by apply execute_order_accounts.
  - cbn [main_step]. by destruct (known_order id s).
  - cbn [main_step]. by destruct (AllAccounts s !! id).
  - rewrite main_step_CANCEL_snd. destruct (known_order id s) eqn:Hk; [|done].
    rewrite cancel_order_by_id_accounts; [done..|]. by apply known_order_stored.
  - done.
  - done.
Qed.
End reachable_accounts.

(** X11: between two commands the shares and cents of every account are
    within plus and minus 2_147_483_647, posmin and posmax bracket the
    shares, and posmin is never positive and posmax never negative (both
    start at 0). *)
Theorem ledger_stays_in_range (s : State) (k : Z) (a : ACCOUNT) :
  reachable s → AllAccounts s !! k = Some a →
  -2147483647 <= a_shares a <= 2147483647
  ∧ -2147483647 <= a_cents a <= 2147483647
  ∧ a_posmin a <= a_shares a <= a_posmax a
  ∧ a_posmin a <= 0 <= a_posmax a.
Proof.
  intros Hr Ha.
  pose proof (inv_accounts s (inv_base s (reachable_Inv s Hr)) k a Ha) as (?&?&?).
  split; [done|]. split; [done|]. split; [done|].
  refine (reachable_accounts (λ a, a_posmin a <= 0 <= a_posmax a) _ _ _ s Hr k a Ha).
  - done.
  - intros a0 q p d _ _ _ Hpos.
    pose proof (update_account_posmin a0 q p d). lia.
  - done.
Qed.

Lemma ledger_stays_in_range_witness :
  ∃ a, AllAccounts example_traded !! 2 = Some a
       ∧ a_posmin a <= a_shares a <= a_posmax a ∧ a_posmin a <= 0 <= a_posmax a.
Proof.
  eexists. split; [vm_compute; reflexivity|].
  refine (proj2 (proj2 (ledger_stays_in_range example_traded 2 _ _ _))).
  - apply example_traded_reachable.
  - vm_compute. reflexivity.
Defined.

Lemma account_evolves_refl a : account_evolves a a.
Proof. unfold account_evolves. split_and!; try done; lia. Qed.

Lemma account_evolves_trans a1 a2 a3 :
  account_evolves a1 a2 → account_evolves a2 a3 → account_evolves a1 a3.
Proof.
  intros (Hn1 & Hp1 & ? & ?) (Hn2 & Hp2 & ? & ?). unfold account_evolves.
  split_and!; [congruence|by etrans|lia|lia].
Qed.

(** X12: an account, once created, stays: whatever valid commands follow,
    its number still has an account with the same name (an ORDER that names
    the number with another name does not rename it), its list of orders is
    only appended to, posmin never goes up and posmax never goes down. *)
Theorem account_is_never_renamed
    (s : State) (cs : list COMMAND) (k : Z) (a : ACCOUNT) :
  reachable s → Forall valid_command cs → AllAccounts s !! k = Some a →
  ∃ a', AllAccounts (run_commands cs s) !! k = Some a'
        ∧ a_name a' = a_name a ∧ a_orders a `prefix_of` a_orders a'
        ∧ a_posmin a' <= a_posmin a ∧ a_posmax a <= a_posmax a'.
Proof.
  intros Hr Hcs Ha.
  refine (run_commands_accounts_evolve account_evolves account_evolves_refl
            account_evolves_trans _ _ cs s Hr Hcs k a Ha).
  - intros a0 q p d _ _ _. unfold account_evolves.
    pose proof (update_account_posmin a0 q p d). split_and!; try done; lia.
  - intros a0 order. unfold account_evolves. cbn. split_and!; try done; try lia.
    by apply prefix_app_r.
Qed.

(** Account number 0 of [example_bids] is named A; an ORDER that calls it Z
    leaves the name. *)
Lemma account_is_never_renamed_witness :
  ∃ a', AllAccounts (run_commands [ORDER_CMD "Z" 0 5 4000 BUY LIMIT] example_bids) !! 0
        = Some a' ∧ a_name a' = "A".
Proof.
  destruct (account_is_never_renamed example_bids [ORDER_CMD "Z" 0 5 4000 BUY LIMIT] 0
              {| a_name := "A"; a_orders := [0; 2]; a_posmin := 0; a_posmax := 0;
                 a_shares := 0; a_cents := 0 |})
    as (a' & Ha' & Hn & _).
  - apply example_bids_reachable.
  - repeat constructor; vm_compute; done.
  - vm_compute. reflexivity.
  - exists a'. split; [exact Ha'|exact Hn].
Defined.
(** ** The orders of an account *)

Lemma execute_order_a_orders account_name account_int qty price direction orderType s :
  Inv s → validation s account_int qty price direction = None →
  is_int32 qty → is_int32 price →
  ∀ k a', AllAccounts (snd (execute_order account_name account_int qty price
                              direction orderType s)) !! k = Some a' →
    a_orders a'
    = match AllAccounts s !! k with Some a => a_orders a | None => [] end
      ++ (if decide (k = account_int) then [next_id_static s] else []).
Proof.
  intros Hinv Hv Hqty Hprice k a' Ha'.
  rewrite (accepted_finish _ _ _ _ _ _ _ Hv) in Ha'.
  destruct (finish_counter (next_id_static s)
              (matching_stage (next_id_static s)
                 (create_order account_name account_int qty price direction
                    orderType s))) as (_ & _ & Hacc).
  rewrite Hacc, matching_stage_match_queue in Ha'. clear Hacc.
  destruct (accepted_matching_queue_facts account_name account_int qty price
              direction orderType s Hinv Hv Hqty Hprice) as (H1 & _ & H3 & _).
  pose proof (create_order_Inv account_name account_int qty price direction
                orderType s Hinv Hv Hqty Hprice) as Hinv1.
  pose proof (accepted_lookup account_name account_int qty price direction
                orderType s) as Hb1.
  destruct (AllAccounts (create_order account_name account_int qty price direction
                           orderType s) !! k) as [x1|] eqn:Hx1.
  - destruct (match_queue_accounts_evolve (λ a1 a2, a_orders a2 = a_orders a1)
                ltac:(done) ltac:(intros; congruence) ltac:(done)
                _ _ _ _ (inv_base _ Hinv1) Hb1 H1 H3 k x1 Hx1) as (x'' & Hx'' & HR).
    assert (x'' = a') as -> by congruence. rewrite HR.
    rewrite create_order_accounts, lookup_alter in Hx1.
    destruct (decide (account_int = k)) as [->|Hk].
    + rewrite decide_True by done.
      destruct (AllAccounts s !! k) as [a|] eqn:Ha.
      * rewrite Ha in Hx1. cbn [fmap option_fmap option_map] in Hx1.
        apply (inj Some) in Hx1. by rewrite <- Hx1.
      * rewrite lookup_insert_eq in Hx1. cbn [fmap option_fmap option_map] in Hx1.
        apply (inj Some) in Hx1. by rewrite <- Hx1.
    + rewrite decide_False by done. rewrite app_nil_r.
      destruct (AllAccounts s !! account_int);
        rewrite ?lookup_insert_ne in Hx1 by done; by rewrite Hx1.
  - rewrite (match_queue_accounts_None _ _ _ _ k (inv_base _ Hinv1) Hb1 H1 H3 Hx1)
      in Ha'. done.
Qed.

Lemma execute_order_order_accounts
    account_name account_int qty price direction orderType s id k :
  Inv s → validation s account_int qty price direction = None →
  is_int32 qty → is_int32 price →
  (∃ o', AllOrders (snd (execute_order account_name account_int qty price
                           direction orderType s)) !! id = Some o'
         ∧ o_account o' = k)
  ↔ (∃ o, AllOrders s !! id = Some o ∧ o_account o = k)
    ∨ (id = next_id_static s ∧ k = account_int).
Proof.
  intros Hinv Hv Hqty Hprice.
  assert (Hnew : ∃ o, AllOrders (snd (execute_order account_name account_int qty price
                                        direction orderType s)) !! next_id_static s
                      = Some o ∧ o_account o = account_int).
  { rewrite (accepted_finish _ _ _ _ _ _ _ Hv).
    destruct (accepted_new_record account_name account_int qty price direction
                orderType s Hinv Hv Hqty Hprice (λ _ _, True) ltac:(done)
                ltac:(done) ltac:(done)) as (b2 & _ & _ & Hst & _ & ->).
    destruct Hst as (_ & _ & _ & _ & _ & Hacc & _). cbn in Hacc.
    eexists. split; [done|].
    destruct (decide _); [done|]. by destruct (finish_record_id b2) as (_ & -> & _). }
  assert (Hold : ∀ o, AllOrders s !! id = Some o →
            ∃ o', AllOrders (snd (execute_order account_name account_int qty price
                                    direction orderType s)) !! id = Some o'
                  ∧ o_account o' = o_account o).
  { intros o Ho.
    destruct (execute_order_evolves (λ o1 o2, o_account o2 = o_account o1)
                ltac:(done) ltac:(done)
                account_name account_int qty price direction orderType s
                Hinv Hqty Hprice id o Ho) as (o' & Ho' & HR).
    by exists o'. }
  split.
  - intros (o' & Ho' & Hk).
    destruct (execute_order_keys account_name account_int qty price direction
                orderType s id Hinv Hqty Hprice ltac:(by eexists)) as [[o Ho]|[-> _]].
    + left. exists o. split; [done|].
      destruct (Hold o Ho) as (o'' & Ho'' & <-). congruence.
    + right. split; [done|]. destruct Hnew as (o & Ho & <-). congruence.
  - intros [(o & Ho & Hk)|[-> ->]]; [|done].
    destruct (Hold o Ho) as (o' & Ho' & Hacc). exists o'. split; [done|congruence].
Qed.

Lemma cancel_order_by_id_order_accounts id0 s id k :
  Inv s → is_Some (AllOrders s !! id0) →
  (∃ o', AllOrders (cancel_order_by_id id0 s) !! id = Some o' ∧ o_account o' = k)
  ↔ (∃ o, AllOrders s !! id = Some o ∧ o_account o = k).
Proof.
  intros Hinv [b Hb].
  destruct (resting_dec s id0) as [Hr|Hr].
  - destruct (cancel_resting id0 b s Hinv Hb Hr)
      as (_ & li & ni & c1 & l & c2 & n1 & n2 & Hc & Hli & Hn & Hni & Hd1 & Hd2 & ->).
    destruct (cancel_found_frame id0 b s li ni) as (Hall & _).
    rewrite Hall, lookup_alter.
    destruct (decide (id0 = id)) as [->|]; [|done].
    rewrite Hb. cbn. split.
    + intros (o' & [= <-] & ?). by exists b.
    + intros (o & [= <-] & ?). by eexists.
  - rewrite (cancel_not_resting id0 b s); [done..|]. by intros [_ ?].
Qed.

Lemma reachable_account_orders s k a :
  reachable s → AllAccounts s !! k = Some a →
  StronglySorted Z.lt (a_orders a)
  ∧ ∀ id, id ∈ a_orders a ↔ ∃ o, AllOrders s !! id = Some o ∧ o_account o = k.
Proof.
  intros Hr. revert k a. induction Hr as [|c s Hr IH Hc]; intros k a Ha; [done|].
  pose proof (reachable_Inv s Hr) as Hinv. destruct c.
  - rewrite main_step_ORDER_snd in *. destruct Hc as (_ & Hqty & Hprice & _).
    destruct (validation s account_int qty price direction) as [e|] eqn:Hv.
    { rewrite (execute_order_rejected _ _ _ _ _ _ _ e) in * by done. by apply IH. }
    rewrite (execute_order_a_orders account account_int qty price direction orderType
               s Hinv Hv Hqty Hprice k a Ha).
    assert (Hprev : StronglySorted Z.lt
                      match AllAccounts s !! k with Some a0 => a_orders a0 | None => [] end
                    ∧ ∀ id, id ∈ match AllAccounts s !! k with
                                 | Some a0 => a_orders a0 | None => [] end
                            ↔ ∃ o, AllOrders s !! id = Some o ∧ o_account o = k).
    { destruct (AllAccounts s !! k) as [a0|] eqn:Ha0; [by apply IH|].
      split; [constructor|]. intros id. split; [by intros ?%elem_of_nil|].
      intros (o & Ho & Hk).
      destruct (inv_orders s (inv_base s Hinv) id o Ho) as (_ & _ & _ & [? Hsome]).
      congruence. }
    destruct Hprev as [Hsorted Hmem]. split.
    + destruct (decide (k = account_int)); [|by rewrite app_nil_r].
      apply StronglySorted_app_2; [|done|repeat constructor].
      intros x1 x2 Hx1 ->%list_elem_of_singleton.
      apply Hmem in Hx1 as (o & Ho & _).
      destruct (inv_orders s (inv_base s Hinv) x1 o Ho) as (_ & _ & ? & _). lia.
    + intros id.
      rewrite (execute_order_order_accounts account account_int qty price direction
                 orderType s id k Hinv Hv Hqty Hprice).
      rewrite elem_of_app, Hmem. destruct (decide (k = account_int)) as [->|Hk].
      * rewrite list_elem_of_singleton. tauto.
      * rewrite elem_of_nil. tauto.
  - cbn [main_step] in *. destruct (known_order id s); by apply IH.
  - cbn [main_step] in *. destruct (AllAccounts s !! id); by apply IH.
  - rewrite main_step_CANCEL_snd in *.
    destruct (known_order id s) eqn:Hk; [|by apply IH].
    pose proof (known_order_stored id s Hk) as Hs.
    rewrite cancel_order_by_id_accounts in Ha by done.
    destruct (IH k a Ha) as [Hsorted Hmem]. split; [done|]. intros id'.
    by rewrite (cancel_order_by_id_order_accounts id s id' k Hinv Hs).
  - by apply IH.
  - by apply IH.
Qed.

(** X13: STATUSALL for a number that has no account answers "Account not
    known" and changes nothing; for a known number it prints the account's
    list of orders, which holds exactly the ids of the stored orders placed
    for this number, each once, oldest first. *)
Theorem statusall_lists_the_orders_of_the_account (s : State) (k : Z) :
  reachable s →
  match AllAccounts s !! k with
  | None => main_step (STATUSALL k) s = (REPLY_ACCOUNT_UNKNOWN, s)
  | Some a =>
      main_step (STATUSALL k) s = (REPLY_ALL_ORDERS (print_order s <$> a_orders a), s)
      ∧ StronglySorted Z.lt (a_orders a)
      ∧ (∀ id, id ∈ a_orders a ↔ ∃ o, AllOrders s !! id = Some o ∧ o_account o = k)
      ∧ p_id <$> (print_order s <$> a_orders a) = a_orders a
  end.
Proof.
  intros Hr. cbn [main_step]. destruct (AllAccounts s !! k) as [a|] eqn:Ha; [|done].
  destruct (reachable_account_orders s k a Hr Ha) as [Hsorted Hmem].
  split_and!; try done.
  - unfold print_all_orders_of_account, deref_account.
    by rewrite lookup_total_alt, Ha.
  - rewrite <- list_fmap_compose.
    rewrite <- (list_fmap_id (a_orders a)) at 2. apply Forall_fmap_ext_1.
    apply Forall_forall. intros id Hid. apply Hmem in Hid as (o & Ho & _).
    cbn [compose print_order p_id].
    rewrite (deref_lookup _ _ _ Ho).
    by destruct (inv_orders s (inv_base s (reachable_Inv s Hr)) id o Ho) as (_ & ? & _).
Qed.

Lemma statusall_lists_the_orders_of_the_account_witness :
  match AllAccounts example_bids !! 0 with
  | None => main_step (STATUSALL 0) example_bids = (REPLY_ACCOUNT_UNKNOWN, example_bids)
  | Some a =>
      main_step (STATUSALL 0) example_bids
      = (REPLY_ALL_ORDERS (print_order example_bids <$> a_orders a), example_bids)
      ∧ StronglySorted Z.lt (a_orders a)
      ∧ (∀ id, id ∈ a_orders a
               ↔ ∃ o, AllOrders example_bids !! id = Some o ∧ o_account o = 0)
      ∧ p_id <$> (print_order example_bids <$> a_orders a) = a_orders a
  end.
Proof.
  apply (statusall_lists_the_orders_of_the_account example_bids 0).
  apply example_bids_reachable.
Defined.
(** ** The event stream of an order *)

Lemma match_queue_stderr queue order : ∀ s b,
  Inv_base s → AllOrders s !! order = Some b → order ∉ queue →
  Forall (λ n, is_Some (AllOrders s !! n)) queue →
  ∃ evs b', stderr (match_queue queue order s) = stderr s ++ evs
            ∧ AllOrders (match_queue queue order s) !! order = Some b'
            ∧ o_fills b' = o_fills b ++ execution_fills evs
            ∧ (length evs = 2 * length (execution_fills evs))%nat
            ∧ ∃ rest, queue = crossed_ids evs ++ rest.
Proof.
  induction queue as [|n queue IH]; intros s b Hinv Hb Hnotin Hsome; cbn [match_queue].
  { exists [], b. rewrite !app_nil_r. split_and!; try done. by exists []. }
  apply not_elem_of_cons in Hnotin as [Hne Hnotin].
  apply Forall_cons in Hsome as [[a Ha] Hsome].
  assert (Hne' : n ≠ order) by congruence.
  pose proof (cross_Inv_base n order a b s Hne' Ha Hb Hinv) as Hinv1.
  pose proof (cross_store_extends n order a b s Hne' Ha Hb) as Hext1.
  pose proof (cross_lookup_incoming n order a b s Hne' Ha Hb) as Hb1.
  pose proof (cross_lookup_standing n order a b s Hne' Ha Hb) as Ha1.
  assert (Hwa : order_wf a) by (by destruct (inv_orders s Hinv _ _ Ha)).
  assert (Hwb : order_wf b) by (by destruct (inv_orders s Hinv _ _ Hb)).
  pose proof (fill_of_bounds a b (clock s) Hwa Hwb) as (Hq1 & Hq2 & _).
  assert (Hid : o_id a = n) by (by destruct (inv_orders s Hinv _ _ Ha) as (_ & ? & _)).
  assert (Hev : ∃ e1 e2, stderr (cross n order s) = stderr s ++ [e1; e2]
                         ∧ (∀ evs, execution_fills ([e1; e2] ++ evs)
                                   = fill_of a b (clock s) :: execution_fills evs)
                         ∧ ∀ evs, crossed_ids ([e1; e2] ++ evs) = n :: crossed_ids evs).
  { rewrite (cross_eq _ _ a b) in Ha1 |- * by done.
    destruct (cross_result_stderr n order a b s) as (n1 & p1 & c1 & c2 & n2 & p2 & ->).
    rewrite (deref_lookup _ _ _ Ha1). cbn [fill_order o_id]. rewrite Hid.
    eexists _, _. split; [done|]. split; [done|]. done. }
  destruct Hev as (e1 & e2 & Herr & Hfills & Hids).
  assert (Hbf : o_fills (fill_order (fill_of a b (clock s)) b)
                = o_fills b ++ [fill_of a b (clock s)]) by done.
  destruct (o_open (deref (cross n order s) order)).
  - assert (Hsome1 : Forall (λ n0, is_Some (AllOrders (cross n order s) !! n0)) queue).
    { eapply Forall_impl; [exact Hsome|]. intros m [o Ho].
      destruct (Hext1 m o Ho) as (o' & Ho' & _). by exists o'. }
    destruct (IH _ _ Hinv1 Hb1 Hnotin Hsome1)
      as (evs & b' & Herr' & Hb' & Hf' & Hlen & rest & Hrest).
    exists ([e1; e2] ++ evs), b'. split_and!.
    + by rewrite Herr', Herr, <- app_assoc.
    + done.
    + by rewrite Hf', Hbf, <- app_assoc, Hfills.
    + rewrite Hfills. cbn [app length]. lia.
    + exists rest. by rewrite Hids, Hrest.
  - specialize (Hfills []). specialize (Hids []). rewrite app_nil_r in Hfills, Hids.
    exists [e1; e2], (fill_order (fill_of a b (clock s)) b). split_and!; try done.
    + by rewrite Hfills.
    + by rewrite Hfills.
    + exists queue. by rewrite Hids.
Qed.

Lemma finish_stderr order b2 s2 :
  AllOrders s2 !! order = Some b2 →
  stderr (finish order s2)
  = stderr s2 ++ (if decide (o_totalFilled b2 ≠ 0 ∨ o_orderType b2 = LIMIT)
                  then [TICKER (Quote (finish order s2))] else []).
Proof.
  intros Hb2. destruct (ticker_condition order b2 s2 Hb2) as [Htf Ht].
  unfold finish, ticker_stage. rewrite Htf, Ht.
  assert (H5 : stderr (resting_stage order
                         (market_price_stage order (cleanup_stage order s2)))
               = stderr s2).
  { unfold resting_stage, market_price_stage, cleanup_stage, insert_ask, insert_bid.
    repeat (destruct (decide _) || destruct (o_open _)); done. }
  destruct (decide (_ ∨ _)).
  - state_simpl. by rewrite H5.
  - by rewrite H5, app_nil_r.
Qed.

(** ** The execution messages, in full *)

Lemma settle_name a b fill accounts k :
  a_name (settle a b fill accounts !!! k) = a_name (accounts !!! k).
Proof.
  assert (Hstep : ∀ (m : gmap Z ACCOUNT) d j,
            a_name (alter (λ a0, update_account a0 (f_qty fill) (f_price fill) d) j m
                    !!! k) = a_name (m !!! k)).
  { intros m d j. rewrite !lookup_total_alt. destruct (decide (j = k)) as [->|Hj].
    - rewrite lookup_alter_eq. by destruct (m !! k).
    - by rewrite lookup_alter_ne. }
  unfold settle. destruct (decide _); [|done].
  destruct (decide _); by rewrite !Hstep.
Qed.

Lemma cross_messages n order a b s :
  n ≠ order → AllOrders s !! n = Some a → AllOrders s !! order = Some b →
  stderr (cross n order s)
  = stderr s ++ execution_messages s b [n] [fill_of a b (clock s)].
Proof.
  intros Hne Ha Hb. rewrite (cross_eq _ _ a b) by done.
  cbn [execution_messages]. rewrite (deref_lookup _ _ _ Ha).
  unfold cross_result, create_execution_messages. cbv zeta.
  unfold fprintf_stderr at 1. cbn [stderr].
  unfold fprintf_stderr at 1. cbn [stderr].
  rewrite <- app_assoc. f_equal.
  set (fill := fill_of a b (clock s)).
  set (sx := set_quote_lastinfo _ _ _).
  assert (HA : deref sx n = fill_order fill a).
  { unfold deref. subst sx. unfold set_quote_lastinfo, new_timestamp. state_simpl.
    rewrite lookup_total_insert_ne by done. apply lookup_total_insert_eq. }
  assert (HB : deref sx order = fill_order fill b).
  { unfold deref. subst sx. unfold set_quote_lastinfo, new_timestamp. state_simpl.
    apply lookup_total_insert_eq. }
  assert (HN : ∀ k, a_name (deref_account sx k) = a_name (deref_account s k)).
  { intros k. unfold deref_account. subst sx.
    unfold set_quote_lastinfo, new_timestamp. state_simpl. apply settle_name. }
  assert (HD : ∀ e p, deref (fprintf_stderr e sx) p = deref sx p) by done.
  assert (HDA : ∀ e k, deref_account (fprintf_stderr e sx) k = deref_account sx k)
    by done.
  unfold print_order. cbv zeta. rewrite !HD, !HDA, !HA, !HB, !HN.
  reflexivity.
Qed.

Lemma execution_messages_ext s s' b crossed fills :
  (∀ m, m ∈ crossed → deref s' m = deref s m) →
  (∀ k, a_name (deref_account s' k) = a_name (deref_account s k)) →
  execution_messages s' b crossed fills = execution_messages s b crossed fills.
Proof.
  revert b fills. induction crossed as [|n crossed IH]; intros b [|f fills] Hd Hn;
    try done.
  cbn [execution_messages]. rewrite !Hn, (Hd n) by (by left).
  rewrite IH; [done| |done]. intros m Hm. apply Hd. by right.
Qed.

Lemma cross_account_names n order a b s k :
  n ≠ order → AllOrders s !! n = Some a → AllOrders s !! order = Some b →
  a_name (deref_account (cross n order s) k) = a_name (deref_account s k).
Proof.
  intros Hne Ha Hb. rewrite (cross_eq _ _ a b) by done.
  unfold deref_account. rewrite cross_result_AllAccounts. apply settle_name.
Qed.

Lemma match_queue_messages queue order : ∀ s b,
  Inv_base s → AllOrders s !! order = Some b → order ∉ queue → NoDup queue →
  Forall (λ n, is_Some (AllOrders s !! n)) queue →
  ∃ crossed rest fills b',
    queue = crossed ++ rest ∧ length fills = length crossed
    ∧ AllOrders (match_queue queue order s) !! order = Some b'
    ∧ o_fills b' = o_fills b ++ fills
    ∧ stderr (match_queue queue order s)
      = stderr s ++ execution_messages s b crossed fills.
Proof.
  induction queue as [|n queue IH]; intros s b Hinv Hb Hnotin Hnd Hsome;
    cbn [match_queue].
  { exists [], [], [], b. by rewrite !app_nil_r. }
  apply not_elem_of_cons in Hnotin as [Hne Hnotin].
  apply NoDup_cons in Hnd as [Hn Hnd].
  apply Forall_cons in Hsome as [[a Ha] Hsome].
  assert (Hne' : n ≠ order) by congruence.
  pose proof (cross_Inv_base n order a b s Hne' Ha Hb Hinv) as Hinv1.
  pose proof (cross_store_extends n order a b s Hne' Ha Hb) as Hext1.
  pose proof (cross_lookup_incoming n order a b s Hne' Ha Hb) as Hb1.
  pose proof (cross_messages n order a b s Hne' Ha Hb) as Hmsg.
  assert (Hbf : o_fills (fill_order (fill_of a b (clock s)) b)
                = o_fills b ++ [fill_of a b (clock s)]) by done.
  destruct (o_open (deref (cross n order s) order)).
  - assert (Hsome1 : Forall (λ n0, is_Some (AllOrders (cross n order s) !! n0)) queue).
    { eapply Forall_impl; [exact Hsome|]. intros m [o Ho].
      destruct (Hext1 m o Ho) as (o' & Ho' & _). by exists o'. }
    destruct (IH _ _ Hinv1 Hb1 Hnotin Hnd Hsome1)
      as (crossed & rest & fills & b' & Hq & Hlen & Hb' & Hf' & Herr').
    exists (n :: crossed), rest, (fill_of a b (clock s) :: fills), b'.
    split_and!.
    + by rewrite Hq.
    + cbn [length]. by rewrite Hlen.
    + done.
    + by rewrite Hf', Hbf, <- app_assoc.
    + rewrite Herr', Hmsg, <- app_assoc. f_equal.
      rewrite (execution_messages_ext s (cross n order s)).
      * cbn [execution_messages app]. by rewrite (deref_lookup _ _ _ Ha).
      * intros m Hm. apply deref_same_lookup.
        apply (cross_lookup_other n order a b s Hne' Ha Hb).
        -- intros ->. apply Hn. rewrite Hq. apply elem_of_app. by left.
        -- intros ->. apply Hnotin. rewrite Hq. apply elem_of_app. by left.
      * intros k. by apply (cross_account_names n order a b).
  - exists [n], queue, [fill_of a b (clock s)], (fill_order (fill_of a b (clock s)) b).
    split_and!; done.
Qed.

Lemma execution_messages_read s b crossed : ∀ fills,
  length fills = length crossed →
  execution_fills (execution_messages s b crossed fills) = fills
  ∧ length (execution_messages s b crossed fills) = (2 * length fills)%nat
  ∧ crossed_ids (execution_messages s b crossed fills)
    = (λ n, o_id (deref s n)) <$> crossed.
Proof.
  revert b. induction crossed as [|n crossed IH]; intros b [|[fp fq ft] fills] Hlen;
    try done.
  injection Hlen as Hlen.
  destruct (IH (fill_order {| f_price := fp; f_qty := fq; f_ts := ft |} b) fills Hlen)
    as (IH1 & IH2 & IH3).
  cbn [execution_messages execution_fills crossed_ids length fmap list_fmap
       f_price f_qty f_ts].
  rewrite IH1, IH2, IH3. split_and!; [done|lia|done].
Qed.

(** X14: an accepted ORDER appends to the event stream two execution
    messages for every fill of the new order, in the order of the fills, and
    then one ticker with the final quote if the order was filled at all or is
    a limit order; nothing else is written. The resting orders crossed are
    the first orders of the crossable queue, one for each fill. The two
    messages of a cross carry the same ids of the resting and the incoming
    order, the price, quantity and time of the fill and the two completion
    flags; the first is addressed to the account of the resting order and
    prints that order, the second to the account of the new order and prints
    the new order, each as the cross left it ([execution_messages]). *)
Theorem events_of_an_accepted_order
    (account_name : string) (account_int qty price direction orderType : Z)
    (s : State) :
  reachable s →
  valid_command (ORDER_CMD account_name account_int qty price direction orderType) →
  validation s account_int qty price direction = None →
  let id := next_id_static s in
  let s1 := create_order account_name account_int qty price direction orderType s in
  let s' := snd (execute_order account_name account_int qty price direction
                   orderType s) in
  ∃ evs o,
    AllOrders s' !! id = Some o
    ∧ stderr s' = stderr s ++ evs
                  ++ (if decide (o_totalFilled o ≠ 0 ∨ orderType = LIMIT)
                      then [TICKER (Quote s')] else [])
    ∧ execution_fills evs = o_fills o
    ∧ (length evs = 2 * length (o_fills o))%nat
    ∧ ∃ rest, crossable_queue s1 id = crossed_ids evs ++ rest
              ∧ length (crossed_ids evs) = length (o_fills o)
              ∧ evs = execution_messages s1 (deref s1 id) (crossed_ids evs) (o_fills o).
Proof.
  intros Hr (_ & Hqty & Hprice & _) Hv. cbv zeta.
  pose proof (reachable_Inv s Hr) as Hinv.
  destruct (accepted_matching_queue_facts account_name account_int qty price
              direction orderType s Hinv Hv Hqty Hprice) as (H1 & H2 & H3 & _).
  pose proof (create_order_Inv account_name account_int qty price direction
                orderType s Hinv Hv Hqty Hprice) as Hinv1.
  pose proof (accepted_lookup account_name account_int qty price direction
                orderType s) as Hb1.
  pose proof (accepted_deref account_name account_int qty price direction
                orderType s) as Hd1.
  destruct (create_order_frame account_name account_int qty price direction
              orderType s) as (_ & _ & _ & Herr1 & _).
  destruct (match_queue_messages _ _ _ _ (inv_base _ Hinv1) Hb1 H1 H2 H3)
    as (crossed & rest & fills & b2 & Hq & Hlen & Hb2 & Hfills & Herr).
  rewrite <- matching_stage_match_queue in Herr, Hb2.
  destruct (accepted_new_record account_name account_int qty price direction
              orderType s Hinv Hv Hqty Hprice (λ _ _, True) ltac:(done)
              ltac:(done) ltac:(done)) as (b2' & Hb2' & _ & Hst & _ & Hnew).
  assert (b2' = b2) as -> by congruence.
  destruct Hst as (_ & _ & _ & Ht & _). cbn in Ht.
  rewrite (accepted_finish _ _ _ _ _ _ _ Hv).
  rewrite <- Hd1 in Herr.
  set (id := next_id_static s) in *.
  set (s1 := create_order account_name account_int qty price direction orderType s)
    in *.
  cbn [o_fills app] in Hfills.
  destruct (execution_messages_read s1 (deref s1 id) crossed fills Hlen)
    as (Hr1 & Hr2 & Hr3).
  assert (Hids : (λ n, o_id (deref s1 n)) <$> crossed = crossed).
  { rewrite <- (list_fmap_id crossed) at 2. apply Forall_fmap_ext_1.
    rewrite Hq in H3. apply Forall_app in H3 as [H3 _].
    eapply Forall_impl; [exact H3|]. intros n [o Ho]. cbn.
    rewrite (deref_lookup _ _ _ Ho).
    by destruct (inv_orders _ (inv_base _ Hinv1) n o Ho) as (_ & ? & _). }
  rewrite Hids in Hr3.
  exists (execution_messages s1 (deref s1 id) crossed fills). eexists.
  split; [exact Hnew|].
  assert (Hfin : o_totalFilled (if decide (orderType = 1) then b2 else finish_record b2)
                 = o_totalFilled b2
                 ∧ o_fills (if decide (orderType = 1) then b2 else finish_record b2)
                   = o_fills b2).
  { destruct (decide _); [done|].
    by destruct (finish_record_static b2) as (_ & _ & -> & -> & _). }
  destruct Hfin as [-> ->]. rewrite Hfills, Hr3. split_and!.
  - rewrite (finish_stderr id b2 _ Hb2), Herr, Herr1, <- app_assoc. by rewrite <- Ht.
  - done.
  - done.
  - destruct (matching_queue_cases id s1) as [Hmq|Hmq].
    + exists rest. rewrite <- Hmq. by split_and!.
    + rewrite Hmq in Hq. symmetry in Hq. apply app_eq_nil in Hq as [-> _].
      destruct fills; [|done]. exists (crossable_queue s1 id). by split_and!.
Qed.

(** The sell of 70 at 4950 on [example_bids]: two fills, four execution
    messages, the ones of the two bids at 5000 in arrival order. *)
Lemma events_of_an_accepted_order_witness :
  ∃ evs o,
    AllOrders (snd (execute_order "C" 2 70 4950 SELL LIMIT example_bids))
      !! next_id_static example_bids = Some o
    ∧ execution_fills evs = o_fills o
    ∧ (length evs = 2 * length (o_fills o))%nat
    ∧ evs = execution_messages (create_order "C" 2 70 4950 SELL LIMIT example_bids)
              (deref (create_order "C" 2 70 4950 SELL LIMIT example_bids)
                     (next_id_static example_bids))
              (crossed_ids evs) (o_fills o).
Proof.
  destruct (events_of_an_accepted_order "C" 2 70 4950 2 1 example_bids)
    as (evs & o & Ho & _ & Hf & Hl & _ & _ & _ & He).
  - apply example_bids_reachable.
  - vm_compute. repeat split; discriminate.
  - vm_compute. reflexivity.
  - exists evs, o. split; [exact Ho|]. split; [exact Hf|]. split; [exact Hl|exact He].
Defined.

(** ** Finding a level *)

(** X15: on the sorted chains of a reachable state [find_level] returns the
    level of the given price when the side has one, and NULL only when the
    side has no level of that price: stopping at the first level beyond the
    price never misses one. Any direction other than BUY selects the ask
    side. *)
Theorem find_level_finds_the_price_level (s : State) (price dir : Z) :
  reachable s →
  match find_level price dir s with
  | Some i => ∃ l, chain_of dir s !! i = Some l ∧ l_price l = price
  | None => ∀ l, l ∈ chain_of dir s → l_price l ≠ price
  end.
Proof.
  intros Hr. pose proof (reachable_Inv s Hr) as [Hbase _ _].
  destruct (inv_bids s Hbase) as (_ & Hsb & _).
  destruct (inv_asks s Hbase) as (_ & Hsa & _).
  unfold find_level, chain_of. destruct (decide (dir = 1)).
  - destruct (find_level_bids price (FirstBidLevel s)) as [i|] eqn:Hf.
    + by apply find_level_bids_Some.
    + intros l Hl Hp.
      destruct (find_level_bids_complete price _ l Hsb Hl Hp) as (i & Hi & _).
      congruence.
  - destruct (find_level_asks price (FirstAskLevel s)) as [i|] eqn:Hf.
    + by apply find_level_asks_Some.
    + intros l Hl Hp.
      destruct (find_level_asks_complete price _ l Hsa Hl Hp) as (i & Hi & _).
      congruence.
Qed.

Lemma find_level_finds_the_price_level_witness :
  match find_level 4900 BUY example_bids with
  | Some i => ∃ l, chain_of BUY example_bids !! i = Some l ∧ l_price l = 4900
  | None => ∀ l, l ∈ chain_of BUY example_bids → l_price l ≠ 4900
  end.
Proof.
  apply (find_level_finds_the_price_level example_bids 4900 1).
  apply example_bids_reachable.
Defined.

(** ** Inserting into a chain *)

Section insertion_levels.
Context (R : Z → Z → Prop) (before : Z → Z → bool).
Hypothesis before_spec : ∀ p q, before p q = true ↔ R p q.
Hypothesis R_trans : ∀ p q r, R p q → R q r → R p r.
Hypothesis R_irrefl : ∀ p, ¬ R p p.
Context (price order : Z).

Lemma insert_level_other chain l :
  l ∈ chain → l_price l ≠ price → l ∈ insert_level before price order chain.
Proof.
  intros Hl Hp. induction chain as [|l0 chain IH]; cbn [insert_level];
    [by apply elem_of_nil in Hl|].
  destruct (before price (l_price l0)); [by right|].
  apply elem_of_cons in Hl as [->|Hl].
  - rewrite decide_False by done. by left.
  - destruct (decide (price = l_price l0)); right; [done|by apply IH].
Qed.

Lemma insert_level_inv chain l' :
  l' ∈ insert_level before price order chain → l' ∈ chain ∨ l_price l' = price.
Proof.
  induction chain as [|l0 chain IH]; cbn [insert_level].
  - intros ->%list_elem_of_singleton. by right.
  - destruct (before price (l_price l0)).
    + intros [->|Hl]%elem_of_cons; [by right|by left].
    + destruct (decide (price = l_price l0)).
      * intros [->|Hl]%elem_of_cons; [by right|]. left. by right.
      * intros [->|Hl]%elem_of_cons; [left; by left|].
        destruct (IH Hl); [left; by right|by right].
Qed.

Lemma insert_level_new chain :
  (∀ l, l ∈ chain → l_price l ≠ price) →
  init_level price order ∈ insert_level before price order chain.
Proof.
  induction chain as [|l0 chain IH]; intros Hno; cbn [insert_level]; [by left|].
  destruct (before price (l_price l0)); [by left|].
  rewrite decide_False.
  - right. apply IH. intros l Hl. apply Hno. by right.
  - intros Hp. by apply (Hno l0); [left|].
Qed.

Lemma insert_level_old chain l :
  StronglySorted (λ l1 l2, R (l_price l1) (l_price l2)) chain →
  l ∈ chain → l_price l = price →
  {| l_price := price; l_nodes := l_nodes l ++ [order] |}
  ∈ insert_level before price order chain.
Proof.
  intros Hs Hl Hp. induction Hs as [|l0 chain Hs IH Hall]; cbn [insert_level];
    [by apply elem_of_nil in Hl|].
  rewrite Forall_forall in Hall.
  destruct (before price (l_price l0)) eqn:Hb.
  { apply before_spec in Hb. exfalso. apply elem_of_cons in Hl as [->|Hl].
    - rewrite Hp in Hb. by apply (R_irrefl price).
    - apply (R_irrefl price). eapply R_trans; [exact Hb|]. rewrite <- Hp. by apply Hall. }
  destruct (decide (price = l_price l0)) as [He|He].
  - apply elem_of_cons in Hl as [->|Hl]; [rewrite <- He; by left|].
    exfalso. apply (R_irrefl price). rewrite He at 1. rewrite <- Hp. by apply Hall.
  - apply elem_of_cons in Hl as [->|Hl]; [congruence|]. right. by apply IH.
Qed.
End insertion_levels.

(** X16: inserting an order at a price into a sorted chain ([insert_ask]
    for the ascending ask chain, [insert_bid] for the descending bid chain)
    keeps the chain sorted, adds exactly one node, for that order, leaves
    every level of another price as it is, and puts the order at the tail of
    the level of its price, a new level if the chain had none. *)
Theorem insert_goes_to_the_tail_of_its_price_level
    (ask : bool) (price order : Z) (chain : list LEVEL) :
  let insert := if ask then insert_ask_from else insert_bid_from in
  let R := if ask then Z.lt else Z.gt in
  StronglySorted (λ l1 l2, R (l_price l1) (l_price l2)) chain →
  StronglySorted (λ l1 l2, R (l_price l1) (l_price l2)) (insert price order chain)
  ∧ nodes_of (insert price order chain) ≡ₚ order :: nodes_of chain
  ∧ (∀ l, l ∈ chain → l_price l ≠ price → l ∈ insert price order chain)
  ∧ (∀ l', l' ∈ insert price order chain → l' ∈ chain ∨ l_price l' = price)
  ∧ (∀ l, l ∈ chain → l_price l = price →
          {| l_price := price; l_nodes := l_nodes l ++ [order] |}
          ∈ insert price order chain)
  ∧ ((∀ l, l ∈ chain → l_price l ≠ price) →
     {| l_price := price; l_nodes := [order] |} ∈ insert price order chain).
Proof.
  cbv zeta. intros Hs. destruct ask.
  - rewrite insert_ask_from_level. split_and!.
    + apply (insert_level_sorted Z.lt); try done; intros; try lia.
      by rewrite bool_decide_eq_true.
    + apply insert_level_nodes.
    + intros l. apply insert_level_other.
    + intros l'. apply insert_level_inv.
    + intros l. apply (insert_level_old Z.lt); try done; intros; try lia.
      by rewrite bool_decide_eq_true.
    + apply insert_level_new.
  - rewrite insert_bid_from_level. split_and!.
    + apply (insert_level_sorted Z.gt); try done; intros; try lia.
      by rewrite bool_decide_eq_true.
    + apply insert_level_nodes.
    + intros l. apply insert_level_other.
    + intros l'. apply insert_level_inv.
    + intros l. apply (insert_level_old Z.gt); try done; intros; try lia.
      by rewrite bool_decide_eq_true.
    + apply insert_level_new.
Qed.

(** A third order at 5000 on the bids of [example_bids] goes behind the two
    that are there. *)
Lemma insert_goes_to_the_tail_of_its_price_level_witness :
  {| l_price := 5000; l_nodes := [0; 1] ++ [7] |}
  ∈ insert_bid_from 5000 7 [{| l_price := 5000; l_nodes := [0; 1] |};
                            {| l_price := 4900; l_nodes := [2] |}].
Proof.
  destruct (insert_goes_to_the_tail_of_its_price_level false 5000 7
              [{| l_price := 5000; l_nodes := [0; 1] |};
               {| l_price := 4900; l_nodes := [2] |}])
    as (_ & _ & _ & _ & H & _).
  - repeat constructor; cbn; lia.
  - apply (H {| l_price := 5000; l_nodes := [0; 1] |}); [by left|done].
Defined.

(** ** The clean-up after a run *)

Lemma first_open_node_head s nodes :
  match first_open_node s nodes with
  | n :: _ => o_open (deref s n) = true
  | [] => True
  end.
Proof.
  induction nodes as [|n nodes IH]; cbn [first_open_node]; [done|].
  by destruct (o_open (deref s n)) eqn:Hn.
Qed.

Lemma cleanup_prices s chain :
  ∃ skipped, l_price <$> chain
             = skipped ++ (l_price <$> cleanup_closed_bids_or_asks s chain).
Proof.
  induction chain as [|l chain [skipped IH]]; cbn [cleanup_closed_bids_or_asks].
  - by exists [].
  - destruct (first_open_node s (l_nodes l)) as [|n nodes].
    + exists (l_price l :: skipped). cbn. by rewrite IH.
    + by exists [].
Qed.

Lemma cleanup_nonempty s chain :
  Forall (λ l, l_nodes l ≠ []) chain →
  Forall (λ l, l_nodes l ≠ []) (cleanup_closed_bids_or_asks s chain).
Proof.
  induction 1 as [|l chain Hl Hall IH]; cbn [cleanup_closed_bids_or_asks]; [done|].
  destruct (first_open_node s (l_nodes l)) as [|n nodes]; [done|].
  by constructor.
Qed.

(** X17: [cleanup_closed_bids_or_asks] cuts a chain at its first open
    order. On a chain without empty levels: if every order is closed the
    result is the empty chain; otherwise the chain is [skipped ++ l :: rest]
    where [skipped] holds closed orders only and the nodes of [l] are
    [dropped ++ n :: tl] with [dropped] all closed and [n] open, and the
    result is the level [l] cut down to [n :: tl], at its price, followed by
    [rest] untouched (closed orders behind [n] stay). No level of the result
    is empty. *)
Theorem cleanup_drops_the_leading_closed_orders (s : State) (chain : list LEVEL) :
  Forall (λ l, l_nodes l ≠ []) chain →
  match cleanup_closed_bids_or_asks s chain with
  | [] => Forall (λ n, o_open (deref s n) = false) (nodes_of chain)
  | l' :: rest' =>
      ∃ skipped l rest dropped n tl,
        chain = skipped ++ l :: rest
        ∧ Forall (λ n, o_open (deref s n) = false) (nodes_of skipped)
        ∧ l_nodes l = dropped ++ n :: tl
        ∧ Forall (λ n, o_open (deref s n) = false) dropped
        ∧ o_open (deref s n) = true
        ∧ l' = {| l_price := l_price l; l_nodes := n :: tl |}
        ∧ rest' = rest
  end
  ∧ Forall (λ l, l_nodes l ≠ []) (cleanup_closed_bids_or_asks s chain).
Proof.
  intros Hne. split; [|by apply cleanup_nonempty]. clear Hne.
  induction chain as [|l chain IH]; cbn [cleanup_closed_bids_or_asks]; [done|].
  destruct (first_open_node_suffix s (l_nodes l)) as (pre & Heq & Hpre).
  pose proof (first_open_node_head s (l_nodes l)) as Hhead.
  destruct (first_open_node s (l_nodes l)) as [|n tl].
  - rewrite app_nil_r in Heq. subst pre.
    destruct (cleanup_closed_bids_or_asks s chain) as [|l' rest'].
    + rewrite nodes_of_cons. by apply Forall_app.
    + destruct IH as (skipped & l0 & rest & dropped & n & tl & -> & Hsk & Hl0 & Hd
                      & Hn & -> & ->).
      exists (l :: skipped), l0, rest, dropped, n, tl.
      split_and!; try done. rewrite nodes_of_cons. by apply Forall_app.
  - exists [], l, chain, pre, n, tl. split_and!; try done.
Qed.

(** After the sell of 70 in [example_traded] order 0 is filled and closed
    and order 1 is open with 30 left: the bid chain as the run left it,
    order 0 still at the head of the level at 5000, is cut down to orders 1
    and 2. *)
Lemma cleanup_drops_the_leading_closed_orders_witness :
  let chain := [{| l_price := 5000; l_nodes := [0; 1] |};
                {| l_price := 4900; l_nodes := [2] |}] in
  match cleanup_closed_bids_or_asks example_traded chain with
  | [] => Forall (λ n, o_open (deref example_traded n) = false) (nodes_of chain)
  | l' :: rest' =>
      ∃ skipped l rest dropped n tl,
        chain = skipped ++ l :: rest
        ∧ Forall (λ n, o_open (deref example_traded n) = false) (nodes_of skipped)
        ∧ l_nodes l = dropped ++ n :: tl
        ∧ Forall (λ n, o_open (deref example_traded n) = false) dropped
        ∧ o_open (deref example_traded n) = true
        ∧ l' = {| l_price := l_price l; l_nodes := n :: tl |}
        ∧ rest' = rest
  end
  ∧ cleanup_closed_bids_or_asks example_traded chain
    = [{| l_price := 5000; l_nodes := [1] |}; {| l_price := 4900; l_nodes := [2] |}].
Proof.
  intros chain. split.
  - apply (cleanup_drops_the_leading_closed_orders example_traded chain).
    by repeat constructor.
  - vm_compute. reflexivity.
Defined.

(** ** The binary order book *)

Lemma putc_uint32_bytes v :
  0 <= v <= INT_MAX →
  ∃ b3 b2 b1 b0, putc_uint32 v = [b3; b2; b1; b0]
    ∧ uint32_of_bytes b3 b2 b1 b0 = v
    ∧ 0 <= b3 < 256 ∧ 0 <= b2 < 256 ∧ 0 <= b1 < 256 ∧ 0 <= b0 < 256.
Proof.
  intros Hv. unfold putc_uint32. cbv zeta.
  rewrite (Z.mod_small v) by lia.
  eexists _, _, _, _. split; [reflexivity|].
  change 0xFF000000 with (Z.shiftl (Z.ones 8) 24).
  change 0x00FF0000 with (Z.shiftl (Z.ones 8) 16).
  change 0x0000FF00 with (Z.shiftl (Z.ones 8) 8).
  change 0x000000FF with (Z.ones 8).
  assert (Hb : ∀ k, 0 <= k →
            Z.shiftr (Z.land v (Z.shiftl (Z.ones 8) k)) k = (v / 2 ^ k) mod 256).
  { intros k Hk. rewrite Z.shiftr_land, Z.shiftr_shiftl_l by lia.
    rewrite Z.sub_diag, Z.shiftl_0_r, Z.land_ones by lia.
    by rewrite Z.shiftr_div_pow2 by lia. }
  rewrite !Hb by lia. rewrite Z.land_ones by lia.
  change (2 ^ 24) with 16777216. change (2 ^ 16) with 65536.
  change (2 ^ 8) with 256. unfold uint32_of_bytes.
  assert (v / 16777216 < 128) by (apply Z.div_lt_upper_bound; lia).
  split; [|repeat split; try (apply Z.mod_pos_bound; lia); apply Z.mod_pos_bound; lia].
  rewrite (Z.mod_small (v / 16777216)) by (split; [apply Z.div_pos; lia|lia]).
  pose proof (Z.div_mod v 256 ltac:(lia)).
  pose proof (Z.div_mod (v / 256) 256 ltac:(lia)).
  pose proof (Z.div_mod (v / 256 / 256) 256 ltac:(lia)).
  rewrite !Z.div_div in * by lia.
  change (256 * 256) with 65536 in *. change (65536 * 256) with 16777216 in *.
  lia.
Qed.

Section binary_side.
Context (s : State).

#[local] Abbreviation message n :=
  (putc_uint32 (o_qty (deref s n)) ++ putc_uint32 (o_price (deref s n))).

Lemma flat_map_levels (chain : list LEVEL) :
  flat_map (λ level, flat_map (λ n, message n) (l_nodes level)) chain
  = flat_map (λ n, message n) (nodes_of chain).
Proof.
  unfold nodes_of. induction chain as [|l chain IH]; [done|].
  cbn [flat_map fmap list_fmap concat]. by rewrite flat_map_app, IH.
Qed.

Lemma read_side_messages nodes rest :
  Forall (λ n, 0 < o_qty (deref s n) <= INT_MAX
               ∧ 0 <= o_price (deref s n) <= INT_MAX) nodes →
  read_side (flat_map (λ n, message n) nodes ++ replicate 8 0 ++ rest)
  = Some ((λ n, (o_qty (deref s n), o_price (deref s n))) <$> nodes, rest).
Proof.
  induction 1 as [|n nodes [Hq Hp] _ IH]; [done|].
  cbn [flat_map fmap list_fmap].
  destruct (putc_uint32_bytes (o_qty (deref s n)) ltac:(lia))
    as (q3 & q2 & q1 & q0 & -> & Hqv & _).
  destruct (putc_uint32_bytes (o_price (deref s n)) ltac:(lia))
    as (p3 & p2 & p1 & p0 & -> & Hpv & _).
  rewrite <- !app_assoc. cbn [app read_side].
  rewrite Hqv, Hpv. rewrite decide_False by lia.
  by rewrite IH.
Qed.

Lemma messages_bytes nodes :
  Forall (λ n, 0 < o_qty (deref s n) <= INT_MAX
               ∧ 0 <= o_price (deref s n) <= INT_MAX) nodes →
  Forall (λ b, 0 <= b < 256) (flat_map (λ n, message n) nodes)
  ∧ length (flat_map (λ n, message n) nodes) = (8 * length nodes)%nat.
Proof.
  induction 1 as [|n nodes [Hq Hp] _ [IH1 IH2]]; [done|].
  cbn [flat_map].
  destruct (putc_uint32_bytes (o_qty (deref s n)) ltac:(lia))
    as (q3 & q2 & q1 & q0 & -> & _ & ? & ? & ? & ?).
  destruct (putc_uint32_bytes (o_price (deref s n)) ltac:(lia))
    as (p3 & p2 & p1 & p0 & -> & _ & ? & ? & ? & ?).
  split.
  - rewrite !Forall_app. split_and!; [by repeat apply Forall_cons_2..|done].
  - rewrite !length_app, IH2. cbn [length]. lia.
Qed.
End binary_side.

Lemma resting_entries_in_range s side R chain :
  map_Forall (order_ok s) (AllOrders s) → chain_wf s side R chain →
  chain_open s chain →
  Forall (λ n, 0 < o_qty (deref s n) <= INT_MAX
               ∧ 0 <= o_price (deref s n) <= INT_MAX) (nodes_of chain).
Proof.
  intros Hok Hwf Hopen. unfold chain_open in Hopen.
  rewrite Forall_forall in Hopen |- *. intros n Hn.
  destruct (chain_wf_lookup _ _ _ _ _ Hwf Hn) as (o & _ & Ho & _).
  pose proof (Hopen n Hn) as Hop. rewrite (deref_lookup _ _ _ Ho) in Hop |- *.
  destruct (Hok n o Ho) as (Hwfo & _).
  pose proof (order_wf_open_qty o Hwfo Hop).
  destruct Hwfo as (_ & ? & ? & ? & _ & Hcase). rewrite Hop in Hcase. lia.
Qed.

(** X18: the binary order book of a reachable state reads back as the
    book: the bids from the best, then the asks from the best, each in time
    order within a price, as pairs of quantity and price. No order written
    has quantity 0, so the two flag messages are the only ones of quantity 0;
    the output is 8 bytes for every resting order and 16 for the flags. *)
Theorem binary_orderbook_reads_back (s : State) :
  reachable s →
  read_orderbook (print_orderbook_binary s)
  = Some (book_entries s (FirstBidLevel s), book_entries s (FirstAskLevel s))
  ∧ Forall (λ b, 0 <= b < 256) (print_orderbook_binary s)
  ∧ length (print_orderbook_binary s)
    = (8 * (length (nodes_of (FirstBidLevel s))
            + length (nodes_of (FirstAskLevel s))) + 16)%nat.
Proof.
  intros Hr. pose proof (reachable_Inv s Hr) as [Hbase Hbo Hao].
  pose proof (resting_entries_in_range s _ _ _ (inv_orders s Hbase)
                (inv_bids s Hbase) Hbo) as Hb.
  pose proof (resting_entries_in_range s _ _ _ (inv_orders s Hbase)
                (inv_asks s Hbase) Hao) as Ha.
  unfold print_orderbook_binary. cbv zeta. rewrite !flat_map_levels.
  destruct (messages_bytes s _ Hb) as [Hb1 Hb2].
  destruct (messages_bytes s _ Ha) as [Ha1 Ha2].
  split_and!.
  - unfold read_orderbook. rewrite <- app_assoc, (read_side_messages s _ _ Hb).
    cbv beta iota. rewrite <- (app_nil_r (replicate 8 0)).
    by rewrite (read_side_messages s _ _ Ha).
  - rewrite !Forall_app. split_and!; try done;
      by repeat (apply Forall_cons_2; [lia|]).
  - rewrite !length_app, Hb2, Ha2. cbn [length replicate]. lia.
Qed.

Lemma binary_orderbook_reads_back_witness :
  read_orderbook (print_orderbook_binary example_traded)
  = Some ([(30, 5000); (10, 4900)], []).
Proof.
  refine (eq_trans (proj1 (binary_orderbook_reads_back example_traded _)) _).
  - apply example_traded_reachable.
  - vm_compute. reflexivity.
Defined.

(** ** Account names *)

Lemma copy_chars_substring n source : copy_chars n source = String.substring 0 n source.
Proof.
  revert source. induction n as [|n IH]; intros [|c rest]; cbn; try done.
  by rewrite IH.
Qed.

Lemma copy_chars_length n source :
  String.length (copy_chars n source) = (n `min` String.length source)%nat.
Proof.
  revert source. induction n as [|n IH]; intros [|c rest]; cbn; try done.
  by rewrite IH.
Qed.

Lemma init_account_name name :
  a_name (init_account name) = String.substring 0 63 name
  ∧ (String.length (a_name (init_account name)) <= 63)%nat.
Proof.
  unfold init_account, safe_strcpy. cbn [a_name]. split.
  - apply copy_chars_substring.
  - rewrite copy_chars_length. lia.
Qed.

Lemma execute_order_a_name account_name account_int qty price direction orderType s :
  Inv s → validation s account_int qty price direction = None →
  is_int32 qty → is_int32 price →
  ∀ k,
    match AllAccounts (snd (execute_order account_name account_int qty price
                              direction orderType s)) !! k with
    | Some a' => a_name a' = match AllAccounts s !! k with
                             | Some a => a_name a
                             | None => a_name (init_account account_name)
                             end
                 ∧ (AllAccounts s !! k = None → k = account_int)
    | None => AllAccounts s !! k = None
    end.
Proof.
  intros Hinv Hv Hqty Hprice k.
  rewrite (accepted_finish _ _ _ _ _ _ _ Hv).
  destruct (finish_counter (next_id_static s)
              (matching_stage (next_id_static s)
                 (create_order account_name account_int qty price direction
                    orderType s))) as (_ & _ & Hacc).
  rewrite Hacc, matching_stage_match_queue. clear Hacc.
  destruct (accepted_matching_queue_facts account_name account_int qty price
              direction orderType s Hinv Hv Hqty Hprice) as (H1 & _ & H3 & _).
  pose proof (create_order_Inv account_name account_int qty price direction
                orderType s Hinv Hv Hqty Hprice) as Hinv1.
  pose proof (accepted_lookup account_name account_int qty price direction
                orderType s) as Hb1.
  destruct (AllAccounts (create_order account_name account_int qty price direction
                           orderType s) !! k) as [x1|] eqn:Hx1.
  - destruct (match_queue_accounts_evolve (λ a1 a2, a_name a2 = a_name a1)
                ltac:(done) ltac:(intros; congruence) ltac:(done)
                _ _ _ _ (inv_base _ Hinv1) Hb1 H1 H3 k x1 Hx1) as (x'' & -> & HR).
    rewrite HR. rewrite create_order_accounts, lookup_alter in Hx1.
    destruct (decide (account_int = k)) as [->|Hk].
    + destruct (AllAccounts s !! k) as [a|] eqn:Ha.
      * rewrite Ha in Hx1. cbn [fmap option_fmap option_map] in Hx1.
        apply (inj Some) in Hx1. by rewrite <- Hx1.
      * rewrite lookup_insert_eq in Hx1. cbn [fmap option_fmap option_map] in Hx1.
        apply (inj Some) in Hx1. by rewrite <- Hx1.
    + destruct (AllAccounts s !! account_int);
        rewrite ?lookup_insert_ne in Hx1 by done; by rewrite Hx1.
  - rewrite (match_queue_accounts_None _ _ _ _ k (inv_base _ Hinv1) Hb1 H1 H3 Hx1).
    rewrite create_order_accounts, lookup_alter in Hx1.
    destruct (decide (account_int = k)) as [->|Hk].
    + destruct (AllAccounts s !! k) as [a|] eqn:Ha.
      * by rewrite Ha in Hx1.
      * by rewrite lookup_insert_eq in Hx1.
    + destruct (AllAccounts s !! account_int);
        rewrite ?lookup_insert_ne in Hx1 by done; done.
Qed.

(** X19: an accepted ORDER leaves its account number with an account. If
    the number had none, the account is created with the first 63 characters
    of the name given (the name buffer has 64 bytes); if it had one, that
    account keeps its name whatever name the ORDER gives. Names are never
    longer than 63 characters, and no other account number gets an account. *)
Theorem account_is_named_by_its_first_order
    (account_name : string) (account_int qty price direction orderType : Z)
    (s : State) :
  reachable s →
  valid_command (ORDER_CMD account_name account_int qty price direction orderType) →
  let r := execute_order account_name account_int qty price direction orderType s in
  oe_error (fst r) = 0 →
  (∃ a', AllAccounts (snd r) !! account_int = Some a'
         ∧ a_name a' = match AllAccounts s !! account_int with
                       | Some a => a_name a
                       | None => String.substring 0 63 account_name
                       end
         ∧ (String.length (a_name a') <= 63)%nat)
  ∧ (∀ k, k ≠ account_int → AllAccounts s !! k = None →
          AllAccounts (snd r) !! k = None).
Proof.
  intros Hr Hc. cbv zeta. intros He.
  pose proof (reachable_Inv s Hr) as Hinv.
  pose proof Hc as (_ & Hqty & Hprice & _).
  destruct (validation s account_int qty price direction) as [e|] eqn:Hv.
  { rewrite (execute_order_rejected _ _ _ _ _ _ _ e) in He by done.
    cbn [fst oe_error] in He. subst e.
    unfold validation in Hv. repeat case_decide; congruence. }
  pose proof (execute_order_a_name account_name account_int qty price direction
                orderType s Hinv Hv Hqty Hprice) as Hname.
  assert (Hlen : map_Forall (λ _ a, (String.length (a_name a) <= 63)%nat)
                   (AllAccounts (snd (execute_order account_name account_int qty
                                        price direction orderType s)))).
  { rewrite <- main_step_ORDER_snd.
    apply (reachable_accounts (λ a, (String.length (a_name a) <= 63)%nat)).
    - intros name. apply init_account_name.
    - by intros a q p d _ _ _.
    - by intros a order.
    - by apply reachable_step. }
  split.
  - assert (Hs : is_Some (AllAccounts (snd (execute_order account_name account_int
                                              qty price direction orderType s))
                          !! account_int)).
    { destruct (proj2 (execute_order_order_accounts account_name account_int qty
                         price direction orderType s (next_id_static s) account_int
                         Hinv Hv Hqty Hprice)) as (o' & Ho' & Hacc); [by right|].
      pose proof (reachable_Inv _ (reachable_step _ s Hr Hc)) as Hinv'.
      rewrite main_step_ORDER_snd in Hinv'.
      destruct (inv_orders _ (inv_base _ Hinv') _ _ Ho') as (_ & _ & _ & Hsome).
      by rewrite Hacc in Hsome. }
    destruct Hs as [a' Ha']. exists a'. split; [done|].
    specialize (Hname account_int). rewrite Ha' in Hname. destruct Hname as [Hn _].
    split; [|by apply (Hlen account_int)].
    rewrite Hn. destruct (AllAccounts s !! account_int); [done|].
    apply init_account_name.
  - intros k Hk Hnone. specialize (Hname k).
    destruct (AllAccounts (snd (execute_order account_name account_int qty price
                                  direction orderType s)) !! k); [|done].
    destruct Hname as [_ Hn]. by specialize (Hn Hnone).
Qed.

(** A first order for account number 7, under a name of 70 characters:
    the account gets the first 63. *)
Lemma account_is_named_by_its_first_order_witness :
  ∃ a', AllAccounts
          (snd (execute_order
                  "0123456789012345678901234567890123456789012345678901234567890123456789"
                  7 5 4000 BUY LIMIT example_bids)) !! 7 = Some a'
        ∧ a_name a'
          = "012345678901234567890123456789012345678901234567890123456789012".
Proof.
  destruct (account_is_named_by_its_first_order
              "0123456789012345678901234567890123456789012345678901234567890123456789"
              7 5 4000 1 1 example_bids) as [(a' & Ha' & Hn & _) _].
  - apply example_bids_reachable.
  - vm_compute. repeat split; discriminate.
  - vm_compute. reflexivity.
  - exists a'. split; [exact Ha'|]. rewrite Hn. clear. vm_compute. reflexivity.
Defined.

(** ** The last trade of the quote *)



Section last_trade.

#[local] Abbreviation last_trade s :=
  (match q_lastTrade (Quote s) with
   | None => q_last (Quote s) = -1 ∧ q_lastSize (Quote s) = -1
             ∧ ∀ k o, AllOrders s !! k = Some o → o_fills o = []
   | Some t => ∃ k1 k2 o1 o2 f,
       k1 ≠ k2 ∧ AllOrders s !! k1 = Some o1 ∧ AllOrders s !! k2 = Some o2
       ∧ last (o_fills o1) = Some f ∧ last (o_fills o2) = Some f
       ∧ f_price f = q_last (Quote s) ∧ f_qty f = q_lastSize (Quote s)
       ∧ t = S (f_ts f) ∧ Nat.lt t (clock s)
       ∧ ∀ k o f', AllOrders s !! k = Some o → f' ∈ o_fills o →
           Nat.le (f_ts f') (f_ts f)
           ∧ (f_ts f' = f_ts f → f' = f ∧ (k = k1 ∨ k = k2))
   end).










End last_trade.




(** ** How much of an order is filled *)

Lemma total_qty_ext s s' queue :
  (∀ m, m ∈ queue → AllOrders s' !! m = AllOrders s !! m) →
  total_qty s' queue = total_qty s queue.
Proof.
  induction queue as [|n queue IH]; intros H; [done|].
  rewrite !total_qty_cons, IH.
  - rewrite (deref_same_lookup s s' n); [done|]. apply H. by left.
  - intros m Hm. apply H. by right.
Qed.

Lemma match_queue_filled queue order : ∀ s b,
  Inv_base s → AllOrders s !! order = Some b → o_open b = true →
  order ∉ queue → NoDup queue →
  Forall (λ n, ∃ a, AllOrders s !! n = Some a ∧ o_open a = true) queue →
  ∃ b', AllOrders (match_queue queue order s) !! order = Some b'
        ∧ o_totalFilled b' = o_totalFilled b + o_qty b `min` total_qty s queue
        ∧ o_qty b' = o_qty b - o_qty b `min` total_qty s queue
        ∧ (o_open b' = true ↔ total_qty s queue < o_qty b).
Proof.
  induction queue as [|n queue IH]; intros s b Hinv Hb Hopen Hnotin Hnd Hq;
    cbn [match_queue].
  { assert (Hwb : order_wf b) by (by destruct (inv_orders s Hinv _ _ Hb)).
    pose proof (order_wf_open_qty b Hwb Hopen). exists b. cbn.
    split_and!; [done|lia|lia|]. split; [lia|done]. }
  apply not_elem_of_cons in Hnotin as [Hne Hnotin].
  apply NoDup_cons in Hnd as [Hn Hnd].
  apply Forall_cons in Hq as [(a & Ha & Hoa) Hq].
  assert (Hne' : n ≠ order) by congruence.
  pose proof (cross_Inv_base n order a b s Hne' Ha Hb Hinv) as Hinv1.
  pose proof (cross_lookup_incoming n order a b s Hne' Ha Hb) as Hb1.
  assert (Hwa : order_wf a) by (by destruct (inv_orders s Hinv _ _ Ha)).
  assert (Hwb : order_wf b) by (by destruct (inv_orders s Hinv _ _ Hb)).
  pose proof (order_wf_open_qty a Hwa Hoa) as Hqa.
  pose proof (order_wf_open_qty b Hwb Hopen) as Hqb.
  pose proof (fill_of_qty a b (clock s)) as Hfq.
  assert (Hother : ∀ m, m ∈ queue →
            AllOrders (cross n order s) !! m = AllOrders s !! m).
  { intros m Hm. apply (cross_lookup_other n order a b s Hne' Ha Hb); congruence. }
  assert (Hrest : 0 <= total_qty s queue).
  { apply total_qty_bounds. eapply Forall_impl; [exact Hq|].
    intros m (o & Ho & _). rewrite (deref_lookup _ _ _ Ho).
    destruct (inv_orders s Hinv _ _ Ho) as ((? & ? & ? & _ & _ & Hcase) & _).
    destruct (o_open o); lia. }
  assert (Hb1' : fill_order (fill_of a b (clock s)) b
                 = {| o_direction := o_direction b; o_originalQty := o_originalQty b;
                      o_qty := o_qty b - f_qty (fill_of a b (clock s));
                      o_price := o_price b; o_orderType := o_orderType b;
                      o_id := o_id b; o_account := o_account b; o_ts := o_ts b;
                      o_fills := o_fills b ++ [fill_of a b (clock s)];
                      o_totalFilled := o_totalFilled b + f_qty (fill_of a b (clock s));
                      o_open := if decide (o_qty b - f_qty (fill_of a b (clock s)) = 0)
                                then false else o_open b |}).
  { destruct Hwb as (? & ? & ? & _ & _ & Hcase). rewrite Hopen in Hcase.
    unfold fill_order. rewrite !wrap32_id by (unfold is_int32; lia). done. }
  rewrite total_qty_cons, (deref_lookup _ _ _ Ha).
  rewrite (deref_lookup _ _ _ Hb1).
  destruct (o_open (fill_order _ b)) eqn:Hob.
  - assert (Hlt : o_qty a < o_qty b).
    { rewrite Hb1' in Hob. cbn [o_open] in Hob.
      destruct (decide _) as [|Hnz]; [done|]. lia. }
    destruct (IH _ _ Hinv1 Hb1 Hob Hnotin Hnd) as (b' & Hb' & Htf & Hqty & Hop).
    { rewrite Forall_forall in Hq |- *. intros m Hm.
      destruct (Hq m Hm) as (o & Ho & Hoo). exists o. by rewrite Hother. }
    exists b'. split; [done|].
    rewrite (total_qty_ext s _ queue Hother) in Htf, Hqty, Hop.
    rewrite Hb1' in Htf, Hqty, Hop. cbn [o_totalFilled o_qty] in Htf, Hqty, Hop.
    rewrite Htf, Hqty. split_and!; [lia|lia|]. rewrite Hop. lia.
  - assert (Hge : o_qty b <= o_qty a).
    { rewrite Hb1' in Hob. cbn [o_open] in Hob.
      destruct (decide _) as [Hz|Hnz]; [lia|congruence]. }
    exists (fill_order (fill_of a b (clock s)) b). split; [done|].
    rewrite Hob. rewrite Hb1'. cbn [o_totalFilled o_qty].
    split_and!; [lia|lia|]. split; [done|lia].
Qed.

(** X21: an accepted order is filled as far as the book allows. With
    [avail] the total quantity resting on the opposite side at prices within
    the limit (the whole side for a market order), a fill-or-kill order is
    filled whole if [avail] covers it and not at all otherwise; an order of
    any other type is filled min (qty, avail). A limit order keeps the rest
    and stays open exactly when the book could not fill it whole; any other
    type ends closed with qty 0. *)
Theorem order_is_filled_as_far_as_the_book_allows
    (account_name : string) (account_int qty price direction orderType : Z)
    (s : State) :
  reachable s →
  valid_command (ORDER_CMD account_name account_int qty price direction orderType) →
  validation s account_int qty price direction = None →
  let order := next_id_static s in
  let s1 := create_order account_name account_int qty price direction orderType s in
  let avail := total_qty s1 (crossable_queue s1 order) in
  let s' := snd (execute_order account_name account_int qty price direction
                   orderType s) in
  ∃ o, AllOrders s' !! order = Some o
       ∧ o_totalFilled o
         = (if decide (orderType = FOK)
            then if decide (qty <= avail) then qty else 0
            else qty `min` avail)
       ∧ (orderType = LIMIT →
          o_qty o = qty - o_totalFilled o ∧ (o_open o = true ↔ avail < qty))
       ∧ (orderType ≠ LIMIT → o_qty o = 0 ∧ o_open o = false).
Proof.
  intros Hr Hc Hv. cbv zeta.
  pose proof (reachable_Inv s Hr) as Hinv.
  pose proof Hc as (_ & Hqty & Hprice & _).
  pose proof (validation_None _ _ _ _ _ Hv) as (_ & _ & _ & Hq1 & _).
  rewrite (accepted_finish _ _ _ _ _ _ _ Hv).
  destruct (accepted_matching_queue_facts account_name account_int qty price
              direction orderType s Hinv Hv Hqty Hprice) as (H1 & H2 & _ & H4 & _).
  destruct (accepted_queue_facts account_name account_int qty price
              direction orderType s Hinv Hv Hqty Hprice) as (_ & _ & _ & Hrange & _).
  pose proof (create_order_Inv account_name account_int qty price direction
                orderType s Hinv Hv Hqty Hprice) as Hinv1.
  pose proof (accepted_lookup account_name account_int qty price direction
                orderType s) as Hb1.
  pose proof (accepted_deref account_name account_int qty price direction
                orderType s) as Hd1.
  pose proof (fok_feasible_queue account_name account_int qty price direction s Hv)
    as Hfq.
  destruct (accepted_new_record account_name account_int qty price direction
              orderType s Hinv Hv Hqty Hprice (λ _ _, True) (λ _, I)
              (λ _ _ _ _ _, I) ltac:(done)) as (b2 & Hb2 & _ & _ & Hwf2 & Hnew).
  rewrite matching_stage_match_queue in Hb2.
  destruct (match_queue_filled _ _ _ _ (inv_base _ Hinv1) Hb1 eq_refl H1 H2)
    as (b' & Hb' & Htf & Hqt & Hop).
  { eapply Forall_impl; [exact H4|]. intros m (a & ? & ? & _). by exists a. }
  assert (b' = b2) as -> by congruence. clear Hb'.
  cbn [o_totalFilled o_qty] in Htf, Hqt, Hop.
  set (s1 := create_order account_name account_int qty price direction orderType s)
    in *.
  set (avail := total_qty s1 (crossable_queue s1 (next_id_static s))) in *.
  pose proof (total_qty_bounds s1 _ Hrange) as [Havail _]. fold avail in Havail.
  assert (Hmq : total_qty s1 (matching_queue (next_id_static s) s1)
                = if decide (orderType = 3)
                  then if decide (qty <= avail) then avail else 0
                  else avail).
  { unfold matching_queue. rewrite Hd1.
    cbn [o_orderType o_direction o_qty o_price].
    destruct (decide (orderType = 3)) as [->|Ht].
    - rewrite decide_False by (intros H; by apply H). fold s1 in Hfq.
      assert (Hfeas : (if decide (direction = 1) then fok_can_buy qty price s1
                       else fok_can_sell qty price s1) = true ↔ qty <= avail).
      { rewrite Hfq. apply fok_queue_total; [done|]. unfold is_int32 in Hqty. lia. }
      destruct (decide (direction = 1)).
      + destruct (fok_can_buy qty price s1).
        * rewrite decide_True by (by apply Hfeas). done.
        * rewrite decide_False; [done|]. intros H. by apply Hfeas in H.
      + destruct (fok_can_sell qty price s1).
        * rewrite decide_True by (by apply Hfeas). done.
        * rewrite decide_False; [done|]. intros H. by apply Hfeas in H.
    - by rewrite decide_True. }
  rewrite Hmq in Htf, Hqt, Hop. rewrite Hnew.
  destruct (decide (orderType = 1)) as [->|Ht].
  - exists b2. rewrite decide_False in * by done.
    split; [done|]. split; [lia|]. split; [|done]. intros _. split; [lia|done].
  - exists (finish_record b2). split; [done|].
    destruct (finish_record_static b2) as (_ & _ & -> & _).
    split.
    + rewrite Htf. destruct (decide (orderType = 3)); [|lia].
      destruct (decide (qty <= avail)); lia.
    + split; [done|]. intros _. split; [|apply finish_record_closed].
      by apply finish_record_qty.
Qed.

(** The sell of 70 at 4950 against the bids of [example_bids] (50 and 50 at
    5000, within the limit) is filled whole. *)
Lemma order_is_filled_as_far_as_the_book_allows_witness :
  ∃ o, AllOrders (snd (execute_order "C" 2 70 4950 2 1 example_bids))
         !! next_id_static example_bids = Some o
       ∧ o_totalFilled o = 70.
Proof.
  destruct (order_is_filled_as_far_as_the_book_allows "C" 2 70 4950 2 1 example_bids)
    as (o & Ho & Htf & _).
  - apply example_bids_reachable.
  - vm_compute. repeat split; discriminate.
  - vm_compute. reflexivity.
  - exists o. split; [exact Ho|]. rewrite Htf. clear. vm_compute. reflexivity.
Defined.
